(* ===== verification/_CoqProject ===== *)
-Q . S2P
Prelude.v
Mem.v
Raster.v
Format.v
Color.v
Smpte.v
SmpteBars.v
SmpteYuv.v
Layout.v
Tiles.v
TilesYuv.v
Pattern.v
Picture.v
Buffers.v
Cursor.v
Kms.v
Libc.v
Print.v
HexDump.v
Posix.v
GpioCdev.v
GpioSysfs.v
GpioUio.v
Rtc.v
Digests.v
Crypto.v
TimerHw.v
Spi.v
I2c.v
GpioTest.v
I2cSlave.v
Dmac.v
TestUsb.v
Resources.v
Strto.v
Pipes.v
Flip.v
Device.v
Atomic.v
ModetestArgs.v
GetResources.v
Modeset.v
Modetest.v
KmsLib.v
KmsTools.v
VblTest.v
Script.v
Sysfs.v
Voltage.v
Serial.v
Sensors.v
Devices.v
DmacMulti.v
Rcc.v
Uvc.v
Props.v
Proptest.v
Modeprint.v
ModetestDump.v
KmsTest.v
Modules.v
