(* ===== verification/Prelude.v ===== *)
(** A verification library for the hardware test programs of the Ameba Linux SDK.

    The repository is a set of independent test programs and kernel modules, one directory
    each.  This library models those with logic of their own, and states what makes them
    right.  Everything is a shallow embedding: a C function is a function on explicit state
    that gives a value or a fault (an access outside its object, a division by zero, an
    [abort] or [exit]); machine integers are [Z] with their wrap-around written out.

    * The parts

    The drawing library (src/drm/util, src/drm/modetest/buffers.c and cursor.c):
    - Mem.v: the byte memory of a mapped buffer, with bounds; Raster.v: the invariant of
      painting lines of pixels.
    - Format.v: format.c, the table of pixel formats and its lookups.  The codes of
      drm_fourcc.h are the class [FourccCodes].
    - Color.v: the colour arithmetic of pattern.c: BT.601, packing, half floats.
    - Smpte.v, Tiles.v: the fill functions of pattern.c, one definition each, and that they
      return and stay in their buffer.  SmpteBars.v, SmpteYuv.v, TilesYuv.v: what they paint.
    - Pattern.v: the dispatch by format and pattern ([util_fill_pattern]).
    - Layout.v, Picture.v: the layouts that buffers.c gives the planes, and the specification
      of the pictures: one function from a pixel or sample to its colour for every format,
      which the fill functions are proved to refine.
    - Buffers.v: buffers.c, from [bo_create_dumb] to [bo_destroy].  The kernel's dumb-buffer
      ioctls are the class [DumbDriver] with its laws [DumbLaws].
    - Cursor.v: cursor.c; the cursor thread and the main thread as a step relation.
    - Kms.v: kms.c, the name tables and the search for a device.

    The mode-setting tool (src/drm/modetest/modetest.c), from [main] down:
    - Strto.v, ModetestArgs.v: [strtol], [strtoul], [strtod] as far as the tool relies on them,
      and the parsers of the arguments of -s, -P, -w and -F.
    - Resources.v, GetResources.v: the tables of CRTCs, encoders, connectors and planes, how
      [get_resources] builds them from what libdrm gives and [free_resources] gives them up, and
      the searches in them; refresh rates are computed in IEEE floats, as the code does.
    - Pipes.v: from the connectors asked for to a CRTC and a mode; the choice of planes.
    - Device.v: the kernel's mode-setting interface, [DrmKernel], and properties.
    - Atomic.v: the planes of the atomic mode over a page-flip test, with their buffers and
      framebuffers; the kernel is [FbKernel].  Flip.v: the page-flip test of the pipes, driven
      by the kernel's events.
    - Modeset.v: [set_mode], [set_planes], [set_cursors] and their counterparts.
      Modetest.v: the options and [main].
    - ModetestDump.v: the listings, with the text they print; [main] records them by name.

    The other DRM tools:
    - KmsLib.v: the library src/drm/kms/libkms-test-*.c of screens, planes and framebuffers over
      the driver [KmsDriver]; KmsTools.v: kms-universal-planes.c and kms-steal-crtc.c on it.
    - VblTest.v: src/drm/vbltest/vbltest.c.
    - Print.v: numbers as [printf] writes them.  Props.v: programs that print and hold objects of
      libdrm, and the dump of a property, which two tools contain.  Proptest.v, Modeprint.v:
      src/drm/proptest/proptest.c and src/drm/modeprint/modeprint.c over the classes
      [PropKernel], [ListKernel] and [PrintKernel] for libdrm.
    - KmsTest.v: src/drm/kmstest/main.c over libkms, the class [Libkms].

    The bus tools (src/spi/spi.c, src/i2c/i2c.c):
    - Libc.v: programs with state that can stop, a weakest-precondition calculus for them,
      and the C library functions that the tools use.
    - HexDump.v: [hex_dump] and [unescape], which both tools contain.
    - Spi.v, I2c.v: the tools from [main] down.  The system calls are the parameters [SpiOS]
      and [I2cOS], whose answers may depend on everything the program has done; [getopt] is
      represented by the list of options that it gives.

    The user-space tests on file descriptors:
    - Posix.v: the open descriptors and what was done with them; the system is [PosixOS].
    - GpioCdev.v, GpioSysfs.v, GpioUio.v: src/gpio/user.  Rtc.v: src/rtc/rtc.c.
    - TestUsb.v: src/usbh_vendor/testusb.c, the search for devices, the tests of one, and the
      threads that test all of them as a step relation.
    - Script.v: sessions on named files, the rules by which a program is followed through one.
      On it: Sysfs.v (src/pwm, src/pm_wakelock, src/pm_wakeup_count), Voltage.v
      (src/pm_voltage), Serial.v (src/uart, src/usbh_cdc_acm), Sensors.v (src/adc, src/thermal),
      Devices.v (src/watchdog, src/system_timer, src/audio_pll, src/ir, src/sdioh, src/misc,
      src/captouch; a Module for each) and Uvc.v (src/usbh_uvc, its memory mappings
      being the class [Video]).

    The kernel test modules:
    - GpioTest.v: src/gpio/kernel/realtek-gpio-test.c; the kernel is [GpioKernel], with
      [GpioLaws] for what it promises.
    - I2cSlave.v: src/i2c-slave/i2c-slave.c; the callback as a state machine.
    - Dmac.v: src/dmac/dmac.c; the test thread and the DMA engine as a step relation.
    - DmacMulti.v: src/dmac/dmac_multi.c in the same way, with the pause of the engine.
    - Rcc.v: src/clk/rtk_rcc_test.c over the clock framework, the class [ClkKernel].
    - Digests.v: MD5, SHA-256, SHA-512 and HMAC as their standards define them, and Crypto.v:
      src/crypto/realtek-crypto-test.c, its tests over the kernel's crypto interface and its two
      threads.
    - TimerHw.v: src/timer_hw/realtek-timer-test.c.
    - Modules.v: loading and unloading of the modules that are drivers, and the probe of dmac.c.

    * What is shown

    - Functional: a created buffer holds the picture of its pattern, for every format of the
      table and all sizes in range; the indexed picture shows the colours of the direct one;
      a pipe gets the best CRTC there is; without -a the modes of -s are set side by side on one
      framebuffer large enough for all; the alarm of the clock test is ten seconds later, across
      midnight too; a sysfs session exports a pin that has no directory, sets, opens and (not
      for interrupts) unexports in order; vertical blanks are reported sixty at a time without a
      gap; the UART test sends back the text it receives, in order, up to a NUL; the I2C slave
      gives the number of the byte; the ADC test reports (raw + offset) * scale; the blob of the
      formats of a plane is decoded to one line for each format; the listings get the objects
      and properties in order.
    - Equivalence and refinement: the digest tests pass exactly when the driver computes what
      the standards define; the threads of the USB test refine the test of one device alone;
      the loop over the options of modeprint gives what the options mean one by one.
    - Safety on every answer of the outside world: the GPIO and crypto tests give back what
      they took; modetest destroys each of its buffers unless -a and -r are given, the plane
      tool frees all of its own, and the character-device GPIO tool closes what it opened and
      goes wrong only in the cases named; a full-duplex SPI run that returns has had a transfer
      echoed; an I2C run that returns has sent the one message its options ask for; success of the DMA test means that its rounds
      passed; all USB devices are tested to the end; the sessions on sysfs files keep their
      order (no suspend before both wake locks are released); the listings give back what they
      got from libdrm; the clock driver releases what it took exactly when its test has passed.
    - Invariants under all interleavings: the cursors stay on the screen, also those that
      modetest starts; the DMA tests use no pointer that is not there; while the channel is
      paused the destination keeps what the test has put there.
    - Round trips: [unescape] inverts escaping (and how it ends on every string), [hex_dump] prints all the bytes, the argument
      parsers of modetest read back what the documented forms say, the dump of a blob reads
      back as its bytes.
    - Termination: the fill functions return, the cursor schedule repeats after exactly 663
      rounds, the USB and crypto threads end under every order of
      their steps once they are all counted, the thread of the multi-block test after 88 of its
      own steps, the timer test after as many expirations as were asked for.
    - Errors: where the code goes wrong (narrow pictures divide by zero, odd heights overrun
      the buffer, escapes cut short run past the string, a plane whose second buffer is refused
      has its first destroyed twice, 511 characters at once overrun the UART buffer, a module parameter indexes a table
      unchecked, a failed last DMA round is reported as success, a count of threads is lost,
      every buffer of the camera is a mapping of the first, the ADC test writes up to eleven bytes
      behind its array of a name, and others), a theorem shows that it does.

    * Bounds and fuel

    [for_lt hi step body x] runs a C loop [for (; x < hi; x += step)] with [hi - x] rounds of
    fuel; [for_lt_returns] shows that this is enough when the counter cannot wrap, so no
    theorem assumes that fuel lasts.  Picture sizes are bounded where the code computes
    offsets in 32 bits.  The loops that only the outside world ends (event loops, waits for
    the standard input) take a number of rounds and end in the fault [NoFuel] when it is used
    up; theorems about them hold for every number of rounds.  All other recursions are
    structural, on the fixed round numbers of the code or on lists.

    * What is not modelled

    Messages, except where they are the result (hex dumps, listings, the verdict of a probe);
    what happens after an access outside of an array, where a model stops with [OutOfBounds],
    but for the name of the ADC test, whose excess bytes are counted while the run goes on as
    its readme shows;
    delays, except as events of a session; failures of small allocations in the user-space
    programs; makefiles and shell scripts.  src/hello and src/hello_module print one line.  The
    benchmarks under src/benchmark (lmbench3, STREAM, tinymembench, stressapptest, cpuburn) are
    third-party programs.

    * Plan

    Every program of the repository is modelled from its entry down.  Left to do: the text of the
    listings inside the runs of modetest, whose [main] records them by name, and the
    interleaving of the page-flip events with the cursor thread, which are separate models. *)
From Stdlib Require Import ZArith Lia.
From stdpp Require Import base list numbers.

#[global] Open Scope Z_scope.

(** * Machine integers *)

(** [w]-bit unsigned wrap-around, and its two's complement reading. *)
Definition wrap (w z : Z) : Z := z mod 2 ^ w.
Definition u8 (z : Z) : Z := wrap 8 z.
Definition u16 (z : Z) : Z := wrap 16 z.
Definition u32 (z : Z) : Z := wrap 32 z.
Definition u64 (z : Z) : Z := wrap 64 z.
Definition swrap (w z : Z) : Z := wrap w (z + 2 ^ (w - 1)) - 2 ^ (w - 1).
Definition s32 (z : Z) : Z := swrap 32 z.
Definition s64 (z : Z) : Z := swrap 64 z.

(** Unfolds the widths to numerals and hands [lia] their division equations. *)
Ltac solve_word :=
  unfold u8, u16, u32, u64, s32, s64, swrap, wrap in *;
  change (2 ^ 8) with 256 in *; change (2 ^ 16) with 65536 in *;
  change (2 ^ 32) with 4294967296 in *; change (2 ^ (32 - 1)) with 2147483648 in *;
  change (2 ^ 64) with 18446744073709551616 in *;
  change (2 ^ (64 - 1)) with 9223372036854775808 in *;
  change (2 ^ 31) with 2147483648 in *;
  Z.to_euclidean_division_equations; nia.

Create HintDb cint.

Lemma u8_id z : 0 <= z < 256 -> u8 z = z.
Proof. apply Z.mod_small. Qed.
Lemma u16_id z : 0 <= z < 65536 -> u16 z = z.
Proof. apply Z.mod_small. Qed.
Lemma u32_id z : 0 <= z < 4294967296 -> u32 z = z.
Proof. apply Z.mod_small. Qed.
Lemma u64_id z : 0 <= z < 18446744073709551616 -> u64 z = z.
Proof. apply Z.mod_small. Qed.
Lemma u8_range z : 0 <= u8 z < 256.
Proof. apply Z.mod_pos_bound; reflexivity. Qed.
Lemma u16_range z : 0 <= u16 z < 65536.
Proof. apply Z.mod_pos_bound; reflexivity. Qed.
Lemma u32_range z : 0 <= u32 z < 4294967296.
Proof. apply Z.mod_pos_bound; reflexivity. Qed.
Lemma u64_range z : 0 <= u64 z < 18446744073709551616.
Proof. apply Z.mod_pos_bound; reflexivity. Qed.
Lemma s32_id z : - 2147483648 <= z < 2147483648 -> s32 z = z.
Proof. intros. unfold s32, swrap, wrap. rewrite Z.mod_small; lia. Qed.
Lemma s32_range z : - 2147483648 <= s32 z < 2147483648.
Proof.
  unfold s32, swrap, wrap. pose proof (Z.mod_pos_bound (z + 2 ^ (32 - 1)) (2 ^ 32)). lia.
Qed.
Lemma wrap_wrap w z : 0 <= w -> wrap w (wrap w z) = wrap w z.
Proof. intros. apply Z.mod_mod, Z.pow_nonzero; lia. Qed.
#[export] Hint Resolve u8_range u16_range u32_range u64_range s32_range : cint.

(** * Results of C code *)

(** What stops a C function before it returns: an access outside its object, a
    division by zero, an [abort]/[exit] of the program, or (never reached, see
    [for_lt_returns]) a loop that ran out of fuel. *)
Inductive fault := OutOfBounds | DivByZero | Aborted | Exited (code : Z) | NoFuel.

Inductive outcome (A : Type) :=
| Ok (a : A)
| Fault (f : fault).
Arguments Ok {A} a.
Arguments Fault {A} f.

#[global] Instance fault_eq_dec : EqDecision fault.
Proof. solve_decision. Defined.

#[global] Instance outcome_ret : MRet outcome := @Ok.
#[global] Instance outcome_bind : MBind outcome := fun A B k c =>
  match c with Ok a => k a | Fault f => Fault f end.

(** [returns c Q]: [c] does return, and its result satisfies [Q]. *)
Definition returns {A} (c : outcome A) (Q : A -> Prop) : Prop :=
  match c with Ok a => Q a | Fault _ => False end.

Lemma returns_ok {A} (c : outcome A) Q : returns c Q <-> exists a, c = Ok a /\ Q a.
Proof. destruct c; simpl; [|by split; [|intros (?&?&?)]]. split; [eauto|]. by intros (? & [= ->] & ?). Qed.

Lemma returns_bind {A B} (c : outcome A) (k : A -> outcome B) Q :
  returns c (fun a => returns (k a) Q) -> returns (c ≫= k) Q.
Proof. by destruct c. Qed.

Lemma returns_mono {A} (c : outcome A) (P Q : A -> Prop) :
  returns c P -> (forall a, P a -> Q a) -> returns c Q.
Proof. destruct c; simpl; auto. Qed.

(** Steps over the first command of a sequence with a known specification. *)
Ltac rstep H := apply returns_bind; eapply returns_mono; [eapply H|].

(** Unsigned division: dividing by zero is a fault. *)
Definition divu (a b : Z) : outcome Z := if b =? 0 then Fault DivByZero else Ok (a / b).

Lemma divu_ok a b : b <> 0 -> divu a b = Ok (a / b).
Proof. intros. unfold divu. by rewrite (proj2 (Z.eqb_neq b 0)). Qed.

(** Reading element [i] of a constant array. *)
Definition array_get {A} (l : list A) (i : Z) : outcome A :=
  if i <? 0 then Fault OutOfBounds
  else match l !! Z.to_nat i with Some a => Ok a | None => Fault OutOfBounds end.

Lemma array_get_ok {A} (l : list A) i :
  0 <= i < Z.of_nat (length l) ->
  exists a, array_get l i = Ok a /\ l !! Z.to_nat i = Some a.
Proof.
  intros Hi. unfold array_get. rewrite (proj2 (Z.ltb_ge i 0)) by lia.
  destruct (lookup_lt_is_Some_2 l (Z.to_nat i)) as [a Ha]; [lia|].
  rewrite Ha. eauto.
Qed.

(** * Counted loops *)

(** [for (; x < hi; x += step) body], [x] an [unsigned int]: the loop tests before
    each round and gives the final [x] to the code that follows. *)
Fixpoint loop_lt {St} (fuel : nat) (hi step : Z) (body : Z -> St -> outcome St)
    (x : Z) (s : St) : outcome (Z * St) :=
  if x <? hi then
    match fuel with
    | O => Fault NoFuel
    | S k => s' ← body x s; loop_lt k hi step body (u32 (x + step)) s'
    end
  else Ok (x, s).

Definition for_lt {St} (hi step : Z) (body : Z -> St -> outcome St) (x : Z) (s : St) :=
  loop_lt (Z.to_nat (hi - x)) hi step body x s.

(** The loop rule: when the counter cannot wrap, an invariant that every round
    keeps holds at the end, and the fuel of [for_lt] is enough. *)
Lemma for_lt_returns {St} (P : Z -> St -> Prop) hi step body x0 s0 :
  0 <= x0 -> 1 <= step -> hi + step <= 4294967296 ->
  P x0 s0 ->
  (forall x s, x0 <= x < hi -> P x s -> returns (body x s) (P (x + step))) ->
  returns (for_lt hi step body x0 s0) (fun '(x, s) => hi <= x /\ x0 <= x /\ P x s).
Proof.
  intros Hx0 Hstep Hhi HP Hbody. unfold for_lt.
  assert (Hgen : forall fuel x s, x0 <= x -> (Z.to_nat (hi - x) <= fuel)%nat -> P x s ->
    returns (loop_lt fuel hi step body x s) (fun '(x, s) => hi <= x /\ x0 <= x /\ P x s)).
  { induction fuel as [|fuel IH]; intros x s Hx Hf HPx; simpl;
      destruct (Z.ltb_spec x hi) as [Hlt|Hge]; simpl; auto; try lia.
    rstep Hbody; [lia|exact HPx|]. intros s' Hs'.
    rewrite u32_id by lia. apply IH; [lia|lia|exact Hs']. }
  apply Hgen; [lia|lia|exact HP].
Qed.

(** Its form for [step = 1], where the final counter is known. *)
Lemma for_lt_returns1 {St} (P : Z -> St -> Prop) hi body x0 s0 :
  0 <= x0 -> hi < 4294967296 ->
  P x0 s0 ->
  (forall x s, x0 <= x < hi -> P x s -> returns (body x s) (P (x + 1))) ->
  returns (for_lt hi 1 body x0 s0) (fun '(x, s) => x = Z.max x0 hi /\ P x s).
Proof.
  intros Hx0 Hhi HP Hbody.
  eapply returns_mono.
  - apply (for_lt_returns (fun x s => x <= Z.max x0 hi /\ P x s)); [lia..| |].
    + split; [lia|exact HP].
    + intros x s Hx [_ HPx]. eapply returns_mono; [by apply Hbody|].
      intros s' Hs'. split; [lia|exact Hs'].
  - intros [x s] (? & ? & ? & ?). split; [lia|done].
Qed.

(** A loop whose first round is not empty stops with that round's fault. *)
Lemma for_lt_fault {St} hi step (body : Z -> St -> outcome St) x s f :
  x < hi -> body x s = Fault f -> for_lt hi step body x s = Fault f.
Proof.
  intros Hx Hb. unfold for_lt. destruct (Z.to_nat (hi - x)) as [|k] eqn:Hk; [lia|].
  cbn [loop_lt]. rewrite (proj2 (Z.ltb_lt x hi) Hx), Hb. done.
Qed.

(** The sum after one element is replaced. *)
Lemma sum_list_insert {A} (f : A -> nat) (l : list A) j a b :
  l !! j = Some a -> (sum_list (f <$> <[j := b]> l) + f a = sum_list (f <$> l) + f b)%nat.
Proof.
  revert j. induction l as [|x l IH]; intros [|j] Hj; [done|done| |].
  - injection Hj as ->. change (<[0%nat := b]> (a :: l)) with (b :: l). rewrite !fmap_cons. simpl. lia.
  - change (<[S j := b]> (x :: l)) with (x :: <[j := b]> l). rewrite !fmap_cons. simpl. specialize (IH j Hj). lia.
Qed.
