(* ===== verification/Mem.v ===== *)
(** The byte memory the pattern generators of drm/util/pattern.c write to, stores of
    little-endian words into it, and the invariant of code that paints a raster of
    pixels line by line. *)
From Stdlib Require Import ZArith Lia.
From stdpp Require Import base list numbers.
From S2P Require Import Prelude.

(** One mapping of a buffer object: its bytes.  A C pointer into it is its offset. *)
Abbreviation mem := (list Z).

Definition mem_at (m : mem) (a : Z) : option Z := if a <? 0 then None else m !! Z.to_nat a.
Definition msize (m : mem) : Z := Z.of_nat (length m).

(** A store of one byte; outside the mapping it is undefined behaviour, a fault. *)
Definition store8 (m : mem) (a v : Z) : outcome mem :=
  if (0 <=? a) && (a <? msize m) then Ok (<[Z.to_nat a := u8 v]> m) else Fault OutOfBounds.

Fixpoint le_bytes (n : nat) (v : Z) : list Z :=
  match n with O => [] | S k => u8 v :: le_bytes k (v / 256) end.

Fixpoint store_bytes (m : mem) (a : Z) (bs : list Z) : outcome mem :=
  match bs with
  | [] => Ok m
  | b :: bs => m' ← store8 m a b; store_bytes m' (a + 1) bs
  end.

(** [*(uintN_t * )a = v] with [N = 8 * n], on the little-endian target. *)
Definition store_le (n : nat) (m : mem) (a v : Z) : outcome mem := store_bytes m a (le_bytes n v).

Definition byte_of (v k : Z) : Z := v / 2 ^ (8 * k) mod 256.

(** [memset(a, v, n)] *)
Definition memset (m : mem) (a v n : Z) : outcome mem :=
  store_bytes m a (replicate (Z.to_nat n) (u8 v)).

(** Address [c] lies in the [n] bytes from [a]. *)
Definition within (a n c : Z) : bool := (a <=? c) && (c <? a + n).

Lemma within_spec a n c : BoolSpec (a <= c < a + n) (~ a <= c < a + n) (within a n c).
Proof.
  unfold within. destruct (Z.leb_spec a c), (Z.ltb_spec c (a + n)); simpl; constructor; lia.
Qed.

Lemma mem_at_insert m a b v :
  0 <= a < msize m ->
  mem_at (<[Z.to_nat a := v]> m) b = if b =? a then Some v else mem_at m b.
Proof.
  unfold mem_at, msize. intros Ha.
  destruct (Z.ltb_spec b 0), (Z.eqb_spec b a); try lia; auto; subst.
  - apply list_lookup_insert_eq. lia.
  - apply list_lookup_insert_ne. lia.
Qed.

Lemma mem_at_lookup (m : mem) (i : nat) : mem_at m (Z.of_nat i) = m !! i.
Proof. unfold mem_at. rewrite (proj2 (Z.ltb_ge _ _)) by lia. by rewrite Nat2Z.id. Qed.

Lemma mem_at_is_Some m a : is_Some (mem_at m a) <-> 0 <= a < msize m.
Proof.
  unfold mem_at, msize. destruct (Z.ltb_spec a 0).
  - split; [intros []; done|lia].
  - rewrite lookup_lt_is_Some. lia.
Qed.

Lemma store8_ok m a v :
  0 <= a < msize m -> store8 m a v = Ok (<[Z.to_nat a := u8 v]> m).
Proof.
  intros Ha. unfold store8.
  rewrite (proj2 (Z.leb_le _ _)), (proj2 (Z.ltb_lt _ _)) by lia. done.
Qed.

Lemma store8_oob m a v :
  ~ 0 <= a < msize m -> store8 m a v = Fault OutOfBounds.
Proof.
  intros Ha. unfold store8.
  destruct (Z.leb_spec 0 a), (Z.ltb_spec a (msize m)); simpl; auto; lia.
Qed.

Lemma store8_returns m a v :
  0 <= a < msize m ->
  returns (store8 m a v) (fun m' => msize m' = msize m /\
    forall b, mem_at m' b = if b =? a then Some (u8 v) else mem_at m b).
Proof.
  intros Ha. rewrite store8_ok by done. simpl. split.
  - unfold msize. by rewrite length_insert.
  - intros b. by apply mem_at_insert.
Qed.

Lemma length_le_bytes n v : length (le_bytes n v) = n.
Proof. revert v. induction n; intros; simpl; auto. Qed.

(** The [k]-th byte of the little-endian image. *)
Lemma lookup_le_bytes n v k :
  (k < n)%nat -> le_bytes n v !! k = Some (byte_of v (Z.of_nat k)).
Proof.
  revert v k. induction n as [|n IH]; intros v k Hk; [lia|]. destruct k as [|k]; simpl.
  - unfold byte_of, u8, wrap. rewrite Z.mul_0_r, Z.pow_0_r, Z.div_1_r. done.
  - rewrite IH by lia. unfold byte_of. f_equal. f_equal.
    rewrite Z.div_div by lia. f_equal.
    change 256 with (2 ^ 8). rewrite <- Z.pow_add_r by lia. f_equal. lia.
Qed.

Lemma store_bytes_returns bs : forall m a,
  0 <= a -> a + Z.of_nat (length bs) <= msize m ->
  (forall b, b ∈ bs -> 0 <= b < 256) ->
  returns (store_bytes m a bs) (fun m' => msize m' = msize m /\
    forall c, mem_at m' c =
      if within a (Z.of_nat (length bs)) c then bs !! Z.to_nat (c - a) else mem_at m c).
Proof.
  induction bs as [|b bs IH]; intros m a Ha Hlen Hb; simpl in *.
  - split; [done|]. intros c. case (within_spec a _ c); [lia|done].
  - rstep store8_returns; [lia|]. intros m1 [Hm1 Hget].
    eapply returns_mono; [apply IH; [lia|lia|]|].
    { intros. apply Hb. by right. }
    intros m2 [Hm2 Hget2]. split; [lia|]. intros c. rewrite Hget2, Hget.
    rewrite u8_id by (apply Hb; left).
    destruct (within_spec (a + 1) (Z.of_nat (length bs)) c),
      (within_spec a (Z.of_nat (S (length bs))) c), (Z.eqb_spec c a); try lia; subst; auto.
    + replace (Z.to_nat (c - a)) with (S (Z.to_nat (c - (a + 1)))) by lia. done.
    + by rewrite Z.sub_diag.
Qed.

Lemma le_bytes_range n v b : b ∈ le_bytes n v -> 0 <= b < 256.
Proof.
  revert v. induction n as [|n IH]; intros v; simpl.
  - by rewrite elem_of_nil.
  - rewrite elem_of_cons. intros [->|H]; [apply u8_range|by eapply IH].
Qed.

Lemma store_le_returns n m a v :
  0 <= a -> a + Z.of_nat n <= msize m ->
  returns (store_le n m a v) (fun m' => msize m' = msize m /\
    forall c, mem_at m' c =
      if within a (Z.of_nat n) c then Some (byte_of v (c - a)) else mem_at m c).
Proof.
  intros Ha Hn. unfold store_le.
  eapply returns_mono; [apply store_bytes_returns|].
  - done.
  - by rewrite length_le_bytes.
  - intros b. apply le_bytes_range.
  - intros m' [Hs Hc]. split; [done|]. intros c. rewrite Hc, length_le_bytes.
    destruct (within_spec a (Z.of_nat n) c); [|done].
    rewrite lookup_le_bytes by lia. do 2 f_equal. lia.
Qed.

Lemma memset_returns m a v n :
  0 <= a -> a + Z.max 0 n <= msize m ->
  returns (memset m a v n) (fun m' => msize m' = msize m /\
    forall c, mem_at m' c =
      if within a n c then Some (u8 v) else mem_at m c).
Proof.
  intros Ha Hn. unfold memset.
  eapply returns_mono; [apply store_bytes_returns|].
  - done.
  - rewrite length_replicate. lia.
  - intros b [-> _]%elem_of_replicate. apply u8_range.
  - intros m' [Hs Hc]. split; [done|]. intros c. rewrite Hc, length_replicate.
    destruct (within_spec a (Z.of_nat (Z.to_nat n)) c), (within_spec a n c); try lia; [|done].
    by rewrite lookup_replicate_2 by lia.
Qed.

(** Reading a little-endian word back. *)
Fixpoint load_le (n : nat) (m : mem) (a : Z) : option Z :=
  match n with
  | O => Some 0
  | S k => b ← mem_at m a; r ← load_le k m (a + 1); Some (b + 256 * r)
  end.

Lemma load_le_bytes n : forall m a v,
  (forall k, 0 <= k < Z.of_nat n -> mem_at m (a + k) = Some (byte_of v k)) ->
  load_le n m a = Some (wrap (8 * Z.of_nat n) v).
Proof.
  induction n as [|n IH]; intros m a v Hb; simpl.
  { unfold wrap. by rewrite Z.mod_1_r. }
  assert (mem_at m a = Some (v mod 256)) as ->.
  { rewrite <- (Z.add_0_r a), Hb by lia. unfold byte_of. by rewrite Z.mul_0_r, Z.div_1_r. }
  simpl. rewrite (IH m (a + 1) (v / 256)).
  - simpl. f_equal. unfold wrap.
    replace (8 * Z.of_nat (S n)) with (8 + 8 * Z.of_nat n) by lia.
    rewrite Z.pow_add_r, Z.rem_mul_r by (try apply Z.pow_nonzero; lia). done.
  - intros k Hk. replace (a + 1 + k) with (a + (k + 1)) by lia. rewrite Hb by lia.
    unfold byte_of. do 2 f_equal. replace (8 * (k + 1)) with (8 + 8 * k) by lia.
    rewrite Z.pow_add_r, Z.div_div by (try apply Z.pow_nonzero; lia). done.
Qed.
