(* ===== verification/Raster.v ===== *)
(** The invariant of code that paints pixels of [n] bytes, [pitch] bytes apart, in lines
    [stride] bytes apart: which pixels are done, what they hold, and that nothing else of
    the mapping changed. *)
From Stdlib Require Import ZArith Lia.
From stdpp Require Import base list numbers.
From S2P Require Import Prelude Mem.

(** The pixels of a line-by-line scan of lines of [w] pixels that come before [(y0, x0)]. *)
Definition scanned (w y0 x0 y x : Z) : Prop :=
  0 <= y /\ 0 <= x < w /\ (y < y0 \/ y = y0 /\ x < x0).

(** A division with remainder is unique, as the lines of a raster need it. *)
Lemma line_unique s y c y' c' :
  0 <= c < s -> 0 <= c' < s -> y * s + c = y' * s + c' -> y = y' /\ c = c'.
Proof. intros. assert (y = y') by nia. subst. lia. Qed.

Section Raster.
Context (base stride pitch : Z) (n : nat) (w : Z) (colour : Z -> Z -> Z) (m0 : mem).

Definition pixel_addr (y x : Z) : Z := base + y * stride + pitch * x.

Record raster (D : Z -> Z -> Prop) (m : mem) : Prop := {
  raster_size : msize m = msize m0;
  raster_done : forall y x k, D y x -> 0 <= k < Z.of_nat n ->
    mem_at m (pixel_addr y x + k) = Some (byte_of (colour y x) k);
  raster_frame : forall a,
    (forall y x k, D y x -> 0 <= k < Z.of_nat n -> a <> pixel_addr y x + k) ->
    mem_at m a = mem_at m0 a }.

Lemma raster_empty (D : Z -> Z -> Prop) : (forall y x, ~ D y x) -> raster D m0.
Proof. intros HD. split; auto. intros y x k HDyx. by destruct (HD y x). Qed.

Lemma raster_iff (D D' : Z -> Z -> Prop) m :
  (forall y x, D y x <-> D' y x) -> raster D m -> raster D' m.
Proof.
  intros HD [Hs Hd Hf]. split; [done| |].
  - intros y x k H. apply Hd. by apply HD.
  - intros a Ha. apply Hf. intros y x k H. apply Ha. by apply HD.
Qed.

Context (Hbase : 0 <= base) (Hstride : 0 <= stride)
  (Hpitch : Z.of_nat n <= pitch) (Hline : pitch * w <= stride).

Lemma pixel_addr_inj y x k y' x' k' :
  0 <= x < w -> 0 <= x' < w -> 0 <= k < Z.of_nat n -> 0 <= k' < Z.of_nat n ->
  pixel_addr y x + k = pixel_addr y' x' + k' -> y = y' /\ x = x' /\ k = k'.
Proof.
  unfold pixel_addr. intros Hx Hx' Hk Hk' Heq.
  destruct (line_unique stride y (pitch * x + k) y' (pitch * x' + k')); [nia|nia|lia|].
  subst y'. destruct (line_unique pitch x k x' k'); lia.
Qed.

(** Painting one pixel adds it to those done. *)
Lemma raster_store (D : Z -> Z -> Prop) m y x :
  (forall y x, D y x -> 0 <= x < w) -> 0 <= x < w -> 0 <= y ->
  pixel_addr y x + Z.of_nat n <= msize m0 ->
  raster D m ->
  returns (store_le n m (pixel_addr y x) (colour y x))
    (raster (fun y' x' => D y' x' \/ y' = y /\ x' = x)).
Proof.
  intros HD Hx Hy Hfit [Hs Hd Hf].
  assert (0 <= pixel_addr y x) by (unfold pixel_addr; nia).
  eapply returns_mono; [apply store_le_returns; lia|].
  intros m' [Hs' Hget]. split; [lia| |].
  - intros y' x' k Hin Hk. rewrite Hget. case (within_spec _ _ _); intros Hw.
    + destruct (pixel_addr_inj y x (pixel_addr y' x' + k - pixel_addr y x) y' x' k)
        as (? & ? & ?); [done|naive_solver|lia|done|lia|].
      subst. do 2 f_equal. lia.
    + destruct Hin as [Hin|[-> ->]]; [by apply Hd|lia].
  - intros a Ha. rewrite Hget. case (within_spec _ _ _); intros Hw.
    + destruct (Ha y x (a - pixel_addr y x)); [by right|lia|lia].
    + apply Hf. intros y' x' k Hin Hk. apply Ha; [by left|done].
Qed.

(** One step, and the end of a line, of a line-by-line scan. *)
Lemma raster_scan m y x :
  0 <= x < w -> 0 <= y -> pixel_addr y x + Z.of_nat n <= msize m0 ->
  raster (scanned w y x) m ->
  returns (store_le n m (pixel_addr y x) (colour y x)) (raster (scanned w y (x + 1))).
Proof.
  intros Hx Hy Hfit Hr.
  eapply returns_mono; [eapply raster_store; [|done..|exact Hr]|].
  - unfold scanned. naive_solver.
  - intros m'. apply raster_iff. unfold scanned. lia.
Qed.

Lemma raster_next_line m y x :
  w <= x -> 0 <= y -> raster (scanned w y x) m -> raster (scanned w (y + 1) 0) m.
Proof. intros Hx Hy. apply raster_iff. unfold scanned. lia. Qed.

Lemma raster_start : raster (scanned w 0 0) m0.
Proof. apply raster_empty. unfold scanned. lia. Qed.
End Raster.

(** What a finished raster of [h] lines of [w] pixels of [n] bytes means, without the
    bookkeeping: the mapping kept its size, every pixel reads back as its colour, and all
    bytes that belong to no pixel are as before. *)
Record painted (base stride : Z) (n : nat) (w h : Z) (colour : Z -> Z -> Z) (m0 m : mem)
    : Prop := {
  painted_size : msize m = msize m0;
  painted_pixel : forall y x, 0 <= y < h -> 0 <= x < w ->
    load_le n m (base + y * stride + Z.of_nat n * x) = Some (wrap (8 * Z.of_nat n) (colour y x));
  painted_frame : forall a,
    (forall y x k, 0 <= y < h -> 0 <= x < w -> 0 <= k < Z.of_nat n ->
       a <> base + y * stride + Z.of_nat n * x + k) ->
    mem_at m a = mem_at m0 a }.

Lemma raster_painted base stride n w colour m0 h m :
  raster base stride (Z.of_nat n) n colour m0 (scanned w h 0) m ->
  painted base stride n w h colour m0 m.
Proof.
  intros [Hs Hd Hf]. split; [done| |].
  - intros y x Hy Hx. apply load_le_bytes. intros k Hk. apply Hd; [|done].
    unfold scanned. lia.
  - intros a Ha. apply Hf. intros y x k [Hy [Hx Hyx]] Hk. apply Ha; [lia|done..].
Qed.

(** * Samples of one byte

    For the YUV functions, whose planes may interleave: the samples that have been
    stored ([D]), what they hold ([val]), and that nothing else changed. *)
Section Samples.
Context {I : Type} (addr : I -> Z) (m0 : mem).

Record plotted (D : I -> Prop) (val : I -> Z) (m : mem) : Prop := {
  plotted_size : msize m = msize m0;
  plotted_at : forall i, D i -> mem_at m (addr i) = Some (val i);
  plotted_frame : forall a, (forall i, D i -> a <> addr i) -> mem_at m a = mem_at m0 a }.

Lemma plotted_start (D : I -> Prop) val : (forall i, ~ D i) -> plotted D val m0.
Proof. intros HD. split; [done| |done]. intros i Hi. by destruct (HD i). Qed.

Lemma plotted_iff (D D' : I -> Prop) val m :
  (forall i, D i <-> D' i) -> plotted D val m -> plotted D' val m.
Proof.
  intros HD [Hs Ha Hf]. split; [done| |].
  - intros i Hi. apply Ha. by apply HD.
  - intros a Hi. apply Hf. intros i Hd. apply Hi. by apply HD.
Qed.

(** A store to sample [i], which no other stored sample shares its byte with. *)
Lemma plotted_store (D D' : I -> Prop) (val val' : I -> Z) m i v :
  0 <= addr i < msize m0 ->
  (forall j, D j -> addr j = addr i -> j = i) ->
  (forall j, D' j <-> D j \/ j = i) ->
  val' i = u8 v -> (forall j, D j -> j <> i -> val' j = val j) ->
  plotted D val m -> returns (store8 m (addr i) v) (plotted D' val').
Proof.
  intros Hi Hinj HD' Hv Hval [Hs Ha Hf].
  eapply returns_mono; [apply store8_returns; lia|].
  intros m' [Hs' Hget]. split; [lia| |].
  - intros j Hj%HD'. rewrite Hget. destruct (Z.eqb_spec (addr j) (addr i)) as [He|He].
    + assert (j = i) as -> by (destruct Hj as [Hj|Hj]; [by apply Hinj|done]). by rewrite Hv.
    + destruct Hj as [Hj| ->]; [|done]. rewrite Ha by done. rewrite Hval; [done|done|].
      intros ->. done.
  - intros a Hi'. rewrite Hget. destruct (Z.eqb_spec a (addr i)) as [->|He].
    + destruct (Hi' i); [|done]. apply HD'. by right.
    + apply Hf. intros j Hj. apply Hi', HD'. by left.
Qed.

(** The same when every sample is stored once, with its final value. *)
Lemma plotted_store1 (D D' : I -> Prop) (val : I -> Z) m i v :
  0 <= addr i < msize m0 ->
  (forall j, D j -> addr j = addr i -> j = i) ->
  (forall j, D' j <-> D j \/ j = i) -> val i = u8 v ->
  plotted D val m -> returns (store8 m (addr i) v) (plotted D' val).
Proof. intros. by eapply plotted_store. Qed.
End Samples.
