(* ===== verification/Format.v ===== *)
(** drm/util/format.c: the table of pixel formats and its two lookups.
    The numeric codes of the formats come from drm_fourcc.h, which is not part of the
    repository: they are the class [FourccCodes], one code per format name.  A [switch] on
    [DRM_FORMAT_*] constants compiles only when the codes are distinct, and
    [util_format_fourcc] uses 0 for "no such format"; these are the laws of the class. *)
From Stdlib Require Import ZArith Lia.
From stdpp Require Import base list numbers strings countable.
From S2P Require Import Prelude.

(** The formats the sources name. *)
Inductive drm_format :=
| DRM_FORMAT_C8
| DRM_FORMAT_UYVY
| DRM_FORMAT_VYUY
| DRM_FORMAT_YUYV
| DRM_FORMAT_YVYU
| DRM_FORMAT_NV12
| DRM_FORMAT_NV21
| DRM_FORMAT_NV16
| DRM_FORMAT_NV61
| DRM_FORMAT_YUV420
| DRM_FORMAT_YVU420
| DRM_FORMAT_ARGB4444
| DRM_FORMAT_XRGB4444
| DRM_FORMAT_ABGR4444
| DRM_FORMAT_XBGR4444
| DRM_FORMAT_RGBA4444
| DRM_FORMAT_RGBX4444
| DRM_FORMAT_BGRA4444
| DRM_FORMAT_BGRX4444
| DRM_FORMAT_ARGB1555
| DRM_FORMAT_XRGB1555
| DRM_FORMAT_ABGR1555
| DRM_FORMAT_XBGR1555
| DRM_FORMAT_RGBA5551
| DRM_FORMAT_RGBX5551
| DRM_FORMAT_BGRA5551
| DRM_FORMAT_BGRX5551
| DRM_FORMAT_RGB565
| DRM_FORMAT_BGR565
| DRM_FORMAT_BGR888
| DRM_FORMAT_RGB888
| DRM_FORMAT_ARGB8888
| DRM_FORMAT_XRGB8888
| DRM_FORMAT_ABGR8888
| DRM_FORMAT_XBGR8888
| DRM_FORMAT_RGBA8888
| DRM_FORMAT_RGBX8888
| DRM_FORMAT_BGRA8888
| DRM_FORMAT_BGRX8888
| DRM_FORMAT_ARGB2101010
| DRM_FORMAT_XRGB2101010
| DRM_FORMAT_ABGR2101010
| DRM_FORMAT_XBGR2101010
| DRM_FORMAT_RGBA1010102
| DRM_FORMAT_RGBX1010102
| DRM_FORMAT_BGRA1010102
| DRM_FORMAT_BGRX1010102
| DRM_FORMAT_XRGB16161616F
| DRM_FORMAT_XBGR16161616F
| DRM_FORMAT_ARGB16161616F
| DRM_FORMAT_ABGR16161616F.

#[global] Instance drm_format_eq_dec : EqDecision drm_format.
Proof. solve_decision. Defined.

Definition all_formats : list drm_format :=
  [ DRM_FORMAT_C8; DRM_FORMAT_UYVY; DRM_FORMAT_VYUY;
    DRM_FORMAT_YUYV; DRM_FORMAT_YVYU; DRM_FORMAT_NV12;
    DRM_FORMAT_NV21; DRM_FORMAT_NV16; DRM_FORMAT_NV61;
    DRM_FORMAT_YUV420; DRM_FORMAT_YVU420; DRM_FORMAT_ARGB4444;
    DRM_FORMAT_XRGB4444; DRM_FORMAT_ABGR4444; DRM_FORMAT_XBGR4444;
    DRM_FORMAT_RGBA4444; DRM_FORMAT_RGBX4444; DRM_FORMAT_BGRA4444;
    DRM_FORMAT_BGRX4444; DRM_FORMAT_ARGB1555; DRM_FORMAT_XRGB1555;
    DRM_FORMAT_ABGR1555; DRM_FORMAT_XBGR1555; DRM_FORMAT_RGBA5551;
    DRM_FORMAT_RGBX5551; DRM_FORMAT_BGRA5551; DRM_FORMAT_BGRX5551;
    DRM_FORMAT_RGB565; DRM_FORMAT_BGR565; DRM_FORMAT_BGR888;
    DRM_FORMAT_RGB888; DRM_FORMAT_ARGB8888; DRM_FORMAT_XRGB8888;
    DRM_FORMAT_ABGR8888; DRM_FORMAT_XBGR8888; DRM_FORMAT_RGBA8888;
    DRM_FORMAT_RGBX8888; DRM_FORMAT_BGRA8888; DRM_FORMAT_BGRX8888;
    DRM_FORMAT_ARGB2101010; DRM_FORMAT_XRGB2101010; DRM_FORMAT_ABGR2101010;
    DRM_FORMAT_XBGR2101010; DRM_FORMAT_RGBA1010102; DRM_FORMAT_RGBX1010102;
    DRM_FORMAT_BGRA1010102; DRM_FORMAT_BGRX1010102; DRM_FORMAT_XRGB16161616F;
    DRM_FORMAT_XBGR16161616F; DRM_FORMAT_ARGB16161616F; DRM_FORMAT_ABGR16161616F ].

Lemma all_formats_complete f : f ∈ all_formats.
Proof. apply (bool_decide_unpack (f ∈ all_formats)). destruct f; vm_compute; exact I. Qed.

Class FourccCodes := {
  fourcc : drm_format -> Z;
  fourcc_inj : forall f g, fourcc f = fourcc g -> f = g;
  fourcc_range : forall f, 0 < fourcc f < 4294967296 }.

(** * struct util_format_info *)

Record util_color_component := Component { cc_length : Z; cc_offset : Z }.

Record util_rgb_info := RgbInfo {
  red : util_color_component;
  green : util_color_component;
  blue : util_color_component;
  alpha : util_color_component }.

(** enum util_yuv_order: flags, combined with [|]. *)
Definition YUV_YCbCr : Z := 1.
Definition YUV_YCrCb : Z := 2.
Definition YUV_YC : Z := 4.
Definition YUV_CY : Z := 8.

Record util_yuv_info := YuvInfo {
  order : Z;
  xsub : Z;
  ysub : Z;
  chroma_stride : Z }.

Record util_format_info := FormatInfo {
  format : drm_format;
  name : string;
  rgb : util_rgb_info;
  yuv : util_yuv_info }.

(** MAKE_RGB_INFO and MAKE_YUV_INFO; the member an initializer leaves out is all zero. *)
Definition MAKE_RGB_INFO (rl ro gl go bl bo al ao : Z) : util_rgb_info :=
  RgbInfo (Component rl ro) (Component gl go) (Component bl bo) (Component al ao).
Definition no_rgb : util_rgb_info := MAKE_RGB_INFO 0 0 0 0 0 0 0 0.
Definition no_yuv : util_yuv_info := YuvInfo 0 0 0 0.

Definition indexed_fmt f n := FormatInfo f n no_rgb no_yuv.
Definition yuv_fmt f n o xs ys cs := FormatInfo f n no_rgb (YuvInfo o xs ys cs).
Definition rgb_fmt f n rl ro gl go bl bo al ao :=
  FormatInfo f n (MAKE_RGB_INFO rl ro gl go bl bo al ao) no_yuv.

Definition format_info : list util_format_info := [
  indexed_fmt DRM_FORMAT_C8 "C8";
  yuv_fmt DRM_FORMAT_UYVY "UYVY" (Z.lor YUV_YCbCr YUV_CY) 2 2 2;
  yuv_fmt DRM_FORMAT_VYUY "VYUY" (Z.lor YUV_YCrCb YUV_CY) 2 2 2;
  yuv_fmt DRM_FORMAT_YUYV "YUYV" (Z.lor YUV_YCbCr YUV_YC) 2 2 2;
  yuv_fmt DRM_FORMAT_YVYU "YVYU" (Z.lor YUV_YCrCb YUV_YC) 2 2 2;
  yuv_fmt DRM_FORMAT_NV12 "NV12" YUV_YCbCr 2 2 2;
  yuv_fmt DRM_FORMAT_NV21 "NV21" YUV_YCrCb 2 2 2;
  yuv_fmt DRM_FORMAT_NV16 "NV16" YUV_YCbCr 2 1 2;
  yuv_fmt DRM_FORMAT_NV61 "NV61" YUV_YCrCb 2 1 2;
  yuv_fmt DRM_FORMAT_YUV420 "YU12" YUV_YCbCr 2 2 1;
  yuv_fmt DRM_FORMAT_YVU420 "YV12" YUV_YCrCb 2 2 1;
  rgb_fmt DRM_FORMAT_ARGB4444 "AR12" 4 8 4 4 4 0 4 12;
  rgb_fmt DRM_FORMAT_XRGB4444 "XR12" 4 8 4 4 4 0 0 0;
  rgb_fmt DRM_FORMAT_ABGR4444 "AB12" 4 0 4 4 4 8 4 12;
  rgb_fmt DRM_FORMAT_XBGR4444 "XB12" 4 0 4 4 4 8 0 0;
  rgb_fmt DRM_FORMAT_RGBA4444 "RA12" 4 12 4 8 4 4 4 0;
  rgb_fmt DRM_FORMAT_RGBX4444 "RX12" 4 12 4 8 4 4 0 0;
  rgb_fmt DRM_FORMAT_BGRA4444 "BA12" 4 4 4 8 4 12 4 0;
  rgb_fmt DRM_FORMAT_BGRX4444 "BX12" 4 4 4 8 4 12 0 0;
  rgb_fmt DRM_FORMAT_ARGB1555 "AR15" 5 10 5 5 5 0 1 15;
  rgb_fmt DRM_FORMAT_XRGB1555 "XR15" 5 10 5 5 5 0 0 0;
  rgb_fmt DRM_FORMAT_ABGR1555 "AB15" 5 0 5 5 5 10 1 15;
  rgb_fmt DRM_FORMAT_XBGR1555 "XB15" 5 0 5 5 5 10 0 0;
  rgb_fmt DRM_FORMAT_RGBA5551 "RA15" 5 11 5 6 5 1 1 0;
  rgb_fmt DRM_FORMAT_RGBX5551 "RX15" 5 11 5 6 5 1 0 0;
  rgb_fmt DRM_FORMAT_BGRA5551 "BA15" 5 1 5 6 5 11 1 0;
  rgb_fmt DRM_FORMAT_BGRX5551 "BX15" 5 1 5 6 5 11 0 0;
  rgb_fmt DRM_FORMAT_RGB565 "RG16" 5 11 6 5 5 0 0 0;
  rgb_fmt DRM_FORMAT_BGR565 "BG16" 5 0 6 5 5 11 0 0;
  rgb_fmt DRM_FORMAT_BGR888 "BG24" 8 0 8 8 8 16 0 0;
  rgb_fmt DRM_FORMAT_RGB888 "RG24" 8 16 8 8 8 0 0 0;
  rgb_fmt DRM_FORMAT_ARGB8888 "AR24" 8 16 8 8 8 0 8 24;
  rgb_fmt DRM_FORMAT_XRGB8888 "XR24" 8 16 8 8 8 0 0 0;
  rgb_fmt DRM_FORMAT_ABGR8888 "AB24" 8 0 8 8 8 16 8 24;
  rgb_fmt DRM_FORMAT_XBGR8888 "XB24" 8 0 8 8 8 16 0 0;
  rgb_fmt DRM_FORMAT_RGBA8888 "RA24" 8 24 8 16 8 8 8 0;
  rgb_fmt DRM_FORMAT_RGBX8888 "RX24" 8 24 8 16 8 8 0 0;
  rgb_fmt DRM_FORMAT_BGRA8888 "BA24" 8 8 8 16 8 24 8 0;
  rgb_fmt DRM_FORMAT_BGRX8888 "BX24" 8 8 8 16 8 24 0 0;
  rgb_fmt DRM_FORMAT_ARGB2101010 "AR30" 10 20 10 10 10 0 2 30;
  rgb_fmt DRM_FORMAT_XRGB2101010 "XR30" 10 20 10 10 10 0 0 0;
  rgb_fmt DRM_FORMAT_ABGR2101010 "AB30" 10 0 10 10 10 20 2 30;
  rgb_fmt DRM_FORMAT_XBGR2101010 "XB30" 10 0 10 10 10 20 0 0;
  rgb_fmt DRM_FORMAT_RGBA1010102 "RA30" 10 22 10 12 10 2 2 0;
  rgb_fmt DRM_FORMAT_RGBX1010102 "RX30" 10 22 10 12 10 2 0 0;
  rgb_fmt DRM_FORMAT_BGRA1010102 "BA30" 10 2 10 12 10 22 2 0;
  rgb_fmt DRM_FORMAT_BGRX1010102 "BX30" 10 2 10 12 10 22 0 0;
  rgb_fmt DRM_FORMAT_XRGB16161616F "XR4H" 16 32 16 16 16 0 0 0;
  rgb_fmt DRM_FORMAT_XBGR16161616F "XB4H" 16 0 16 16 16 32 0 0;
  rgb_fmt DRM_FORMAT_ARGB16161616F "AR4H" 16 32 16 16 16 0 16 48;
  rgb_fmt DRM_FORMAT_ABGR16161616F "AB4H" 16 0 16 16 16 32 16 48
].

Section Lookups.
Context `{FourccCodes}.

(** The [for] loop of both functions: the first entry that passes the test. *)
Fixpoint find_info (test : util_format_info -> bool) (l : list util_format_info)
    : option util_format_info :=
  match l with
  | [] => None
  | i :: l => if test i then Some i else find_info test l
  end.

Definition util_format_fourcc (n : string) : Z :=
  match find_info (fun i => bool_decide (name i = n)) format_info with
  | Some i => fourcc (format i)
  | None => 0
  end.

Definition util_format_info_find (code : Z) : option util_format_info :=
  find_info (fun i => fourcc (format i) =? code) format_info.
End Lookups.

(** * The table *)

Lemma find_info_Some test l i : find_info test l = Some i -> i ∈ l /\ test i = true.
Proof.
  induction l as [|j l IH]; simpl; [done|]. destruct (test j) eqn:E.
  - intros [= ->]. split; [left|done].
  - intros [? ?]%IH. split; [by right|done].
Qed.

Lemma find_info_None test l : find_info test l = None <-> forall i, i ∈ l -> test i = false.
Proof.
  induction l as [|j l IH]; simpl.
  - split; [by intros _ i ?%elem_of_nil|done].
  - destruct (test j) eqn:E; (split; [intros H|intros H]).
    + done.
    + specialize (H j (list_elem_of_here _ _)). congruence.
    + intros i [->|Hi]%elem_of_cons; [done|by apply IH].
    + apply IH. intros i Hi. apply H. by right.
Qed.

(** Entries with the same key are the same entry, so a search by key finds it. *)
Lemma find_info_key {K} (key : util_format_info -> K) test l i :
  NoDup (key <$> l) -> i ∈ l -> (forall j, test j = true <-> key j = key i) ->
  find_info test l = Some i.
Proof.
  induction l as [|j l IH]; simpl; intros Hnd Hi Htest; [by apply elem_of_nil in Hi|].
  apply list.NoDup_cons in Hnd as [Hj Hnd]. destruct (test j) eqn:E.
  - f_equal. apply elem_of_cons in Hi as [->|Hi]; [done|]. exfalso. apply Hj.
    apply Htest in E. rewrite E. by apply list_elem_of_fmap_2.
  - apply elem_of_cons in Hi as [->|Hi]; [|by apply IH].
    exfalso. assert (test j = true) by by apply Htest. congruence.
Qed.

Lemma format_info_formats : NoDup (format <$> format_info).
Proof. apply (bool_decide_unpack (NoDup (format <$> format_info))). vm_compute. exact I. Qed.

Lemma format_info_names : NoDup (name <$> format_info).
Proof. apply (bool_decide_unpack (NoDup (name <$> format_info))). vm_compute. exact I. Qed.

(** Every format the sources name has an entry. *)
Definition info_of (f : drm_format) : util_format_info :=
  default (indexed_fmt f EmptyString) (find_info (fun i => bool_decide (format i = f)) format_info).

Lemma info_of_spec f : info_of f ∈ format_info /\ format (info_of f) = f.
Proof.
  assert (Hc : find_info (fun i => bool_decide (format i = f)) format_info = Some (info_of f))
    by by destruct f.
  apply find_info_Some in Hc as [Hi Ht]. split; [done|]. by apply bool_decide_eq_true in Ht.
Qed.

Section LookupFacts.
Context `{FourccCodes}.

Lemma info_find_fourcc f : util_format_info_find (fourcc f) = Some (info_of f).
Proof.
  destruct (info_of_spec f) as [Hi Hf].
  apply (find_info_key format); [apply format_info_formats|done|].
  intros j. rewrite Z.eqb_eq, Hf. split; [apply fourcc_inj|congruence].
Qed.

Lemma info_find_Some code i :
  util_format_info_find code = Some i -> i ∈ format_info /\ code = fourcc (format i).
Proof. intros [Hi Ht%Z.eqb_eq]%find_info_Some. done. Qed.

(** The two lookups agree with the table and with each other.  A name of the
    table is found with its own code, and that code finds the entry of that name; a
    name outside the table gives 0, which no format has; a code outside the table gives
    NULL. *)
Theorem format_lookups_roundtrip :
  (forall i, i ∈ format_info ->
     util_format_fourcc (name i) = fourcc (format i) /\
     util_format_info_find (util_format_fourcc (name i)) = Some i) /\
  (forall n, n ∉ name <$> format_info -> util_format_fourcc n = 0) /\
  (forall n, util_format_fourcc n = 0 -> n ∉ name <$> format_info) /\
  (forall code, (forall i, i ∈ format_info -> fourcc (format i) <> code) <->
     util_format_info_find code = None).
Proof.
  assert (Hname : forall i, i ∈ format_info -> util_format_fourcc (name i) = fourcc (format i)).
  { intros i Hi. unfold util_format_fourcc.
    rewrite (find_info_key name _ _ i); [done|apply format_info_names|done|].
    intros j. by rewrite bool_decide_eq_true. }
  split; [|split; [|split]].
  - intros i Hi. split; [by apply Hname|]. rewrite Hname by done.
    apply (find_info_key format); [apply format_info_formats|done|].
    intros j. rewrite Z.eqb_eq. split; [apply fourcc_inj|congruence].
  - intros n Hn. unfold util_format_fourcc.
    rewrite (proj2 (find_info_None _ _)); [done|]. intros i Hi.
    apply bool_decide_eq_false. intros <-. apply Hn. by apply list_elem_of_fmap_2.
  - intros n Hz [i [-> Hi]]%list_elem_of_fmap. rewrite Hname in Hz by done.
    pose proof (fourcc_range (format i)). lia.
  - intros code. unfold util_format_info_find. rewrite find_info_None.
    split; intros Hc i Hi; [by apply Z.eqb_neq, Hc|by apply Z.eqb_neq; auto].
Qed.
End LookupFacts.

(** A concrete numbering, the four characters of the name as drm_fourcc.h packs them. *)
Definition char_code (o : option Ascii.ascii) : Z :=
  match o with Some a => Z.of_nat (Ascii.nat_of_ascii a) | None => 32 end.
Definition name_code (s : string) : Z :=
  char_code (String.get 0 s) + 256 * char_code (String.get 1 s)
  + 65536 * char_code (String.get 2 s) + 16777216 * char_code (String.get 3 s).

Lemma name_code_decode f :
  (find_info (fun i => name_code (name i) =? name_code (name (info_of f))) format_info)
    = Some (info_of f).
Proof. destruct f; vm_compute; reflexivity. Qed.

Program Definition name_codes : FourccCodes := {|
  fourcc f := name_code (name (info_of f)) |}.
Next Obligation.
  intros f g Hfg. pose proof (name_code_decode f) as Hf. rewrite Hfg, name_code_decode in Hf.
  injection Hf as Hf. rewrite <- (proj2 (info_of_spec f)), <- (proj2 (info_of_spec g)).
  by rewrite Hf.
Qed.
Next Obligation. intros f. destruct f; vm_compute; split; reflexivity. Qed.
