(* ===== verification/Color.v ===== *)
(** The colour arithmetic of drm/util/pattern.c: BT.601 conversion, packing of 8-, 10- and
    16-bit channel values into a pixel, and the conversion to half-precision floats. *)
From Stdlib Require Import ZArith Lia.
From stdpp Require Import base list numbers strings.
From S2P Require Import Prelude Format.

(** * YUV *)

(** struct color_yuv: three [unsigned char]. *)
Record color_yuv := ColorYuv { cy : Z; cu : Z; cv : Z }.

(** The macros compute in [int]; [>>] of a negative [int] is arithmetic. *)
Definition MAKE_YUV_601_Y (r g b : Z) : Z := Z.shiftr (66 * r + 129 * g + 25 * b + 128) 8 + 16.
Definition MAKE_YUV_601_U (r g b : Z) : Z := Z.shiftr (-38 * r - 74 * g + 112 * b + 128) 8 + 128.
Definition MAKE_YUV_601_V (r g b : Z) : Z := Z.shiftr (112 * r - 94 * g - 18 * b + 128) 8 + 128.
Definition MAKE_YUV_601 (r g b : Z) : color_yuv :=
  ColorYuv (u8 (MAKE_YUV_601_Y r g b)) (u8 (MAKE_YUV_601_U r g b)) (u8 (MAKE_YUV_601_V r g b)).

(** * Packed RGB *)

(** This function takes 8-bit color values *)
Definition shiftcolor8 (comp : util_color_component) (value : Z) : Z :=
  let value := Z.land value 0xff in
  let value := Z.lor (u32 (Z.shiftl value 8)) value in
  let value := Z.shiftr value (u32 (16 - cc_length comp)) in
  u32 (Z.shiftl value (cc_offset comp)).

(** This function takes 10-bit color values *)
Definition shiftcolor10 (comp : util_color_component) (value : Z) : Z :=
  let value := Z.land value 0x3ff in
  let value := Z.lor (u32 (Z.shiftl value 6)) (Z.shiftr value 4) in
  let value := Z.shiftr value (u32 (16 - cc_length comp)) in
  u32 (Z.shiftl value (cc_offset comp)).

(** This function takes 16-bit color values *)
Definition shiftcolor16 (comp : util_color_component) (value : Z) : Z :=
  let value := Z.land value 0xffff in
  let value := Z.shiftr value (u32 (16 - cc_length comp)) in
  u64 (Z.shiftl value (cc_offset comp)).

Definition MAKE_RGBA10 (i : util_rgb_info) (r g b a : Z) : Z :=
  Z.lor (Z.lor (Z.lor (shiftcolor10 (red i) r) (shiftcolor10 (green i) g))
    (shiftcolor10 (blue i) b)) (shiftcolor10 (alpha i) a).

Definition MAKE_RGBA (i : util_rgb_info) (r g b a : Z) : Z :=
  Z.lor (Z.lor (Z.lor (shiftcolor8 (red i) r) (shiftcolor8 (green i) g))
    (shiftcolor8 (blue i) b)) (shiftcolor8 (alpha i) a).

(** The 24-bit bit-field keeps the low 24 bits. *)
Definition MAKE_RGB24 (i : util_rgb_info) (r g b : Z) : Z := wrap 24 (MAKE_RGBA i r g b 0).

(** * Half-precision floats *)

(** [__builtin_clz] of a non-zero 32-bit value. *)
Definition clz32 (v : Z) : Z := 31 - Z.log2 v.

Definition uint16_div_64k_to_half (v : Z) : Z :=
  if v <? 4 then u16 (Z.shiftl v 8)
  else
    let n := clz32 v - 16 in
    let m := Z.shiftr (Z.land (u32 (Z.shiftl v (n + 1))) 0xffff) 6 in
    let e := 14 - n in
    u16 (Z.lor (Z.shiftl e 10) m).

(** The argument [(c) << 8] is converted to [uint16_t] by the call. *)
Definition MAKE_RGBA8FP16 (i : util_rgb_info) (r g b a : Z) : Z :=
  let half c := uint16_div_64k_to_half (u16 (Z.shiftl c 8)) in
  Z.lor (Z.lor (Z.lor (shiftcolor16 (red i) (half r)) (shiftcolor16 (green i) (half g)))
    (shiftcolor16 (blue i) (half b))) (shiftcolor16 (alpha i) (half a)).

Definition MAKE_RGBA10FP16 (i : util_rgb_info) (r g b a : Z) : Z :=
  let half c := uint16_div_64k_to_half (u16 (Z.shiftl c 6)) in
  Z.lor (Z.lor (Z.lor (shiftcolor16 (red i) (half r)) (shiftcolor16 (green i) (half g)))
    (shiftcolor16 (blue i) (half b))) (shiftcolor16 (alpha i) (half a)).

(** * Packing *)

(** A component of at most 16 bits that lies inside a word of [w] bits. *)
Definition component_ok (w : Z) (c : util_color_component) : bool :=
  (0 <=? cc_length c) && (cc_length c <=? 16) && (0 <=? cc_offset c)
  && (cc_offset c + cc_length c <=? w).

Definition disjoint_components (c d : util_color_component) : bool :=
  (cc_length c =? 0) || (cc_length d =? 0)
  || (cc_offset c + cc_length c <=? cc_offset d) || (cc_offset d + cc_length d <=? cc_offset c).

(** The four components fit and no two share a bit. *)
Definition rgb_ok (w : Z) (i : util_rgb_info) : bool :=
  component_ok w (red i) && component_ok w (green i) && component_ok w (blue i)
  && component_ok w (alpha i)
  && disjoint_components (red i) (green i) && disjoint_components (red i) (blue i)
  && disjoint_components (red i) (alpha i) && disjoint_components (green i) (blue i)
  && disjoint_components (green i) (alpha i) && disjoint_components (blue i) (alpha i).

(** What a display reads back: the field of component [c] in the pixel [p]. *)
Definition field (c : util_color_component) (p : Z) : Z :=
  Z.land (Z.shiftr p (cc_offset c)) (Z.ones (cc_length c)).

(** A channel value [v] of [16] significant bits, cut to the component's width. *)
Definition placed (c : util_color_component) (v : Z) : Z :=
  Z.shiftl (Z.shiftr v (16 - cc_length c)) (cc_offset c).

Definition pack (i : util_rgb_info) (r g b a : Z) : Z :=
  Z.lor (Z.lor (Z.lor (placed (red i) r) (placed (green i) g)) (placed (blue i) b))
    (placed (alpha i) a).

Lemma component_ok_spec w c :
  component_ok w c = true ->
  0 <= cc_length c <= 16 /\ 0 <= cc_offset c /\ cc_offset c + cc_length c <= w.
Proof. unfold component_ok. rewrite !andb_true_iff, !Z.leb_le. lia. Qed.

Lemma placed_testbit c v n :
  0 <= v < 65536 -> 0 <= cc_length c <= 16 -> 0 <= cc_offset c -> 0 <= n ->
  Z.testbit (placed c v) n =
    (cc_offset c <=? n) && (n <? cc_offset c + cc_length c)
    && Z.testbit v (n - cc_offset c + (16 - cc_length c)).
Proof.
  intros Hv Hl Ho Hn. unfold placed.
  destruct (Z.leb_spec (cc_offset c) n); simpl.
  - rewrite Z.shiftl_spec, Z.shiftr_spec by lia.
    destruct (Z.ltb_spec n (cc_offset c + cc_length c)); simpl; [done|].
    rewrite <- (Z.mod_small v (2 ^ 16)) by lia. apply Z.mod_pow2_bits_high. lia.
  - rewrite Z.shiftl_spec by lia. apply Z.testbit_neg_r. lia.
Qed.

Lemma placed_field_same w c v :
  component_ok w c = true -> 0 <= v < 65536 ->
  field c (placed c v) = Z.shiftr v (16 - cc_length c).
Proof.
  intros Hc%component_ok_spec Hv. apply Z.bits_inj'. intros n Hn. unfold field.
  rewrite Z.land_spec, !Z.shiftr_spec, placed_testbit by lia.
  rewrite Z.testbit_ones_nonneg by lia.
  rewrite (proj2 (Z.leb_le _ _)) by lia. simpl.
  destruct (Z.ltb_spec n (cc_length c)); simpl.
  - rewrite (proj2 (Z.ltb_lt _ _)), andb_true_r by lia. simpl. f_equal. lia.
  - rewrite andb_false_r. symmetry.
    rewrite <- (Z.mod_small v (2 ^ 16)) by lia. apply Z.mod_pow2_bits_high. lia.
Qed.

Lemma placed_field_other w c d v :
  component_ok w c = true -> component_ok w d = true -> disjoint_components c d = true ->
  0 <= v < 65536 -> field c (placed d v) = 0.
Proof.
  intros Hc%component_ok_spec Hd%component_ok_spec Hdis Hv.
  unfold disjoint_components in Hdis. rewrite !orb_true_iff, !Z.eqb_eq, !Z.leb_le in Hdis.
  apply Z.bits_inj'. intros n Hn. unfold field.
  rewrite Z.land_spec, Z.shiftr_spec, placed_testbit, Z.bits_0 by lia.
  rewrite Z.testbit_ones_nonneg by lia.
  destruct (Z.leb_spec (cc_offset d) (n + cc_offset c)),
    (Z.ltb_spec (n + cc_offset c) (cc_offset d + cc_length d)),
    (Z.ltb_spec n (cc_length c)); simpl; rewrite ?andb_false_r; auto. lia.
Qed.

Lemma field_lor c p q : field c (Z.lor p q) = Z.lor (field c p) (field c q).
Proof. unfold field. by rewrite Z.shiftr_lor, Z.land_lor_distr_l. Qed.

Lemma disjoint_sym c d : disjoint_components c d = disjoint_components d c.
Proof.
  unfold disjoint_components. rewrite (orb_comm (_ =? _)), <- !orb_assoc. f_equal. f_equal.
  apply orb_comm.
Qed.

(** Each field of a packed pixel is its channel, cut to the field's width. *)
Lemma pack_fields w i r g b a :
  rgb_ok w i = true ->
  0 <= r < 65536 -> 0 <= g < 65536 -> 0 <= b < 65536 -> 0 <= a < 65536 ->
  field (red i) (pack i r g b a) = Z.shiftr r (16 - cc_length (red i)) /\
  field (green i) (pack i r g b a) = Z.shiftr g (16 - cc_length (green i)) /\
  field (blue i) (pack i r g b a) = Z.shiftr b (16 - cc_length (blue i)) /\
  field (alpha i) (pack i r g b a) = Z.shiftr a (16 - cc_length (alpha i)).
Proof.
  unfold rgb_ok. rewrite !andb_true_iff. intros Hok Hr Hg Hb Ha. destruct_and!.
  unfold pack. rewrite !field_lor.
  repeat match goal with
  | |- context [field ?c (placed ?c ?v)] => rewrite (placed_field_same w c v) by done
  | |- context [field ?c (placed ?d ?v)] =>
      rewrite (placed_field_other w c d v) by (done || by rewrite disjoint_sym)
  end.
  rewrite ?Z.lor_0_r, ?Z.lor_0_l. done.
Qed.

(** An 8-bit (10-bit) channel stretched to 16 bits by repeating its top bits. *)
Definition rep8 (v : Z) : Z := 257 * v.
Definition rep10 (v : Z) : Z := 64 * v + v / 16.

Lemma lor_disjoint_add a b k : 0 <= k -> 0 <= b < 2 ^ k -> Z.lor (Z.shiftl a k) b = a * 2 ^ k + b.
Proof.
  intros Hk Hb. rewrite <- Z.shiftl_mul_pow2 by lia.
  rewrite <- Z.lxor_lor, <- Z.add_nocarry_lxor; [done| |].
  all: apply Z.bits_inj'; intros n Hn; rewrite Z.land_spec, Z.bits_0.
  all: destruct (Z.ltb_spec n k).
  all: try (rewrite Z.shiftl_spec_low by lia; done).
  all: rewrite <- (Z.mod_small b (2 ^ k)) by lia.
  all: rewrite Z.mod_pow2_bits_high by lia; apply andb_false_r.
Qed.

Lemma placed_bound w c v :
  component_ok w c = true -> 0 <= v < 65536 -> 0 <= placed c v < 2 ^ w.
Proof.
  intros Hc%component_ok_spec Hv. unfold placed.
  rewrite Z.shiftl_mul_pow2, Z.shiftr_div_pow2 by lia.
  assert (0 <= v / 2 ^ (16 - cc_length c) < 2 ^ cc_length c).
  { split; [apply Z.div_pos; lia|]. apply Z.div_lt_upper_bound; [lia|].
    rewrite <- Z.pow_add_r by lia. replace (16 - cc_length c + cc_length c) with 16 by lia. lia. }
  assert (2 ^ (cc_offset c + cc_length c) <= 2 ^ w) by (apply Z.pow_le_mono_r; lia).
  rewrite Z.pow_add_r in * by lia. nia.
Qed.

Lemma shiftcolor8_placed c v :
  component_ok 32 c = true -> shiftcolor8 c v = placed c (rep8 (v mod 256)).
Proof.
  intros Hc. unfold shiftcolor8, rep8.
  change 0xff with (Z.ones 8). rewrite Z.land_ones by lia. change (2 ^ 8) with 256.
  pose proof (Z.mod_pos_bound v 256). set (x := v mod 256) in *.
  pose proof (component_ok_spec _ _ Hc).
  rewrite (u32_id (Z.shiftl x 8)) by (rewrite Z.shiftl_mul_pow2 by lia; lia).
  rewrite lor_disjoint_add by lia. change (2 ^ 8) with 256.
  rewrite (u32_id (16 - cc_length c)) by lia. fold (placed c (x * 256 + x)).
  replace (x * 256 + x) with (257 * x) by lia.
  pose proof (placed_bound 32 c (257 * x) Hc). apply u32_id. lia.
Qed.

Lemma shiftcolor10_placed c v :
  component_ok 32 c = true -> shiftcolor10 c v = placed c (rep10 (v mod 1024)).
Proof.
  intros Hc. unfold shiftcolor10, rep10.
  change 0x3ff with (Z.ones 10). rewrite Z.land_ones by lia. change (2 ^ 10) with 1024.
  pose proof (Z.mod_pos_bound v 1024). set (x := v mod 1024) in *.
  pose proof (component_ok_spec _ _ Hc).
  assert (Z.shiftr x 4 = x / 16) as -> by by rewrite Z.shiftr_div_pow2.
  assert (0 <= x / 16 < 64) by (split; [apply Z.div_pos|apply Z.div_lt_upper_bound]; lia).
  rewrite (u32_id (Z.shiftl x 6)) by (rewrite Z.shiftl_mul_pow2 by lia; lia).
  rewrite lor_disjoint_add by lia. change (2 ^ 6) with 64.
  rewrite (u32_id (16 - cc_length c)) by lia. fold (placed c (x * 64 + x / 16)).
  replace (x * 64 + x / 16) with (64 * x + x / 16) by lia.
  pose proof (placed_bound 32 c (64 * x + x / 16) Hc). apply u32_id. lia.
Qed.

Lemma shiftcolor16_placed c v :
  component_ok 64 c = true -> shiftcolor16 c v = placed c (v mod 65536).
Proof.
  intros Hc. unfold shiftcolor16.
  change 0xffff with (Z.ones 16). rewrite Z.land_ones by lia. change (2 ^ 16) with 65536.
  pose proof (Z.mod_pos_bound v 65536). set (x := v mod 65536) in *.
  pose proof (component_ok_spec _ _ Hc).
  rewrite (u32_id (16 - cc_length c)) by lia. fold (placed c x).
  pose proof (placed_bound 64 c x Hc). apply u64_id. lia.
Qed.

Lemma rgb_ok_components w i :
  rgb_ok w i = true ->
  component_ok w (red i) = true /\ component_ok w (green i) = true /\
  component_ok w (blue i) = true /\ component_ok w (alpha i) = true.
Proof. unfold rgb_ok. rewrite !andb_true_iff. tauto. Qed.

Lemma MAKE_RGBA_pack i r g b a :
  rgb_ok 32 i = true ->
  MAKE_RGBA i r g b a =
    pack i (rep8 (r mod 256)) (rep8 (g mod 256)) (rep8 (b mod 256)) (rep8 (a mod 256)).
Proof.
  intros (? & ? & ? & ?)%rgb_ok_components. unfold MAKE_RGBA, pack.
  by rewrite !shiftcolor8_placed.
Qed.

Lemma MAKE_RGBA10_pack i r g b a :
  rgb_ok 32 i = true ->
  MAKE_RGBA10 i r g b a =
    pack i (rep10 (r mod 1024)) (rep10 (g mod 1024)) (rep10 (b mod 1024)) (rep10 (a mod 1024)).
Proof.
  intros (? & ? & ? & ?)%rgb_ok_components. unfold MAKE_RGBA10, pack.
  by rewrite !shiftcolor10_placed.
Qed.

Lemma lor_bound w a b : 0 <= w -> 0 <= a < 2 ^ w -> 0 <= b < 2 ^ w -> 0 <= Z.lor a b < 2 ^ w.
Proof.
  intros Hw Ha Hb. split; [apply Z.lor_nonneg; lia|].
  assert (Z.lor a b = Z.lor a b mod 2 ^ w) as ->.
  { rewrite <- Z.land_ones, Z.land_lor_distr_l, !Z.land_ones, !Z.mod_small by lia. done. }
  apply Z.mod_pos_bound. lia.
Qed.

Lemma component_ok_mono w w' c : w <= w' -> component_ok w c = true -> component_ok w' c = true.
Proof.
  intros Hw Hc. pose proof (component_ok_spec _ _ Hc). unfold component_ok.
  rewrite !andb_true_iff, !Z.leb_le. lia.
Qed.

Lemma rgb_ok_mono w w' i : w <= w' -> rgb_ok w i = true -> rgb_ok w' i = true.
Proof.
  unfold rgb_ok. rewrite !andb_true_iff. intros Hw Hok. destruct_and!.
  repeat split; eauto using component_ok_mono.
Qed.

Lemma pack_bound w i r g b a :
  0 <= w -> rgb_ok w i = true ->
  0 <= r < 65536 -> 0 <= g < 65536 -> 0 <= b < 65536 -> 0 <= a < 65536 ->
  0 <= pack i r g b a < 2 ^ w.
Proof.
  intros Hw (? & ? & ? & ?)%rgb_ok_components ? ? ? ?. unfold pack.
  repeat apply lor_bound; try apply placed_bound; done.
Qed.

Lemma rep8_range v : 0 <= rep8 (v mod 256) < 65536.
Proof. unfold rep8. pose proof (Z.mod_pos_bound v 256). lia. Qed.

Lemma rep10_range v : 0 <= rep10 (v mod 1024) < 65536.
Proof.
  unfold rep10. pose proof (Z.mod_pos_bound v 1024).
  assert (0 <= v mod 1024 / 16 < 64) by (split; [apply Z.div_pos|apply Z.div_lt_upper_bound]; lia).
  lia.
Qed.

(** Packing four 8-bit channels into a pixel of [w <= 32] bits whose
    components fit and do not overlap loses nothing but low bits: each component of the
    pixel reads back as its channel, widened by repeating the byte and cut to the
    component's width, and the pixel fits its [w] bits. *)
Theorem MAKE_RGBA_fields w i r g b a :
  0 <= w <= 32 -> rgb_ok w i = true ->
  0 <= r < 256 -> 0 <= g < 256 -> 0 <= b < 256 -> 0 <= a < 256 ->
  let p := MAKE_RGBA i r g b a in
  field (red i) p = Z.shiftr (257 * r) (16 - cc_length (red i)) /\
  field (green i) p = Z.shiftr (257 * g) (16 - cc_length (green i)) /\
  field (blue i) p = Z.shiftr (257 * b) (16 - cc_length (blue i)) /\
  field (alpha i) p = Z.shiftr (257 * a) (16 - cc_length (alpha i)) /\
  0 <= p < 2 ^ w.
Proof.
  intros Hw Hok Hr Hg Hb Ha. simpl.
  rewrite MAKE_RGBA_pack by (by apply (rgb_ok_mono w); [lia|]).
  rewrite !Z.mod_small by lia. fold (rep8 r) (rep8 g) (rep8 b) (rep8 a).
  destruct (pack_fields w i (rep8 r) (rep8 g) (rep8 b) (rep8 a) Hok)
    as (-> & -> & -> & ->); try (unfold rep8; lia).
  do 4 (split; [done|]). apply pack_bound; try done; unfold rep8; lia.
Qed.

Lemma MAKE_RGBA_fields_witness :
  let p := MAKE_RGBA (rgb (info_of DRM_FORMAT_RGB565)) 192 19 76 255 in
  field (red (rgb (info_of DRM_FORMAT_RGB565))) p = 24 /\ 0 <= p < 2 ^ 16.
Proof.
  destruct (MAKE_RGBA_fields 16 (rgb (info_of DRM_FORMAT_RGB565)) 192 19 76 255)
    as (Hr & _ & _ & _ & Hp); [lia|reflexivity|lia..|]. split; [exact Hr|exact Hp].
Defined.

(** The BT.601 conversion of 8-bit channels stays in the video range, so
    storing its results in [unsigned char] truncates nothing. *)
Theorem MAKE_YUV_601_video_range r g b :
  0 <= r < 256 -> 0 <= g < 256 -> 0 <= b < 256 ->
  let c := MAKE_YUV_601 r g b in
  16 <= cy c <= 235 /\ 16 <= cu c <= 240 /\ 16 <= cv c <= 240 /\
  cy c = MAKE_YUV_601_Y r g b /\ cu c = MAKE_YUV_601_U r g b /\ cv c = MAKE_YUV_601_V r g b.
Proof.
  intros Hr Hg Hb. simpl. unfold MAKE_YUV_601_Y, MAKE_YUV_601_U, MAKE_YUV_601_V.
  rewrite !Z.shiftr_div_pow2 by lia. change (2 ^ 8) with 256.
  rewrite !u8_id by (Z.to_euclidean_division_equations; lia).
  repeat split; Z.to_euclidean_division_equations; lia.
Qed.

Lemma MAKE_YUV_601_video_range_witness : 16 <= cy (MAKE_YUV_601 255 255 255) <= 235.
Proof. apply (MAKE_YUV_601_video_range 255 255 255); lia. Defined.

(** The value of a finite, non-negative half float, in units of its smallest step
    [2^-24]. *)
Definition half_units (h : Z) : Z :=
  let e := Z.shiftr h 10 in let m := Z.land h 0x3ff in
  if e =? 0 then m else (1024 + m) * 2 ^ (e - 1).

Lemma half_units_normal e m :
  1 <= e -> 0 <= m < 1024 -> half_units (1024 * e + m) = (1024 + m) * 2 ^ (e - 1).
Proof.
  intros He Hm. unfold half_units. change 0x3ff with (Z.ones 10).
  rewrite Z.land_ones, Z.shiftr_div_pow2 by lia. change (2 ^ 10) with 1024.
  rewrite <- (Z.div_unique_pos _ 1024 e m), <- (Z.mod_unique_pos _ 1024 e m) by lia.
  by rewrite (proj2 (Z.eqb_neq e 0)) by lia.
Qed.

Lemma half_units_normal_next e m :
  1 <= e -> 0 <= m < 1024 -> half_units (1024 * e + m + 1) = (1024 + m + 1) * 2 ^ (e - 1).
Proof.
  intros He Hm. destruct (decide (m = 1023)) as [->|].
  - replace (1024 * e + 1023 + 1) with (1024 * (e + 1) + 0) by lia.
    rewrite half_units_normal by lia. replace (e + 1 - 1) with (1 + (e - 1)) by lia.
    rewrite Z.pow_add_r by lia. lia.
  - replace (1024 * e + m + 1) with (1024 * e + (m + 1)) by lia.
    rewrite half_units_normal by lia. lia.
Qed.

(** The normal case, [v] between two powers of two. *)
Lemma half_normal L v :
  2 <= L <= 15 -> 2 ^ L <= v < 2 ^ (L + 1) ->
  uint16_div_64k_to_half v = 1024 * (L - 1) + (v - 2 ^ L) * 2 ^ (16 - L) / 64.
Proof.
  intros HL Hv. unfold uint16_div_64k_to_half, clz32.
  assert (Z.log2 v = L) as -> by (apply Z.log2_unique; rewrite <- ?Z.add_1_r; lia).
  assert (0 < 2 ^ (16 - L)) by (apply Z.pow_pos_nonneg; lia).
  assert (4 <= 2 ^ L) by (change 4 with (2 ^ 2); apply Z.pow_le_mono_r; lia).
  rewrite (proj2 (Z.ltb_ge v 4)) by lia.
  replace (31 - L - 16 + 1) with (16 - L) by lia. replace (14 - (31 - L - 16)) with (L - 1) by lia.
  assert (Hpow : 2 ^ L * 2 ^ (16 - L) = 65536)
    by (rewrite <- Z.pow_add_r by lia; replace (L + (16 - L)) with 16 by lia; done).
  assert (2 ^ (L + 1) = 2 * 2 ^ L) by (rewrite Z.pow_add_r by lia; lia).
  rewrite (Z.shiftl_mul_pow2 v) by lia.
  generalize dependent (2 ^ (16 - L)). intros B HB HAB.
  generalize dependent (2 ^ (L + 1)). intros A2 HvA ->.
  generalize dependent (2 ^ L). intros A HvA HA HAB.
  rewrite u32_id by nia.
  change 0xffff with (Z.ones 16). rewrite Z.land_ones by lia. change (2 ^ 16) with 65536.
  assert (v * B mod 65536 = (v - A) * B) as ->.
  { symmetry. apply (Z.mod_unique_pos _ _ 1); nia. }
  set (x := (v - A) * B). assert (0 <= x < 65536) by (subst x; nia).
  rewrite Z.shiftr_div_pow2 by lia. change (2 ^ 6) with 64.
  assert (0 <= x / 64 < 2 ^ 10) by (split; [apply Z.div_pos|apply Z.div_lt_upper_bound]; lia).
  rewrite lor_disjoint_add by lia. change (2 ^ 10) with 1024 in *. rewrite u16_id by lia. lia.
Qed.

(** C38: [uint16_div_64k_to_half] rounds [v / 65536] towards zero: the half float it
    returns is the largest one not above [v / 65536] (both sides in units of [2^-24]),
    and it is below 1.0. *)
Theorem uint16_div_64k_to_half_rounds_down v :
  0 <= v < 65536 ->
  let h := uint16_div_64k_to_half v in
  0 <= h < 0x3c00 /\ half_units h <= v * 256 < half_units (h + 1).
Proof.
  intros Hv. simpl. destruct (Z.ltb_spec v 4) as [Hlt|Hge].
  { unfold uint16_div_64k_to_half.
    assert (v = 0 \/ v = 1 \/ v = 2 \/ v = 3) as [->|[->|[->| ->]]] by lia;
      vm_compute; repeat split; congruence. }
  set (L := Z.log2 v).
  pose proof (Z.log2_spec v) as Hlog. fold L in Hlog.
  assert (2 <= L) by (change 2 with (Z.log2 4); apply Z.log2_le_mono; lia).
  assert (L <= 15) by (change 15 with (Z.log2 65535); apply Z.log2_le_mono; lia).
  rewrite (half_normal L) by (rewrite <- ?Z.add_1_r in Hlog; lia).
  assert (Hcases : L = 2 \/ L = 3 \/ L = 4 \/ L = 5 \/ L = 6 \/ L = 7 \/ L = 8 \/ L = 9 \/ L = 10 \/
    L = 11 \/ L = 12 \/ L = 13 \/ L = 14 \/ L = 15) by lia.
  rewrite <- Z.add_1_r in Hlog. clearbody L.
  set (m := (v - 2 ^ L) * 2 ^ (16 - L) / 64).
  assert (Hm : 0 <= m < 1024 /\ (1024 + m) * 2 ^ (L - 2) <= v * 256 < (1024 + m + 1) * 2 ^ (L - 2)).
  { subst m. destruct_or! Hcases; subst L; simpl in *; Z.to_euclidean_division_equations; lia. }
  clearbody m. split; [lia|].
  rewrite (half_units_normal (L - 1) m), (half_units_normal_next (L - 1) m) by lia.
  replace (L - 1 - 1) with (L - 2) by lia. lia.
Qed.

Lemma uint16_div_64k_to_half_rounds_down_witness :
  uint16_div_64k_to_half 0xC000 = 0x3a00 /\ half_units (uint16_div_64k_to_half 0xC001) <= 0xC001 * 256.
Proof.
  split; [reflexivity|]. apply (uint16_div_64k_to_half_rounds_down 0xC001). lia.
Defined.

(** * Pixels that show a colour *)

(** Each component of the pixel [p] holds the channel [c], given in 16 bits, cut to the
    component's width. *)
Definition shows (i : util_rgb_info) (c : Z * Z * Z * Z) (p : Z) : Prop :=
  let '(r, g, b, a) := c in
  field (red i) p = Z.shiftr r (16 - cc_length (red i)) /\
  field (green i) p = Z.shiftr g (16 - cc_length (green i)) /\
  field (blue i) p = Z.shiftr b (16 - cc_length (blue i)) /\
  field (alpha i) p = Z.shiftr a (16 - cc_length (alpha i)).

(** A function of the channels, applied to all four. *)
Definition channels (f : Z -> Z) (c : Z * Z * Z * Z) : Z * Z * Z * Z :=
  let '(r, g, b, a) := c in (f r, f g, f b, f a).

Definition byte_channels (c : Z * Z * Z * Z) : Prop :=
  let '(r, g, b, a) := c in 0 <= r < 256 /\ 0 <= g < 256 /\ 0 <= b < 256 /\ 0 <= a < 256.

Lemma MAKE_RGBA_shows w i r g b a :
  0 <= w <= 32 -> rgb_ok w i = true -> byte_channels (r, g, b, a) ->
  shows i (channels rep8 (r, g, b, a)) (wrap w (MAKE_RGBA i r g b a)).
Proof.
  intros Hw Hok (Hr & Hg & Hb & Ha).
  rewrite MAKE_RGBA_pack by (by apply (rgb_ok_mono w); [lia|]).
  rewrite !(Z.mod_small _ 256) by lia. unfold wrap. rewrite Z.mod_small.
  - apply (pack_fields w); [done|unfold rep8; lia..].
  - apply pack_bound; [lia|done|unfold rep8; lia..].
Qed.

(** The alpha argument 0 of a 24-bit pixel is as good as any: there is no alpha component. *)
Lemma MAKE_RGB24_shows i r g b a :
  rgb_ok 24 i = true -> cc_length (alpha i) = 0 -> byte_channels (r, g, b, a) ->
  shows i (channels rep8 (r, g, b, a)) (MAKE_RGB24 i r g b).
Proof.
  intros Hok Hl (Hr & Hg & Hb & Ha).
  destruct (MAKE_RGBA_shows 24 i r g b 0 ltac:(lia) Hok ltac:(simpl; lia))
    as (Hr' & Hg' & Hb' & _).
  unfold MAKE_RGB24. repeat split; [done..|]. unfold field. rewrite Hl.
  change (Z.ones 0) with 0. rewrite Z.land_0_r.
  rewrite Z.shiftr_div_pow2 by lia. rewrite Z.div_small by (unfold rep8; simpl; lia). done.
Qed.

Lemma half_range v : 0 <= uint16_div_64k_to_half v < 65536.
Proof. unfold uint16_div_64k_to_half. case_match; apply u16_range. Qed.

Definition half8 (c : Z) : Z := uint16_div_64k_to_half (256 * c).
Definition half10 (c : Z) : Z := uint16_div_64k_to_half (64 * c).

Lemma MAKE_RGBA8FP16_shows i r g b a :
  rgb_ok 64 i = true -> byte_channels (r, g, b, a) ->
  shows i (channels half8 (r, g, b, a)) (wrap 64 (MAKE_RGBA8FP16 i r g b a)).
Proof.
  intros Hok (Hr & Hg & Hb & Ha). pose proof (rgb_ok_components _ _ Hok) as (? & ? & ? & ?).
  unfold MAKE_RGBA8FP16. rewrite !shiftcolor16_placed by done.
  assert (forall c, 0 <= c < 256 -> uint16_div_64k_to_half (u16 (Z.shiftl c 8)) mod 65536 = half8 c)
    as Hhalf.
  { intros c Hc. rewrite Z.shiftl_mul_pow2, u16_id by lia. unfold half8.
    rewrite Z.mod_small by apply half_range. f_equal. lia. }
  rewrite !Hhalf by done. unfold wrap.
  change (Z.lor _ _) with (pack i (half8 r) (half8 g) (half8 b) (half8 a)).
  rewrite Z.mod_small by (apply pack_bound; [done|done|apply half_range..]).
  apply (pack_fields 64); [done|apply half_range..].
Qed.

Lemma MAKE_RGBA10_shows i v :
  rgb_ok 32 i = true -> 0 <= v < 1024 ->
  shows i (channels rep10 (v, v, v, 0)) (wrap 32 (MAKE_RGBA10 i v v v 0)).
Proof.
  intros Hok Hv. rewrite MAKE_RGBA10_pack, !(Z.mod_small _ 1024) by (done || lia).
  pose proof (rep10_range v) as Hr. rewrite Z.mod_small in Hr by lia.
  unfold wrap. rewrite Z.mod_small by (apply pack_bound; done).
  by apply (pack_fields 32).
Qed.

Lemma MAKE_RGBA10FP16_shows i v :
  rgb_ok 64 i = true -> 0 <= v < 1024 ->
  shows i (channels half10 (v, v, v, 0)) (wrap 64 (MAKE_RGBA10FP16 i v v v 0)).
Proof.
  intros Hok Hv. pose proof (rgb_ok_components _ _ Hok) as (? & ? & ? & ?).
  unfold MAKE_RGBA10FP16. rewrite !shiftcolor16_placed by done.
  assert (forall c, 0 <= c < 1024 -> uint16_div_64k_to_half (u16 (Z.shiftl c 6)) mod 65536 = half10 c)
    as Hhalf.
  { intros c Hc. rewrite Z.shiftl_mul_pow2, u16_id by lia. unfold half10.
    rewrite Z.mod_small by apply half_range. f_equal. lia. }
  rewrite !Hhalf by lia. unfold wrap.
  change (Z.lor _ _) with (pack i (half10 v) (half10 v) (half10 v) (half10 0)).
  rewrite Z.mod_small by (apply pack_bound; [done|done|apply half_range..]).
  apply (pack_fields 64); [done|apply half_range..].
Qed.
