(* ===== verification/Smpte.v ===== *)
(** The SMPTE colour-bar pattern of drm/util/pattern.c.  Every [fill_smpte_*] function is
    the same scan over three bands of lines; [smpte_bands] is that scan, with the store of
    one sample and the step to the next line as arguments. *)
From Stdlib Require Import ZArith Lia.
From stdpp Require Import base list numbers strings.
From S2P Require Import Prelude Mem Raster Format Color.

Inductive band := Top | Middle | Bottom.

#[global] Instance band_eq_dec : EqDecision band.
Proof. solve_decision. Defined.

(** * The scan *)
Section Bands.
Context {St : Type}.
(** Columns between two samples; width and height in samples and lines. *)
Context (step width height : Z).
(** Store the sample of column [x] from entry [i] of the colours of a band; go to the
    next line. *)
Context (put : band -> Z -> Z -> St -> outcome St) (next : St -> outcome St).

(** [for (x = 0; x < width; x += step) PUT(colors[x * 7 / width]);  mem += stride;] *)
Definition smpte_line (b : band) (s : St) : outcome St :=
  '(_, s) ← for_lt width step (fun x s => i ← divu (u32 (x * 7)) width; put b x i s) 0 s;
  next s.

(** The three consecutive loops over the columns of a line of the bottom band. *)
Definition smpte_bottom_line (s : St) : outcome St :=
  let w5 := u32 (width * 5) / 7 in
  let w6 := u32 (width * 6) / 7 in
  '(x, s) ← for_lt w5 step (fun x s => i ← divu (u32 (x * 4)) w5; put Bottom x i s) 0 s;
  '(x, s) ← for_lt w6 step (fun x s =>
      i ← divu (u32 (u32 (x - w5) * 3)) (width / 7); put Bottom x (u32 (i + 4)) s) x s;
  '(_, s) ← for_lt width step (fun x s => put Bottom x 7 s) x s;
  next s.

Definition smpte_bands (s : St) : outcome St :=
  '(y, s) ← for_lt (u32 (height * 6) / 9) 1 (fun _ => smpte_line Top) 0 s;
  '(y, s) ← for_lt (u32 (height * 7) / 9) 1 (fun _ => smpte_line Middle) y s;
  '(_, s) ← for_lt height 1 (fun _ => smpte_bottom_line) y s;
  Ok s.
End Bands.

(** What the pattern means: the band of a line and the colour of a column. *)
Definition bottom_index (w x : Z) : Z :=
  if x <? w * 5 / 7 then x * 4 / (w * 5 / 7)
  else if x <? w * 6 / 7 then (x - w * 5 / 7) * 3 / (w / 7) + 4
  else 7.

Definition smpte_cell (w h y x : Z) : band * Z :=
  if y <? h * 6 / 9 then (Top, x * 7 / w)
  else if y <? h * 7 / 9 then (Middle, x * 7 / w)
  else (Bottom, bottom_index w x).

(** Sizes the code handles: no product wraps, and the three columns 5/7..6/7 of the bottom
    band are not empty of a divisor ([width / 7] is 0 below 7, which matters from 4 on). *)
Definition smpte_dims (w h : Z) : Prop :=
  0 <= w /\ 0 <= h /\ w * 7 < 4294967296 /\ h * 7 < 4294967296 /\ (w <= 3 \/ 7 <= w).

(** Entries per colour table. *)
Definition band_colours (b : band) : Z := match b with Bottom => 8 | _ => 7 end.

Lemma flat_index_range w x : 0 <= x < w -> 0 <= x * 7 / w < 7.
Proof. intros. split; [apply Z.div_pos; lia|]. apply Z.div_lt_upper_bound; lia. Qed.

Lemma bottom_index_range w x : 0 <= x < w -> w <= 3 \/ 7 <= w -> 0 <= bottom_index w x < 8.
Proof.
  intros Hx Hw. unfold bottom_index.
  destruct (Z.ltb_spec x (w * 5 / 7)) as [H5|H5].
  { split; [apply Z.div_pos; lia|]. apply Z.div_lt_upper_bound; lia. }
  destruct (Z.ltb_spec x (w * 6 / 7)); [|lia].
  destruct Hw as [Hw|Hw].
  - exfalso. Z.to_euclidean_division_equations; lia.
  - assert (0 <= x - w * 5 / 7 <= w / 7) by (Z.to_euclidean_division_equations; lia).
    assert (1 <= w / 7) by (Z.to_euclidean_division_equations; lia).
    assert (0 <= (x - w * 5 / 7) * 3 / (w / 7) <= 3).
    { split; [apply Z.div_pos; lia|]. apply Z.lt_succ_r, Z.div_lt_upper_bound; lia. }
    lia.
Qed.

Lemma smpte_cell_range w h y x b i :
  smpte_dims w h -> 0 <= x < w -> smpte_cell w h y x = (b, i) -> 0 <= i < band_colours b.
Proof.
  intros (? & ? & ? & ? & ?) Hx. unfold smpte_cell.
  repeat case_match; intros [= <- <-]; simpl;
    auto using flat_index_range, bottom_index_range.
Qed.

(** The rule for the scan: [Q y x] holds before the sample of line [y] and column [x]. *)
Section BandsRule.
Context {St : Type} (step w h : Z).
Context (put : band -> Z -> Z -> St -> outcome St) (next : St -> outcome St).
Context (Q : Z -> Z -> St -> Prop).
Context (Hstep : 1 <= step) (Hfit : w + step <= 4294967296) (Hdims : smpte_dims w h).
Context (Hput : forall y x s b i, 0 <= y < h -> 0 <= x < w -> (step | x) ->
  smpte_cell w h y x = (b, i) -> Q y x s -> returns (put b x i s) (Q y (x + step))).
Context (Hnext : forall y x s, 0 <= y < h -> w <= x -> Q y x s ->
  returns (next s) (Q (y + 1) 0)).

Lemma smpte_line_returns b y s :
  0 <= y < h -> (forall x, smpte_cell w h y x = (b, x * 7 / w)) -> Q y 0 s ->
  returns (smpte_line step w put next b s) (Q (y + 1) 0).
Proof using Hstep Hfit Hdims Hput Hnext.
  destruct Hdims as (? & ? & ? & ? & ?). intros Hy Hcell HQ. unfold smpte_line.
  rstep (for_lt_returns (fun x s => (step | x) /\ Q y x s)); [lia..| | |].
  - split; [apply Z.divide_0_r|done].
  - intros x s' Hx [Hdiv HQ']. rewrite u32_id, divu_ok by lia. simpl.
    eapply returns_mono; [by apply (Hput y x); auto|].
    intros s'' HQ''. split; [by apply Z.divide_add_r; [|apply Z.divide_refl]|done].
  - intros [x s'] (Hx & _ & _ & HQ'). by apply (Hnext y x).
Qed.

Lemma smpte_bottom_line_returns y s :
  h * 7 / 9 <= y < h -> Q y 0 s ->
  returns (smpte_bottom_line step w put next s) (Q (y + 1) 0).
Proof using Hstep Hfit Hdims Hput Hnext.
  pose proof Hdims as (? & ? & ? & ? & Hw). intros Hy HQ. unfold smpte_bottom_line.
  rewrite !u32_id by lia.
  assert (Hy0 : 0 <= y < h) by (Z.to_euclidean_division_equations; lia).
  assert (Hcell : forall x, smpte_cell w h y x = (Bottom, bottom_index w x)).
  { intros x. unfold smpte_cell.
    rewrite !(proj2 (Z.ltb_ge _ _)) by (Z.to_euclidean_division_equations; lia). done. }
  assert (Hw5 : 0 <= w * 5 / 7 <= w) by (Z.to_euclidean_division_equations; lia).
  assert (Hw6 : w * 5 / 7 <= w * 6 / 7 <= w) by (Z.to_euclidean_division_equations; lia).
  assert (Hadd : forall x, (step | x) -> (step | x + step))
    by (intros; apply Z.divide_add_r; [done|apply Z.divide_refl]).
  rstep (for_lt_returns (fun x s => (step | x) /\ Q y x s)); [lia..| | |].
  { split; [apply Z.divide_0_r|done]. }
  { intros x s' Hx [Hdiv HQ']. rewrite u32_id, divu_ok by lia. simpl.
    eapply returns_mono; [apply (Hput y x); [lia|lia|done| |done]|auto].
    rewrite Hcell. unfold bottom_index. by rewrite (proj2 (Z.ltb_lt _ _)) by lia. }
  intros [x1 s1] (Hx1 & _ & Hdiv1 & HQ1).
  rstep (for_lt_returns (fun x s => (step | x) /\ Q y x s)); [lia..|done| |].
  { intros x s' Hx [Hdiv HQ'].
    assert (Hb : 0 <= bottom_index w x < 8) by (apply bottom_index_range; lia).
    assert (Hw7 : w / 7 <> 0).
    { destruct Hw as [Hw|Hw]; [|Z.to_euclidean_division_equations; lia].
      exfalso. Z.to_euclidean_division_equations; lia. }
    rewrite (u32_id (x - w * 5 / 7)), u32_id, divu_ok by lia. simpl.
    unfold bottom_index in Hb.
    rewrite (proj2 (Z.ltb_ge _ _)), (proj2 (Z.ltb_lt _ _)) in Hb by lia.
    rewrite u32_id by lia.
    eapply returns_mono; [apply (Hput y x); [lia|lia|done| |done]|auto].
    rewrite Hcell. unfold bottom_index.
    by rewrite (proj2 (Z.ltb_ge _ _)), (proj2 (Z.ltb_lt _ _)) by lia. }
  intros [x2 s2] (Hx2 & _ & Hdiv2 & HQ2).
  rstep (for_lt_returns (fun x s => (step | x) /\ Q y x s)); [lia..|done| |].
  { intros x s' Hx [Hdiv HQ'].
    eapply returns_mono; [apply (Hput y x); [lia|lia|done| |done]|auto].
    rewrite Hcell. unfold bottom_index.
    by rewrite !(proj2 (Z.ltb_ge _ _)) by lia. }
  intros [x3 s3] (Hx3 & _ & _ & HQ3). by apply (Hnext y x3).
Qed.

Theorem smpte_bands_returns s :
  Q 0 0 s -> returns (smpte_bands step w h put next s) (Q h 0).
Proof using Hstep Hfit Hdims Hput Hnext.
  pose proof Hdims as (? & ? & ? & ? & Hw). intros HQ. unfold smpte_bands.
  rewrite !u32_id by lia.
  assert (0 <= h * 6 / 9 <= h * 7 / 9) by (Z.to_euclidean_division_equations; lia).
  assert (h * 7 / 9 <= h) by (Z.to_euclidean_division_equations; lia).
  rstep (for_lt_returns1 (fun y => Q y 0)); [lia..|done| |].
  { intros y s' Hy HQ'. apply smpte_line_returns; [lia| |done]. intros x.
    unfold smpte_cell. by rewrite (proj2 (Z.ltb_lt _ _)) by lia. }
  intros [y1 s1] [-> HQ1].
  rstep (for_lt_returns1 (fun y => Q y 0)); [lia..|done| |].
  { intros y s' Hy HQ'. apply smpte_line_returns; [lia| |done]. intros x.
    unfold smpte_cell. by rewrite (proj2 (Z.ltb_ge _ _)), (proj2 (Z.ltb_lt _ _)) by lia. }
  intros [y2 s2] [-> HQ2].
  rstep (for_lt_returns1 (fun y => Q y 0)); [lia..|done| |].
  { intros y s' Hy HQ'. apply smpte_bottom_line_returns; [lia|done]. }
  intros [y3 s3] [-> HQ3]. simpl. by replace (Z.max _ h) with h in HQ3 by lia.
Qed.
End BandsRule.

(** * The colours of the bars *)

(** The channel values the RGB tables are built from; the last one is alpha. *)
Definition smpte_rgba (b : band) : list (Z * Z * Z * Z) :=
  match b with
  | Top => [(192, 192, 192, 255); (192, 192, 0, 255); (0, 192, 192, 255); (0, 192, 0, 255);
            (192, 0, 192, 255); (192, 0, 0, 255); (0, 0, 192, 255)]
  | Middle => [(0, 0, 192, 127); (19, 19, 19, 127); (192, 0, 192, 127); (19, 19, 19, 127);
               (0, 192, 192, 127); (19, 19, 19, 127); (192, 192, 192, 127)]
  | Bottom => [(0, 33, 76, 255); (255, 255, 255, 255); (50, 0, 106, 255); (19, 19, 19, 255);
               (9, 9, 9, 255); (19, 19, 19, 255); (29, 29, 29, 255); (19, 19, 19, 255)]
  end.

(** The tables of the YUV functions; their first grey is (191, 192, 192). *)
Definition smpte_yuv (b : band) : list color_yuv :=
  match b with
  | Top => [MAKE_YUV_601 191 192 192; MAKE_YUV_601 192 192 0; MAKE_YUV_601 0 192 192;
            MAKE_YUV_601 0 192 0; MAKE_YUV_601 192 0 192; MAKE_YUV_601 192 0 0;
            MAKE_YUV_601 0 0 192]
  | Middle => [MAKE_YUV_601 0 0 192; MAKE_YUV_601 19 19 19; MAKE_YUV_601 192 0 192;
               MAKE_YUV_601 19 19 19; MAKE_YUV_601 0 192 192; MAKE_YUV_601 19 19 19;
               MAKE_YUV_601 192 192 192]
  | Bottom => [MAKE_YUV_601 0 33 76; MAKE_YUV_601 255 255 255; MAKE_YUV_601 50 0 106;
               MAKE_YUV_601 19 19 19; MAKE_YUV_601 9 9 9; MAKE_YUV_601 19 19 19;
               MAKE_YUV_601 29 29 29; MAKE_YUV_601 19 19 19]
  end.

(** * Packed pixels: [((T * )mem)[x] = colors[i]] with [n = sizeof(T)] *)

Definition fill_smpte_pixels (n : nat) (colours : band -> list Z) (m : mem)
    (base width height stride : Z) : outcome mem :=
  '(m, _) ← smpte_bands 1 width height
    (fun b x i '(m, p) =>
       c ← array_get (colours b) i;
       m ← store_le n m (p + Z.of_nat n * x) c;
       Ok (m, p))
    (fun '(m, p) => Ok (m, p + stride)) (m, base);
  Ok m.

Definition rgb16_colours (i : util_rgb_info) (b : band) : list Z :=
  (fun '(r, g, bl, a) => u16 (MAKE_RGBA i r g bl a)) <$> smpte_rgba b.
Definition rgb24_colours (i : util_rgb_info) (b : band) : list Z :=
  (fun '(r, g, bl, _) => MAKE_RGB24 i r g bl) <$> smpte_rgba b.
Definition rgb32_colours (i : util_rgb_info) (b : band) : list Z :=
  (fun '(r, g, bl, a) => MAKE_RGBA i r g bl a) <$> smpte_rgba b.
Definition rgb16fp_colours (i : util_rgb_info) (b : band) : list Z :=
  (fun '(r, g, bl, a) => MAKE_RGBA8FP16 i r g bl a) <$> smpte_rgba b.
Definition fill_smpte_rgb16 i := fill_smpte_pixels 2 (rgb16_colours i).
Definition fill_smpte_rgb24 i := fill_smpte_pixels 3 (rgb24_colours i).
Definition fill_smpte_rgb32 i := fill_smpte_pixels 4 (rgb32_colours i).
Definition fill_smpte_rgb16fp i := fill_smpte_pixels 8 (rgb16fp_colours i).

(** Indices into the gamma table: [i], [7 + i] and [14 + i]. *)
Definition c8_index (b : band) (i : Z) : Z :=
  match b with Top => i | Middle => 7 + i | Bottom => 14 + i end.

Definition fill_smpte_c8 (m : mem) (base width height stride : Z) : outcome mem :=
  '(m, _) ← smpte_bands 1 width height
    (fun b x i '(m, p) => m ← store_le 1 m (p + x) (c8_index b i); Ok (m, p))
    (fun '(m, p) => Ok (m, p + stride)) (m, base);
  Ok m.

(** * YUV *)

Definition fill_smpte_yuv_planar (yuv : util_yuv_info) (m : mem) (y_mem u_mem v_mem : Z)
    (width height stride : Z) : outcome mem :=
  let cs := chroma_stride yuv in
  (* Luma *)
  '(m, _) ← smpte_bands 1 width height
    (fun b x i '(m, yp) =>
       c ← array_get (smpte_yuv b) i; m ← store8 m (yp + x) (cy c); Ok (m, yp))
    (fun '(m, yp) => Ok (m, yp + stride)) (m, y_mem);
  (* Chroma *)
  hc ← divu height (ysub yuv);
  '(m, _, _) ← smpte_bands (xsub yuv) width hc
    (fun b x i '(m, up, vp) =>
       o ← divu (u32 (x * cs)) (xsub yuv);
       c ← array_get (smpte_yuv b) i;
       m ← store8 m (up + o) (cu c);
       m ← store8 m (vp + o) (cv c);
       Ok (m, up, vp))
    (fun '(m, up, vp) =>
       d ← divu (u32 (stride * cs)) (xsub yuv); Ok (m, up + d, vp + d))
    (m, u_mem, v_mem);
  Ok m.

(** [order & FLAG] as a condition. *)
Definition has_flag (o flag : Z) : bool := negb (Z.land o flag =? 0).

Definition fill_smpte_yuv_packed (yuv : util_yuv_info) (m : mem) (base : Z)
    (width height stride : Z) : outcome mem :=
  let y_mem := if has_flag (order yuv) YUV_YC then base else base + 1 in
  let c_mem := if has_flag (order yuv) YUV_CY then base else base + 1 in
  let u := if has_flag (order yuv) YUV_YCrCb then 2 else 0 in
  let v := if has_flag (order yuv) YUV_YCbCr then 2 else 0 in
  (* Luma *)
  '(m, _) ← smpte_bands 1 width height
    (fun b x i '(m, yp) =>
       c ← array_get (smpte_yuv b) i; m ← store8 m (yp + u32 (2 * x)) (cy c); Ok (m, yp))
    (fun '(m, yp) => Ok (m, yp + stride)) (m, y_mem);
  (* Chroma *)
  '(m, _) ← smpte_bands 2 width height
    (fun b x i '(m, cp) =>
       c ← array_get (smpte_yuv b) i;
       m ← store8 m (cp + u32 (2 * x + u)) (cu c);
       m ← store8 m (cp + u32 (2 * x + v)) (cv c);
       Ok (m, cp))
    (fun '(m, cp) => Ok (m, cp + stride)) (m, c_mem);
  Ok m.

(** * util_smpte_c8_gamma *)

(** struct drm_color_lut, its three used members. *)
Record drm_color_lut := ColorLut { lut_red : Z; lut_green : Z; lut_blue : Z }.

(** The colours of FILL_COLOR, in the order of their indices. *)
Definition c8_palette : list (Z * Z * Z) :=
  [(192, 192, 192); (192, 192, 0); (0, 192, 192); (0, 192, 0); (192, 0, 192); (192, 0, 0); (0, 0, 192);
   (0, 0, 192); (19, 19, 19); (192, 0, 192); (19, 19, 19); (0, 192, 192); (19, 19, 19); (192, 192, 192);
   (0, 33, 76); (255, 255, 255); (50, 0, 106); (19, 19, 19); (9, 9, 9); (19, 19, 19); (29, 29, 29); (19, 19, 19)].

(** FILL_COLOR(idx, r, g, b), a store into the table of [size] entries. *)
Fixpoint fill_colors (lut : list drm_color_lut) (idx : nat) (cs : list (Z * Z * Z))
    : list drm_color_lut :=
  match cs with
  | [] => lut
  | (r, g, b) :: cs =>
      fill_colors (<[idx := ColorLut (u16 (Z.shiftl r 8)) (u16 (Z.shiftl g 8)) (u16 (Z.shiftl b 8))]> lut)
        (S idx) cs
  end.

(** Too small a table is left alone (an error is printed); else it is cleared and filled. *)
Definition util_smpte_c8_gamma (size : Z) (lut : list drm_color_lut) : list drm_color_lut :=
  if size <? 7 + 7 + 8 then lut
  else fill_colors (replicate (Z.to_nat size) (ColorLut 0 0 0) ++ drop (Z.to_nat size) lut)
         0 c8_palette.

(** * What the packed-pixel functions paint *)

Definition cell_colour (colours : band -> list Z) (w h y x : Z) : Z :=
  let '(b, i) := smpte_cell w h y x in default 0 (colours b !! Z.to_nat i).

(** A scan whose [put] stores, at [p + n * x], the colour of the cell. *)
Lemma smpte_pixels_paint n (colour : band -> Z -> Z) put m base w h stride :
  (forall b x i m p, 0 <= i < band_colours b ->
     put b x i (m, p) = (m ← store_le n m (p + Z.of_nat n * x) (colour b i); Ok (m, p))) ->
  smpte_dims w h -> 0 <= base -> Z.of_nat n * w <= stride -> base + h * stride <= msize m ->
  returns (smpte_bands 1 w h put (fun '(m, p) => Ok (m, p + stride)) (m, base))
    (fun '(m', _) =>
       painted base stride n w h (fun y x => uncurry colour (smpte_cell w h y x)) m m').
Proof.
  intros Hput Hdims Hbase Hline Hsize. pose proof Hdims as (? & ? & ? & ? & _).
  eapply returns_mono.
  - apply (smpte_bands_returns 1 w h put _ (fun y x '(m', p) =>
      p = base + y * stride /\
      raster base stride (Z.of_nat n) n (fun y x => uncurry colour (smpte_cell w h y x)) m
        (scanned w y x) m')); [lia|lia|done| | |].
    + intros y x [m' p] b i Hy Hx _ Hcell [-> Hr].
      rewrite Hput by by eapply smpte_cell_range.
      pose proof (raster_scan base stride (Z.of_nat n) n w
        (fun y x => uncurry colour (smpte_cell w h y x)) m) as Hscan.
      apply returns_bind. eapply returns_mono.
      * specialize (Hscan Hbase ltac:(nia) ltac:(lia) Hline m' y x Hx ltac:(lia)).
        cbv beta in Hscan. rewrite Hcell in Hscan. apply Hscan; [|exact Hr].
        unfold pixel_addr. nia.
      * intros m'' Hm''. simpl. split; [done|exact Hm''].
    + intros y x [m' p] Hy Hx [-> Hr]. simpl. split; [lia|].
      eapply raster_next_line; [done|lia|exact Hr].
    + split; [lia|]. apply raster_start.
  - intros [m' p] [_ Hr]. by apply raster_painted.
Qed.

Lemma fill_smpte_pixels_paints n colours m base w h stride :
  (forall b, Z.of_nat (length (colours b)) = band_colours b) ->
  smpte_dims w h -> 0 <= base -> Z.of_nat n * w <= stride -> base + h * stride <= msize m ->
  returns (fill_smpte_pixels n colours m base w h stride)
    (painted base stride n w h (cell_colour colours w h) m).
Proof.
  intros Hlen Hdims Hbase Hline Hsize. unfold fill_smpte_pixels.
  rstep (smpte_pixels_paint n (fun b i => default 0 (colours b !! Z.to_nat i))); try done.
  - intros b x i m' p Hi.
    destruct (array_get_ok (colours b) i) as (c & -> & Hc); [by rewrite Hlen|].
    by rewrite Hc.
  - intros [m' p] Hm'. exact Hm'.
Qed.
