(* ===== verification/SmpteBars.v ===== *)
(** What the SMPTE functions of drm/util/pattern.c put on the screen: every pixel shows
    the colour of its bar, whatever the pixel format, and the indexed picture shows the
    same colours through the gamma table. *)
From Stdlib Require Import ZArith Lia.
From stdpp Require Import base list numbers strings.
From S2P Require Import Prelude Mem Raster Format Color Smpte.

(** The colour of the bar at line [y] and column [x]. *)
Definition smpte_bar (w h y x : Z) : Z * Z * Z * Z :=
  let '(b, i) := smpte_cell w h y x in default (0, 0, 0, 0) (smpte_rgba b !! Z.to_nat i).

(** A raster whose pixels show the colours [c] of a picture in the format [i]. *)
Record shown (n : nat) (i : util_rgb_info) (f : Z -> Z) (c : Z -> Z -> Z * Z * Z * Z)
    (base stride w h : Z) (m0 m : mem) : Prop := {
  shown_size : msize m = msize m0;
  shown_pixel : forall y x, 0 <= y < h -> 0 <= x < w ->
    exists p, load_le n m (base + y * stride + Z.of_nat n * x) = Some p /\
      shows i (channels f (c y x)) p;
  shown_frame : forall a,
    (forall y x k, 0 <= y < h -> 0 <= x < w -> 0 <= k < Z.of_nat n ->
       a <> base + y * stride + Z.of_nat n * x + k) ->
    mem_at m a = mem_at m0 a }.

Lemma painted_shown n i f c base stride w h colour m0 m :
  (forall y x, 0 <= x < w -> shows i (channels f (c y x)) (wrap (8 * Z.of_nat n) (colour y x))) ->
  painted base stride n w h colour m0 m -> shown n i f c base stride w h m0 m.
Proof. intros Hc [Hs Hp Hf]. split; [done| |done]. intros y x Hy Hx. eauto. Qed.

Lemma smpte_rgba_length b : Z.of_nat (length (smpte_rgba b)) = band_colours b.
Proof. by destruct b. Qed.

Lemma smpte_rgba_bytes b k c : smpte_rgba b !! k = Some c -> byte_channels c.
Proof.
  intros Hc%list_elem_of_lookup_2. revert c Hc. apply Forall_forall.
  destruct b; repeat constructor; simpl; lia.
Qed.

Lemma smpte_bar_bytes w h y x :
  smpte_dims w h -> 0 <= x < w -> byte_channels (smpte_bar w h y x).
Proof.
  intros Hdims Hx. unfold smpte_bar. destruct (smpte_cell w h y x) as [b i] eqn:Hcell.
  pose proof (smpte_cell_range _ _ _ _ _ _ Hdims Hx Hcell) as Hi.
  destruct (lookup_lt_is_Some_2 (smpte_rgba b) (Z.to_nat i)) as [c Hc].
  { pose proof (smpte_rgba_length b). lia. }
  rewrite Hc. by eapply smpte_rgba_bytes.
Qed.

(** The colour of a cell in a table made from [smpte_rgba]. *)
Lemma cell_colour_bar colours g w h y x :
  (forall b, colours b = g <$> smpte_rgba b) -> smpte_dims w h -> 0 <= x < w ->
  cell_colour colours w h y x = g (smpte_bar w h y x).
Proof.
  intros Hg Hdims Hx. unfold cell_colour, smpte_bar.
  destruct (smpte_cell w h y x) as [b i] eqn:Hcell.
  pose proof (smpte_cell_range _ _ _ _ _ _ Hdims Hx Hcell) as Hi.
  rewrite Hg, list_lookup_fmap.
  destruct (lookup_lt_is_Some_2 (smpte_rgba b) (Z.to_nat i)) as [c Hc].
  { pose proof (smpte_rgba_length b). lia. }
  by rewrite Hc.
Qed.

(** The common form of the packed-pixel functions: a table computed channel-wise, of
    pixels that show the table's colours. *)
Lemma fill_smpte_pixels_shown n i f g colours m base w h stride :
  (forall b, colours b = g <$> smpte_rgba b) ->
  (forall c, byte_channels c -> shows i (channels f c) (wrap (8 * Z.of_nat n) (g c))) ->
  smpte_dims w h -> 0 <= base -> Z.of_nat n * w <= stride -> base + h * stride <= msize m ->
  returns (fill_smpte_pixels n colours m base w h stride)
    (shown n i f (smpte_bar w h) base stride w h m).
Proof.
  intros Hcol Hg Hdims Hbase Hline Hsize.
  eapply returns_mono; [apply fill_smpte_pixels_paints; try done|].
  - intros b. by rewrite Hcol, length_fmap, smpte_rgba_length.
  - intros m'. apply painted_shown. intros y x Hx.
    rewrite (cell_colour_bar colours g) by done. by apply Hg, smpte_bar_bytes.
Qed.

Section Fills.
Context (i : util_rgb_info) (m : mem) (base w h stride : Z).
Context (Hdims : smpte_dims w h) (Hbase : 0 <= base) (Hsize : base + h * stride <= msize m).

Lemma fill_smpte_rgb16_shown :
  rgb_ok 16 i = true -> 2 * w <= stride ->
  returns (fill_smpte_rgb16 i m base w h stride)
    (shown 2 i rep8 (smpte_bar w h) base stride w h m).
Proof using Hdims Hbase Hsize.
  intros Hok Hline. unfold fill_smpte_rgb16.
  eapply fill_smpte_pixels_shown; [done| |done..].
  intros [[[r g] b] a] Hc. unfold u16. change (8 * Z.of_nat 2) with 16.
  rewrite wrap_wrap by done. by apply MAKE_RGBA_shows.
Qed.

Lemma fill_smpte_rgb24_shown :
  rgb_ok 24 i = true -> cc_length (alpha i) = 0 -> 3 * w <= stride ->
  returns (fill_smpte_rgb24 i m base w h stride)
    (shown 3 i rep8 (smpte_bar w h) base stride w h m).
Proof using Hdims Hbase Hsize.
  intros Hok Hal Hline. unfold fill_smpte_rgb24.
  eapply fill_smpte_pixels_shown; [done| |done..].
  intros [[[r g] b] a] Hc. change (8 * Z.of_nat 3) with 24.
  pose proof (MAKE_RGB24_shows i r g b a Hok Hal Hc) as Hs. unfold MAKE_RGB24 in *.
  by rewrite wrap_wrap.
Qed.

Lemma fill_smpte_rgb32_shown :
  rgb_ok 32 i = true -> 4 * w <= stride ->
  returns (fill_smpte_rgb32 i m base w h stride)
    (shown 4 i rep8 (smpte_bar w h) base stride w h m).
Proof using Hdims Hbase Hsize.
  intros Hok Hline. unfold fill_smpte_rgb32.
  eapply fill_smpte_pixels_shown; [done| |done..].
  intros [[[r g] b] a] Hc. by apply MAKE_RGBA_shows.
Qed.

Lemma fill_smpte_rgb16fp_shown :
  rgb_ok 64 i = true -> 8 * w <= stride ->
  returns (fill_smpte_rgb16fp i m base w h stride)
    (shown 8 i half8 (smpte_bar w h) base stride w h m).
Proof using Hdims Hbase Hsize.
  intros Hok Hline. unfold fill_smpte_rgb16fp.
  eapply fill_smpte_pixels_shown; [done| |done..].
  intros [[[r g] b] a] Hc. by apply MAKE_RGBA8FP16_shows.
Qed.
End Fills.

(** * The indexed picture *)

(** The entry of the gamma table the pixel at line [y] and column [x] selects. *)
Definition smpte_index (w h y x : Z) : Z := uncurry c8_index (smpte_cell w h y x).

Lemma fill_smpte_c8_painted m base w h stride :
  smpte_dims w h -> 0 <= base -> w <= stride -> base + h * stride <= msize m ->
  returns (fill_smpte_c8 m base w h stride) (painted base stride 1 w h (smpte_index w h) m).
Proof.
  intros Hdims Hbase Hline Hsize. unfold fill_smpte_c8.
  rstep (smpte_pixels_paint 1 c8_index); [|done|done|lia|done|].
  - intros b x i m' p _. by rewrite Z.mul_1_l.
  - intros [m' p] Hm'. exact Hm'.
Qed.

Lemma c8_index_range b i : 0 <= i < band_colours b -> 0 <= c8_index b i < 22.
Proof. destruct b; simpl; lia. Qed.

Lemma length_fill_colors lut idx cs : length (fill_colors lut idx cs) = length lut.
Proof.
  revert lut idx. induction cs as [|[[r g] b] cs IH]; intros; simpl; [done|].
  by rewrite IH, length_insert.
Qed.

(** The table after FILL_COLOR of the entries from [idx] on. *)
Definition lut_of (c : Z * Z * Z) : drm_color_lut :=
  let '(r, g, b) := c in
  ColorLut (u16 (Z.shiftl r 8)) (u16 (Z.shiftl g 8)) (u16 (Z.shiftl b 8)).

Lemma fill_colors_lookup cs : forall lut idx k,
  (idx + length cs <= length lut)%nat ->
  fill_colors lut idx cs !! k =
    if decide (idx <= k < idx + length cs)%nat then lut_of <$> cs !! (k - idx)%nat else lut !! k.
Proof.
  induction cs as [|[[r g] b] cs IH]; intros lut idx k Hlen; simpl in *.
  - destruct (decide _); [lia|done].
  - rewrite IH by (rewrite length_insert; lia).
    destruct (decide (S idx <= k < S idx + length cs)%nat),
      (decide (idx <= k < idx + S (length cs))%nat); try lia.
    + replace (k - idx)%nat with (S (k - S idx)) by lia. done.
    + assert (k = idx) as -> by lia. rewrite list_lookup_insert_eq by lia.
      by rewrite Nat.sub_diag.
    + apply list_lookup_insert_ne. lia.
Qed.

Lemma util_smpte_c8_gamma_lookup size lut k :
  22 <= size <= Z.of_nat (length lut) ->
  util_smpte_c8_gamma size lut !! k =
    if decide (k < 22)%nat then lut_of <$> c8_palette !! k
    else if decide (Z.of_nat k < size) then Some (ColorLut 0 0 0) else lut !! k.
Proof.
  intros Hsize. unfold util_smpte_c8_gamma. rewrite (proj2 (Z.ltb_ge _ _)) by lia.
  rewrite fill_colors_lookup by (rewrite length_app, length_replicate, length_drop; simpl; lia).
  change (length c8_palette) with 22%nat. rewrite Nat.sub_0_r.
  destruct (decide (0 <= k < 0 + 22)%nat), (decide (k < 22)%nat); try lia; [done|].
  destruct (decide (Z.of_nat k < size)).
  - rewrite lookup_app_l by (rewrite length_replicate; lia). apply lookup_replicate_2. lia.
  - rewrite lookup_app_r by (rewrite length_replicate; lia).
    rewrite length_replicate, lookup_drop. f_equal. lia.
Qed.

(** The palette entry of a cell is the colour of its bar. *)
Lemma c8_palette_bar w h y x :
  smpte_dims w h -> 0 <= x < w ->
  0 <= smpte_index w h y x < 22 /\
  c8_palette !! Z.to_nat (smpte_index w h y x)
    = Some (let '(r, g, b, _) := smpte_bar w h y x in (r, g, b)).
Proof.
  intros Hdims Hx. unfold smpte_index, smpte_bar.
  destruct (smpte_cell w h y x) as [b i] eqn:Hcell. simpl.
  pose proof (smpte_cell_range _ _ _ _ _ _ Hdims Hx Hcell) as Hi.
  split; [by apply c8_index_range|].
  assert (Hk : exists k, Z.to_nat i = k /\ i = Z.of_nat k) by (exists (Z.to_nat i); lia).
  destruct Hk as (k & -> & ->).
  destruct b; simpl in *; do 8 (try destruct k as [|k]; [try done; simpl in *; try lia|]); lia.
Qed.

(** C2: the indexed SMPTE picture shows the bars of the RGB ones.  For sizes
    [smpte_dims] allows, a stride of at least a line, a buffer that holds the lines and a
    gamma table of at least 22 entries, [fill_smpte_c8] returns; every byte it leaves in a
    line is an index of the table, and the entry [util_smpte_c8_gamma] put there is the
    colour of the bar, scaled from 8 to 16 bits; bytes outside the lines keep their
    value. *)
Theorem fill_smpte_c8_shows_bars m base w h stride size lut :
  smpte_dims w h -> 0 <= base -> w <= stride -> base + h * stride <= msize m ->
  22 <= size <= Z.of_nat (length lut) ->
  returns (fill_smpte_c8 m base w h stride) (fun m' =>
    msize m' = msize m /\
    (forall y x, 0 <= y < h -> 0 <= x < w -> exists k r g b a,
       mem_at m' (base + y * stride + x) = Some (Z.of_nat k) /\ (k < 22)%nat /\
       smpte_bar w h y x = (r, g, b, a) /\
       util_smpte_c8_gamma size lut !! k = Some (ColorLut (256 * r) (256 * g) (256 * b))) /\
    (forall a, (forall y x, 0 <= y < h -> 0 <= x < w -> a <> base + y * stride + x) ->
       mem_at m' a = mem_at m a)).
Proof.
  intros Hdims Hbase Hline Hsize Hlut.
  eapply returns_mono; [by apply fill_smpte_c8_painted|]. intros m' [Hs Hp Hf].
  split; [done|]. split.
  - intros y x Hy Hx. destruct (c8_palette_bar w h y x Hdims Hx) as [Hi Hpal].
    pose proof (smpte_bar_bytes w h y x Hdims Hx) as Hb.
    destruct (smpte_bar w h y x) as [[[r g] b] a]. destruct Hb as (? & ? & ? & _).
    exists (Z.to_nat (smpte_index w h y x)), r, g, b, a.
    rewrite Z2Nat.id by lia. split; [|split; [lia|split; [done|]]].
    + specialize (Hp y x Hy Hx). simpl in Hp. rewrite Z.mul_1_l in Hp.
      destruct (mem_at m' _) as [v|]; [|done]. simpl in Hp. injection Hp as Hp.
      unfold wrap in Hp. change (2 ^ (8 * 1)) with 256 in Hp.
      rewrite (Z.mod_small (smpte_index w h y x)) in Hp by lia. f_equal. lia.
    + rewrite util_smpte_c8_gamma_lookup by done. destruct (decide _); [|lia].
      rewrite Hpal. simpl. rewrite !Z.shiftl_mul_pow2, !u16_id by lia. do 2 f_equal; lia.
  - intros a Ha. apply Hf. intros y x k Hy Hx Hk. specialize (Ha y x Hy Hx). lia.
Qed.

Lemma fill_smpte_c8_shows_bars_witness :
  fill_smpte_c8 (replicate 18 0) 0 9 2 9
    = Ok [0; 0; 1; 2; 3; 3; 4; 5; 6; 14; 14; 15; 16; 16; 17; 18; 21; 21] /\
  returns (fill_smpte_c8 (replicate 18 0) 0 9 2 9) (fun m' => msize m' = 18).
Proof.
  split; [reflexivity|].
  eapply returns_mono; [apply (fill_smpte_c8_shows_bars (replicate 18 0) 0 9 2 9 22
    (replicate 22 (ColorLut 1 1 1))); unfold smpte_dims, msize; simpl; lia|].
  intros m' (Hs & _). exact Hs.
Defined.

(** * Narrow pictures *)

Section Narrow.
Context {St : Type} (w h : Z) (put : band -> Z -> Z -> St -> outcome St).
Context (next : St -> outcome St) (Q : Z -> St -> Prop).
Context (Hw : 4 <= w <= 6) (Hh : 1 <= h) (Hh7 : h * 7 < 4294967296).
Context (Hput : forall b y x i s, 0 <= y < h -> 0 <= x < w -> 0 <= i < band_colours b ->
  Q y s -> returns (put b x i s) (Q y)).
Context (Hnext : forall y s, 0 <= y < h -> Q y s -> returns (next s) (Q (y + 1))).

Lemma narrow_line b y s :
  b <> Bottom -> 0 <= y < h -> Q y s -> returns (smpte_line 1 w put next b s) (Q (y + 1)).
Proof using Hw Hput Hnext.
  intros Hb Hy HQ. unfold smpte_line.
  rstep (for_lt_returns1 (fun _ => Q y)); [lia..|done| |].
  - intros x s' Hx HQ'. rewrite u32_id, divu_ok by lia.
    apply (Hput b y x); [done|done| |done]. pose proof (flat_index_range w x Hx).
    destruct b; simpl; [lia..|done].
  - intros [x s'] [_ HQ']. by apply Hnext.
Qed.

Lemma narrow_bottom_line y s :
  0 <= y < h -> Q y s -> smpte_bottom_line 1 w put next s = Fault DivByZero.
Proof using Hw Hput.
  intros Hy HQ. unfold smpte_bottom_line. rewrite !u32_id by lia.
  assert (Hw5 : 0 < w * 5 / 7 < w * 6 / 7 /\ w * 6 / 7 <= w /\ w / 7 = 0)
    by (Z.to_euclidean_division_equations; lia).
  assert (H1 : returns (for_lt (w * 5 / 7) 1
      (fun x s => i ← divu (u32 (x * 4)) (w * 5 / 7); put Bottom x i s) 0 s)
      (fun '(x, s) => x = Z.max 0 (w * 5 / 7) /\ Q y s)).
  { apply (for_lt_returns1 (fun _ => Q y)); [lia..|done|]. intros x s' Hx HQ'.
    rewrite u32_id, divu_ok by lia. apply (Hput Bottom y x); [done|lia| |done]. simpl.
    split; [apply Z.div_pos; lia|]. apply Z.div_lt_upper_bound; lia. }
  apply returns_ok in H1 as ([x s1] & -> & -> & HQ1). simpl.
  rewrite Z.max_r, (for_lt_fault _ _ _ _ _ DivByZero); [done|lia| |lia].
  by replace (w / 7) with 0 by lia.
Qed.

Lemma narrow_bands s : Q 0 s -> smpte_bands 1 w h put next s = Fault DivByZero.
Proof using Hw Hh Hh7 Hput Hnext.
  intros HQ. unfold smpte_bands. rewrite !u32_id by lia.
  assert (0 <= h * 6 / 9 <= h * 7 / 9 /\ h * 7 / 9 < h)
    by (Z.to_euclidean_division_equations; lia).
  assert (Hlines : forall b y0 y1 s, b <> Bottom -> 0 <= y0 <= y1 -> y1 <= h -> Q y0 s ->
    exists s', for_lt y1 1 (fun _ => smpte_line 1 w put next b) y0 s = Ok (y1, s') /\ Q y1 s').
  { intros b y0 y1 s0 Hb Hy0 Hy1 HQ0.
    assert (Hr : returns (for_lt y1 1 (fun _ => smpte_line 1 w put next b) y0 s0)
      (fun '(y, s) => y = Z.max y0 y1 /\ Q y s)).
    { apply (for_lt_returns1 Q); [lia..|done|]. intros y s' Hy HQ'.
      apply narrow_line; [done|lia|done]. }
    apply returns_ok in Hr as ([y s'] & -> & -> & HQ'). rewrite Z.max_r in * by lia. eauto. }
  destruct (Hlines Top 0 (h * 6 / 9) s) as (s1 & -> & HQ1); [done|lia|lia|done|]. simpl.
  destruct (Hlines Middle (h * 6 / 9) (h * 7 / 9) s1) as (s2 & -> & HQ2);
    [done|lia|lia|done|]. simpl.
  rewrite (for_lt_fault _ _ _ _ _ DivByZero); [done|lia|].
  by apply (narrow_bottom_line (h * 7 / 9)); [lia|].
Qed.
End Narrow.

(** Widths at which the bottom band has a sixth column range, but [width / 7] is 0. *)
Definition narrow_width (w : Z) : Prop := 4 <= w <= 6.

(** On 4 to 6 pixels a line, a picture of any height and format is not painted:
    the bottom band divides by [width / 7 = 0] at its column [width * 5 / 7], however large
    the buffer is. *)
Theorem fill_smpte_narrow_divides_by_zero i m base w h stride :
  narrow_width w -> 1 <= h -> h * 7 < 4294967296 -> 0 <= base -> 8 * w <= stride ->
  base + h * stride <= msize m ->
  fill_smpte_c8 m base w h stride = Fault DivByZero /\
  fill_smpte_rgb16 i m base w h stride = Fault DivByZero /\
  fill_smpte_rgb24 i m base w h stride = Fault DivByZero /\
  fill_smpte_rgb32 i m base w h stride = Fault DivByZero /\
  fill_smpte_rgb16fp i m base w h stride = Fault DivByZero.
Proof.
  intros Hw Hh Hh7 Hbase Hline Hsize.
  set (Q := fun (y : Z) '(m', p) => msize m' = msize m /\ p = base + y * stride).
  assert (Hnext : forall y '(m', p), 0 <= y < h -> Q y (m', p) ->
    returns (Ok (A:=mem * Z) (m', p + stride)) (Q (y + 1))).
  { intros y [m' p] Hy [Hs ->]. simpl. split; [done|lia]. }
  assert (Hstore : forall n y x v m' p, Z.of_nat n <= 8 -> 0 <= y < h -> 0 <= x < w ->
    Q y (m', p) ->
    returns (m'' ← store_le n m' (p + Z.of_nat n * x) v; Ok (m'', p)) (Q y)).
  { intros n y x v m' p Hn Hy Hx [Hs ->]. rstep store_le_returns; [nia|nia|].
    intros m'' [Hs' _]. simpl. split; [lia|done]. }
  assert (Hpix : forall n colours, Z.of_nat n <= 8 ->
    (forall b, Z.of_nat (length (colours b)) = band_colours b) ->
    fill_smpte_pixels n colours m base w h stride = Fault DivByZero).
  { intros n colours Hn Hlen. unfold fill_smpte_pixels.
    rewrite (narrow_bands w h _ _ Q); try done.
    - intros b y x i' [m' p] Hy Hx Hi HQ.
      destruct (array_get_ok (colours b) i') as (c & -> & _); [by rewrite Hlen|].
      by apply (Hstore n y x).
    - intros y [m' p]. apply (Hnext y (m', p)).
    - split; [done|lia]. }
  split.
  - unfold fill_smpte_c8. rewrite (narrow_bands w h _ _ Q); try done.
    + intros b y x i' [m' p] Hy Hx Hi HQ.
      specialize (Hstore 1%nat y x (c8_index b i') m' p). rewrite Z.mul_1_l in Hstore.
      by apply Hstore.
    + intros y [m' p]. apply (Hnext y (m', p)).
    + split; [done|lia].
  - repeat split; apply Hpix; try done; intros []; done.
Qed.

Lemma fill_smpte_narrow_divides_by_zero_witness :
  fill_smpte_rgb32 (rgb (info_of DRM_FORMAT_XRGB8888)) (replicate 60 0) 0 4 1 32
    = Fault DivByZero.
Proof.
  apply (fill_smpte_narrow_divides_by_zero (rgb (info_of DRM_FORMAT_XRGB8888))
    (replicate 60 0) 0 4 1 32); unfold narrow_width, msize; simpl; lia.
Defined.
