(* ===== verification/SmpteYuv.v ===== *)
(** The YUV SMPTE pictures of drm/util/pattern.c: the layout of the samples, and that
    every luma and chroma sample holds its bar's colour. *)
From Stdlib Require Import ZArith Lia.
From stdpp Require Import base list numbers strings.
From S2P Require Import Prelude Mem Raster Format Color Smpte.

(** * Layouts *)

Inductive plane := PY | PU | PV.

(** A sample: its plane, its line and its number in the line. *)
Abbreviation sample := (plane * Z * Z)%type.

(** The samples of a picture of [w] x [h] pixels with subsampling [xs], [ys]: one luma
    sample a pixel; a chroma pair for every [xs] pixels of a line, rounded up, in
    [h / ys] lines. *)
Definition valid_sample (w h xs ys : Z) (s : sample) : Prop :=
  let '(p, y, x) := s in
  match p with
  | PY => 0 <= y < h /\ 0 <= x < w
  | _ => 0 <= y < h / ys /\ 0 <= x /\ xs * x < w
  end.

(** Where a layout puts the samples: inside the mapping, no two on one byte. *)
Record layout_ok (w h xs ys size : Z) (addr : sample -> Z) : Prop := {
  layout_bounds : forall s, valid_sample w h xs ys s -> 0 <= addr s < size;
  layout_inj : forall s t, valid_sample w h xs ys s -> valid_sample w h xs ys t ->
    addr s = addr t -> s = t }.

Definition planar_addr (yuv : util_yuv_info) (y_mem u_mem v_mem stride : Z) (s : sample) : Z :=
  let '(p, y, x) := s in
  let cstride := stride * chroma_stride yuv / xsub yuv in
  match p with
  | PY => y_mem + y * stride + x
  | PU => u_mem + y * cstride + chroma_stride yuv * x
  | PV => v_mem + y * cstride + chroma_stride yuv * x
  end.

Definition packed_addr (yuv : util_yuv_info) (base stride : Z) (s : sample) : Z :=
  let '(p, y, x) := s in
  match p with
  | PY => base + (if has_flag (order yuv) YUV_YC then 0 else 1) + y * stride + 2 * x
  | PU => base + (if has_flag (order yuv) YUV_CY then 0 else 1) + y * stride + 4 * x
            + (if has_flag (order yuv) YUV_YCrCb then 2 else 0)
  | PV => base + (if has_flag (order yuv) YUV_CY then 0 else 1) + y * stride + 4 * x
            + (if has_flag (order yuv) YUV_YCbCr then 2 else 0)
  end.

(** The subsampling of the table's YUV formats. *)
Definition yuv_ok (yuv : util_yuv_info) : Prop :=
  xsub yuv = 2 /\ (ysub yuv = 1 \/ ysub yuv = 2) /\
  (chroma_stride yuv = 1 \/ chroma_stride yuv = 2).

(** * The picture *)

Definition yuv_bar (w h y x : Z) : color_yuv :=
  let '(b, i) := smpte_cell w h y x in default (ColorYuv 0 0 0) (smpte_yuv b !! Z.to_nat i).

Definition yuv_part (p : plane) (c : color_yuv) : Z :=
  match p with PY => cy c | PU => cu c | PV => cv c end.

(** The bands of the chroma planes are computed on [hc] lines: [h / ysub] for planar
    formats, all of them for packed ones. *)
Definition smpte_sample (w h hc xs : Z) (s : sample) : Z :=
  let '(p, y, x) := s in
  match p with
  | PY => cy (yuv_bar w h y x)
  | _ => yuv_part p (yuv_bar w hc y (xs * x))
  end.

Lemma smpte_yuv_length b : Z.of_nat (length (smpte_yuv b)) = band_colours b.
Proof. by destruct b. Qed.

Definition yuv_bytes (c : color_yuv) : Prop :=
  u8 (cy c) = cy c /\ u8 (cu c) = cu c /\ u8 (cv c) = cv c.

Lemma MAKE_YUV_601_bytes r g b : yuv_bytes (MAKE_YUV_601 r g b).
Proof. unfold yuv_bytes. simpl. repeat split; apply u8_id, u8_range. Qed.

Lemma smpte_yuv_bytes b k c : smpte_yuv b !! k = Some c -> yuv_bytes c.
Proof.
  intros Hc%list_elem_of_lookup_2. revert c Hc. apply Forall_forall.
  destruct b; repeat (apply Forall_cons; split; [apply MAKE_YUV_601_bytes|]); by apply Forall_nil.
Qed.

(** The table entry the code reads for a cell. *)
Lemma smpte_yuv_get w h y x b i :
  smpte_dims w h -> 0 <= x < w -> smpte_cell w h y x = (b, i) ->
  array_get (smpte_yuv b) i = Ok (yuv_bar w h y x) /\ yuv_bytes (yuv_bar w h y x).
Proof.
  intros Hdims Hx Hcell. unfold yuv_bar. rewrite Hcell.
  pose proof (smpte_cell_range _ _ _ _ _ _ Hdims Hx Hcell) as Hi.
  destruct (array_get_ok (smpte_yuv b) i) as (c & -> & Hc); [by rewrite smpte_yuv_length|].
  rewrite Hc. split; [done|by eapply smpte_yuv_bytes].
Qed.

(** * The two passes *)

(** Samples stored when the luma pass stands at [(y0, x0)]; when the chroma pass does,
    luma being complete. *)
Definition luma_done (w h y0 x0 : Z) (s : sample) : Prop :=
  let '(p, y, x) := s in p = PY /\ y < h /\ scanned w y0 x0 y x.
Definition chroma_done (w h xs y0 x0 : Z) (s : sample) : Prop :=
  let '(p, y, x) := s in
  match p with
  | PY => 0 <= y < h /\ 0 <= x < w
  | _ => 0 <= y /\ 0 <= x /\ xs * x < w /\ (y < y0 \/ y = y0 /\ xs * x < x0)
  end.

Section Passes.
Context {St : Type} (w h xs ys : Z) (addr : sample -> Z) (m0 : mem).
Context (state : Z -> mem -> St) (put : band -> Z -> Z -> St -> outcome St).
Context (next : St -> outcome St).
Context (Hlay : layout_ok w h xs ys (msize m0) addr).
Context (Hnext : forall y m, next (state y m) = Ok (state (y + 1) m)).
Let val := smpte_sample w h (h / ys) xs.

Lemma luma_pass m :
  smpte_dims w h ->
  (forall b x i y m, 0 <= x < w -> put b x i (state y m) =
     (c ← array_get (smpte_yuv b) i; m ← store8 m (addr (PY, y, x)) (cy c); Ok (state y m))) ->
  plotted addr m0 (luma_done w h 0 0) val m ->
  returns (smpte_bands 1 w h put next (state 0 m)) (fun s =>
    exists m', s = state h m' /\ plotted addr m0 (luma_done w h h 0) val m').
Proof using Hlay Hnext.
  intros Hdims Hput Hm. pose proof Hdims as (? & ? & ? & ? & _).
  apply (smpte_bands_returns 1 w h put next (fun y x s =>
    exists m', s = state y m' /\ plotted addr m0 (luma_done w h y x) val m')); [lia|lia|done| | |].
  - intros y x s b i Hy Hx _ Hcell (m' & -> & Hm'). rewrite Hput by done.
    destruct (smpte_yuv_get _ _ _ _ _ _ Hdims Hx Hcell) as [-> (Hc & _)]. simpl.
    assert (Hval : valid_sample w h xs ys (PY, y, x)) by done.
    apply returns_bind. eapply returns_mono;
      [eapply (plotted_store1 addr m0 _ (luma_done w h y (x + 1)) val); [| | | |exact Hm']|].
    + by apply (layout_bounds _ _ _ _ _ _ Hlay).
    + intros [[p y'] x'] (-> & ? & ?) Heq.
      apply (layout_inj _ _ _ _ _ _ Hlay); [|done|done]. unfold scanned in *. simpl. lia.
    + intros [[p y'] x']. unfold luma_done, scanned. split.
      * intros (-> & ? & ?). destruct (decide (y' = y /\ x' = x)) as [[-> ->]|]; [by right|].
        left. split_and!; try done; lia.
      * intros [(-> & ? & ?)|[= -> -> ->]]; (split; [done|]); lia.
    + by rewrite Hc.
    + intros m'' Hm''. simpl. eauto.
  - intros y x s Hy Hx (m' & -> & Hm'). rewrite Hnext. simpl. eexists; split; [done|].
    revert Hm'. apply plotted_iff. intros [[p y'] x']. unfold luma_done, scanned.
    split; intros (-> & ? & ?); (split; [done|]); lia.
  - eauto.
Qed.

Lemma chroma_pass m :
  smpte_dims w (h / ys) -> 1 <= xs -> w + xs <= 4294967296 ->
  (forall b k i y m, 0 <= k -> xs * k < w -> put b (xs * k) i (state y m) =
     (c ← array_get (smpte_yuv b) i; m ← store8 m (addr (PU, y, k)) (cu c);
      m ← store8 m (addr (PV, y, k)) (cv c); Ok (state y m))) ->
  plotted addr m0 (chroma_done w h xs 0 0) val m ->
  returns (smpte_bands xs w (h / ys) put next (state 0 m)) (fun s =>
    exists m', s = state (h / ys) m' /\
      plotted addr m0 (chroma_done w h xs (h / ys) 0) val m').
Proof using Hlay Hnext.
  intros Hdims Hxs Hwrap Hput Hm. pose proof Hdims as (? & ? & ? & ? & _).
  apply (smpte_bands_returns xs w (h / ys) put next (fun y x s =>
    exists m', s = state y m' /\ plotted addr m0 (chroma_done w h xs y x) val m'));
    [lia|lia|done| | |].
  - intros y x s b i Hy Hx [k Hk] Hcell (m' & -> & Hm').
    rewrite Z.mul_comm in Hk. subst x. assert (0 <= k) by nia.
    rewrite Hput by lia.
    destruct (smpte_yuv_get _ _ _ _ _ _ Hdims Hx Hcell) as [-> (_ & Hcu & Hcv)]. simpl.
    assert (Hvu : valid_sample w h xs ys (PU, y, k)) by (simpl; lia).
    assert (Hvv : valid_sample w h xs ys (PV, y, k)) by (simpl; lia).
    assert (Hdone : forall s, chroma_done w h xs y (xs * k) s ->
      valid_sample w h xs ys s).
    { intros [[[] y'] x']; simpl; lia. }
    apply returns_bind. eapply returns_mono;
      [eapply (plotted_store1 addr m0 _
         (fun s => chroma_done w h xs y (xs * k) s \/ s = (PU, y, k)) val); [| | | |exact Hm']|].
    + by apply (layout_bounds _ _ _ _ _ _ Hlay).
    + intros t Ht Heq. apply (layout_inj _ _ _ _ _ _ Hlay); auto.
    + done.
    + unfold val. by rewrite Hcu.
    + intros m1 Hm1. cbv beta. apply returns_bind. eapply returns_mono;
        [eapply (plotted_store1 addr m0 _ (chroma_done w h xs y (xs * k + xs)) val);
           [| | | |exact Hm1]|].
      * by apply (layout_bounds _ _ _ _ _ _ Hlay).
      * intros t [Ht| ->] Heq; apply (layout_inj _ _ _ _ _ _ Hlay); auto.
      * intros [[p y'] x']. split.
        -- destruct p; simpl; [by left; left| |]; intros (? & ? & ? & ?);
             (destruct (decide (y' = y /\ x' = k)) as [[-> ->]|]; [auto|]);
             left; left; split_and!; try done; nia.
        -- intros [[Hd|[= -> -> ->]]|[= -> -> ->]]; [|simpl; lia..].
           revert Hd. destruct p; simpl; lia.
      * unfold val. by rewrite Hcv.
      * intros m2 Hm2. simpl. eauto.
  - intros y x s Hy Hx (m' & -> & Hm'). rewrite Hnext. simpl. eexists; split; [done|].
    revert Hm'. apply plotted_iff. intros [[[] y'] x']; simpl; lia.
  - eauto.
Qed.
End Passes.

(** * The functions *)

Lemma chroma_start w h xs s : 0 <= xs -> chroma_done w h xs 0 0 s <-> luma_done w h h 0 s.
Proof.
  intros Hxs. destruct s as [[[] y] x]; unfold luma_done, scanned; simpl; split; try nia.
  all: intros Hs; first [split; [done|lia] | by destruct Hs as [[=] _]].
Qed.

Lemma chroma_end w h xs ys s :
  0 <= xs -> chroma_done w h xs (h / ys) 0 s <-> valid_sample w h xs ys s.
Proof. intros Hxs. destruct s as [[[] y] x]; simpl; nia. Qed.

(** Half of the lines are no more than all. *)
Lemma smpte_dims_sub w h ys : smpte_dims w h -> 1 <= ys -> smpte_dims w (h / ys).
Proof.
  unfold smpte_dims. intros (? & ? & ? & ? & ?) Hys.
  assert (0 <= h / ys <= h); [|lia]. split; [apply Z.div_pos; lia|]. apply Z.div_le_upper_bound; nia.
Qed.

Lemma fill_smpte_yuv_planar_plotted yuv m y_mem u_mem v_mem w h stride :
  yuv_ok yuv -> smpte_dims w h -> 0 <= stride < 2147483648 ->
  let addr := planar_addr yuv y_mem u_mem v_mem stride in
  layout_ok w h (xsub yuv) (ysub yuv) (msize m) addr ->
  returns (fill_smpte_yuv_planar yuv m y_mem u_mem v_mem w h stride)
    (plotted addr m (valid_sample w h (xsub yuv) (ysub yuv))
       (smpte_sample w h (h / ysub yuv) (xsub yuv))).
Proof.
  intros (Hxs & Hys & Hcs) Hdims Hstride addr Hlay.
  pose proof Hdims as (? & ? & ? & ? & _).
  unfold fill_smpte_yuv_planar.
  assert (Hd : u32 (stride * chroma_stride yuv) / xsub yuv
    = stride * chroma_stride yuv / xsub yuv) by (rewrite u32_id; [done|nia]).
  assert (Hchroma : forall y x, planar_addr yuv y_mem u_mem v_mem stride (PU, y, x)
    = u_mem + y * (stride * chroma_stride yuv / xsub yuv) + chroma_stride yuv * x /\
    planar_addr yuv y_mem u_mem v_mem stride (PV, y, x)
    = v_mem + y * (stride * chroma_stride yuv / xsub yuv) + chroma_stride yuv * x) by done.
  apply returns_bind. replace (m, y_mem) with (m, y_mem + 0 * stride) by (f_equal; lia).
  eapply returns_mono.
  - apply (luma_pass w h (xsub yuv) (ysub yuv) addr m (fun y m => (m, y_mem + y * stride)));
      [done| |done| |].
    + intros y m'. do 2 f_equal. lia.
    + done.
    + apply plotted_start. intros [[[] y'] x']; unfold luma_done, scanned; [lia|naive_solver..].
  - intros s (m1 & -> & Hm1). cbv beta iota. rewrite (divu_ok h) by lia. simpl.
    apply returns_bind.
    replace (m1, u_mem, v_mem) with (m1, u_mem + 0 * (stride * chroma_stride yuv / xsub yuv),
      v_mem + 0 * (stride * chroma_stride yuv / xsub yuv)) by (f_equal; [f_equal|]; lia).
    eapply returns_mono.
    + apply (chroma_pass w h (xsub yuv) (ysub yuv) addr m
        (fun y m => (m, u_mem + y * (stride * chroma_stride yuv / xsub yuv),
           v_mem + y * (stride * chroma_stride yuv / xsub yuv)))); [done| |  |lia|lia| |].
      * intros y m'. rewrite divu_ok by lia. simpl. rewrite Hd. do 2 f_equal; [f_equal|]; lia.
      * apply smpte_dims_sub; [done|lia].
      * intros b k i y m' Hk Hkw. rewrite (u32_id (_ * _)), divu_ok by nia. simpl.
        replace (xsub yuv * k * chroma_stride yuv) with (chroma_stride yuv * k * xsub yuv) by lia.
        rewrite Z.div_mul by lia. by destruct (array_get _ _).
      * revert Hm1. apply plotted_iff. intros s. symmetry. apply chroma_start. lia.
    + intros s (m2 & -> & Hm2). simpl. revert Hm2. apply plotted_iff. intros s. apply chroma_end. lia.
Qed.

Lemma fill_smpte_yuv_packed_plotted yuv m base w h stride :
  smpte_dims w h -> 0 <= stride ->
  layout_ok w h 2 1 (msize m) (packed_addr yuv base stride) ->
  returns (fill_smpte_yuv_packed yuv m base w h stride)
    (plotted (packed_addr yuv base stride) m (valid_sample w h 2 1) (smpte_sample w h h 2)).
Proof.
  intros Hdims Hstride Hlay. pose proof Hdims as (? & ? & ? & ? & _).
  unfold fill_smpte_yuv_packed.
  set (yo := if has_flag (order yuv) YUV_YC then 0 else 1).
  set (co := if has_flag (order yuv) YUV_CY then 0 else 1).
  set (u := if has_flag (order yuv) YUV_YCrCb then 2 else 0).
  set (v := if has_flag (order yuv) YUV_YCbCr then 2 else 0).
  assert (Hu : 0 <= u <= 2) by (subst u; case_match; lia).
  assert (Hv : 0 <= v <= 2) by (subst v; case_match; lia).
  assert (Haddr : forall y x, packed_addr yuv base stride (PY, y, x) = base + yo + y * stride + 2 * x /\
    packed_addr yuv base stride (PU, y, x) = base + co + y * stride + 4 * x + u /\
    packed_addr yuv base stride (PV, y, x) = base + co + y * stride + 4 * x + v) by done.
  assert ((if has_flag (order yuv) YUV_YC then base else base + 1) = base + yo) as ->
    by (subst yo; case_match; lia).
  assert ((if has_flag (order yuv) YUV_CY then base else base + 1) = base + co) as ->
    by (subst co; case_match; lia).
  pose proof (@luma_pass (mem * Z) w h 2 1 (packed_addr yuv base stride) m) as Hluma.
  pose proof (@chroma_pass (mem * Z) w h 2 1 (packed_addr yuv base stride) m) as Hchroma.
  rewrite Z.div_1_r in Hluma, Hchroma.
  apply returns_bind. replace (m, base + yo) with (m, base + yo + 0 * stride) by (f_equal; lia).
  eapply returns_mono.
  - apply (Hluma (fun y m => (m, base + yo + y * stride))); [done| |done| |].
    + intros y m'. do 2 f_equal. lia.
    + intros b x i y m' Hx. rewrite u32_id by lia. destruct (Haddr y x) as (-> & _ & _). done.
    + apply plotted_start. intros [[[] y'] x']; unfold luma_done, scanned; [lia|naive_solver..].
  - intros s (m1 & -> & Hm1). cbv beta iota. apply returns_bind.
    replace (m1, base + co) with (m1, base + co + 0 * stride) by (f_equal; lia).
    eapply returns_mono.
    + apply (Hchroma (fun y m => (m, base + co + y * stride))); [done| |done|lia|lia| |].
      * intros y m'. do 2 f_equal. lia.
      * intros b k i y m' Hk Hkw. rewrite !u32_id by lia.
        destruct (Haddr y k) as (_ & -> & ->).
        replace (base + co + y * stride + (2 * (2 * k) + u))
          with (base + co + y * stride + 4 * k + u) by lia.
        replace (base + co + y * stride + (2 * (2 * k) + v))
          with (base + co + y * stride + 4 * k + v) by lia. done.
      * revert Hm1. apply plotted_iff. intros s. symmetry. apply chroma_start. lia.
    + intros s (m2 & -> & Hm2). simpl. revert Hm2. apply plotted_iff. intros s.
      rewrite <- (Z.div_1_r h) at 2. apply chroma_end. lia.
Qed.
