(* ===== verification/Layout.v ===== *)
(** The sample layouts of the YUV buffers drm/modetest/buffers.c allocates, and that they
    keep all samples apart and inside the buffer. *)
From Stdlib Require Import ZArith Lia.
From stdpp Require Import base list numbers strings.
From S2P Require Import Prelude Mem Raster Format Color Smpte SmpteYuv.

(** Lines of [n] samples, [n <= pitch], that start at [base]: a sample is below the end of
    its line, hence of the plane. *)
Lemma plane_bounds base pitch lines y c :
  0 <= y < lines -> 0 <= c < pitch -> base <= base + y * pitch + c < base + lines * pitch.
Proof. intros. nia. Qed.

(** Two planes of interleaved chroma after the luma plane. *)
Lemma semiplanar_layout yuv P w h du dv size :
  xsub yuv = 2 -> chroma_stride yuv = 2 -> ysub yuv = 1 \/ ysub yuv = 2 ->
  du = 0 /\ dv = 1 \/ du = 1 /\ dv = 0 ->
  0 <= w <= P -> (2 | w) -> 0 <= h -> P * h + P * (h / ysub yuv) <= size ->
  layout_ok w h (xsub yuv) (ysub yuv) size
    (planar_addr yuv 0 (P * h + du) (P * h + dv) P).
Proof.
  intros Hxs Hcs Hys Hduv Hw [w2 Hw2] Hh Hsize.
  assert (Hc : P * chroma_stride yuv / xsub yuv = P) by (rewrite Hxs, Hcs; apply Z.div_mul; lia).
  assert (0 <= h / ysub yuv) by (apply Z.div_pos; lia).
  rewrite Hxs. split.
  - intros [[[] y] x]; simpl; rewrite ?Hc, ?Hcs; intros Hs.
    + pose proof (plane_bounds 0 P h y x). nia.
    + pose proof (plane_bounds (P * h) P (h / ysub yuv) y (2 * x + du)). nia.
    + pose proof (plane_bounds (P * h) P (h / ysub yuv) y (2 * x + dv)). nia.
  - intros [[[] y] x] [[[] y'] x']; simpl; rewrite ?Hc, ?Hcs; intros Hs Hs' He.
    all: try (destruct (line_unique P y x y' x'); [lia..|]; subst; done).
    all: try (pose proof (plane_bounds 0 P h y x); exfalso; nia).
    all: try (pose proof (plane_bounds 0 P h y' x'); exfalso; nia).
    + destruct (line_unique P y (2 * x + du) y' (2 * x' + du)); [lia..|].
      subst y'. do 2 f_equal; lia.
    + destruct (line_unique P y (2 * x + du) y' (2 * x' + dv)); lia.
    + destruct (line_unique P y (2 * x + dv) y' (2 * x' + du)); lia.
    + destruct (line_unique P y (2 * x + dv) y' (2 * x' + dv)); [lia..|].
      subst y'. do 2 f_equal; lia.
Qed.

(** Two chroma planes of half the pitch, one after the other. *)
Lemma triplanar_layout yuv P w h u v size :
  xsub yuv = 2 -> chroma_stride yuv = 1 -> ysub yuv = 2 ->
  0 <= w <= P -> (2 | w) -> 0 <= h -> (2 | h) -> P * h * 3 <= size * 2 ->
  u = P * h /\ v = u + P / 2 * h / 2 \/ v = P * h /\ u = v + P / 2 * h / 2 ->
  layout_ok w h (xsub yuv) (ysub yuv) size (planar_addr yuv 0 u v P).
Proof.
  intros Hxs Hcs Hys Hw [w2 Hw2] Hh [h2 Hh2] Hsize Huv.
  assert (Hc : P * chroma_stride yuv / xsub yuv = P / 2)
    by (rewrite Hxs, Hcs; f_equal; lia).
  set (q := P / 2) in *.
  assert (Hq : 2 * q <= P /\ w2 <= q) by (subst q; Z.to_euclidean_division_equations; lia).
  assert (Hqh : q * h / 2 = q * h2).
  { rewrite Hh2, Z.mul_assoc. apply Z.div_mul. lia. }
  assert (Hh3 : h / ysub yuv = h2) by (rewrite Hys, Hh2; apply Z.div_mul; lia).
  rewrite Hqh in Huv. clear Hqh. clearbody q.
  assert (Hend : 2 * (q * h2) <= P * h2) by nia.
  assert (Hph : P * h = 2 * (P * h2)) by (rewrite Hh2; lia).
  rewrite Hxs. split.
  - intros [[[] y] x]; simpl; rewrite ?Hc, ?Hcs, ?Hh3; intros Hs.
    + pose proof (plane_bounds 0 P h y x). nia.
    + pose proof (plane_bounds u q h2 y x). nia.
    + pose proof (plane_bounds v q h2 y x). nia.
  - intros [[p y] x] [[p' y'] x'] Hs Hs' He.
    assert (Hp : p = p' -> (p, y, x) = (p', y', x')).
    { intros <-. destruct p; simpl in *; rewrite ?Hc, ?Hcs, ?Hh3 in *.
      - destruct (line_unique P y x y' x'); [lia..|]. by subst.
      - destruct (line_unique q y x y' x'); [lia..|]. by subst.
      - destruct (line_unique q y x y' x'); [lia..|]. by subst. }
    assert (Hb : forall p y x, valid_sample w h 2 (ysub yuv) (p, y, x) ->
      match p with
      | PY => 0 <= y * P + x < P * h
      | _ => 0 <= y * q + x < q * h2
      end).
    { intros [] y0 x0; simpl; rewrite ?Hh3; intros Hv.
      - pose proof (plane_bounds 0 P h y0 x0). lia.
      - pose proof (plane_bounds 0 q h2 y0 x0). lia.
      - pose proof (plane_bounds 0 q h2 y0 x0). lia. }
    apply Hb in Hs, Hs'. apply Hp. clear Hp Hb.
    destruct p, p'; try done; simpl in He; rewrite ?Hc, ?Hcs in He; lia.
Qed.

(** Four bytes for two pixels, in any of the four orders. *)
Lemma packed_layout yuv P w h size :
  has_flag (order yuv) YUV_YC = negb (has_flag (order yuv) YUV_CY) ->
  has_flag (order yuv) YUV_YCrCb = negb (has_flag (order yuv) YUV_YCbCr) ->
  0 <= 2 * w <= P -> (2 | w) -> 0 <= h -> P * h <= size ->
  layout_ok w h 2 1 size (packed_addr yuv 0 P).
Proof.
  intros Hyc Hcbcr Hw [w2 Hw2] Hh Hsize.
  unfold packed_addr. rewrite Hyc, Hcbcr.
  set (co := if has_flag (order yuv) YUV_CY then 0 else 1).
  set (yo := if negb (has_flag (order yuv) YUV_CY) then 0 else 1).
  set (v := if has_flag (order yuv) YUV_YCbCr then 2 else 0).
  set (u := if negb (has_flag (order yuv) YUV_YCbCr) then 2 else 0).
  assert (Hyco : yo = 0 /\ co = 1 \/ yo = 1 /\ co = 0)
    by (subst yo co; clear; destruct (has_flag _ YUV_CY); simpl; lia).
  assert (Huv : u = 0 /\ v = 2 \/ u = 2 /\ v = 0)
    by (subst u v; clear; destruct (has_flag _ YUV_YCbCr); simpl; lia).
  clearbody yo co u v. clear Hyc Hcbcr.
  set (c := fun '((p, y, x) : sample) => match p with
    | PY => yo + 2 * x | PU => co + 4 * x + u | PV => co + 4 * x + v end : Z).
  assert (Hb : forall p y x, valid_sample w h 2 1 (p, y, x) ->
    0 <= y < h /\ 0 <= c (p, y, x) < P).
  { intros [] y x; unfold c; simpl; rewrite ?Z.div_1_r; lia. }
  split.
  - intros [[p y] x] Hs. destruct (Hb _ _ _ Hs) as [Hy Hx].
    pose proof (plane_bounds 0 P h y (c (p, y, x)) Hy Hx). unfold c in *; destruct p; simpl in *; lia.
  - intros [[p y] x] [[p' y'] x'] Hs Hs' He.
    destruct (Hb _ _ _ Hs) as [Hy Hx], (Hb _ _ _ Hs') as [Hy' Hx'].
    destruct (line_unique P y (c (p, y, x)) y' (c (p', y', x'))) as [<- Hc]; [done..| |].
    { unfold c in *; destruct p, p'; simpl in *; lia. }
    unfold c in Hc; destruct p, p'; simpl in Hc; try (do 2 f_equal; lia); exfalso; lia.
Qed.
