(* ===== verification/Tiles.v ===== *)
(** The tile and gradient patterns of drm/util/pattern.c: a colour computed for every
    pixel of a line-by-line scan. *)
From Stdlib Require Import ZArith Lia.
From stdpp Require Import base list numbers strings.
From S2P Require Import Prelude Mem Raster Format Color Smpte SmpteBars SmpteYuv.

(** * The colour of a pixel *)

(** [div_t d = div(x + y, width)] on [int]s, and
    [0x00130502 * (d.quot >> 6) + 0x000a1120 * (d.rem >> 6)] converted to [uint32_t]. *)
Definition tile_rgb32 (x y width : Z) : outcome Z :=
  let a := s32 (u32 (x + y)) in
  let b := s32 width in
  if b =? 0 then Fault DivByZero
  else Ok (u32 (0x00130502 * Z.shiftr (Z.quot a b) 6 + 0x000a1120 * Z.shiftr (Z.rem a b) 6)).

Definition tile_r (rgb32 : Z) : Z := Z.land (Z.shiftr rgb32 16) 0xff.
Definition tile_g (rgb32 : Z) : Z := Z.land (Z.shiftr rgb32 8) 0xff.
Definition tile_b (rgb32 : Z) : Z := Z.land rgb32 0xff.

Definition tile_yuv (rgb32 : Z) : color_yuv :=
  MAKE_YUV_601 (tile_r rgb32) (tile_g rgb32) (tile_b rgb32).

(** [((y < height/2) && (x < width/2)) ? 127 : 255] *)
Definition tile_alpha (width height y x : Z) : Z :=
  if (y <? height / 2) && (x <? width / 2) then 127 else 255.

(** * The scan *)
Section Scan.
Context {St : Type} (step width height : Z).
Context (put : Z -> Z -> St -> outcome St) (next : Z -> St -> outcome St).

Definition tile_lines (s : St) : outcome St :=
  '(_, s) ← for_lt height 1 (fun y s =>
      '(_, s) ← for_lt width step (fun x s => put y x s) 0 s;
      next y s) 0 s;
  Ok s.
End Scan.

(** * Packed RGB *)

Definition fill_tiles_pixels (n : nat) (colour : Z -> Z -> Z -> Z) (m : mem)
    (base width height stride : Z) : outcome mem :=
  '(m, _) ← tile_lines 1 width height
    (fun y x '(m, p) =>
       c ← tile_rgb32 x y width;
       m ← store_le n m (p + Z.of_nat n * x) (colour y x c);
       Ok (m, p))
    (fun _ '(m, p) => Ok (m, p + stride)) (m, base);
  Ok m.

(** Without HAVE_CAIRO, which no build file defines, its body is empty. *)
Definition make_pwetty (m : mem) (width height stride : Z) : outcome mem := Ok m.

Definition fill_tiles_rgb16 (info : util_format_info) (m : mem) (base width height stride : Z) :=
  let i := rgb info in
  m ← fill_tiles_pixels 2
    (fun y x c => u16 (MAKE_RGBA i (tile_r c) (tile_g c) (tile_b c) 255)) m base width height stride;
  make_pwetty m width height stride.

Definition fill_tiles_rgb24 (info : util_format_info) :=
  let i := rgb info in
  fill_tiles_pixels 3 (fun y x c => MAKE_RGB24 i (tile_r c) (tile_g c) (tile_b c)).

Definition fill_tiles_rgb32 (info : util_format_info) (m : mem) (base width height stride : Z) :=
  let i := rgb info in
  m ← fill_tiles_pixels 4
    (fun y x c =>
       MAKE_RGBA i (tile_r c) (tile_g c) (tile_b c) (tile_alpha width height y x))
    m base width height stride;
  make_pwetty m width height stride.

Definition fill_tiles_rgb16fp (info : util_format_info) (m : mem) (base width height stride : Z) :=
  let i := rgb info in
  fill_tiles_pixels 8
    (fun y x c =>
       MAKE_RGBA8FP16 i (tile_r c) (tile_g c) (tile_b c) (tile_alpha width height y x))
    m base width height stride.

(** * YUV *)

Definition fill_tiles_yuv_planar (info : util_format_info) (m : mem) (y_mem u_mem v_mem : Z)
    (width height stride : Z) : outcome mem :=
  let cs := chroma_stride (yuv info) in
  '(m, _, _, _) ← tile_lines 1 width height
    (fun y x '(m, yp, up, vp) =>
       rgb32 ← tile_rgb32 x y width;
       let c := tile_yuv rgb32 in
       m ← store8 m (yp + x) (cy c);
       k ← divu x (xsub (yuv info));
       m ← store8 m (up + u32 (k * cs)) (cu c);
       m ← store8 m (vp + u32 (k * cs)) (cv c);
       Ok (m, yp, up, vp))
    (fun y '(m, yp, up, vp) =>
       if ysub (yuv info) =? 0 then Fault DivByZero
       else if u32 (y + 1) mod ysub (yuv info) =? 0 then
         d ← divu (u32 (stride * cs)) (xsub (yuv info));
         Ok (m, yp + stride, up + d, vp + d)
       else Ok (m, yp + stride, up, vp))
    (m, y_mem, u_mem, v_mem);
  Ok m.

Definition fill_tiles_yuv_packed (info : util_format_info) (m : mem) (base : Z)
    (width height stride : Z) : outcome mem :=
  let o := order (yuv info) in
  let y_mem := if has_flag o YUV_YC then base else base + 1 in
  let c_mem := if has_flag o YUV_CY then base else base + 1 in
  let u := if has_flag o YUV_YCrCb then 2 else 0 in
  let v := if has_flag o YUV_YCbCr then 2 else 0 in
  '(m, _, _) ← tile_lines 2 width height
    (fun y x '(m, yp, cp) =>
       rgb32 ← tile_rgb32 x y width;
       let c := tile_yuv rgb32 in
       m ← store8 m (yp + u32 (2 * x)) (cy c);
       m ← store8 m (cp + u32 (2 * x + u)) (cu c);
       m ← store8 m (yp + u32 (2 * x + 2)) (cy c);
       m ← store8 m (cp + u32 (2 * x + v)) (cv c);
       Ok (m, yp, cp))
    (fun _ '(m, yp, cp) => Ok (m, yp + stride, cp + stride))
    (m, y_mem, c_mem);
  Ok m.

(** * The gradient *)

(** Two halves of the lines, with 10 and with 8 significant bits; every value fills two
    pixels, [row[2 * j] = row[2 * j + 1] = value], the right one first. *)
Definition fill_gradient_pixels (n : nat) (value : Z -> Z) (m : mem)
    (base width height stride : Z) : outcome mem :=
  let line (mask : Z) '(m, p) :=
    '(_, m) ← for_lt (width / 2) 1 (fun j m =>
        let v := value (Z.land j mask) in
        m ← store_le n m (p + Z.of_nat n * u32 (2 * j + 1)) v;
        store_le n m (p + Z.of_nat n * u32 (2 * j)) v) 0 m;
    Ok (m, p + stride) in
  '(i, s) ← for_lt (height / 2) 1 (fun _ => line 0x3ff) 0 (m, base);
  '(_, (m, _)) ← for_lt height 1 (fun _ => line 0x3fc) i s;
  Ok m.

Definition fill_gradient_rgb32 (i : util_rgb_info) :=
  fill_gradient_pixels 4 (fun v => MAKE_RGBA10 i v v v 0).
Definition fill_gradient_rgb16fp (i : util_rgb_info) :=
  fill_gradient_pixels 8 (fun v => MAKE_RGBA10FP16 i v v v 0).

(** * What they paint *)

(** Sizes whose pixel colours the [int] arithmetic computes without overflow. *)
Definition tile_dims (w h : Z) : Prop :=
  0 <= w /\ 0 <= h /\ w + h <= 65536.

(** The colour of the tile of pixel [(y, x)]: 64 x 64 tiles of a diagonal sequence. *)
Definition tile_at (w y x : Z) : Z :=
  0x00130502 * ((x + y) / w / 64) + 0x000a1120 * ((x + y) mod w / 64).

Lemma tile_rgb32_at w h y x :
  tile_dims w h -> 0 <= y < h -> 0 <= x < w ->
  tile_rgb32 x y w = Ok (u32 (tile_at w y x)).
Proof.
  intros (? & ? & ?) Hy Hx. unfold tile_rgb32.
  rewrite (u32_id (x + y)), !s32_id, (proj2 (Z.eqb_neq w 0)) by lia.
  rewrite Z.quot_div_nonneg, Z.rem_mod_nonneg, !Z.shiftr_div_pow2 by lia. done.
Qed.

Definition tile_color (w h y x : Z) (alpha : Z) : Z * Z * Z * Z :=
  let c := u32 (tile_at w y x) in (tile_r c, tile_g c, tile_b c, alpha).

Lemma land_ff_range v : 0 <= Z.land v 0xff < 256.
Proof. change 0xff with (Z.ones 8). rewrite Z.land_ones by lia. apply Z.mod_pos_bound. lia. Qed.

Lemma tile_color_bytes w h y x alpha :
  0 <= alpha < 256 -> byte_channels (tile_color w h y x alpha).
Proof. intros. repeat split; try apply land_ff_range; lia. Qed.

Lemma tile_alpha_range w h y x : 0 <= tile_alpha w h y x < 256.
Proof. unfold tile_alpha. case_match; lia. Qed.

(** The rule for the scan. *)
Lemma tile_lines_returns {St} step w h (put : Z -> Z -> St -> outcome St) next
    (Q : Z -> Z -> St -> Prop) s :
  1 <= step -> 0 <= w -> 0 <= h < 4294967296 -> w + step <= 4294967296 ->
  (forall y x s, 0 <= y < h -> 0 <= x < w -> (step | x) -> Q y x s ->
     returns (put y x s) (Q y (x + step))) ->
  (forall y x s, 0 <= y < h -> w <= x -> x < w + step -> Q y x s -> returns (next y s) (Q (y + 1) 0)) ->
  Q 0 0 s -> returns (tile_lines step w h put next s) (Q h 0).
Proof.
  intros Hstep Hw Hh Hfit Hput Hnext HQ. unfold tile_lines.
  rstep (for_lt_returns1 (fun y => Q y 0)); [lia..|done| |].
  - intros y s1 Hy HQ1.
    rstep (for_lt_returns (fun x s => (step | x) /\ x < w + step /\ Q y x s)); [lia..| | |].
    + split; [apply Z.divide_0_r|]. split; [lia|done].
    + intros x s2 Hx (Hdiv & _ & HQ2). eapply returns_mono; [by apply (Hput y x)|].
      intros s3 HQ3. split; [by apply Z.divide_add_r; [|apply Z.divide_refl]|]. split; [lia|done].
    + intros [x s2] (Hx & _ & _ & Hlt & HQ2). by apply (Hnext y x).
  - intros [y s1] [-> HQ1]. simpl. by rewrite Z.max_r in HQ1 by lia.
Qed.

Lemma fill_tiles_pixels_painted n colour m base w h stride :
  tile_dims w h -> 0 <= base -> Z.of_nat n * w <= stride -> base + h * stride <= msize m ->
  returns (fill_tiles_pixels n colour m base w h stride)
    (painted base stride n w h (fun y x => colour y x (u32 (tile_at w y x))) m).
Proof.
  intros Hdims Hbase Hline Hsize. pose proof Hdims as (? & ? & ?).
  unfold fill_tiles_pixels.
  apply returns_bind. eapply returns_mono.
  { apply (tile_lines_returns 1 w h) with (Q := fun y x '(m', p) =>
    p = base + y * stride /\
    raster base stride (Z.of_nat n) n (fun y x => colour y x (u32 (tile_at w y x))) m
      (scanned w y x) m'); [lia..| | |].
  - intros y x [m' p] Hy Hx _ [-> Hr]. rewrite (tile_rgb32_at w h) by done. simpl.
    apply returns_bind. eapply returns_mono.
    + apply (raster_scan base stride (Z.of_nat n) n w
        (fun y x => colour y x (u32 (tile_at w y x))) m); [done|nia|lia|done|done|lia| |exact Hr].
      unfold pixel_addr. nia.
    + intros m'' Hm''. simpl. split; [done|exact Hm''].
  - intros y x [m' p] Hy Hx _ [-> Hr]. simpl. split; [lia|].
    eapply raster_next_line; [done|lia|exact Hr].
  - split; [lia|]. apply raster_start. }
  intros [m' p] [_ Hr]. by apply raster_painted.
Qed.

Section Fills.
Context (info : util_format_info) (m : mem) (base w h stride : Z).
Context (Hdims : tile_dims w h) (Hbase : 0 <= base) (Hsize : base + h * stride <= msize m).
Let i := rgb info.

Lemma fill_tiles_rgb16_shown :
  rgb_ok 16 i = true -> 2 * w <= stride ->
  returns (fill_tiles_rgb16 info m base w h stride)
    (shown 2 i rep8 (fun y x => tile_color w h y x 255) base stride w h m).
Proof using Hdims Hbase Hsize.
  intros Hok Hline. unfold fill_tiles_rgb16, make_pwetty.
  rstep fill_tiles_pixels_painted; try done. intros m'. apply painted_shown. intros y x Hx.
  unfold u16. change (8 * Z.of_nat 2) with 16. rewrite wrap_wrap by done.
  apply MAKE_RGBA_shows; [done|done|]. by apply (tile_color_bytes w h y x).
Qed.

Lemma fill_tiles_rgb24_shown :
  rgb_ok 24 i = true -> cc_length (alpha i) = 0 -> 3 * w <= stride ->
  returns (fill_tiles_rgb24 info m base w h stride)
    (shown 3 i rep8 (fun y x => tile_color w h y x 255) base stride w h m).
Proof using Hdims Hbase Hsize.
  intros Hok Hal Hline. unfold fill_tiles_rgb24.
  eapply returns_mono; [by apply fill_tiles_pixels_painted|].
  intros m'. apply painted_shown. intros y x Hx.
  pose proof (MAKE_RGB24_shows i _ _ _ 255 Hok Hal (tile_color_bytes w h y x 255 ltac:(done))) as Hs.
  unfold MAKE_RGB24 in *. change (8 * Z.of_nat 3) with 24. rewrite wrap_wrap by done. exact Hs.
Qed.

Lemma fill_tiles_rgb32_shown :
  rgb_ok 32 i = true -> 4 * w <= stride ->
  returns (fill_tiles_rgb32 info m base w h stride)
    (shown 4 i rep8 (fun y x => tile_color w h y x (tile_alpha w h y x)) base stride w h m).
Proof using Hdims Hbase Hsize.
  intros Hok Hline. unfold fill_tiles_rgb32, make_pwetty.
  rstep fill_tiles_pixels_painted; try done. intros m'. apply painted_shown. intros y x Hx.
  apply MAKE_RGBA_shows; [done|done|]. apply (tile_color_bytes w h y x), tile_alpha_range.
Qed.

Lemma fill_tiles_rgb16fp_shown :
  rgb_ok 64 i = true -> 8 * w <= stride ->
  returns (fill_tiles_rgb16fp info m base w h stride)
    (shown 8 i half8 (fun y x => tile_color w h y x (tile_alpha w h y x)) base stride w h m).
Proof using Hdims Hbase Hsize.
  intros Hok Hline. unfold fill_tiles_rgb16fp.
  eapply returns_mono; [by apply fill_tiles_pixels_painted|].
  intros m'. apply painted_shown. intros y x Hx.
  apply MAKE_RGBA8FP16_shows; [done|]. apply (tile_color_bytes w h y x), tile_alpha_range.
Qed.
End Fills.

(** The value of a gradient pixel: the column pair's number, to 10 bits in the top half
    and to its 8 high bits of them in the bottom half. *)
Definition gradient_level (h y x : Z) : Z :=
  Z.land (x / 2) (if y <? h / 2 then 0x3ff else 0x3fc).

(** One line of the gradient: two equal pixels for every step of the ramp. *)
Lemma gradient_line_painted n value m base w h stride y mask m' :
  0 <= w < 4294967296 -> 0 <= y < h -> 0 <= base ->
  Z.of_nat n * w <= stride -> base + h * stride <= msize m ->
  mask = (if y <? h / 2 then 0x3ff else 0x3fc) ->
  let R := fun y x => raster base stride (Z.of_nat n) n (fun y x => value (gradient_level h y x)) m
                        (scanned (2 * (w / 2)) y x) in
  R y 0 m' ->
  returns ('(_, m) ← for_lt (w / 2) 1 (fun j m =>
      let v := value (Z.land j mask) in
      m ← store_le n m (base + y * stride + Z.of_nat n * u32 (2 * j + 1)) v;
      store_le n m (base + y * stride + Z.of_nat n * u32 (2 * j)) v) 0 m';
    Ok (m, base + y * stride + stride))
    (fun '(m, p) => p = base + (y + 1) * stride /\ R (y + 1) 0 m).
Proof.
  intros Hw Hy Hbase Hline Hsize Hmask R Hr.
  assert (Hw2 : 2 * (w / 2) <= w) by (apply Z.mul_div_le; lia).
  set (colour := fun y x => value (gradient_level h y x)) in R.
  rstep (for_lt_returns1 (fun j => R y (2 * j))); [lia..| | |].
  - by rewrite Z.mul_0_r.
  - intros j m1 Hj Hr1. cbv zeta. rewrite !u32_id by lia.
    assert (Hlev : forall d, 0 <= d < 2 -> value (Z.land j mask) = colour y (2 * j + d)).
    { intros d Hd. unfold colour, gradient_level. rewrite Hmask.
      replace ((2 * j + d) / 2) with j; [done|]. apply (Z.div_unique_pos _ _ _ d); lia. }
    assert (Hfit : forall x, 0 <= x < w -> pixel_addr base stride (Z.of_nat n) y x + Z.of_nat n <= msize m)
      by (unfold pixel_addr; intros; nia).
    apply returns_bind. rewrite (Hlev 1) by lia. eapply returns_mono.
    + apply (raster_store base stride (Z.of_nat n) n (2 * (w / 2)) colour m Hbase ltac:(nia)
        ltac:(lia) ltac:(nia) (scanned (2 * (w / 2)) y (2 * j))); [|lia|lia|apply Hfit; lia|done].
      unfold scanned. lia.
    + intros m2 Hr2. rewrite <- (Hlev 1), (Hlev 0) by lia. rewrite Z.add_0_r.
      eapply returns_mono.
      * apply (raster_store base stride (Z.of_nat n) n (2 * (w / 2)) colour m Hbase ltac:(nia)
          ltac:(lia) ltac:(nia)
          (fun y' x' => scanned (2 * (w / 2)) y (2 * j) y' x' \/ y' = y /\ x' = 2 * j + 1)
          m2 y (2 * j)); [|lia|lia|apply Hfit; lia|exact Hr2].
        unfold scanned. lia.
      * intros m3. apply raster_iff. unfold scanned. lia.
  - intros [j m1] [Hj Hr1]. simpl. split; [lia|].
    eapply raster_next_line; [|lia|exact Hr1]. lia.
Qed.

Lemma fill_gradient_pixels_painted n value m base w h stride :
  0 <= w < 4294967296 -> 0 <= h < 4294967296 -> 0 <= base ->
  Z.of_nat n * w <= stride -> base + h * stride <= msize m ->
  returns (fill_gradient_pixels n value m base w h stride)
    (painted base stride n (2 * (w / 2)) h (fun y x => value (gradient_level h y x)) m).
Proof.
  intros Hw Hh Hbase Hline Hsize. unfold fill_gradient_pixels.
  assert (Hw2 : 2 * (w / 2) <= w) by (apply Z.mul_div_le; lia).
  assert (Hh2 : 0 <= h / 2 <= h) by (Z.to_euclidean_division_equations; lia).
  set (R := fun y x => raster base stride (Z.of_nat n) n (fun y x => value (gradient_level h y x)) m
                         (scanned (2 * (w / 2)) y x)).
  rstep (for_lt_returns1 (fun y '(m', p) => p = base + y * stride /\ R y 0 m')); [lia..| | |].
  - split; [lia|]. apply raster_start.
  - intros y [m' p] Hy [-> Hr]. apply gradient_line_painted; [lia..| |done].
    by rewrite (proj2 (Z.ltb_lt _ _)) by lia.
  - intros [y [m1 p]] [-> [-> Hr]].
    rstep (for_lt_returns1 (fun y '(m', p) => p = base + y * stride /\ R y 0 m'));
      [lia..|done| |].
    + intros y [m' p] Hy [-> Hr']. apply gradient_line_painted; [lia..| |done].
      by rewrite (proj2 (Z.ltb_ge _ _)) by lia.
    + intros [y [m2 p]] [-> [_ Hr2]]. simpl. apply raster_painted.
      by replace (Z.max (Z.max 0 (h / 2)) h) with h in Hr2 by lia.
Qed.

Lemma gradient_level_range h y x : 0 <= gradient_level h y x < 1024.
Proof.
  unfold gradient_level. set (b := if y <? h / 2 then 0x3ff else 0x3fc).
  assert (Hb : b = Z.land b (Z.ones 10)) by (subst b; by case_match).
  rewrite Hb, Z.land_assoc, Z.land_ones by lia. apply Z.mod_pos_bound. lia.
Qed.

Lemma fill_gradient_pixels_shown n i f value m base w h stride :
  (forall v, 0 <= v < 1024 -> shows i (channels f (v, v, v, 0)) (wrap (8 * Z.of_nat n) (value v))) ->
  0 <= w < 4294967296 -> 0 <= h < 4294967296 -> 0 <= base ->
  Z.of_nat n * w <= stride -> base + h * stride <= msize m ->
  returns (fill_gradient_pixels n value m base w h stride)
    (shown n i f (fun y x => let g := gradient_level h y x in (g, g, g, 0))
       base stride (2 * (w / 2)) h m).
Proof.
  intros Hv Hw Hh Hbase Hline Hsize.
  eapply returns_mono; [by apply fill_gradient_pixels_painted|].
  intros m'. apply painted_shown. intros y x _. apply Hv, gradient_level_range.
Qed.
