(* ===== verification/TilesYuv.v ===== *)
(** The YUV tile pictures of drm/util/pattern.c.  Chroma samples are stored once for every
    pixel they cover, so that the last pixel of the cell gives their final value. *)
From Stdlib Require Import ZArith Lia.
From stdpp Require Import base list numbers strings.
From S2P Require Import Prelude Mem Raster Format Color Smpte SmpteYuv Tiles.

Definition tile_yuv_at (w y x : Z) : color_yuv := tile_yuv (u32 (tile_at w y x)).

(** Line and column of the last pixel of chroma cell [(y, k)] a scan standing at
    [(y0, x0)] has passed. *)
Definition last_line (ys y0 x0 y k : Z) : Z :=
  if y0 / ys =? y then (if 2 * k <? x0 then y0 else y0 - 1) else ys * y + ys - 1.
Definition last_column (ys y0 x0 y k : Z) : Z :=
  if (y0 / ys =? y) && (2 * k <? x0) then Z.min (x0 - 1) (2 * k + 1) else 2 * k + 1.

Definition tile_done (w h ys y0 x0 : Z) (s : sample) : Prop :=
  let '(p, y, x) := s in
  match p with
  | PY => y < h /\ scanned w y0 x0 y x
  | _ => 0 <= x /\ y < h / ys /\ scanned w y0 x0 (ys * y) (2 * x)
  end.

Definition tile_now (w ys y0 x0 : Z) (s : sample) : Z :=
  let '(p, y, x) := s in
  match p with
  | PY => cy (tile_yuv_at w y x)
  | _ => yuv_part p (tile_yuv_at w (last_line ys y0 x0 y x) (last_column ys y0 x0 y x))
  end.

(** The finished picture: the chroma cell has the colour of its last pixel. *)
Definition tile_sample (w ys : Z) (s : sample) : Z :=
  let '(p, y, x) := s in
  match p with
  | PY => cy (tile_yuv_at w y x)
  | _ => yuv_part p (tile_yuv_at w (ys * y + ys - 1) (2 * x + 1))
  end.

#[local] Arguments tile_yuv_at : simpl never.
#[local] Arguments yuv_part : simpl never.

Section Step.
Context (w h ys : Z) (Hys : ys = 1 \/ ys = 2) (Hw : (2 | w)) (Hh : (ys | h)).

Lemma line_cell y : ys * (y / ys) <= y < ys * (y / ys) + ys.
Proof using Hys. clear Hw Hh. Z.to_euclidean_division_equations. lia. Qed.

(** The cells of the pixel at [(y0, x0)] become done and get its colour; the others are
    not touched. *)
Lemma tile_done_step y0 x0 s :
  0 <= y0 < h -> 0 <= x0 < w ->
  tile_done w h ys y0 (x0 + 1) s <->
    tile_done w h ys y0 x0 s \/ s = (PY, y0, x0) \/ s = (PU, y0 / ys, x0 / 2) \/
    s = (PV, y0 / ys, x0 / 2).
Proof using Hys Hw Hh.
  intros Hy Hx. pose proof (line_cell y0) as Hc. destruct Hw as [w2 Hw2], Hh as [h2 Hh2].
  assert (Hx2 : 2 * (x0 / 2) <= x0 < 2 * (x0 / 2) + 2)
    by (clear; Z.to_euclidean_division_equations; lia).
  assert (Hhy : h / ys = h2) by (rewrite Hh2; apply Z.div_mul; lia).
  set (yc := y0 / ys) in *. set (xc := x0 / 2) in *. clearbody yc xc.
  destruct s as [[[] y] x]; unfold tile_done, scanned; rewrite ?Hhy; split.
  - intros (? & ? & ? & ?). destruct (decide (y = y0 /\ x = x0)) as [[-> ->]|]; [auto|].
    left. lia.
  - intros [?|[[= -> ->]|[[=]|[=]]]]; lia.
  - intros (? & ? & ? & ? & ?). destruct (decide (y = yc /\ x = xc)) as [[-> ->]|]; [auto|].
    left. destruct Hys; subst ys; lia.
  - intros [?|[[=]|[[= -> ->]|[=]]]]; [lia|]. destruct Hys; subst ys; lia.
  - intros (? & ? & ? & ? & ?). destruct (decide (y = yc /\ x = xc)) as [[-> ->]|]; [auto|].
    left. destruct Hys; subst ys; lia.
  - intros [?|[[=]|[[=]|[= -> ->]]]]; [lia|]. destruct Hys; subst ys; lia.
Qed.

Lemma tile_now_cell y0 x0 p :
  p <> PY -> tile_now w ys y0 (x0 + 1) (p, y0 / ys, x0 / 2) = yuv_part p (tile_yuv_at w y0 x0).
Proof using Type.
  intros Hp. unfold tile_now, last_line, last_column.
  assert (Hx2 : 2 * (x0 / 2) <= x0 < 2 * (x0 / 2) + 2)
    by (clear; Z.to_euclidean_division_equations; lia).
  rewrite Z.eqb_refl, (proj2 (Z.ltb_lt _ _)) by lia. simpl.
  replace (Z.min (x0 + 1 - 1) (2 * (x0 / 2) + 1)) with x0 by lia. by destruct p.
Qed.

Lemma tile_now_other y0 x0 s :
  s <> (PU, y0 / ys, x0 / 2) -> s <> (PV, y0 / ys, x0 / 2) ->
  tile_now w ys y0 (x0 + 1) s = tile_now w ys y0 x0 s.
Proof using Type.
  intros Hu Hv. destruct s as [[p y] x]. destruct p; [done| |].
  all: unfold tile_now, last_line, last_column.
  all: destruct (Z.eqb_spec (y0 / ys) y) as [Hy|Hy]; simpl; [|done].
  all: assert (Hx : x <> x0 / 2) by congruence.
  all: assert (Hx2 : 2 * (x0 / 2) <= x0 < 2 * (x0 / 2) + 2)
    by (clear; Z.to_euclidean_division_equations; lia).
  all: destruct (Z.ltb_spec (2 * x) (x0 + 1)), (Z.ltb_spec (2 * x) x0); try done; try lia.
  all: apply (f_equal2 (fun a b => yuv_part _ (tile_yuv_at w a b))); lia.
Qed.

Lemma tile_done_line y0 s :
  0 <= y0 -> tile_done w h ys y0 w s <-> tile_done w h ys (y0 + 1) 0 s.
Proof using Type. intros. destruct s as [[[] y] x]; unfold tile_done, scanned; lia. Qed.

Lemma tile_now_line y0 s :
  0 <= y0 -> tile_done w h ys y0 w s -> tile_now w ys y0 w s = tile_now w ys (y0 + 1) 0 s.
Proof using Hys Hw Hh.
  intros Hy0 Hd. destruct s as [[p y] x]. destruct p; [done| |].
  all: unfold tile_now, last_line, last_column; unfold tile_done, scanned in Hd.
  all: destruct Hw as [w2 Hw2].
  all: pose proof (line_cell y0) as Hc; pose proof (line_cell (y0 + 1)) as Hc1.
  all: rewrite (proj2 (Z.ltb_ge (2 * x) 0)) by lia.
  all: rewrite (proj2 (Z.ltb_lt (2 * x) w)), !andb_true_r, !andb_false_r by lia.
  all: replace (Z.min (w - 1) (2 * x + 1)) with (2 * x + 1) by lia.
  all: assert (forall b : bool, (if b then 2 * x + 1 else 2 * x + 1) = 2 * x + 1) as ->
    by by intros [].
  all: destruct (Z.eqb_spec (y0 / ys) y), (Z.eqb_spec ((y0 + 1) / ys) y);
    apply (f_equal2 (fun a b => yuv_part _ (tile_yuv_at w a b))); destruct Hys; subst ys; lia.
Qed.

Lemma tile_finished s :
  (tile_done w h ys h 0 s <-> valid_sample w h 2 ys s) /\
  (tile_done w h ys h 0 s -> tile_now w ys h 0 s = tile_sample w ys s).
Proof using Hys Hw Hh.
  destruct Hh as [h2 Hh2]. assert (Hhy : h / ys = h2) by (rewrite Hh2; apply Z.div_mul; lia).
  destruct s as [[p y] x]; destruct p;
    unfold tile_done, scanned, tile_now, last_line, last_column; simpl; rewrite ?Hhy;
    (split; [destruct Hys; subst ys; lia|]); [done| |].
  all: intros ?; rewrite (proj2 (Z.eqb_neq h2 y)) by lia; done.
Qed.
End Step.

(** * Planar formats *)

Lemma line_advance y ys : ys = 1 \/ ys = 2 -> 0 <= y ->
  (y + 1) / ys = y / ys + (if (y + 1) mod ys =? 0 then 1 else 0).
Proof. intros Hys Hy. destruct (Z.eqb_spec ((y + 1) mod ys) 0); destruct Hys; subst ys;
  Z.to_euclidean_division_equations; lia. Qed.

(** Follows a sequence of stores that is known to succeed. *)
Ltac run_stores :=
  repeat (match goal with |- context [store8 ?m ?a ?v] => destruct (store8 m a v); simpl; [|done] end); auto.

(** The three stores of a pixel. *)
Lemma tile_cell_returns w h ys addr m0 m y x :
  ys = 1 \/ ys = 2 -> (2 | w) -> (ys | h) -> layout_ok w h 2 ys (msize m0) addr ->
  0 <= y < h -> 0 <= x < w ->
  let c := tile_yuv_at w y x in
  plotted addr m0 (tile_done w h ys y x) (tile_now w ys y x) m ->
  returns (m ← store8 m (addr (PY, y, x)) (cy c);
           m ← store8 m (addr (PU, y / ys, x / 2)) (cu c);
           store8 m (addr (PV, y / ys, x / 2)) (cv c))
    (plotted addr m0 (tile_done w h ys y (x + 1)) (tile_now w ys y (x + 1))).
Proof.
  intros Hys Hw Hh Hlay Hy Hx c Hm.
  assert (Hdone : forall t, tile_done w h ys y x t -> valid_sample w h 2 ys t).
  { intros [[[] y'] x']; unfold tile_done, scanned; simpl; destruct Hys as [-> | ->]; lia. }
  assert (Hvu : valid_sample w h 2 ys (PU, y / ys, x / 2)).
  { destruct Hh as [h2 Hh2]. simpl. rewrite Hh2, Z.div_mul by lia.
    destruct Hys as [Hy1|Hy1]; rewrite Hy1 in *; Z.to_euclidean_division_equations; lia. }
  assert (Hvv : valid_sample w h 2 ys (PV, y / ys, x / 2)) by exact Hvu.
  assert (Hvy : valid_sample w h 2 ys (PY, y, x)) by (simpl; lia).
  assert (Hc : yuv_bytes c) by apply MAKE_YUV_601_bytes. destruct Hc as (Hcy & Hcu & Hcv).
  apply returns_bind. eapply returns_mono;
    [eapply (plotted_store1 addr m0 _ (fun t => tile_done w h ys y x t \/ t = (PY, y, x)));
       [| | | |exact Hm]|]; try done.
  - by apply (layout_bounds _ _ _ _ _ _ Hlay).
  - intros t Ht He. apply (layout_inj _ _ _ _ _ _ Hlay); auto.
  - intros m1 Hm1. cbv beta. apply returns_bind. eapply returns_mono;
      [eapply (plotted_store addr m0 _ (fun t => (tile_done w h ys y x t \/ t = (PY, y, x)) \/
         t = (PU, y / ys, x / 2)) _
         (fun t => match t with (PV, _, _) => tile_now w ys y x t
                   | _ => tile_now w ys y (x + 1) t end)); [| | | | |exact Hm1]|].
    + by apply (layout_bounds _ _ _ _ _ _ Hlay).
    + intros t [Ht| ->] He; apply (layout_inj _ _ _ _ _ _ Hlay); auto.
    + done.
    + cbv beta iota. rewrite tile_now_cell by done. by rewrite Hcu.
    + intros [[[] y'] x'] _ Hne; [done| |done]. by apply tile_now_other.
    + intros m2 Hm2. cbv beta.
      eapply (plotted_store addr m0 _ (tile_done w h ys y (x + 1)) _
           (tile_now w ys y (x + 1))); [| | | | |exact Hm2].
      * by apply (layout_bounds _ _ _ _ _ _ Hlay).
      * intros t [[Ht| ->]| ->] He; apply (layout_inj _ _ _ _ _ _ Hlay); auto.
      * intros t. rewrite tile_done_step by done. tauto.
      * rewrite tile_now_cell by done. by rewrite Hcv.
      * intros [[[] y'] x'] _ Hne; [done|done|]. by apply tile_now_other.
Qed.

(** The end of a line, and of the last one. *)
Lemma tile_line_plotted w h ys addr m0 m y :
  ys = 1 \/ ys = 2 -> (2 | w) -> (ys | h) -> 0 <= y ->
  plotted addr m0 (tile_done w h ys y w) (tile_now w ys y w) m ->
  plotted addr m0 (tile_done w h ys (y + 1) 0) (tile_now w ys (y + 1) 0) m.
Proof.
  intros Hys Hw Hh Hy [Hs Ha Hf]. split; [done| |].
  - intros t Ht. rewrite Ha by (apply tile_done_line; [lia|done]).
    f_equal. apply (tile_now_line w h); [done..|lia|]. apply tile_done_line; [lia|done].
  - intros a Ht. apply Hf. intros t Hd'. apply Ht. apply tile_done_line in Hd'; [done|lia].
Qed.

Lemma tile_finished_plotted w h ys addr m0 m :
  ys = 1 \/ ys = 2 -> (2 | w) -> (ys | h) ->
  plotted addr m0 (tile_done w h ys h 0) (tile_now w ys h 0) m ->
  plotted addr m0 (valid_sample w h 2 ys) (tile_sample w ys) m.
Proof.
  intros Hys Hw Hh [Hs Ha Hf]. assert (Hfin := tile_finished w h ys Hys Hw Hh). split; [done| |].
  - intros t Ht. destruct (Hfin t) as [Hd1 Hd2]. rewrite Ha by by apply Hd1. f_equal.
    apply Hd2. by apply Hd1.
  - intros a Ht. apply Hf. intros t Hdt. apply Ht. by apply Hfin.
Qed.

Lemma fill_tiles_yuv_planar_plotted info m y_mem u_mem v_mem w h stride :
  yuv_ok (yuv info) -> tile_dims w h -> (2 | w) -> (ysub (yuv info) | h) ->
  0 <= stride < 2147483648 ->
  let addr := planar_addr (yuv info) y_mem u_mem v_mem stride in
  layout_ok w h (xsub (yuv info)) (ysub (yuv info)) (msize m) addr ->
  returns (fill_tiles_yuv_planar info m y_mem u_mem v_mem w h stride)
    (plotted addr m (valid_sample w h (xsub (yuv info)) (ysub (yuv info)))
       (tile_sample w (ysub (yuv info)))).
Proof.
  intros (Hxs & Hys & Hcs) Hdims Hw Hh Hstride addr Hlay. pose proof Hdims as (? & ? & ?).
  unfold fill_tiles_yuv_planar. rewrite Hxs in *.
  set (ys := ysub (yuv info)) in *. set (cs := chroma_stride (yuv info)) in *.
  set (cstride := stride * cs / 2).
  assert (Hd : u32 (stride * cs) / 2 = cstride) by (unfold cstride; rewrite u32_id; [done|lia]).
  assert (HaddrU : forall y x, addr (PU, y, x) = u_mem + y * cstride + cs * x)
    by (intros; unfold addr, planar_addr; rewrite Hxs; done).
  assert (HaddrV : forall y x, addr (PV, y, x) = v_mem + y * cstride + cs * x)
    by (intros; unfold addr, planar_addr; rewrite Hxs; done).
  apply returns_bind. eapply returns_mono.
  { apply (tile_lines_returns 1 w h) with (Q := fun y x '(m', yp, up, vp) =>
      yp = y_mem + y * stride /\ up = u_mem + y / ys * cstride /\
      vp = v_mem + y / ys * cstride /\
      plotted addr m (tile_done w h ys y x) (tile_now w ys y x) m'); [lia..| | |].
    - intros y x [[[m' yp] up] vp] Hy Hx _ (-> & -> & -> & Hm').
      rewrite (tile_rgb32_at w h), divu_ok by (done || lia). cbn [mbind outcome_bind].
      assert (Hoff : u32 (x / 2 * cs) = cs * (x / 2))
        by (rewrite u32_id; Z.to_euclidean_division_equations; nia).
      rewrite Hoff, <- HaddrU, <- HaddrV. fold (tile_yuv_at w y x).
      change (y_mem + y * stride + x) with (addr (PY, y, x)).
      generalize (tile_cell_returns w h ys addr m m' y x Hys Hw Hh Hlay Hy Hx Hm').
      cbv zeta. set (c := tile_yuv_at w y x).
      run_stores.
    - intros y x [[[m' yp] up] vp] Hy Hx Hx' (-> & -> & -> & Hm').
      assert (x = w) as -> by lia.
      rewrite (proj2 (Z.eqb_neq ys 0)), u32_id by lia.
      apply tile_line_plotted in Hm'; [|done..|lia].
      pose proof (line_advance y ys Hys ltac:(lia)) as Hadv.
      destruct (Z.eqb_spec ((y + 1) mod ys) 0).
      + rewrite divu_ok by lia. simpl. rewrite Hd, Hadv. split_and!; [lia..|done].
      + simpl. rewrite Hadv. split_and!; [lia..|done].
    - split_and!; [lia|rewrite Z.div_0_l by lia; lia..|].
      apply plotted_start. intros [[[] y'] x']; unfold tile_done, scanned; [lia| |];
        destruct Hys as [-> | ->]; lia. }
  intros [[[m' yp] up] vp] (_ & _ & _ & Hm'). simpl. by apply tile_finished_plotted.
Qed.

(** * Packed formats *)

(** Both pixels of a pair have the colour of the left one. *)
Definition tile_packed_sample (w : Z) (s : sample) : Z :=
  let '(p, y, x) := s in
  match p with
  | PY => cy (tile_yuv_at w y (2 * (x / 2)))
  | _ => yuv_part p (tile_yuv_at w y (2 * x))
  end.

Definition pair_done (w h y0 x0 : Z) (s : sample) : Prop :=
  let '(p, y, x) := s in
  match p with
  | PY => y < h /\ scanned w y0 x0 y x
  | _ => 0 <= x /\ y < h /\ scanned w y0 x0 y (2 * x)
  end.

(** The four stores of a pair. *)
Lemma tile_pair_returns w h addr m0 m y k c :
  layout_ok w h 2 1 (msize m0) addr -> (2 | w) -> 0 <= y < h -> 0 <= k -> 2 * k < w ->
  c = tile_yuv_at w y (2 * k) ->
  plotted addr m0 (pair_done w h y (2 * k)) (tile_packed_sample w) m ->
  returns (m ← store8 m (addr (PY, y, 2 * k)) (cy c);
           m ← store8 m (addr (PU, y, k)) (cu c);
           m ← store8 m (addr (PY, y, 2 * k + 1)) (cy c);
           store8 m (addr (PV, y, k)) (cv c))
    (plotted addr m0 (pair_done w h y (2 * k + 2)) (tile_packed_sample w)).
Proof.
  intros Hlay [w2 Hw2] Hy Hk Hkw Hc Hm.
  set (D := pair_done w h y (2 * k)) in *.
  assert (HD : forall t, D t -> valid_sample w h 2 1 t).
  { intros [[[] y'] x']; unfold D, pair_done, scanned; simpl; rewrite ?Z.div_1_r; lia. }
  assert (Hv : forall t, t = (PY, y, 2 * k) \/ t = (PU, y, k) \/ t = (PY, y, 2 * k + 1) \/
    t = (PV, y, k) -> valid_sample w h 2 1 t).
  { intros t [-> |[-> |[-> | ->]]]; simpl; rewrite ?Z.div_1_r; lia. }
  assert (Hb : yuv_bytes c) by (rewrite Hc; apply MAKE_YUV_601_bytes).
  destruct Hb as (Hcy & Hcu & Hcv).
  assert (Hx2 : forall d, 0 <= d < 2 -> (2 * k + d) / 2 = k)
    by (clear; intros; Z.to_euclidean_division_equations; lia).
  assert (Hstep : forall (D1 : sample -> Prop) i v m1,
    (forall t, D1 t -> valid_sample w h 2 1 t) -> valid_sample w h 2 1 i ->
    tile_packed_sample w i = u8 v -> plotted addr m0 D1 (tile_packed_sample w) m1 ->
    returns (store8 m1 (addr i) v)
      (plotted addr m0 (fun t => D1 t \/ t = i) (tile_packed_sample w))).
  { intros D1 i v m1 HD1 Hi Hval Hm1. eapply plotted_store1; [| | |done|exact Hm1]; [| |done].
    - by apply (layout_bounds _ _ _ _ _ _ Hlay).
    - intros t Ht He. apply (layout_inj _ _ _ _ _ _ Hlay); auto. }
  rstep Hstep; [exact HD|auto| |exact Hm|].
  { unfold tile_packed_sample. rewrite <- (Z.add_0_r (2 * k)) at 1. rewrite Hx2, <- Hc by lia. done. }
  intros m1 Hm1. rstep Hstep; [ |auto| |exact Hm1|].
  { intros t [?| ->]; auto. }
  { unfold tile_packed_sample, yuv_part. rewrite <- Hc. by rewrite Hcu. }
  intros m2 Hm2. rstep Hstep; [ |auto| |exact Hm2|].
  { intros t [[?| ->]| ->]; auto. }
  { unfold tile_packed_sample. rewrite Hx2, <- Hc by lia. done. }
  intros m3 Hm3. eapply returns_mono; [eapply Hstep; [|auto| |exact Hm3]|].
  { intros t [[[?| ->]| ->]| ->]; auto 6. }
  { unfold tile_packed_sample, yuv_part. rewrite <- Hc. by rewrite Hcv. }
  intros m4. apply plotted_iff. intros t. split.
  - intros [[[[Ht| ->]| ->]| ->]| ->]; [|unfold pair_done, scanned; lia..].
    destruct t as [[[] y'] x']; unfold D, pair_done, scanned in *; lia.
  - intros Ht. destruct t as [[[] y'] x']; unfold D, pair_done, scanned in *.
    + destruct (decide (y' = y /\ x' = 2 * k)) as [[-> ->]|]; [auto|].
      destruct (decide (y' = y /\ x' = 2 * k + 1)) as [[-> ->]|]; [auto|].
      do 4 left. lia.
    + destruct (decide (y' = y /\ x' = k)) as [[-> ->]|]; [auto|]. do 4 left. lia.
    + destruct (decide (y' = y /\ x' = k)) as [[-> ->]|]; [auto|]. do 4 left. lia.
Qed.

Lemma tile_pair_returns_at w h addr m0 m y k c a1 a2 a3 a4 :
  layout_ok w h 2 1 (msize m0) addr -> (2 | w) -> 0 <= y < h -> 0 <= k -> 2 * k < w ->
  c = tile_yuv_at w y (2 * k) ->
  a1 = addr (PY, y, 2 * k) -> a2 = addr (PU, y, k) -> a3 = addr (PY, y, 2 * k + 1) -> a4 = addr (PV, y, k) ->
  plotted addr m0 (pair_done w h y (2 * k)) (tile_packed_sample w) m ->
  returns (m ← store8 m a1 (cy c); m ← store8 m a2 (cu c); m ← store8 m a3 (cy c); store8 m a4 (cv c))
    (plotted addr m0 (pair_done w h y (2 * k + 2)) (tile_packed_sample w)).
Proof. intros ?????? -> -> -> ->. by apply tile_pair_returns. Qed.

Lemma fill_tiles_yuv_packed_plotted info m base w h stride :
  tile_dims w h -> (2 | w) ->
  layout_ok w h 2 1 (msize m) (packed_addr (yuv info) base stride) ->
  returns (fill_tiles_yuv_packed info m base w h stride)
    (plotted (packed_addr (yuv info) base stride) m (valid_sample w h 2 1)
       (tile_packed_sample w)).
Proof.
  intros Hdims Hw Hlay. pose proof Hdims as (? & ? & ?).
  unfold fill_tiles_yuv_packed.
  set (yo := if has_flag (order (yuv info)) YUV_YC then 0 else 1).
  set (co := if has_flag (order (yuv info)) YUV_CY then 0 else 1).
  set (u := if has_flag (order (yuv info)) YUV_YCrCb then 2 else 0).
  set (v := if has_flag (order (yuv info)) YUV_YCbCr then 2 else 0).
  assert (Hu : 0 <= u <= 2) by (subst u; case_match; lia).
  assert (Hv : 0 <= v <= 2) by (subst v; case_match; lia).
  set (addr := packed_addr (yuv info) base stride) in *.
  assert (Haddr : forall y x, addr (PY, y, x) = base + yo + y * stride + 2 * x /\
    addr (PU, y, x) = base + co + y * stride + 4 * x + u /\
    addr (PV, y, x) = base + co + y * stride + 4 * x + v) by done.
  assert ((if has_flag (order (yuv info)) YUV_YC then base else base + 1) = base + yo) as ->
    by (subst yo; case_match; lia).
  assert ((if has_flag (order (yuv info)) YUV_CY then base else base + 1) = base + co) as ->
    by (subst co; case_match; lia).
  apply returns_bind. eapply returns_mono.
  { apply (tile_lines_returns 2 w h) with (Q := fun y x '(m', yp, cp) =>
      yp = base + yo + y * stride /\ cp = base + co + y * stride /\
      plotted addr m (pair_done w h y x) (tile_packed_sample w) m'); [lia..| | |].
    - intros y x [[m' yp] cp] Hy Hx [k Hk] (-> & -> & Hm').
      rewrite Z.mul_comm in Hk. subst x.
      rewrite (tile_rgb32_at w h), !u32_id by (done || lia). cbn [mbind outcome_bind].
      fold (tile_yuv_at w y (2 * k)).
      destruct (Haddr y (2 * k)) as (Hpy & _ & _), (Haddr y (2 * k + 1)) as (Hpy1 & _ & _),
        (Haddr y k) as (_ & Hpu & Hpv).
      match goal with |- context [store8 m' ?a1 _ ≫= (fun m1 => store8 _ ?a2 _ ≫= (fun m2 => store8 _ ?a3 _ ≫= (fun m3 => store8 _ ?a4 _ ≫= _)))] =>
        pose proof (tile_pair_returns_at w h addr m m' y k _ a1 a2 a3 a4 Hlay Hw Hy ltac:(lia) ltac:(lia) eq_refl
          ltac:(lia) ltac:(lia) ltac:(lia) ltac:(lia) Hm') as Hpair end.
      revert Hpair. set (c := tile_yuv_at w y (2 * k)).
      run_stores.
    - intros y x [[m' yp] cp] Hy Hx Hx' (-> & -> & Hm'). simpl. split_and!; [lia..|].
      revert Hm'. apply plotted_iff. intros [[[] y'] x']; unfold pair_done, scanned; lia.
    - split_and!; [lia..|]. apply plotted_start.
      intros [[[] y'] x']; unfold pair_done, scanned; lia. }
  intros [[m' yp] cp] (_ & _ & Hm'). simpl. revert Hm'. apply plotted_iff.
  intros [[[] y'] x']; unfold pair_done, scanned; simpl; rewrite ?Z.div_1_r; lia.
Qed.
