(* ===== verification/Pattern.v ===== *)
(** drm/util/pattern.c: the choice of a fill function by format and by pattern. *)
From Stdlib Require Import ZArith Lia.
From stdpp Require Import base list numbers strings.
From S2P Require Import Prelude Mem Raster Format Color Smpte SmpteBars SmpteYuv Tiles TilesYuv.

(** enum util_fill_pattern; the [default] of the switch takes any other value. *)
Inductive util_fill_pattern :=
| UTIL_PATTERN_TILES
| UTIL_PATTERN_PLAIN
| UTIL_PATTERN_SMPTE
| UTIL_PATTERN_GRADIENT.

#[global] Instance util_fill_pattern_eq_dec : EqDecision util_fill_pattern.
Proof. solve_decision. Defined.

(** [void *planes[3]]: a plane is [None] where the caller left a null pointer. *)
Abbreviation planes := (list (option Z)).

Definition plane_at (ps : planes) (k : nat) : outcome Z :=
  match ps !! k with Some (Some a) => Ok a | _ => Fault OutOfBounds end.

Definition fill_smpte (info : util_format_info) (m : mem) (ps : planes)
    (width height stride : Z) : outcome mem :=
  match format info with
  | DRM_FORMAT_C8 =>
      p0 ← plane_at ps 0; fill_smpte_c8 m p0 width height stride
  | DRM_FORMAT_UYVY | DRM_FORMAT_VYUY | DRM_FORMAT_YUYV | DRM_FORMAT_YVYU =>
      p0 ← plane_at ps 0; fill_smpte_yuv_packed (yuv info) m p0 width height stride
  | DRM_FORMAT_NV12 | DRM_FORMAT_NV21 | DRM_FORMAT_NV16 | DRM_FORMAT_NV61 =>
      p0 ← plane_at ps 0; p1 ← plane_at ps 1;
      let u := if has_flag (order (yuv info)) YUV_YCbCr then p1 else p1 + 1 in
      let v := if has_flag (order (yuv info)) YUV_YCrCb then p1 else p1 + 1 in
      fill_smpte_yuv_planar (yuv info) m p0 u v width height stride
  | DRM_FORMAT_YUV420 =>
      p0 ← plane_at ps 0; p1 ← plane_at ps 1; p2 ← plane_at ps 2;
      fill_smpte_yuv_planar (yuv info) m p0 p1 p2 width height stride
  | DRM_FORMAT_YVU420 =>
      p0 ← plane_at ps 0; p1 ← plane_at ps 1; p2 ← plane_at ps 2;
      fill_smpte_yuv_planar (yuv info) m p0 p2 p1 width height stride
  | DRM_FORMAT_ARGB4444 | DRM_FORMAT_XRGB4444 | DRM_FORMAT_ABGR4444 | DRM_FORMAT_XBGR4444
  | DRM_FORMAT_RGBA4444 | DRM_FORMAT_RGBX4444 | DRM_FORMAT_BGRA4444 | DRM_FORMAT_BGRX4444
  | DRM_FORMAT_RGB565 | DRM_FORMAT_BGR565 | DRM_FORMAT_ARGB1555 | DRM_FORMAT_XRGB1555
  | DRM_FORMAT_ABGR1555 | DRM_FORMAT_XBGR1555 | DRM_FORMAT_RGBA5551 | DRM_FORMAT_RGBX5551
  | DRM_FORMAT_BGRA5551 | DRM_FORMAT_BGRX5551 =>
      p0 ← plane_at ps 0; fill_smpte_rgb16 (rgb info) m p0 width height stride
  | DRM_FORMAT_BGR888 | DRM_FORMAT_RGB888 =>
      p0 ← plane_at ps 0; fill_smpte_rgb24 (rgb info) m p0 width height stride
  | DRM_FORMAT_ARGB8888 | DRM_FORMAT_XRGB8888 | DRM_FORMAT_ABGR8888 | DRM_FORMAT_XBGR8888
  | DRM_FORMAT_RGBA8888 | DRM_FORMAT_RGBX8888 | DRM_FORMAT_BGRA8888 | DRM_FORMAT_BGRX8888
  | DRM_FORMAT_ARGB2101010 | DRM_FORMAT_XRGB2101010 | DRM_FORMAT_ABGR2101010
  | DRM_FORMAT_XBGR2101010 | DRM_FORMAT_RGBA1010102 | DRM_FORMAT_RGBX1010102
  | DRM_FORMAT_BGRA1010102 | DRM_FORMAT_BGRX1010102 =>
      p0 ← plane_at ps 0; fill_smpte_rgb32 (rgb info) m p0 width height stride
  | DRM_FORMAT_XRGB16161616F | DRM_FORMAT_XBGR16161616F | DRM_FORMAT_ARGB16161616F
  | DRM_FORMAT_ABGR16161616F =>
      p0 ← plane_at ps 0; fill_smpte_rgb16fp (rgb info) m p0 width height stride
  end.

(** C8 is in no case of this switch: the buffer is left as it is. *)
Definition fill_tiles (info : util_format_info) (m : mem) (ps : planes)
    (width height stride : Z) : outcome mem :=
  match format info with
  | DRM_FORMAT_UYVY | DRM_FORMAT_VYUY | DRM_FORMAT_YUYV | DRM_FORMAT_YVYU =>
      p0 ← plane_at ps 0; fill_tiles_yuv_packed info m p0 width height stride
  | DRM_FORMAT_NV12 | DRM_FORMAT_NV21 | DRM_FORMAT_NV16 | DRM_FORMAT_NV61 =>
      p0 ← plane_at ps 0; p1 ← plane_at ps 1;
      let u := if has_flag (order (yuv info)) YUV_YCbCr then p1 else p1 + 1 in
      let v := if has_flag (order (yuv info)) YUV_YCrCb then p1 else p1 + 1 in
      fill_tiles_yuv_planar info m p0 u v width height stride
  | DRM_FORMAT_YUV420 =>
      p0 ← plane_at ps 0; p1 ← plane_at ps 1; p2 ← plane_at ps 2;
      fill_tiles_yuv_planar info m p0 p1 p2 width height stride
  | DRM_FORMAT_YVU420 =>
      p0 ← plane_at ps 0; p1 ← plane_at ps 1; p2 ← plane_at ps 2;
      fill_tiles_yuv_planar info m p0 p2 p1 width height stride
  | DRM_FORMAT_ARGB4444 | DRM_FORMAT_XRGB4444 | DRM_FORMAT_ABGR4444 | DRM_FORMAT_XBGR4444
  | DRM_FORMAT_RGBA4444 | DRM_FORMAT_RGBX4444 | DRM_FORMAT_BGRA4444 | DRM_FORMAT_BGRX4444
  | DRM_FORMAT_RGB565 | DRM_FORMAT_BGR565 | DRM_FORMAT_ARGB1555 | DRM_FORMAT_XRGB1555
  | DRM_FORMAT_ABGR1555 | DRM_FORMAT_XBGR1555 | DRM_FORMAT_RGBA5551 | DRM_FORMAT_RGBX5551
  | DRM_FORMAT_BGRA5551 | DRM_FORMAT_BGRX5551 =>
      p0 ← plane_at ps 0; fill_tiles_rgb16 info m p0 width height stride
  | DRM_FORMAT_BGR888 | DRM_FORMAT_RGB888 =>
      p0 ← plane_at ps 0; fill_tiles_rgb24 info m p0 width height stride
  | DRM_FORMAT_ARGB8888 | DRM_FORMAT_XRGB8888 | DRM_FORMAT_ABGR8888 | DRM_FORMAT_XBGR8888
  | DRM_FORMAT_RGBA8888 | DRM_FORMAT_RGBX8888 | DRM_FORMAT_BGRA8888 | DRM_FORMAT_BGRX8888
  | DRM_FORMAT_ARGB2101010 | DRM_FORMAT_XRGB2101010 | DRM_FORMAT_ABGR2101010
  | DRM_FORMAT_XBGR2101010 | DRM_FORMAT_RGBA1010102 | DRM_FORMAT_RGBX1010102
  | DRM_FORMAT_BGRA1010102 | DRM_FORMAT_BGRX1010102 =>
      p0 ← plane_at ps 0; fill_tiles_rgb32 info m p0 width height stride
  | DRM_FORMAT_XRGB16161616F | DRM_FORMAT_XBGR16161616F | DRM_FORMAT_ARGB16161616F
  | DRM_FORMAT_ABGR16161616F =>
      p0 ← plane_at ps 0; fill_tiles_rgb16fp info m p0 width height stride
  | _ => Ok m
  end.

(** [stride * height] is a product of [unsigned int]s. *)
Definition fill_plain (info : util_format_info) (m : mem) (ps : planes)
    (height stride : Z) : outcome mem :=
  p0 ← plane_at ps 0;
  match format info with
  | DRM_FORMAT_XRGB16161616F | DRM_FORMAT_XBGR16161616F | DRM_FORMAT_ARGB16161616F
  | DRM_FORMAT_ABGR16161616F =>
      (* 0x3838 = 0.5273 *)
      memset m p0 0x38 (u32 (stride * height))
  | _ => memset m p0 0x77 (u32 (stride * height))
  end.

Definition fill_gradient (info : util_format_info) (m : mem) (ps : planes)
    (width height stride : Z) : outcome mem :=
  match format info with
  | DRM_FORMAT_ARGB8888 | DRM_FORMAT_XRGB8888 | DRM_FORMAT_ABGR8888 | DRM_FORMAT_XBGR8888
  | DRM_FORMAT_RGBA8888 | DRM_FORMAT_RGBX8888 | DRM_FORMAT_BGRA8888 | DRM_FORMAT_BGRX8888
  | DRM_FORMAT_ARGB2101010 | DRM_FORMAT_XRGB2101010 | DRM_FORMAT_ABGR2101010
  | DRM_FORMAT_XBGR2101010 | DRM_FORMAT_RGBA1010102 | DRM_FORMAT_RGBX1010102
  | DRM_FORMAT_BGRA1010102 | DRM_FORMAT_BGRX1010102 =>
      p0 ← plane_at ps 0; fill_gradient_rgb32 (rgb info) m p0 width height stride
  | DRM_FORMAT_XRGB16161616F | DRM_FORMAT_XBGR16161616F | DRM_FORMAT_ARGB16161616F
  | DRM_FORMAT_ABGR16161616F =>
      p0 ← plane_at ps 0; fill_gradient_rgb16fp (rgb info) m p0 width height stride
  | _ => Ok m
  end.

Section Dispatch.
Context `{FourccCodes}.

Definition util_fill_pattern_run (code : Z) (pattern : util_fill_pattern) (m : mem) (ps : planes)
    (width height stride : Z) : outcome mem :=
  match util_format_info_find code with
  | None => Ok m
  | Some info =>
      match pattern with
      | UTIL_PATTERN_TILES => fill_tiles info m ps width height stride
      | UTIL_PATTERN_SMPTE => fill_smpte info m ps width height stride
      | UTIL_PATTERN_PLAIN => fill_plain info m ps height stride
      | UTIL_PATTERN_GRADIENT => fill_gradient info m ps width height stride
      end
  end.
End Dispatch.

(** The designated initializers put each name at the index of its pattern. *)
Definition pattern_names : list (string * util_fill_pattern) :=
  [("tiles"%string, UTIL_PATTERN_TILES); ("plain"%string, UTIL_PATTERN_PLAIN);
   ("smpte"%string, UTIL_PATTERN_SMPTE); ("gradient"%string, UTIL_PATTERN_GRADIENT)].

(** An unknown name prints an error and means SMPTE. *)
Fixpoint pattern_search (l : list (string * util_fill_pattern)) (name : string) : util_fill_pattern :=
  match l with
  | [] => UTIL_PATTERN_SMPTE
  | (s, p) :: l => if bool_decide (s = name) then p else pattern_search l name
  end.
Definition util_pattern_enum (name : string) : util_fill_pattern := pattern_search pattern_names name.
