(* ===== verification/Picture.v ===== *)
(** What the test patterns look like, by format: the picture [util_fill_pattern] must leave
    in a buffer laid out as drm/modetest/buffers.c lays it out, and the proof that it does. *)
From Stdlib Require Import ZArith Lia.
From stdpp Require Import base list numbers strings.
From S2P Require Import Prelude Mem Raster Format Color Smpte SmpteBars SmpteYuv Layout Tiles TilesYuv Pattern.

(** * Kinds of formats *)

(** How the pixels of a format are stored.  [Rgb n wide rep rep10]: words of [n] bytes; [wide]
    ones have room for the alpha of the tiles; [rep] and [rep10] widen an 8- and a 10-bit
    channel to 16 bits. *)
Inductive kind :=
| Indexed
| PackedYuv
| SemiPlanar
| TriPlanar
| Rgb (n : nat) (wide : bool) (rep rep10 : Z -> Z).

Definition kind_of (f : drm_format) : kind :=
  match f with
  | DRM_FORMAT_C8 => Indexed
  | DRM_FORMAT_UYVY | DRM_FORMAT_VYUY | DRM_FORMAT_YUYV | DRM_FORMAT_YVYU => PackedYuv
  | DRM_FORMAT_NV12 | DRM_FORMAT_NV21 | DRM_FORMAT_NV16 | DRM_FORMAT_NV61 => SemiPlanar
  | DRM_FORMAT_YUV420 | DRM_FORMAT_YVU420 => TriPlanar
  | DRM_FORMAT_BGR888 | DRM_FORMAT_RGB888 => Rgb 3 false rep8 rep10
  | DRM_FORMAT_ARGB8888 | DRM_FORMAT_XRGB8888 | DRM_FORMAT_ABGR8888 | DRM_FORMAT_XBGR8888
  | DRM_FORMAT_RGBA8888 | DRM_FORMAT_RGBX8888 | DRM_FORMAT_BGRA8888 | DRM_FORMAT_BGRX8888
  | DRM_FORMAT_ARGB2101010 | DRM_FORMAT_XRGB2101010 | DRM_FORMAT_ABGR2101010
  | DRM_FORMAT_XBGR2101010 | DRM_FORMAT_RGBA1010102 | DRM_FORMAT_RGBX1010102
  | DRM_FORMAT_BGRA1010102 | DRM_FORMAT_BGRX1010102 => Rgb 4 true rep8 rep10
  | DRM_FORMAT_XRGB16161616F | DRM_FORMAT_XBGR16161616F | DRM_FORMAT_ARGB16161616F
  | DRM_FORMAT_ABGR16161616F => Rgb 8 true half8 half10
  | _ => Rgb 2 false rep8 rep10
  end.

(** Bytes per pixel of the first plane, and the lines of all planes together in units of
    its pitch. *)
Definition pixel_bytes (f : drm_format) : Z :=
  match kind_of f with
  | PackedYuv => 2
  | Rgb n _ _ _ => Z.of_nat n
  | _ => 1
  end.

Definition total_lines (f : drm_format) (h : Z) : Z :=
  match kind_of f with
  | SemiPlanar | TriPlanar => h + h / ysub (yuv (info_of f))
  | _ => h
  end.

(** The subsampled formats need whole cells. *)
Definition whole_cells (f : drm_format) (w h : Z) : Prop :=
  match kind_of f with
  | PackedYuv => (2 | w)
  | SemiPlanar | TriPlanar => (2 | w) /\ (ysub (yuv (info_of f)) | h)
  | _ => True
  end.

(** Sizes for which every product the patterns compute stays in range. *)
Definition picture_dims (f : drm_format) (w h : Z) : Prop :=
  smpte_dims w h /\ tile_dims w h /\ whole_cells f w h.

(** A pitch and a buffer that hold the picture. *)
Definition buffer_fits (f : drm_format) (w h pitch size : Z) : Prop :=
  pixel_bytes f * w <= pitch /\ pitch < 2147483648 /\ pitch * total_lines f h < 4294967296 /\
  pitch * total_lines f h <= size.

(** The planes of a buffer whose first plane starts at 0. *)
Definition plane_layout (f : drm_format) (h pitch : Z) : planes :=
  match kind_of f with
  | SemiPlanar => [Some 0; Some (pitch * h); None]
  | TriPlanar => [Some 0; Some (pitch * h); Some (pitch * h + pitch / 2 * h / 2)]
  | _ => [Some 0; None; None]
  end.

(** * The pictures *)

Definition sample_addr (f : drm_format) (h pitch : Z) : sample -> Z :=
  let y := yuv (info_of f) in
  let c := pitch * h in
  let c2 := pitch * h + pitch / 2 * h / 2 in
  match kind_of f with
  | SemiPlanar =>
      planar_addr y 0 (c + if has_flag (order y) YUV_YCbCr then 0 else 1)
        (c + if has_flag (order y) YUV_YCrCb then 0 else 1) pitch
  | TriPlanar =>
      if has_flag (order y) YUV_YCbCr then planar_addr y 0 c c2 pitch
      else planar_addr y 0 c2 c pitch
  | _ => packed_addr y 0 pitch
  end.

Definition plain_byte (f : drm_format) : Z :=
  match kind_of f with Rgb 8 _ _ _ => 0x38 | _ => 0x77 end.

Definition picture (f : drm_format) (pattern : util_fill_pattern) (w h pitch : Z) (m m' : mem)
    : Prop :=
  let ys := ysub (yuv (info_of f)) in
  let i := rgb (info_of f) in
  match pattern, kind_of f with
  | UTIL_PATTERN_PLAIN, _ =>
      msize m' = msize m /\
      forall a, mem_at m' a = if within 0 (pitch * h) a then Some (plain_byte f) else mem_at m a
  | UTIL_PATTERN_SMPTE, Indexed => painted 0 pitch 1 w h (smpte_index w h) m m'
  | UTIL_PATTERN_SMPTE, PackedYuv =>
      plotted (sample_addr f h pitch) m (valid_sample w h 2 1) (smpte_sample w h h 2) m'
  | UTIL_PATTERN_SMPTE, (SemiPlanar | TriPlanar) =>
      plotted (sample_addr f h pitch) m (valid_sample w h 2 ys) (smpte_sample w h (h / ys) 2) m'
  | UTIL_PATTERN_SMPTE, Rgb n _ rep _ => shown n i rep (smpte_bar w h) 0 pitch w h m m'
  | UTIL_PATTERN_TILES, PackedYuv =>
      plotted (sample_addr f h pitch) m (valid_sample w h 2 1) (tile_packed_sample w) m'
  | UTIL_PATTERN_TILES, (SemiPlanar | TriPlanar) =>
      plotted (sample_addr f h pitch) m (valid_sample w h 2 ys) (tile_sample w ys) m'
  | UTIL_PATTERN_TILES, Rgb n wide rep _ =>
      shown n i rep
        (fun y x => tile_color w h y x (if wide then tile_alpha w h y x else 255)) 0 pitch w h m m'
  | UTIL_PATTERN_GRADIENT, Rgb n true _ rep10 =>
      shown n i rep10 (fun y x => let g := gradient_level h y x in (g, g, g, 0))
        0 pitch (2 * (w / 2)) h m m'
  | _, _ => m' = m
  end.

(** * The tables agree with the kinds *)

Definition rgb_table (i : util_rgb_info) (n : nat) (wide : bool) (rep rep10' : Z -> Z) : Prop :=
  rgb_ok (8 * Z.of_nat n) i = true /\
  (n = 2%nat /\ wide = false /\ rep = rep8 \/
   n = 3%nat /\ wide = false /\ rep = rep8 /\ cc_length (alpha i) = 0 \/
   n = 4%nat /\ wide = true /\ rep = rep8 /\ rep10' = rep10 \/
   n = 8%nat /\ wide = true /\ rep = half8 /\ rep10' = half10).

(** One of the two flags of a pair is set. *)
Definition one_flag (o a b : Z) : Prop := has_flag o a = negb (has_flag o b).

Lemma kind_table f :
  match kind_of f with
  | Indexed => True
  | PackedYuv => one_flag (order (yuv (info_of f))) YUV_YC YUV_CY /\
      one_flag (order (yuv (info_of f))) YUV_YCrCb YUV_YCbCr
  | SemiPlanar => yuv_ok (yuv (info_of f)) /\ chroma_stride (yuv (info_of f)) = 2 /\
      one_flag (order (yuv (info_of f))) YUV_YCrCb YUV_YCbCr
  | TriPlanar => yuv_ok (yuv (info_of f)) /\ chroma_stride (yuv (info_of f)) = 1 /\
      ysub (yuv (info_of f)) = 2
  | Rgb n wide rep rep10 => rgb_table (rgb (info_of f)) n wide rep rep10
  end.
Proof.
  destruct f; unfold yuv_ok, rgb_table, one_flag; simpl; try exact I;
    split_and!; auto 10; vm_compute; auto 10.
Qed.

(** The YUV layouts of [plane_layout] are good ones. *)
Lemma yuv_layout f w h pitch size :
  picture_dims f w h -> buffer_fits f w h pitch size ->
  match kind_of f with
  | PackedYuv => layout_ok w h 2 1 size (sample_addr f h pitch)
  | SemiPlanar | TriPlanar =>
      layout_ok w h (xsub (yuv (info_of f))) (ysub (yuv (info_of f))) size (sample_addr f h pitch)
  | _ => True
  end.
Proof.
  intros (_ & (Hw & Hh & _) & Hcells) (Hbytes & Hpitch & Hover & Hsize).
  pose proof (kind_table f) as Htab. unfold sample_addr.
  unfold whole_cells, pixel_bytes, total_lines in *.
  destruct (kind_of f); try exact I.
  - destruct Htab as [Hyc Hcbcr]. apply packed_layout; try done; lia.
  - destruct Htab as ((Hxs & Hys & _) & Hcs & Hcbcr), Hcells as [Hw2 _].
    apply semiplanar_layout; try done; [|lia|lia].
    unfold one_flag in Hcbcr. rewrite Hcbcr. destruct (has_flag _ YUV_YCbCr); simpl; auto.
  - destruct Htab as ((Hxs & _) & Hcs & Hys), Hcells as [Hw2 Hh2].
    rewrite Hys in Hh2, Hover, Hsize. destruct Hh2 as [h2 Hh2].
    assert (Hh3 : h / 2 = h2) by (rewrite Hh2; apply Z.div_mul; lia).
    case_match; apply triplanar_layout; auto; try lia; try (by exists h2); nia.
Qed.

(** * The fill functions, by kind *)

(** The fills of the planar kinds, with the address function of the specification. *)
Definition planar_planes (f : drm_format) (h pitch : Z) : Z * Z * Z :=
  let y := yuv (info_of f) in
  let c := pitch * h in
  let c2 := pitch * h + pitch / 2 * h / 2 in
  match kind_of f with
  | SemiPlanar => (0, (if has_flag (order y) YUV_YCbCr then c else c + 1),
                   if has_flag (order y) YUV_YCrCb then c else c + 1)
  | _ => if has_flag (order y) YUV_YCbCr then (0, c, c2) else (0, c2, c)
  end.

Lemma planar_planes_addr f h pitch :
  kind_of f = SemiPlanar \/ kind_of f = TriPlanar ->
  let '(y, u, v) := planar_planes f h pitch in
  sample_addr f h pitch = planar_addr (yuv (info_of f)) y u v pitch.
Proof.
  unfold planar_planes, sample_addr. intros [-> | ->];
    destruct (has_flag (order (yuv (info_of f))) YUV_YCbCr),
      (has_flag (order (yuv (info_of f))) YUV_YCrCb); rewrite ?Z.add_0_r; done.
Qed.

Lemma fill_smpte_kind f m w h pitch :
  fill_smpte (info_of f) m (plane_layout f h pitch) w h pitch =
    let i := rgb (info_of f) in
    let y := yuv (info_of f) in
    match kind_of f with
    | Indexed => fill_smpte_c8 m 0 w h pitch
    | PackedYuv => fill_smpte_yuv_packed y m 0 w h pitch
    | SemiPlanar | TriPlanar =>
        let '(yp, u, v) := planar_planes f h pitch in
        fill_smpte_yuv_planar y m yp u v w h pitch
    | Rgb 2 _ _ _ => fill_smpte_rgb16 i m 0 w h pitch
    | Rgb 3 _ _ _ => fill_smpte_rgb24 i m 0 w h pitch
    | Rgb 4 _ _ _ => fill_smpte_rgb32 i m 0 w h pitch
    | Rgb _ _ _ _ => fill_smpte_rgb16fp i m 0 w h pitch
    end.
Proof. by destruct f. Qed.

Lemma fill_tiles_kind f m w h pitch :
  fill_tiles (info_of f) m (plane_layout f h pitch) w h pitch =
    let i := info_of f in
    match kind_of f with
    | Indexed => Ok m
    | PackedYuv => fill_tiles_yuv_packed i m 0 w h pitch
    | SemiPlanar | TriPlanar =>
        let '(yp, u, v) := planar_planes f h pitch in
        fill_tiles_yuv_planar i m yp u v w h pitch
    | Rgb 2 _ _ _ => fill_tiles_rgb16 i m 0 w h pitch
    | Rgb 3 _ _ _ => fill_tiles_rgb24 i m 0 w h pitch
    | Rgb 4 _ _ _ => fill_tiles_rgb32 i m 0 w h pitch
    | Rgb _ _ _ _ => fill_tiles_rgb16fp i m 0 w h pitch
    end.
Proof. by destruct f. Qed.

Lemma fill_gradient_kind f m w h pitch :
  fill_gradient (info_of f) m (plane_layout f h pitch) w h pitch =
    match kind_of f with
    | Rgb 4 true _ _ => fill_gradient_rgb32 (rgb (info_of f)) m 0 w h pitch
    | Rgb _ true _ _ => fill_gradient_rgb16fp (rgb (info_of f)) m 0 w h pitch
    | _ => Ok m
    end.
Proof. by destruct f. Qed.

Lemma fill_plain_kind f m h pitch :
  fill_plain (info_of f) m (plane_layout f h pitch) h pitch =
    memset m 0 (plain_byte f) (u32 (pitch * h)).
Proof. by destruct f. Qed.

Lemma total_lines_ge f h : 0 <= h -> h <= total_lines f h.
Proof.
  intros Hh. unfold total_lines. pose proof (kind_table f) as Htab.
  destruct (kind_of f); try lia; destruct Htab as ((_ & Hys & _) & _);
    assert (0 <= h / ysub (yuv (info_of f))) by (apply Z.div_pos; lia); lia.
Qed.

Section Paint.
Context (f : drm_format) (m : mem) (w h pitch : Z).
Context (Hdims : picture_dims f w h) (Hfits : buffer_fits f w h pitch (msize m)).

Lemma lines_fit : 0 <= pitch /\ pitch * h <= msize m /\ pitch * h < 4294967296.
Proof using Hdims Hfits.
  destruct Hdims as (_ & (Hw & Hh & _) & _), Hfits as (Hb & _ & Hover & Hsize).
  assert (0 <= pixel_bytes f) by (unfold pixel_bytes; destruct (kind_of f); lia).
  pose proof (total_lines_ge f h Hh). nia.
Qed.

Lemma fill_plain_paints :
  returns (fill_plain (info_of f) m (plane_layout f h pitch) h pitch)
    (picture f UTIL_PATTERN_PLAIN w h pitch m).
Proof using Hdims Hfits.
  pose proof lines_fit as (Hp & Hs & Ho). destruct Hdims as (_ & (Hw & Hh & _) & _).
  rewrite fill_plain_kind, u32_id by nia.
  eapply returns_mono; [apply memset_returns; lia|].
  intros m' [Hsz Hget]. simpl. split; [done|]. intros a. rewrite Hget.
  case_match; [|done]. f_equal. unfold plain_byte. by repeat case_match.
Qed.

Lemma fill_smpte_paints :
  returns (fill_smpte (info_of f) m (plane_layout f h pitch) w h pitch)
    (picture f UTIL_PATTERN_SMPTE w h pitch m).
Proof using Hdims Hfits.
  pose proof lines_fit as (Hp & Hs & _). pose proof (yuv_layout _ _ _ _ _ Hdims Hfits) as Hlay.
  pose proof (kind_table f) as Htab. pose proof (planar_planes_addr f h pitch) as Haddr.
  rewrite fill_smpte_kind. unfold picture. cbv zeta.
  destruct Hdims as (Hsm & _ & _), Hfits as (Hb & Hlt & _ & _). unfold pixel_bytes in Hb.
  destruct (kind_of f) as [| | | |n wide rep rep10'] eqn:Hk.
  - apply fill_smpte_c8_painted; done || lia.
  - unfold sample_addr in *. rewrite Hk in *. by apply fill_smpte_yuv_packed_plotted.
  - destruct (planar_planes f h pitch) as [[yp u] v]. rewrite Haddr in * by auto.
    destruct Htab as [Hok _]. pose proof Hok as (Hxs & _).
    rewrite <- Hxs. by apply fill_smpte_yuv_planar_plotted.
  - destruct (planar_planes f h pitch) as [[yp u] v]. rewrite Haddr in * by auto.
    destruct Htab as [Hok _]. pose proof Hok as (Hxs & _).
    rewrite <- Hxs. by apply fill_smpte_yuv_planar_plotted.
  - destruct Htab as [Hok Hn].
    destruct Hn as [(-> & _ & ->)|[(-> & _ & -> & Hal)|[(-> & _ & -> & _)|(-> & _ & -> & _)]]].
    + apply fill_smpte_rgb16_shown; done || lia.
    + apply fill_smpte_rgb24_shown; done || lia.
    + apply fill_smpte_rgb32_shown; done || lia.
    + apply fill_smpte_rgb16fp_shown; done || lia.
Qed.

Lemma fill_tiles_paints :
  returns (fill_tiles (info_of f) m (plane_layout f h pitch) w h pitch)
    (picture f UTIL_PATTERN_TILES w h pitch m).
Proof using Hdims Hfits.
  pose proof lines_fit as (Hp & Hs & _). pose proof (yuv_layout _ _ _ _ _ Hdims Hfits) as Hlay.
  pose proof (kind_table f) as Htab. pose proof (planar_planes_addr f h pitch) as Haddr.
  rewrite fill_tiles_kind. unfold picture. cbv zeta.
  destruct Hdims as (_ & Hti & Hcells), Hfits as (Hb & Hlt & _ & _).
  unfold pixel_bytes, whole_cells in *.
  destruct (kind_of f) as [| | | |n wide rep rep10'] eqn:Hk.
  - done.
  - unfold sample_addr in *. rewrite Hk in *. by apply fill_tiles_yuv_packed_plotted.
  - destruct (planar_planes f h pitch) as [[yp u] v]. rewrite Haddr in * by auto.
    destruct Htab as [Hok _], Hcells. pose proof Hok as (Hxs & _).
    rewrite <- Hxs. by apply fill_tiles_yuv_planar_plotted.
  - destruct (planar_planes f h pitch) as [[yp u] v]. rewrite Haddr in * by auto.
    destruct Htab as [Hok _], Hcells. pose proof Hok as (Hxs & _).
    rewrite <- Hxs. by apply fill_tiles_yuv_planar_plotted.
  - destruct Htab as [Hok Hn].
    destruct Hn as [(-> & -> & ->)|[(-> & -> & -> & Hal)|[(-> & -> & -> & _)|(-> & -> & -> & _)]]].
    + apply fill_tiles_rgb16_shown; done || lia.
    + apply fill_tiles_rgb24_shown; done || lia.
    + apply fill_tiles_rgb32_shown; done || lia.
    + apply fill_tiles_rgb16fp_shown; done || lia.
Qed.

Lemma fill_gradient_paints :
  returns (fill_gradient (info_of f) m (plane_layout f h pitch) w h pitch)
    (picture f UTIL_PATTERN_GRADIENT w h pitch m).
Proof using Hdims Hfits.
  pose proof lines_fit as (Hp & Hs & _). pose proof (kind_table f) as Htab.
  rewrite fill_gradient_kind. unfold picture. cbv zeta.
  destruct Hdims as (_ & (Hw & Hh & Hwh) & _), Hfits as (Hb & _). unfold pixel_bytes in Hb.
  destruct (kind_of f) as [| | | |n wide rep rep10'] eqn:Hk; try done.
  destruct Htab as [Hok Hn].
  destruct Hn as [(-> & -> & _)|[(-> & -> & _)|[(-> & -> & _ & ->)|(-> & -> & _ & ->)]]]; try done.
  - apply fill_gradient_pixels_shown; try lia. intros v Hv. by apply MAKE_RGBA10_shows.
  - apply fill_gradient_pixels_shown; try lia. intros v Hv. by apply MAKE_RGBA10FP16_shows.
Qed.
End Paint.

Lemma util_fill_pattern_paints `{FourccCodes} f pattern w h pitch m :
  picture_dims f w h -> buffer_fits f w h pitch (msize m) ->
  returns (util_fill_pattern_run (fourcc f) pattern m (plane_layout f h pitch) w h pitch)
    (picture f pattern w h pitch m).
Proof.
  intros Hdims Hfits. unfold util_fill_pattern_run. rewrite info_find_fourcc.
  destruct pattern; auto using fill_tiles_paints, fill_plain_paints, fill_smpte_paints,
    fill_gradient_paints.
Qed.
