(* ===== verification/Buffers.v ===== *)
(** drm/modetest/buffers.c: allocating a dumb buffer, filling it with a pattern, freeing it.
    The kernel is not part of the repository: the ioctls are a parameter, [DumbDriver], whose
    laws state what the dumb-buffer interface documents. *)
From Stdlib Require Import ZArith Lia.
From stdpp Require Import base list numbers strings gmap.
From S2P Require Import Prelude Mem Raster Format Color Smpte SmpteYuv Tiles Pattern Picture.

(** The dumb buffers of the file descriptor, by handle. *)
Abbreviation buffers := (gmap Z mem).

(** DRM_IOCTL_MODE_CREATE_DUMB gives a new handle, the pitch and the buffer; MAP_DUMB with
    [drm_mmap] either works or gives an errno; DESTROY_DUMB may be refused. *)
Class DumbDriver := {
  create_dumb : buffers -> Z -> Z -> Z -> option (Z * Z * mem);
  map_dumb : buffers -> Z -> option Z;
  destroy_dumb : buffers -> Z -> bool }.

(** What the interface documents: the handle is new, and the buffer has the lines asked
    for, each of at least the pixels asked for. *)
Class DumbLaws `(DumbDriver) := {
  create_fresh : forall s w h bpp hd pitch m,
    create_dumb s w h bpp = Some (hd, pitch, m) -> s !! hd = None;
  create_size : forall s w h bpp hd pitch m,
    create_dumb s w h bpp = Some (hd, pitch, m) ->
    bpp * w <= 8 * pitch /\ pitch * h <= msize m;
  map_error : forall s hd err, map_dumb s hd = Some err -> err <> 0;
  destroy_works : forall s hd, is_Some (s !! hd) -> destroy_dumb s hd = true }.

(** struct bo.  [bo_ptr] is set while the buffer is mapped. *)
Record bo := Bo {
  bo_fd : Z; bo_ptr : bool; bo_size : Z; bo_offset : Z; bo_pitch : Z; bo_handle : Z }.

(** [unsigned int handles[4], pitches[4], offsets[4]] of the caller. *)
Record layout_arrays := Arrays { handles : list Z; pitches : list Z; offsets : list Z }.

Definition set_plane_entry (a : layout_arrays) (k : nat) (h p o : Z) : layout_arrays :=
  Arrays (<[k := h]> (handles a)) (<[k := p]> (pitches a)) (<[k := o]> (offsets a)).

Section Buffers.
Context `{FourccCodes} `{DumbDriver}.

(** [calloc] is [alloc]. *)
Definition bo_create_dumb (alloc : bool) (s : buffers) (fd width height bpp : Z)
    : option bo * buffers :=
  if alloc then
    match create_dumb s width height bpp with
    | Some (hd, pitch, m) => (Some (Bo fd false (msize m) 0 pitch hd), <[hd := m]> s)
    | None => (None, s)
    end
  else (None, s).

Definition bo_map (s : buffers) (b : bo) : Z * bo :=
  match map_dumb s (bo_handle b) with
  | Some err => (err, b)
  | None => (0, Bo (bo_fd b) true (bo_size b) (bo_offset b) (bo_pitch b) (bo_handle b))
  end.

Definition bo_unmap (b : bo) : bo :=
  if bo_ptr b then Bo (bo_fd b) false (bo_size b) (bo_offset b) (bo_pitch b) (bo_handle b)
  else b.

Definition bo_destroy (s : buffers) (b : bo) : buffers :=
  if destroy_dumb s (bo_handle b) then delete (bo_handle b) s else s.

(** The first [switch]: bits per pixel; [None] for the [default]. *)
Definition bo_bpp (f : drm_format) : Z :=
  match f with
| DRM_FORMAT_C8 | DRM_FORMAT_NV12 | DRM_FORMAT_NV21 | DRM_FORMAT_NV16 | DRM_FORMAT_NV61
| DRM_FORMAT_YUV420 | DRM_FORMAT_YVU420 => 8
| DRM_FORMAT_ARGB4444 | DRM_FORMAT_XRGB4444 | DRM_FORMAT_ABGR4444 | DRM_FORMAT_XBGR4444
| DRM_FORMAT_RGBA4444 | DRM_FORMAT_RGBX4444 | DRM_FORMAT_BGRA4444 | DRM_FORMAT_BGRX4444
| DRM_FORMAT_ARGB1555 | DRM_FORMAT_XRGB1555 | DRM_FORMAT_ABGR1555 | DRM_FORMAT_XBGR1555
| DRM_FORMAT_RGBA5551 | DRM_FORMAT_RGBX5551 | DRM_FORMAT_BGRA5551 | DRM_FORMAT_BGRX5551
| DRM_FORMAT_RGB565 | DRM_FORMAT_BGR565 | DRM_FORMAT_UYVY | DRM_FORMAT_VYUY | DRM_FORMAT_YUYV
| DRM_FORMAT_YVYU => 16
| DRM_FORMAT_BGR888 | DRM_FORMAT_RGB888 => 24
| DRM_FORMAT_ARGB8888 | DRM_FORMAT_XRGB8888 | DRM_FORMAT_ABGR8888 | DRM_FORMAT_XBGR8888
| DRM_FORMAT_RGBA8888 | DRM_FORMAT_RGBX8888 | DRM_FORMAT_BGRA8888 | DRM_FORMAT_BGRX8888
| DRM_FORMAT_ARGB2101010 | DRM_FORMAT_XRGB2101010 | DRM_FORMAT_ABGR2101010
| DRM_FORMAT_XBGR2101010 | DRM_FORMAT_RGBA1010102 | DRM_FORMAT_RGBX1010102
| DRM_FORMAT_BGRA1010102 | DRM_FORMAT_BGRX1010102 => 32
| DRM_FORMAT_XRGB16161616F | DRM_FORMAT_XBGR16161616F | DRM_FORMAT_ARGB16161616F
| DRM_FORMAT_ABGR16161616F => 64
  end.

Definition bo_virtual_height (f : drm_format) (height : Z) : Z :=
  match f with
  | DRM_FORMAT_NV12 | DRM_FORMAT_NV21 | DRM_FORMAT_YUV420 | DRM_FORMAT_YVU420 =>
      u32 (height * 3) / 2
  | DRM_FORMAT_NV16 | DRM_FORMAT_NV61 => u32 (height * 2)
  | _ => height
  end.

(** The third [switch]: the entries of the arrays, and the planes in the mapping. *)
Definition bo_planes (f : drm_format) (b : bo) (height : Z) (a : layout_arrays)
    : layout_arrays * planes :=
  let hd := bo_handle b in
  let p0 := u32 (bo_pitch b) in
  let a0 := set_plane_entry a 0 hd p0 0 in
  match f with
| DRM_FORMAT_UYVY | DRM_FORMAT_VYUY | DRM_FORMAT_YUYV | DRM_FORMAT_YVYU => (a0, [Some 0; None; None])
| DRM_FORMAT_NV12 | DRM_FORMAT_NV21 | DRM_FORMAT_NV16 | DRM_FORMAT_NV61 =>
      let o1 := u32 (p0 * height) in
      (set_plane_entry a0 1 hd p0 o1, [Some 0; Some o1; None])
  | DRM_FORMAT_YUV420 | DRM_FORMAT_YVU420 =>
      let p1 := p0 / 2 in
      let o1 := u32 (p0 * height) in
      let o2 := u32 (o1 + u32 (p1 * height) / 2) in
      (set_plane_entry (set_plane_entry a0 1 hd p1 o1) 2 hd p1 o2,
       [Some 0; Some o1; Some o2])
| DRM_FORMAT_C8 | DRM_FORMAT_ARGB4444 | DRM_FORMAT_XRGB4444 | DRM_FORMAT_ABGR4444
| DRM_FORMAT_XBGR4444 | DRM_FORMAT_RGBA4444 | DRM_FORMAT_RGBX4444 | DRM_FORMAT_BGRA4444
| DRM_FORMAT_BGRX4444 | DRM_FORMAT_ARGB1555 | DRM_FORMAT_XRGB1555 | DRM_FORMAT_ABGR1555
| DRM_FORMAT_XBGR1555 | DRM_FORMAT_RGBA5551 | DRM_FORMAT_RGBX5551 | DRM_FORMAT_BGRA5551
| DRM_FORMAT_BGRX5551 | DRM_FORMAT_RGB565 | DRM_FORMAT_BGR565 | DRM_FORMAT_BGR888
| DRM_FORMAT_RGB888 | DRM_FORMAT_ARGB8888 | DRM_FORMAT_XRGB8888 | DRM_FORMAT_ABGR8888
| DRM_FORMAT_XBGR8888 | DRM_FORMAT_RGBA8888 | DRM_FORMAT_RGBX8888 | DRM_FORMAT_BGRA8888
| DRM_FORMAT_BGRX8888 | DRM_FORMAT_ARGB2101010 | DRM_FORMAT_XRGB2101010
| DRM_FORMAT_ABGR2101010 | DRM_FORMAT_XBGR2101010 | DRM_FORMAT_RGBA1010102
| DRM_FORMAT_RGBX1010102 | DRM_FORMAT_BGRA1010102 | DRM_FORMAT_BGRX1010102
| DRM_FORMAT_XRGB16161616F | DRM_FORMAT_XBGR16161616F | DRM_FORMAT_ARGB16161616F
| DRM_FORMAT_ABGR16161616F => (a0, [Some 0; None; None])
  end.

(** The format of a code, as the [case] labels compare it. *)
Definition format_of (code : Z) : option drm_format :=
  find_info (fun i => fourcc (format i) =? code) format_info ≫= fun i => Some (format i).

Definition bo_create (alloc : bool) (s : buffers) (fd code width height : Z)
    (a : layout_arrays) (pattern : util_fill_pattern)
    : outcome (option bo * layout_arrays * buffers) :=
  match format_of code with
  | None => Ok (None, a, s)
  | Some f =>
      let bpp := bo_bpp f in
      let virtual_height := bo_virtual_height f height in
      let '(ob, s) := bo_create_dumb alloc s fd width virtual_height bpp in
      match ob with
      | None => Ok (None, a, s)
      | Some b =>
          let '(ret, b) := bo_map s b in
          if negb (ret =? 0) then Ok (None, a, bo_destroy s b)
          else
            let '(a, ps) := bo_planes f b height a in
            m ← util_fill_pattern_run code pattern (default [] (s !! bo_handle b)) ps
                  width height (default 0 (pitches a !! 0%nat));
            let s := <[bo_handle b := m]> s in
            Ok (Some (bo_unmap b), a, s)
      end
  end.
End Buffers.

(** * Facts *)

Section BufferFacts.
Context `{FourccCodes} `{DumbDriver} `{!DumbLaws _}.

Lemma format_of_fourcc f : format_of (fourcc f) = Some f.
Proof using Type.
  unfold format_of. pose proof (info_find_fourcc f) as Hf. unfold util_format_info_find in Hf.
  rewrite Hf. simpl. by rewrite (proj2 (info_of_spec f)).
Qed.

Lemma format_of_Some code f : format_of code = Some f -> code = fourcc f.
Proof using Type.
  unfold format_of. destruct (find_info _ _) as [i|] eqn:Hi; [|done]. intros [= <-].
  apply find_info_Some in Hi as [_ Hi%Z.eqb_eq]. done.
Qed.

(** The sizes computed for the kernel are those of the picture. *)
Lemma bo_virtual_height_lines f h :
  0 <= h -> 3 * h < 4294967296 -> bo_virtual_height f h = total_lines f h.
Proof using Type.
  intros Hh Hh3. unfold total_lines.
  destruct f; cbn [bo_virtual_height kind_of]; try done; rewrite u32_id by lia.
  all: match goal with |- context [ysub ?y] =>
    let n := eval vm_compute in (ysub y) in change (ysub y) with n end.
  all: Z.to_euclidean_division_equations; lia.
Qed.

Lemma bo_bpp_bytes f : bo_bpp f = 8 * pixel_bytes f.
Proof using Type. by destruct f. Qed.

(** The offset of the third plane does not wrap. *)
Lemma third_plane_offset f w h p :
  kind_of f = TriPlanar -> whole_cells f w h -> 0 <= p -> 0 <= h ->
  p * total_lines f h < 4294967296 ->
  0 <= p / 2 * h < 4294967296 /\ 0 <= p * h + p / 2 * h / 2 < 4294967296.
Proof using Type.
  intros Hk Hcells Hp Hh Hover. unfold whole_cells, total_lines in *. rewrite Hk in *.
  pose proof (kind_table f) as Htab. rewrite Hk in Htab. destruct Htab as (_ & _ & Hys).
  rewrite Hys in *. destruct Hcells as [_ [k ->]]. rewrite Z.div_mul in Hover by lia.
  assert (0 <= p / 2 <= p) by (Z.to_euclidean_division_equations; lia).
  rewrite Z.mul_assoc, Z.div_mul by lia. nia.
Qed.

Lemma insert_first {A} (l : list A) v : (0 < length l)%nat -> <[0%nat := v]> l !! 0%nat = Some v.
Proof using Type. apply list_lookup_insert_eq. Qed.

Lemma bo_planes_layout f b w h a :
  0 <= bo_pitch b < 4294967296 -> 0 <= h -> bo_pitch b * total_lines f h < 4294967296 ->
  whole_cells f w h -> (0 < length (pitches a))%nat ->
  (bo_planes f b h a).2 = plane_layout f h (bo_pitch b) /\
  pitches (bo_planes f b h a).1 !! 0%nat = Some (bo_pitch b).
Proof using Type.
  intros Hp Hh Hover Hcells Hlen. pose proof (total_lines_ge f h Hh) as Hge.
  assert (Hlines : 0 <= bo_pitch b * h < 4294967296) by nia.
  pose proof (third_plane_offset f w h (bo_pitch b)) as Hthird.
  destruct f; unfold bo_planes, plane_layout; cbn -[u32 Z.mul Z.div insert lookup] in *;
    rewrite (u32_id (bo_pitch b)) by lia; rewrite ?(u32_id (bo_pitch b * h)) by lia.
  all: try (split; [done|]; rewrite ?list_lookup_insert_ne by done; by apply insert_first).
  all: destruct Hthird as [Hq Ho]; [done|done|lia|lia|done|].
  all: rewrite (u32_id (bo_pitch b / 2 * h)), (u32_id (_ + _)) by lia.
  all: split; [done|]; rewrite ?list_lookup_insert_ne by done; by apply insert_first.
Qed.

(** A pitch the driver gives is wide enough for every format. *)
Lemma create_dumb_fits f s w h hd pitch m :
  create_dumb s w (total_lines f h) (bo_bpp f) = Some (hd, pitch, m) ->
  pitch < 2147483648 -> pitch * total_lines f h < 4294967296 ->
  buffer_fits f w h pitch (msize m).
Proof.
  intros Hc Hp Hover. apply create_size in Hc as [Hw Hs]. rewrite bo_bpp_bytes in Hw.
  split; [lia|]. split; [done|]. split; [done|lia].
Qed.

(** C1: for every format of the table, every pattern and every size the patterns
    handle, [bo_create] does not overrun the buffer and does return.  When it gives a
    buffer, its handle is new, the arrays describe its planes, its content is the picture
    of the pattern in that format, it is unmapped, and [bo_destroy] undoes the creation.
    When it gives NULL, no buffer is left behind and the arrays are as before. *)
Theorem bo_create_paints alloc s fd f w h a pattern :
  picture_dims f w h -> (0 < length (pitches a))%nat ->
  (forall hd pitch m, create_dumb s w (total_lines f h) (bo_bpp f) = Some (hd, pitch, m) ->
     pitch < 2147483648 /\ pitch * total_lines f h < 4294967296) ->
  returns (bo_create alloc s fd (fourcc f) w h a pattern) (fun '(ob, a', s') =>
    match ob with
    | None => a' = a /\ s' = s
    | Some b => exists m m',
        create_dumb s w (total_lines f h) (bo_bpp f) = Some (bo_handle b, bo_pitch b, m) /\
        s !! bo_handle b = None /\ s' = <[bo_handle b := m']> s /\
        a' = (bo_planes f b h a).1 /\ pitches a' !! 0%nat = Some (bo_pitch b) /\
        picture f pattern w h (bo_pitch b) m m' /\
        bo_ptr b = false /\ bo_destroy s' b = s
    end).
Proof.
  intros Hdims Hlen Hover. pose proof Hdims as (_ & (Hw & Hh & Hwh) & Hcells).
  unfold bo_create, bo_create_dumb. rewrite format_of_fourcc, bo_virtual_height_lines by lia.
  destruct alloc; [|done].
  destruct (create_dumb s w (total_lines f h) (bo_bpp f)) as [[[hd pitch] m]|] eqn:Hc; [|done].
  destruct (Hover _ _ _ eq_refl) as [Hp Hpo].
  pose proof (create_dumb_fits _ _ _ _ _ _ _ Hc Hp Hpo) as Hfits.
  pose proof (create_fresh _ _ _ _ _ _ _ Hc) as Hfresh.
  assert (Hdel : forall m', destroy_dumb (<[hd := m']> s) hd = true /\ delete hd (<[hd := m']> s) = s).
  { intros m'. split; [|by apply delete_insert_id]. apply destroy_works.
    rewrite lookup_insert_eq. eauto. }
  unfold bo_map. simpl. destruct (map_dumb _ hd) as [err|] eqn:Hm; simpl.
  { pose proof (map_error _ _ _ Hm) as Herr. rewrite (proj2 (Z.eqb_neq err 0)) by done. simpl.
    split; [done|]. unfold bo_destroy. simpl. destruct (Hdel m) as [-> ->]. done. }
  set (b := Bo fd true (msize m) 0 pitch hd).
  destruct (bo_planes_layout f b w h a) as [Hps Hpit]; simpl; try done.
  { pose proof (lines_fit f m w h pitch Hdims Hfits). lia. }
  destruct (bo_planes f b h a) as [a' ps] eqn:Hbp. simpl in Hps, Hpit. subst ps.
  rewrite Hpit, lookup_insert_eq. simpl.
  rstep util_fill_pattern_paints; [done|exact Hfits|]. intros m' Hm'. simpl.
  exists m, m'. rewrite insert_insert_eq. split_and!; try done.
  - transitivity (bo_planes f b h a).1; [by rewrite Hbp|by destruct f].
  - unfold bo_destroy. simpl. destruct (Hdel m') as [-> ->]. done.
Qed.
End BufferFacts.

(** * A driver, for examples: one buffer at a time, with no slack at all *)

Definition tight_driver : DumbDriver := {|
  create_dumb s w h bpp :=
    match s !! 1 with
    | None => let pitch := (bpp * w + 7) / 8 in Some (1, pitch, replicate (Z.to_nat (pitch * h)) 0)
    | Some _ => None
    end;
  map_dumb _ _ := None;
  destroy_dumb _ _ := true |}.

Lemma tight_driver_laws : @DumbLaws tight_driver.
Proof.
  split; simpl; try done.
  - intros s w h bpp hd pitch m. by destruct (s !! 1) eqn:?; [|intros [= <- _ _]].
  - intros s w h bpp hd pitch m. destruct (s !! 1); [done|]. intros [= _ <- <-].
    unfold msize. rewrite length_replicate. split; [Z.to_euclidean_division_equations; lia|lia].
Qed.

Definition no_arrays : layout_arrays :=
  Arrays (replicate 4 0) (replicate 4 0) (replicate 4 0).

Lemma bo_create_paints_witness :
  returns (@bo_create name_codes tight_driver true ∅ 3 (name_code "NV12") 8 4 no_arrays
    UTIL_PATTERN_SMPTE) (fun '(ob, _, s') => is_Some ob -> size s' = 1%nat).
Proof.
  eapply returns_mono.
  - apply (@bo_create_paints name_codes tight_driver tight_driver_laws true ∅ 3 DRM_FORMAT_NV12
      8 4 no_arrays UTIL_PATTERN_SMPTE).
    + unfold picture_dims, smpte_dims, tile_dims, whole_cells. simpl.
      split_and!; first [lia | by exists 4 | by exists 2].
    + simpl. lia.
    + intros hd pitch m [= <- <- <-]. vm_compute. auto.
  - intros [[[b|] a'] s'] Hb; [|intros []; done].
    destruct Hb as (m & m' & _ & Hf & -> & _). intros _.
    by rewrite map_size_insert, Hf, map_size_empty.
Defined.

(** With an odd number of lines, the 4:2:0 formats need one chroma line more than
    the [height * 3 / 2] lines [bo_create] asks for, and the tile pattern writes it: on a
    driver that allocates exactly what it is asked for, the fill of an 8 x 3 NV12 buffer
    leaves the buffer, while 8 x 4 does not. *)
Theorem bo_create_odd_height_overruns :
  @bo_create name_codes tight_driver true ∅ 3 (name_code "NV12") 8 3 no_arrays UTIL_PATTERN_TILES
    = Fault OutOfBounds /\
  returns (@bo_create name_codes tight_driver true ∅ 3 (name_code "NV12") 8 4 no_arrays
    UTIL_PATTERN_TILES) (fun '(ob, _, _) => is_Some ob).
Proof. split; vm_compute; eauto. Qed.
