(* ===== verification/Cursor.v ===== *)
(** drm/modetest/cursor.c: the cursors, the schedule of steps that moves and blinks them,
    and the thread that runs it while the program draws.  The kernel's side, the calls
    drmModeSetCursor and drmModeMoveCursor, is the trace of calls made. *)
From Stdlib Require Import ZArith Lia.
From stdpp Require Import base list numbers relations.
From S2P Require Import Prelude.

Record cursor := Cursor {
  fd : Z; bo_handle : Z; crtc_id : Z; crtc_w : Z; crtc_h : Z; cur_w : Z; cur_h : Z;
  (* current state *)
  enabled : Z; cur_x : Z; cur_y : Z; dx : Z; dy : Z }.

Definition MAX_CURSORS : nat := 8.

Inductive cursor_run := Set_cursor | Move_cursor.

Record cursor_step := Step { run : cursor_run; msec : Z; repeat : Z; arg : Z }.

Inductive call :=
| SetCursor (fd crtc handle w h : Z)
| MoveCursor (fd crtc x y : Z).

(** The globals: the array, of which the first [ncursors] entries are in use, the thread's
    flag and its position in the schedule; and the calls so far, latest first. *)
Record globals := Globals {
  cursors : list cursor; cursor_running : bool; indx : Z; count : Z; calls : list call }.

Definition set_cursor (count : Z) (step : cursor_step) (c : cursor) : cursor * list call :=
  let en := Z.land (Z.lxor (arg step) count) 1 in
  let handle := if en =? 0 then 0 else bo_handle c in
  (Cursor (fd c) (bo_handle c) (crtc_id c) (crtc_w c) (crtc_h c) (cur_w c) (cur_h c)
     en (cur_x c) (cur_y c) (dx c) (dy c),
   [SetCursor (fd c) (crtc_id c) handle (cur_w c) (cur_h c)]).

(** One coordinate: the new position, and the new direction, on [int]s. *)
Definition bounce (pos d arg limit : Z) : Z * Z :=
  let x := s32 (s32 pos + s32 (d * arg)) in
  if x <? 0 then (0, 1)
  else if s32 limit <? x then (s32 (u32 (limit - 1)), -1)
  else (x, d).

Definition move_cursor (step : cursor_step) (c : cursor) : cursor * list call :=
  let shown :=
    if enabled c =? 0
    then [SetCursor (fd c) (crtc_id c) (bo_handle c) (cur_w c) (cur_h c)] else [] in
  let '(x, dx') := bounce (cur_x c) (dx c) (arg step) (crtc_w c) in
  let '(y, dy') := bounce (cur_y c) (dy c) (arg step) (crtc_h c) in
  (Cursor (fd c) (bo_handle c) (crtc_id c) (crtc_w c) (crtc_h c) (cur_w c) (cur_h c)
     (enabled c) (u32 x) (u32 y) dx' dy',
   MoveCursor (fd c) (crtc_id c) x y :: shown).

Definition steps : list cursor_step := [
  Step Set_cursor 10 0 1;      (* enable *)
  Step Move_cursor 1 100 1;
  Step Move_cursor 1 10 10;
  Step Set_cursor 1 100 0;     (* disable/enable loop *)
  Step Move_cursor 1 10 10;
  Step Move_cursor 9 100 1;
  Step Move_cursor 11 100 5;
  Step Set_cursor 17 10 0;     (* disable/enable loop *)
  Step Move_cursor 9 100 1;
  Step Set_cursor 13 10 0;     (* disable/enable loop *)
  Step Move_cursor 9 100 1;
  Step Set_cursor 13 10 0;     (* disable/enable loop *)
  Step Set_cursor 10 0 0       (* disable *)
].

Definition run_step (count : Z) (step : cursor_step) (c : cursor) : cursor * list call :=
  match run step with
  | Set_cursor => set_cursor count step c
  | Move_cursor => move_cursor step c
  end.

(** [for (i = 0; i < ncursors; i++)] over the cursors in use. *)
Fixpoint run_all (count : Z) (step : cursor_step) (cs : list cursor) (tr : list call)
    : list cursor * list call :=
  match cs with
  | [] => ([], tr)
  | c :: cs =>
      let '(c, new) := run_step count step c in
      let '(cs, tr) := run_all count step cs (new ++ tr) in
      (c :: cs, tr)
  end.

(** iterate to next count/step *)
Definition next_position (step : cursor_step) (indx count : Z) : Z * Z :=
  if count <? repeat step then (indx, u32 (count + 1)) else (u32 (indx + 1), 0).

(** The step an index selects; there is always one. *)
Definition current_step (indx : Z) : cursor_step :=
  default (Step Set_cursor 0 0 0) (steps !! Z.to_nat (indx mod Z.of_nat (length steps))).

(** One round of the thread's loop. *)
Definition thread_round (g : globals) : globals :=
  let step := current_step (indx g) in
  let '(cs, tr) := run_all (count g) step (cursors g) (calls g) in
  let '(i, c) := next_position step (indx g) (count g) in
  Globals cs (cursor_running g) i c tr.

(** [while (cursor_running)] for at most [n] rounds. *)
Fixpoint cursor_thread_func (n : nat) (g : globals) : globals :=
  match n with
  | O => g
  | S n => if cursor_running g then cursor_thread_func n (thread_round g) else g
  end.

Definition cursor_init (g : globals) (fd bo_handle crtc_id crtc_w crtc_h w h : Z)
    : outcome globals :=
  if (length (cursors g) <? MAX_CURSORS)%nat then
    Ok (Globals
      (cursors g ++ [Cursor fd bo_handle crtc_id crtc_w crtc_h w h 0 (w / 2) (h / 2) 1 1])
      (cursor_running g) (indx g) (count g) (calls g))
  else Fault Aborted.

Definition cursor_start (g : globals) : globals :=
  Globals (cursors g) true (indx g) (count g) (calls g).
Definition cursor_stop (g : globals) : globals :=
  Globals (cursors g) false (indx g) (count g) (calls g).

Definition initial : globals := Globals [] false 0 0 [].

(** What the main thread and the cursor thread do, in any order: the main thread adds a
    cursor, starts and stops the thread; the thread makes a round while it is running. *)
Inductive world : globals -> globals -> Prop :=
| world_init g g' fd bo crtc crtc_w crtc_h w h :
    0 < crtc_w < 2147483000 -> 0 < crtc_h < 2147483000 ->
    0 <= w <= 2 * crtc_w -> 0 <= h <= 2 * crtc_h ->
    cursor_init g fd bo crtc crtc_w crtc_h w h = Ok g' -> world g g'
| world_start g : world g (cursor_start g)
| world_stop g : world g (cursor_stop g)
| world_round g : cursor_running g = true -> world g (thread_round g).

(** * The cursors stay on the screen *)

(** A cursor is at most at the first column and line past the screen, and its directions
    are unit steps. *)
Record on_screen (c : cursor) : Prop := {
  screen_w : 0 < crtc_w c < 2147483000;
  screen_h : 0 < crtc_h c < 2147483000;
  screen_x : 0 <= cur_x c <= crtc_w c;
  screen_y : 0 <= cur_y c <= crtc_h c;
  screen_dx : dx c = 1 \/ dx c = -1;
  screen_dy : dy c = 1 \/ dy c = -1 }.

Lemma bounce_range pos d a limit x d' :
  0 <= pos <= limit -> 0 < limit < 2147483000 -> 0 <= a <= 10 -> d = 1 \/ d = -1 ->
  bounce pos d a limit = (x, d') -> 0 <= x <= limit /\ (d' = 1 \/ d' = -1).
Proof.
  intros Hpos Hl Ha Hd. unfold bounce.
  rewrite (s32_id pos), (s32_id (d * a)), (s32_id limit) by lia.
  rewrite (s32_id (pos + d * a)), u32_id, s32_id by lia.
  destruct (Z.ltb_spec (pos + d * a) 0), (Z.ltb_spec limit (pos + d * a)); intros [= <- <-]; lia.
Qed.

Lemma steps_arg indx : 0 <= arg (current_step indx) <= 10.
Proof.
  unfold current_step. destruct (steps !! _) as [s|] eqn:Hs; [|simpl; lia]. simpl.
  eapply (Forall_lookup_1 (fun s => 0 <= arg s <= 10)); [|exact Hs]. clear Hs. unfold steps.
  repeat (constructor; [simpl; lia|]); constructor.
Qed.

Lemma run_step_on_screen count step c :
  0 <= arg step <= 10 -> on_screen c -> on_screen (run_step count step c).1.
Proof.
  intros Ha Hc. destruct Hc as [Hw Hh Hx Hy Hdx Hdy].
  unfold run_step. destruct (run step); [by split|].
  unfold move_cursor.
  destruct (bounce (cur_x c) _ _ _) as [x dx'] eqn:Hbx.
  destruct (bounce (cur_y c) _ _ _) as [y dy'] eqn:Hby.
  apply bounce_range in Hbx as [? ?]; [|done..].
  apply bounce_range in Hby as [? ?]; [|done..].
  split; simpl; rewrite ?u32_id by lia; done.
Qed.

Lemma run_all_Forall (P : cursor -> Prop) count step cs tr :
  (forall c, P c -> P (run_step count step c).1) ->
  Forall P cs -> Forall P (run_all count step cs tr).1.
Proof.
  intros HP Hcs. revert tr. induction Hcs as [|c cs Hc Hcs IH]; intros tr; simpl; [by constructor|].
  specialize (HP c Hc). destruct (run_step count step c) as [c' new].
  specialize (IH (new ++ tr)). destruct (run_all count step cs (new ++ tr)). simpl in *.
  by constructor.
Qed.

Lemma run_all_length count step cs tr : length (run_all count step cs tr).1 = length cs.
Proof.
  revert tr. induction cs as [|c cs IH]; intros tr; simpl; [done|].
  destruct (run_step count step c) as [c' new]. specialize (IH (new ++ tr)).
  destruct (run_all count step cs (new ++ tr)). simpl in *. lia.
Qed.

Lemma thread_round_cursors g :
  cursors (thread_round g) = (run_all (count g) (current_step (indx g)) (cursors g) (calls g)).1.
Proof.
  unfold thread_round. destruct (run_all _ _ _ _). by destruct (next_position _ _ _).
Qed.

(** At most MAX_CURSORS cursors, all on their screens. *)
Definition cursors_ok (g : globals) : Prop := (length (cursors g) <= MAX_CURSORS)%nat /\ Forall on_screen (cursors g).

Lemma world_cursors_ok g g' : world g g' -> cursors_ok g -> cursors_ok g'.
Proof.
  intros Hw [Hlen Hall].
  destruct Hw as [g1 g2 fd' bo crtc cw ch w h Hcw Hch Hw Hh Hi|g1|g1|g1 Hrun]; [|done|done|].
  - unfold cursor_init in Hi. destruct (Nat.ltb_spec (length (cursors g1)) MAX_CURSORS); [|done].
    injection Hi as <-. unfold cursors_ok. simpl. rewrite length_app, Forall_app, Forall_singleton. simpl.
    split; [lia|]. split; [done|].
    split; simpl; try lia; Z.to_euclidean_division_equations; lia.
  - unfold cursors_ok. rewrite thread_round_cursors, run_all_length. split; [done|].
    apply run_all_Forall; [|done]. intros c0. apply run_step_on_screen, steps_arg.
Qed.

(** The rounds of the thread are steps of the world. *)
Lemma thread_func_cursors_ok n g : cursors_ok g -> cursors_ok (cursor_thread_func n g).
Proof.
  revert g. induction n as [|n IH]; intros g Hg; simpl; [done|]. destruct (cursor_running g) eqn:Hr; [|done].
  apply IH. eapply world_cursors_ok; [by constructor|done].
Qed.

(** C6: whatever the order in which the main thread adds cursors, starts and stops the
    thread and the thread makes its rounds, there are never more than MAX_CURSORS cursors,
    and each stays within one pixel of its screen ([0..crtc_w] x [0..crtc_h]) and moves in
    unit directions: [int] arithmetic never overflows. *)
Theorem cursors_stay_on_screen g :
  rtc world initial g ->
  (length (cursors g) <= MAX_CURSORS)%nat /\ Forall on_screen (cursors g).
Proof.
  revert g. apply (rtc_ind_r cursors_ok).
  - split; simpl; [lia|constructor].
  - intros b c _ Hbc. by apply world_cursors_ok.
Qed.

(** * The schedule *)

(** Position in the schedule, apart from the cursors. *)
Definition round_position (p : Z * Z) : Z * Z :=
  next_position (current_step p.1) p.1 p.2.

Fixpoint rounds (n : nat) (p : Z * Z) : Z * Z :=
  match n with O => p | S n => rounds n (round_position p) end.

Lemma thread_round_position g :
  (indx (thread_round g), count (thread_round g)) = round_position (indx g, count g).
Proof.
  unfold thread_round, round_position. simpl. destruct (run_all _ _ _ _).
  by destruct (next_position _ _ _).
Qed.

Lemma thread_func_position n g :
  cursor_running g = true ->
  (indx (cursor_thread_func n g), count (cursor_thread_func n g)) = rounds n (indx g, count g) /\
  cursor_running (cursor_thread_func n g) = true.
Proof.
  revert g. induction n as [|n IH]; intros g Hrun; simpl; [done|]. rewrite Hrun.
  rewrite <- thread_round_position. apply IH.
  unfold thread_round. destruct (run_all _ _ _ _). by destruct (next_position _ _ _).
Qed.

Lemma rounds_add m n p : rounds (m + n) p = rounds n (rounds m p).
Proof. revert p. induction m; intros; simpl; auto. Qed.

(** A step is run [repeat + 1] times. *)
Lemma rounds_step i : forall n,
  (Z.of_nat n <= repeat (current_step i)) -> repeat (current_step i) < 4294967295 ->
  rounds n (i, 0) = (i, Z.of_nat n).
Proof.
  induction n as [|n IH]; intros Hn Hr; [done|].
  replace (S n) with (n + 1)%nat by lia. rewrite rounds_add, IH by lia. simpl.
  unfold round_position, next_position. simpl. rewrite (proj2 (Z.ltb_lt _ _)) by lia.
  rewrite u32_id by lia. f_equal. lia.
Qed.

Lemma rounds_next i :
  0 <= repeat (current_step i) < 4294967295 -> 0 <= i < 4294967295 ->
  rounds (Z.to_nat (repeat (current_step i)) + 1) (i, 0) = (i + 1, 0).
Proof.
  intros Hr Hi. rewrite rounds_add, rounds_step by lia. simpl.
  unfold round_position, next_position. simpl. rewrite Z2Nat.id by lia.
  rewrite Z.ltb_irrefl, u32_id by lia. done.
Qed.

Definition step_rounds (s : cursor_step) : nat := Z.to_nat (repeat s) + 1.

Lemma rounds_steps n : forall i,
  0 <= i -> i + Z.of_nat n < 4294967296 ->
  rounds (sum_list_with (fun k => step_rounds (current_step (i + Z.of_nat k))) (seq 0 n)) (i, 0)
    = (i + Z.of_nat n, 0).
Proof.
  induction n as [|n IH]; intros i Hi Hn.
  - simpl. by rewrite Z.add_0_r.
  - rewrite seq_S, sum_list_with_app, rounds_add, IH by lia. simpl. rewrite Nat.add_0_r.
    unfold step_rounds. rewrite rounds_next; [f_equal; lia| |lia].
    unfold current_step. destruct (steps !! _) as [s|] eqn:Hs; [|simpl; lia]. simpl.
    eapply (Forall_lookup_1 (fun s => 0 <= repeat s < 4294967295)); [|exact Hs].
    clear. unfold steps.
    repeat (constructor; [simpl; lia|]); constructor.
Qed.

(** C20: the schedule is cyclic.  From the start of a cycle (an index that is a multiple
    of the 13 steps), the running thread is at the start of the next cycle after exactly 663
    rounds, the sum of [repeat + 1] over the table; so each step runs [repeat + 1] times per
    cycle. *)
Theorem cursor_schedule_cycles g q :
  cursor_running g = true -> indx g = 13 * q -> count g = 0 -> 0 <= q -> 13 * q + 13 < 4294967296 ->
  let g' := cursor_thread_func 663 g in indx g' = 13 * (q + 1) /\ count g' = 0.
Proof.
  intros Hrun Hi Hc Hq Hmax. cbv zeta.
  destruct (thread_func_position 663 g Hrun) as [Hpos _]. rewrite Hi, Hc in Hpos.
  generalize dependent (cursor_thread_func 663 g). intros g' Hpos.
  pose proof (rounds_steps 13 (13 * q)) as Hs.
  assert (Hmod : forall k, current_step (13 * q + Z.of_nat k) = current_step (Z.of_nat k)).
  { intros k. unfold current_step. change (Z.of_nat (length steps)) with 13.
    by rewrite Z.add_comm, Z.mul_comm, Z.mod_add. }
  assert (Hext : forall l, sum_list_with (fun k => step_rounds (current_step (13 * q + Z.of_nat k))) l
    = sum_list_with (fun k => step_rounds (current_step (Z.of_nat k))) l).
  { induction l as [|k l IH]; [done|]. cbn [sum_list_with]. by rewrite IH, (Hmod k). }
  assert (H663 : sum_list_with (fun k => step_rounds (current_step (Z.of_nat k))) (seq 0 13)
    = 663%nat) by (vm_compute; reflexivity).
  rewrite Hext, H663 in Hs. clear Hext H663.
  rewrite Hs in Hpos by lia. injection Hpos as -> ->. lia.
Qed.

Lemma cursor_schedule_cycles_witness :
  indx (cursor_thread_func 663 (cursor_start initial)) = 13.
Proof.
  destruct (cursor_schedule_cycles (cursor_start initial) 0) as [H _];
    [reflexivity|reflexivity|reflexivity|lia|lia|exact H].
Defined.

Lemma cursors_stay_on_screen_witness :
  Forall on_screen (cursors (thread_round (cursor_start initial))).
Proof.
  apply cursors_stay_on_screen.
  eapply rtc_l; [apply world_start|]. eapply rtc_l; [apply world_round; reflexivity|]. apply rtc_refl.
Defined.

Lemma thread_func_world n g : rtc world g (cursor_thread_func n g).
Proof.
  revert g. induction n as [|n IH]; intros g; simpl; [done|].
  destruct (cursor_running g) eqn:Hrun; [|done].
  eapply rtc_l; [by apply world_round|apply IH].
Qed.

(** The bound of [cursors_stay_on_screen] is met: the test [x > crtc_w] lets a
    cursor stand at column [crtc_w], one past the last column of its screen. *)
Theorem cursor_leaves_screen :
  exists g c, rtc world initial g /\ c ∈ cursors g /\ cur_x c = crtc_w c.
Proof.
  set (g0 := cursor_start (Globals [Cursor 3 1 7 100 100 64 64 0 32 32 1 1] false 0 0 [])).
  exists (cursor_thread_func 69 g0).
  assert (Hc : exists c, cursors (cursor_thread_func 69 g0) = [c] /\ cur_x c = crtc_w c)
    by (eexists; vm_compute; split; reflexivity).
  destruct Hc as (c & Hc & Hx). exists c. rewrite Hc. split; [|split; [by left|done]].
  eapply rtc_l; [apply (world_init _ _ 3 1 7 100 100 64 64); try lia; reflexivity|].
  eapply rtc_l; [apply world_start|]. apply thread_func_world.
Qed.
