(* ===== verification/Kms.v ===== *)
(** drm/util/kms.c: the name tables and the search for a device.
    The values of the DRM_MODE_* constants come from drm_mode.h, which is not part of the
    repository; they are the class [ModeCodes].  [drmOpen] is a parameter. *)
From Stdlib Require Import ZArith Lia.
From stdpp Require Import base list numbers strings.
From S2P Require Import Prelude.

(** The constants the tables name. *)
Inductive mode_const :=
| DRM_MODE_ENCODER_NONE
| DRM_MODE_ENCODER_DAC
| DRM_MODE_ENCODER_TMDS
| DRM_MODE_ENCODER_LVDS
| DRM_MODE_ENCODER_TVDAC
| DRM_MODE_ENCODER_VIRTUAL
| DRM_MODE_ENCODER_DSI
| DRM_MODE_ENCODER_DPMST
| DRM_MODE_ENCODER_DPI
| DRM_MODE_CONNECTED
| DRM_MODE_DISCONNECTED
| DRM_MODE_UNKNOWNCONNECTION
| DRM_MODE_CONNECTOR_Unknown
| DRM_MODE_CONNECTOR_VGA
| DRM_MODE_CONNECTOR_DVII
| DRM_MODE_CONNECTOR_DVID
| DRM_MODE_CONNECTOR_DVIA
| DRM_MODE_CONNECTOR_Composite
| DRM_MODE_CONNECTOR_SVIDEO
| DRM_MODE_CONNECTOR_LVDS
| DRM_MODE_CONNECTOR_Component
| DRM_MODE_CONNECTOR_9PinDIN
| DRM_MODE_CONNECTOR_DisplayPort
| DRM_MODE_CONNECTOR_HDMIA
| DRM_MODE_CONNECTOR_HDMIB
| DRM_MODE_CONNECTOR_TV
| DRM_MODE_CONNECTOR_eDP
| DRM_MODE_CONNECTOR_VIRTUAL
| DRM_MODE_CONNECTOR_DSI
| DRM_MODE_CONNECTOR_DPI.

Class ModeCodes := {
  mode_code : mode_const -> Z;
  mode_code_range : forall c, 0 <= mode_code c < 4294967296 }.

(** struct type_name *)
Definition type_name : Type := Z * string.

Fixpoint util_lookup_type_name (type : Z) (table : list type_name) : option string :=
  match table with
  | [] => None
  | (t, name) :: table => if t =? type then Some name else util_lookup_type_name type table
  end.

Section Tables.
Context `{ModeCodes}.

Definition encoder_type_names : list type_name := [
  (mode_code DRM_MODE_ENCODER_NONE, "none"%string);
  (mode_code DRM_MODE_ENCODER_DAC, "DAC"%string);
  (mode_code DRM_MODE_ENCODER_TMDS, "TMDS"%string);
  (mode_code DRM_MODE_ENCODER_LVDS, "LVDS"%string);
  (mode_code DRM_MODE_ENCODER_TVDAC, "TVDAC"%string);
  (mode_code DRM_MODE_ENCODER_VIRTUAL, "Virtual"%string);
  (mode_code DRM_MODE_ENCODER_DSI, "DSI"%string);
  (mode_code DRM_MODE_ENCODER_DPMST, "DPMST"%string);
  (mode_code DRM_MODE_ENCODER_DPI, "DPI"%string) ].
Definition util_lookup_encoder_type_name (type : Z) : option string :=
  util_lookup_type_name type encoder_type_names.

Definition connector_status_names : list type_name := [
  (mode_code DRM_MODE_CONNECTED, "connected"%string);
  (mode_code DRM_MODE_DISCONNECTED, "disconnected"%string);
  (mode_code DRM_MODE_UNKNOWNCONNECTION, "unknown"%string) ].
Definition util_lookup_connector_status_name (status : Z) : option string :=
  util_lookup_type_name status connector_status_names.

Definition connector_type_names : list type_name := [
  (mode_code DRM_MODE_CONNECTOR_Unknown, "unknown"%string);
  (mode_code DRM_MODE_CONNECTOR_VGA, "VGA"%string);
  (mode_code DRM_MODE_CONNECTOR_DVII, "DVI-I"%string);
  (mode_code DRM_MODE_CONNECTOR_DVID, "DVI-D"%string);
  (mode_code DRM_MODE_CONNECTOR_DVIA, "DVI-A"%string);
  (mode_code DRM_MODE_CONNECTOR_Composite, "composite"%string);
  (mode_code DRM_MODE_CONNECTOR_SVIDEO, "s-video"%string);
  (mode_code DRM_MODE_CONNECTOR_LVDS, "LVDS"%string);
  (mode_code DRM_MODE_CONNECTOR_Component, "component"%string);
  (mode_code DRM_MODE_CONNECTOR_9PinDIN, "9-pin DIN"%string);
  (mode_code DRM_MODE_CONNECTOR_DisplayPort, "DP"%string);
  (mode_code DRM_MODE_CONNECTOR_HDMIA, "HDMI-A"%string);
  (mode_code DRM_MODE_CONNECTOR_HDMIB, "HDMI-B"%string);
  (mode_code DRM_MODE_CONNECTOR_TV, "TV"%string);
  (mode_code DRM_MODE_CONNECTOR_eDP, "eDP"%string);
  (mode_code DRM_MODE_CONNECTOR_VIRTUAL, "Virtual"%string);
  (mode_code DRM_MODE_CONNECTOR_DSI, "DSI"%string);
  (mode_code DRM_MODE_CONNECTOR_DPI, "DPI"%string) ].
Definition util_lookup_connector_type_name (type : Z) : option string :=
  util_lookup_type_name type connector_type_names.
End Tables.

(** * Opening a device *)

Definition modules : list string := ([
    "i915"; "amdgpu"; "radeon"; "nouveau"; "vmwgfx"; "omapdrm"; "exynos"; "tilcdc"; "msm"; "sti";
    "tegra"; "imx-drm"; "rockchip"; "atmel-hlcdc"; "fsl-dcu-drm"; "vc4"; "virtio_gpu";
    "mediatek"; "meson"; "pl111"; "stm"; "sun4i-drm"; "armada-drm"; "komeda"; "imx-dcss";
    "mxsfb-drm" ])%string.

Section Open.
(** [drmOpen module device]: a descriptor, or a negative value and [errno]. *)
Context (drmOpen : string -> option string -> Z) (errno ENODEV : Z).

(** The search: the descriptor that ends it, negative when no module opened. *)
Fixpoint try_modules (ms : list string) (device : option string) (fd : Z) : Z :=
  match ms with
  | [] => fd
  | m :: ms =>
      let fd := drmOpen m device in
      if fd <? 0 then try_modules ms device fd else fd
  end.

Definition util_open (device module : option string) : Z :=
  match module with
  | Some m =>
      let fd := drmOpen m device in
      if fd <? 0 then - errno else fd
  | None =>
      let fd := try_modules modules device 0 in
      if fd <? 0 then - ENODEV else fd
  end.
End Open.

(** * Facts *)

(** A lookup finds the first entry of the type, and only entries of the table. *)
Lemma lookup_type_name_spec type table :
  match util_lookup_type_name type table with
  | Some name => exists l1 l2, table = l1 ++ (type, name) :: l2 /\ type ∉ l1.*1
  | None => type ∉ table.*1
  end.
Proof.
  induction table as [|[t n] table IH]; simpl; [apply not_elem_of_nil|].
  destruct (Z.eqb_spec t type) as [->|Hne].
  - exists [], table. split; [done|apply not_elem_of_nil].
  - destruct (util_lookup_type_name type table).
    + destruct IH as (l1 & l2 & -> & Hn). exists ((t, n) :: l1), l2. split; [done|].
      rewrite fmap_cons, not_elem_of_cons. simpl. auto.
    + rewrite not_elem_of_cons. auto.
Qed.

Lemma lookup_type_name_unique type name table :
  NoDup table.*1 -> (type, name) ∈ table -> util_lookup_type_name type table = Some name.
Proof.
  induction table as [|[t n] table IH]; simpl; [by intros _ ?%elem_of_nil|].
  intros [Hn Hnd]%list.NoDup_cons [[= -> ->]|Hin]%elem_of_cons; [by rewrite Z.eqb_refl|].
  destruct (Z.eqb_spec t type) as [->|]; [|by apply IH].
  exfalso. apply Hn. by apply (list_elem_of_fmap_2 fst _ (type, name)).
Qed.

Section TableFacts.
Context `{ModeCodes}.

(** When the constants of a table are distinct, as the kernel header defines them,
    each of the three lookups gives every constant of its table its own name, and NULL
    for any value outside the table. *)
Theorem type_name_lookups :
  (NoDup encoder_type_names.*1 -> NoDup connector_status_names.*1 ->
   NoDup connector_type_names.*1 ->
   (forall t n, (t, n) ∈ encoder_type_names <-> util_lookup_encoder_type_name t = Some n) /\
   (forall t n, (t, n) ∈ connector_status_names <-> util_lookup_connector_status_name t = Some n) /\
   (forall t n, (t, n) ∈ connector_type_names <-> util_lookup_connector_type_name t = Some n)).
Proof.
  assert (Hg : forall table, NoDup table.*1 -> forall t n,
    (t, n) ∈ table <-> util_lookup_type_name t table = Some n).
  { intros table Hnd t n. split; [by apply lookup_type_name_unique|]. intros Hl.
    pose proof (lookup_type_name_spec t table) as Hs. rewrite Hl in Hs.
    destruct Hs as (l1 & l2 & -> & _). apply elem_of_app. right. left. }
  intros He Hs Hc. split; [by apply Hg|split; by apply Hg].
Qed.
End TableFacts.

(** Any distinct numbering serves, for instance by the order of declaration. *)
Definition mode_index (c : mode_const) : Z :=
  match c with
  | DRM_MODE_ENCODER_NONE => 0
  | DRM_MODE_ENCODER_DAC => 1
  | DRM_MODE_ENCODER_TMDS => 2
  | DRM_MODE_ENCODER_LVDS => 3
  | DRM_MODE_ENCODER_TVDAC => 4
  | DRM_MODE_ENCODER_VIRTUAL => 5
  | DRM_MODE_ENCODER_DSI => 6
  | DRM_MODE_ENCODER_DPMST => 7
  | DRM_MODE_ENCODER_DPI => 8
  | DRM_MODE_CONNECTED => 9
  | DRM_MODE_DISCONNECTED => 10
  | DRM_MODE_UNKNOWNCONNECTION => 11
  | DRM_MODE_CONNECTOR_Unknown => 12
  | DRM_MODE_CONNECTOR_VGA => 13
  | DRM_MODE_CONNECTOR_DVII => 14
  | DRM_MODE_CONNECTOR_DVID => 15
  | DRM_MODE_CONNECTOR_DVIA => 16
  | DRM_MODE_CONNECTOR_Composite => 17
  | DRM_MODE_CONNECTOR_SVIDEO => 18
  | DRM_MODE_CONNECTOR_LVDS => 19
  | DRM_MODE_CONNECTOR_Component => 20
  | DRM_MODE_CONNECTOR_9PinDIN => 21
  | DRM_MODE_CONNECTOR_DisplayPort => 22
  | DRM_MODE_CONNECTOR_HDMIA => 23
  | DRM_MODE_CONNECTOR_HDMIB => 24
  | DRM_MODE_CONNECTOR_TV => 25
  | DRM_MODE_CONNECTOR_eDP => 26
  | DRM_MODE_CONNECTOR_VIRTUAL => 27
  | DRM_MODE_CONNECTOR_DSI => 28
  | DRM_MODE_CONNECTOR_DPI => 29
  end.

Program Definition index_codes : ModeCodes := {| mode_code := mode_index |}.
Next Obligation. intros []; simpl; lia. Qed.

Lemma type_name_lookups_witness :
  @util_lookup_connector_type_name index_codes (mode_index DRM_MODE_CONNECTOR_HDMIA) = Some "HDMI-A"%string.
Proof.
  apply (@type_name_lookups index_codes).
  1-3: apply (bool_decide_unpack (NoDup _)); vm_compute; exact I.
  do 11 right. left.
Defined.

Section OpenFacts.
Context (drmOpen : string -> option string -> Z) (errno ENODEV : Z).
Context (Herrno : 0 < errno) (Henodev : 0 < ENODEV).

Lemma try_modules_spec device ms fd0 :
  let fd := try_modules drmOpen ms device fd0 in
  (fd = fd0 /\ ms = [] \/
   fd < 0 /\ ms <> [] /\ (forall m, m ∈ ms -> drmOpen m device < 0) \/
   0 <= fd /\ exists l1 m l2, ms = l1 ++ m :: l2 /\ fd = drmOpen m device /\
     (forall m', m' ∈ l1 -> drmOpen m' device < 0)).
Proof using Type.
  revert fd0. induction ms as [|m ms IH]; intros fd0; simpl; [auto|].
  destruct (Z.ltb_spec (drmOpen m device) 0) as [Hlt|Hge].
  - destruct (IH (drmOpen m device)) as [[-> ->]|[(Hfd & Hne & Hall)|(Hfd & l1 & m' & l2 & -> & Heq & Hall)]].
    + right. left. split; [done|]. split; [done|]. intros m' [->|?%elem_of_nil]%elem_of_cons; done.
    + right. left. split; [done|]. split; [done|]. intros m' [->|?]%elem_of_cons; auto.
    + right. right. split; [done|]. exists (m :: l1), m', l2. split; [done|]. split; [done|].
      intros m'' [->|?]%elem_of_cons; auto.
  - right. right. split; [done|]. exists [], m, ms. split; [done|]. split; [done|].
    by intros ? ?%elem_of_nil.
Qed.

(** Without a module, [util_open] gives the descriptor of the first module of the
    table the device opens with, trying them in order, and -ENODEV when none opens; with a
    module, its descriptor or -errno. *)
Theorem util_open_first device :
  (forall fd, util_open drmOpen errno ENODEV device None = fd ->
     (fd = - ENODEV /\ (forall m, m ∈ modules -> drmOpen m device < 0)) \/
     (0 <= fd /\ exists l1 m l2, modules = l1 ++ m :: l2 /\ fd = drmOpen m device /\
        (forall m', m' ∈ l1 -> drmOpen m' device < 0))) /\
  (forall m, util_open drmOpen errno ENODEV device (Some m) =
     if drmOpen m device <? 0 then - errno else drmOpen m device).
Proof using Type.
  split; [|done]. intros fd. unfold util_open.
  destruct (try_modules_spec device modules 0) as [[_ ?]|[(Hfd & _ & Hall)|(Hfd & Hex)]]; [done| |].
  - rewrite (proj2 (Z.ltb_lt _ _) Hfd). auto.
  - rewrite (proj2 (Z.ltb_ge _ _) Hfd). intros <-. auto.
Qed.
End OpenFacts.

Lemma util_open_first_witness :
  util_open (fun m _ => if bool_decide (m = "meson"%string) then 7 else -1) 2 19 None None = 7 /\
  0 <= util_open (fun m _ => if bool_decide (m = "meson"%string) then 7 else -1) 2 19 None None.
Proof.
  split; [reflexivity|].
  destruct (proj1 (util_open_first (fun m _ => if bool_decide (m = "meson"%string) then 7 else -1)
    2 19 None) _ eq_refl) as [[H _]|[H _]]; [discriminate H|exact H].
Defined.
