(* ===== verification/Libc.v ===== *)
(** What the bus tools use of the C library: characters, [atoi], [sscanf] with "%2x",
    two-digit hexadecimal output; and programs that stop, with the trace of what they did. *)
From Stdlib Require Import ZArith Lia Ascii String.
From stdpp Require Import base list numbers strings.
From S2P Require Import Prelude.

#[global] Open Scope Z_scope.

(** * Programs *)

(** A program over the state [W]: it changes the state and gives a value, or stops with a
    fault ([abort], [exit], undefined behaviour) in the state it has reached. *)
Definition prog (W A : Type) : Type := W -> outcome A * W.

#[global] Instance prog_ret {W} : MRet (prog W) := fun A a w => (Ok a, w).
#[global] Instance prog_bind {W} : MBind (prog W) := fun A B k c w =>
  match c w with
  | (Ok a, w) => k a w
  | (Fault f, w) => (Fault f, w)
  end.

Definition get {W} : prog W W := fun w => (Ok w, w).
Definition modify {W} (f : W -> W) : prog W unit := fun w => (Ok tt, f w).
Definition stop {W A} (f : fault) : prog W A := fun w => (Fault f, w).
Definition lift {W A} (c : outcome A) : prog W A := fun w => (c, w).

(** [if (b) ...] without [else]. *)
Definition when {W} (b : bool) (c : prog W unit) : prog W unit := if b then c else mret tt.

(** * Characters *)

Definition NUL : Z := 0.
Definition isspace (c : Z) : bool := (c =? 32) || ((9 <=? c) && (c <=? 13)).
Definition isdigit (c : Z) : bool := (48 <=? c) && (c <=? 57).

Definition hex_value (c : Z) : option Z :=
  if isdigit c then Some (c - 48)
  else if (97 <=? c) && (c <=? 102) then Some (c - 87)
  else if (65 <=? c) && (c <=? 70) then Some (c - 55)
  else None.

(** The characters of a C string, without its terminator. *)
Definition chars (s : string) : list Z :=
  (fun a => Z.of_nat (nat_of_ascii a)) <$> list_ascii_of_string s.

Lemma string_length_app (s t : string) : String.length (s +:+ t) = (String.length s + String.length t)%nat.
Proof. induction s as [|a s IH]; [done|]. change (S (String.length (s +:+ t)) = S (String.length s) + String.length t)%nat. lia. Qed.

Lemma string_app_assoc (a b c : string) : (a +:+ b) +:+ c = a +:+ b +:+ c.
Proof.
  induction a as [|x a IH]; [done|].
  change (String x ((a +:+ b) +:+ c) = String x (a +:+ b +:+ c)). by rewrite IH.
Qed.

Lemma string_app_nil (a : string) : a +:+ EmptyString = a.
Proof.
  induction a as [|x a IH]; [done|].
  change (String x (a +:+ EmptyString) = String x a). by rewrite IH.
Qed.

Lemma string_nil_app (a : string) : EmptyString +:+ a = a.
Proof. done. Qed.

Lemma string_concat_cons a l : String.concat "" (a :: l) = a +:+ String.concat "" l.
Proof. destruct l; simpl; [by rewrite string_app_nil|done]. Qed.

Definition char (c : Z) : ascii := ascii_of_nat (Z.to_nat c).

Fixpoint skip_spaces (l : list Z) : list Z :=
  match l with
  | c :: l' => if isspace c then skip_spaces l' else l
  | [] => []
  end.

(** [atoi]; the value of a number that does not fit [int] is not defined, here it wraps. *)
Fixpoint digits (acc : Z) (l : list Z) : Z :=
  match l with
  | c :: l => if isdigit c then digits (10 * acc + (c - 48)) l else acc
  | [] => acc
  end.
Definition decimal_value (s : string) : Z :=
  match skip_spaces (chars s) with
  | c :: l => if c =? 45 then - digits 0 l else if c =? 43 then digits 0 l else digits 0 (c :: l)
  | [] => 0
  end.
Definition atoi (s : string) : Z := s32 (decimal_value s).
Definition atoll (s : string) : Z := s64 (decimal_value s).

(** [sscanf(l, "%2x", &ch)] on the characters before the terminator: the number of matches,
    -1 at the end of the input, and the value.  At most two characters are read, a sign
    among them; "0x" without a digit after it does not match. *)
Definition sscanf_2x (l : list Z) : Z * option Z :=
  match skip_spaces l with
  | [] => (-1, None)
  | c1 :: l =>
      if (c1 =? 43) || (c1 =? 45) then
        match l with
        | c2 :: _ =>
            match hex_value c2 with
            | Some d => (1, Some (if c1 =? 45 then u32 (- d) else d))
            | None => (0, None)
            end
        | [] => (0, None)
        end
      else
        match hex_value c1 with
        | None => (0, None)
        | Some a =>
            match l with
            | c2 :: _ =>
                match hex_value c2 with
                | Some b => (1, Some (16 * a + b))
                | None => if (c1 =? 48) && ((c2 =? 120) || (c2 =? 88)) then (0, None) else (1, Some a)
                end
            | [] => (1, Some a)
            end
        end
  end.

(** "%02X" of a byte. *)
Definition hex_digit (d : Z) : ascii := char (if d <? 10 then 48 + d else 55 + d).
Definition hex2 (b : Z) : string := String (hex_digit (b / 16)) (String (hex_digit (b mod 16)) EmptyString).

Lemma hex_value_range c v : hex_value c = Some v -> 0 <= v < 16.
Proof.
  unfold hex_value, isdigit.
  repeat match goal with |- context [?a <=? ?b] => destruct (Z.leb_spec a b) end;
    simpl; intros [= <-]; lia.
Qed.

(** The character code of a hexadecimal digit, which [hex_value] reads back. *)
Definition digit_code (d : Z) : Z := if d <? 10 then 48 + d else 55 + d.

Lemma hex_value_digit d : 0 <= d < 16 -> hex_value (digit_code d) = Some d.
Proof.
  intros Hd. unfold hex_value, isdigit, digit_code. destruct (Z.ltb_spec d 10).
  - rewrite !(proj2 (Z.leb_le _ _)) by lia. simpl. f_equal. lia.
  - assert ((55 + d <=? 57) = false) as -> by (apply Z.leb_gt; lia).
    assert ((97 <=? 55 + d) = false) as -> by (apply Z.leb_gt; lia).
    assert ((65 <=? 55 + d) = true) as -> by (apply Z.leb_le; lia).
    assert ((55 + d <=? 70) = true) as -> by (apply Z.leb_le; lia).
    rewrite andb_false_r. simpl. f_equal. lia.
Qed.

(** A digit is no space and no sign. *)
Lemma digit_code_plain d :
  0 <= d < 16 -> isspace (digit_code d) = false /\ (digit_code d =? 43) || (digit_code d =? 45) = false.
Proof.
  intros Hd. unfold isspace, digit_code.
  destruct (Z.ltb_spec d 10); rewrite ?orb_false_iff, ?andb_false_iff, ?Z.eqb_neq, ?Z.leb_gt; lia.
Qed.

Lemma sscanf_2x_digits a b l :
  0 <= a < 16 -> 0 <= b < 16 ->
  sscanf_2x (digit_code a :: digit_code b :: l) = (1, Some (16 * a + b)).
Proof.
  intros Ha Hb. unfold sscanf_2x. simpl.
  destruct (digit_code_plain a Ha) as [-> ->]. by rewrite !hex_value_digit.
Qed.

(** * Reasoning about programs *)

(** [wp c w Q]: run from [w], [c] ends with a result and a state that satisfy [Q]. *)
Definition wp {W A} (c : prog W A) (w : W) (Q : outcome A -> W -> Prop) : Prop :=
  let '(o, w') := c w in Q o w'.

(** What a continuation sees of the result of the first command. *)
Definition next {W A B} (k : A -> prog W B) (Q : outcome B -> W -> Prop) (o : outcome A) (w : W) : Prop :=
  match o with Ok a => wp (k a) w Q | Fault f => Q (Fault f) w end.

Lemma wp_bind {W A B} (c : prog W A) (k : A -> prog W B) w Q :
  wp c w (next k Q) -> wp (c ≫= k) w Q.
Proof. unfold wp, next, mbind, prog_bind. destruct (c w) as [[a|f] w']; auto. Qed.

Lemma wp_mono {W A} (c : prog W A) w (P Q : outcome A -> W -> Prop) :
  wp c w P -> (forall o w', P o w' -> Q o w') -> wp c w Q.
Proof. unfold wp. destruct (c w). auto. Qed.

Lemma wp_run {W A} (c : prog W A) w (Q : outcome A -> W -> Prop) o w' :
  wp c w Q -> c w = (o, w') -> Q o w'.
Proof. unfold wp. intros H Hc. by rewrite Hc in H. Qed.

Lemma wp_intro {W A} (c : prog W A) w (Q : outcome A -> W -> Prop) :
  (forall o w', c w = (o, w') -> Q o w') -> wp c w Q.
Proof. unfold wp. destruct (c w). auto. Qed.

Lemma wp_and {W A} (c : prog W A) w (P Q : outcome A -> W -> Prop) :
  wp c w P -> wp c w Q -> wp c w (fun o w' => P o w' /\ Q o w').
Proof. unfold wp. destruct (c w). auto. Qed.

Lemma wp_ret {W A} (a : A) (w : W) Q : Q (Ok a) w -> wp (mret a) w Q.
Proof. done. Qed.

Lemma wp_get {W} (w : W) Q : Q (Ok w) w -> wp get w Q.
Proof. done. Qed.

Lemma wp_modify {W} (f : W -> W) w Q : Q (Ok tt) (f w) -> wp (modify f) w Q.
Proof. done. Qed.

Lemma wp_stop {W A} f (w : W) (Q : outcome A -> W -> Prop) : Q (Fault f) w -> wp (stop f) w Q.
Proof. done. Qed.

Lemma wp_lift {W A} (c : outcome A) (w : W) Q : Q c w -> wp (lift c) w Q.
Proof. done. Qed.

Lemma wp_when {W} (b : bool) (c : prog W unit) w Q :
  (b = true -> wp c w Q) -> (b = false -> Q (Ok tt) w) -> wp (when b c) w Q.
Proof. destruct b; intros Ht Hf; [by apply Ht|by apply Hf]. Qed.

(** One step of a straight-line program. *)
Ltac wstep :=
  lazymatch goal with
  | |- wp (mbind _ _) _ _ => apply wp_bind
  | |- wp (mret _) _ _ => apply wp_ret
  | |- wp get _ _ => apply wp_get
  | |- wp (modify _) _ _ => apply wp_modify
  | |- wp (stop _) _ _ => apply wp_stop
  | |- wp (lift _) _ _ => apply wp_lift
  end; cbn [next].

(** ** What a program does not change *)

(** However [c] ends, the state before and the state after are related. *)
Definition preserves {W A} (R : relation W) (c : prog W A) : Prop := forall w, wp c w (fun _ w' => R w w').

Section Preserves.
Context {W : Type} (R : relation W) `{!PreOrder R}.

Lemma preserves_ret {A} (a : A) : preserves R (mret a).
Proof. intros w. apply wp_ret. reflexivity. Qed.
Lemma preserves_get : preserves R get.
Proof. intros w. apply wp_get. reflexivity. Qed.
Lemma preserves_lift {A} (c : outcome A) : preserves R (lift c).
Proof. intros w. apply wp_lift. reflexivity. Qed.
Lemma preserves_stop {A} f : preserves R (stop (A := A) f).
Proof. intros w. apply wp_stop. reflexivity. Qed.
Lemma preserves_modify f : (forall w, R w (f w)) -> preserves R (modify f).
Proof. intros Hf w. apply wp_modify, Hf. Qed.
Lemma preserves_bind {A B} (c : prog W A) (k : A -> prog W B) :
  preserves R c -> (forall a, preserves R (k a)) -> preserves R (c ≫= k).
Proof.
  intros Hc Hk w. apply wp_bind. eapply wp_mono; [apply Hc|]. intros [a|f] w1 H1; cbn [next]; [|done].
  eapply wp_mono; [apply Hk|]. intros o w2 H2. by etrans.
Qed.
Lemma preserves_when b c : preserves R c -> preserves R (when b c).
Proof. destruct b; [done|intros _; apply preserves_ret]. Qed.
End Preserves.

(** The two states look the same through [view]. *)
Definition same {W V} (view : W -> V) : relation W := fun w w' => view w' = view w.
#[global] Instance same_preorder {W V} (view : W -> V) : PreOrder (same view).
Proof. unfold same. split; [done|]. intros w1 w2 w3 H12 H23. congruence. Qed.

Create HintDb preserves.
#[export] Hint Resolve preserves_ret preserves_get preserves_lift preserves_stop : preserves.
#[export] Hint Extern 0 (PreOrder _) => apply _ : preserves.

(** Goes through a program's commands and branches; the calls are left to the hints. *)
Ltac preserves_tac :=
  repeat match goal with
  | |- preserves _ (mbind _ _) => apply preserves_bind; [apply _| |intros]
  | |- preserves _ (when _ _) => apply preserves_when; [apply _|]
  | |- preserves _ (modify _) => apply preserves_modify; intros; solve [reflexivity | auto with preserves]
  | |- preserves _ (match ?x with _ => _ end) => destruct x
  | |- preserves _ (let '_ := ?x in _) => destruct x
  | |- preserves _ _ => solve [auto with preserves]
  end.
