(* ===== verification/Print.v ===== *)
(** What the listings use of [printf]: decimal and hexadecimal numbers, padding, and "%.2f". *)
From Stdlib Require Import ZArith Lia Ascii String Floats.SpecFloat HexadecimalString HexadecimalN.
From stdpp Require Import base list numbers strings pretty.
From S2P Require Import Prelude Libc.

#[global] Open Scope Z_scope.

(** "%d" of an [int], "%u" of an [unsigned]; a 32-bit value printed with the wrong sign wraps. *)
Definition dec (z : Z) : string := pretty z.
Definition print_d (z : Z) : string := dec (s32 z).
Definition print_u (z : Z) : string := dec (u32 z).

(** "%x" *)
Definition hex (z : Z) : string := NilZero.string_of_uint (N.to_hex_uint (Z.to_N z)).

Fixpoint repeat_char (c : ascii) (n : nat) : string :=
  match n with O => EmptyString | S n => String c (repeat_char c n) end.
(** "%0[n]x", "%-[n]s" and "%-[n]d" *)
Definition zero_pad (n : nat) (s : string) : string := repeat_char "0" (n - String.length s) +:+ s.
Definition pad_right (n : nat) (s : string) : string := s +:+ repeat_char " " (n - String.length s).
Definition hex8 (z : Z) : string := zero_pad 8 (hex z).
Definition upper (c : ascii) : ascii :=
  let n := nat_of_ascii c in if ((97 <=? n) && (n <=? 102))%nat then ascii_of_nat (n - 32) else c.
Fixpoint to_upper (s : string) : string :=
  match s with EmptyString => EmptyString | String c s => String (upper c) (to_upper s) end.

(** "%.2hhx" of a byte. *)
Definition hex_low (d : Z) : ascii := char (if d <? 10 then 48 + d else 87 + d).
Definition byte_hex (b : Z) : string := String (hex_low (b / 16)) (String (hex_low (b mod 16)) EmptyString).

(** "%.2f": the nearest of the hundredths, the even one of two. *)
Definition round_even (n d : Z) : Z :=
  let q := n / d in let r := 2 * (n mod d) in
  if (r <? d) || ((r =? d) && Z.even q) then q else q + 1.
Definition hundredths (m e : Z) : Z :=
  if 0 <=? e then 100 * m * 2 ^ e else round_even (100 * m) (2 ^ (- e)).
Definition print_hundredths (h : Z) : string := dec (h / 100) +:+ "." +:+ zero_pad 2 (dec (h mod 100)).
Definition print_f2 (x : spec_float) : string :=
  match x with
  | S754_zero s => (if s then "-" else "") +:+ "0.00"
  | S754_infinity s => (if s then "-" else "") +:+ "inf"
  | S754_nan => "nan"
  | S754_finite s m e => (if s then "-" else "") +:+ print_hundredths (hundredths (Z.pos m) e)
  end.

Example print_f2_examples :
  print_f2 (SFdiv 53 1024 (binary_normalize 53 1024 148500000 0 false) (binary_normalize 53 1024 2475000 0 false)) = "60.00"%string /\
  print_f2 (binary_normalize 53 1024 1 (-3) false) = "0.12"%string /\ print_f2 (binary_normalize 53 1024 3 (-3) false) = "0.38"%string.
Proof. vm_compute. auto. Qed.

(** * Lengths *)

Lemma length_pretty_go k x s :
  (x < 10 ^ N.of_nat k)%N -> (String.length (pretty_N_go x s) <= k + String.length s)%nat.
Proof.
  revert x s. induction k as [|k IH]; intros x s Hx.
  { assert (x = 0%N) as -> by (change (10 ^ N.of_nat 0)%N with 1%N in Hx; lia). by rewrite pretty_N_go_0. }
  destruct (decide (x = 0%N)) as [->|Hnz]; [rewrite pretty_N_go_0; lia|].
  rewrite pretty_N_go_step by lia. etrans; [apply IH|cbn; lia].
  rewrite Nat2N.inj_succ, N.pow_succ_r' in Hx. apply N.Div0.div_lt_upper_bound. lia.
Qed.

Lemma length_pretty_N k n : (n < 10 ^ N.of_nat k)%N -> (1 <= k)%nat -> (String.length (pretty n) <= k)%nat.
Proof.
  intros Hn Hk. unfold pretty, pretty_N. case_decide; [done|]. etrans; [by apply (length_pretty_go k)|cbn; lia].
Qed.

(** The digits of a number, and a sign. *)
Lemma length_dec k z : - 10 ^ Z.of_nat k < z < 10 ^ Z.of_nat k -> (1 <= k)%nat -> (String.length (dec z) <= k + 1)%nat.
Proof.
  intros Hz Hk. assert (Hpow : Z.of_N (10 ^ N.of_nat k) = 10 ^ Z.of_nat k) by (rewrite N2Z.inj_pow, nat_N_Z; done).
  unfold dec. destruct z as [|p|p]; unfold pretty, pretty_Z; [cbn; lia|..].
  - unfold pretty, pretty_positive. pose proof (length_pretty_N k (N.pos p)). lia.
  - change (String.length ("-" +:+ pretty p)) with (S (String.length (pretty p))).
    unfold pretty, pretty_positive. pose proof (length_pretty_N k (N.pos p)). lia.
Qed.

Lemma length_print_d z : (String.length (print_d z) <= 11)%nat.
Proof. apply (length_dec 10); [|lia]. pose proof (s32_range z). lia. Qed.

Lemma length_repeat_char c n : String.length (repeat_char c n) = n.
Proof. induction n as [|n IH]; [done|]. cbn. by rewrite IH. Qed.
Lemma length_zero_pad n s : String.length (zero_pad n s) = Nat.max n (String.length s).
Proof. unfold zero_pad. rewrite string_length_app, length_repeat_char. lia. Qed.
Lemma length_pad_right n s : String.length (pad_right n s) = Nat.max n (String.length s).
Proof. unfold pad_right. rewrite string_length_app, length_repeat_char. lia. Qed.

(** * Reading back *)

(** Two digits at a time. *)
Fixpoint unhex_bytes (l : list ascii) : option (list Z) :=
  match l with
  | [] => Some []
  | [_] => None
  | a :: b :: l =>
      x ← hex_value (Z.of_nat (nat_of_ascii a)); y ← hex_value (Z.of_nat (nat_of_ascii b));
      rest ← unhex_bytes l; Some (16 * x + y :: rest)
  end.

Lemma hex_value_low d : 0 <= d < 16 -> hex_value (Z.of_nat (nat_of_ascii (hex_low d))) = Some d.
Proof.
  intros Hd. assert (Hin : In (Z.to_nat d) (seq 0 16)) by (apply in_seq; lia).
  rewrite <- (Z2Nat.id d) by lia. cbn [seq In] in Hin.
  repeat (destruct Hin as [<-|Hin]; [by vm_compute|]). done.
Qed.

Lemma unhex_byte b l : 0 <= b < 256 -> unhex_bytes (hex_low (b / 16) :: hex_low (b mod 16) :: l) = (fun rest => b :: rest) <$> unhex_bytes l.
Proof.
  intros Hb. cbn [unhex_bytes]. rewrite !hex_value_low by (pose proof (Z.mod_pos_bound b 16); pose proof (Z.div_pos b 16);
    pose proof (Z.div_lt_upper_bound b 16 16); lia).
  cbn. destruct (unhex_bytes l); cbn; [|done]. f_equal. f_equal. pose proof (Z.div_mod b 16). lia.
Qed.
