(* ===== verification/HexDump.v ===== *)
(** The two text helpers that spi/spi.c and i2c/i2c.c share word for word: [hex_dump] and
    [unescape]. *)
From Stdlib Require Import ZArith Lia Ascii String.
From stdpp Require Import base list numbers strings.
From S2P Require Import Prelude Libc.

#[global] Open Scope Z_scope.

(** * hex_dump *)

(** [while (i++ % line_size) printf("__ ");], at most [fuel] times. *)
Fixpoint hex_pad (fuel : nat) (i line_size : Z) : string :=
  match fuel with
  | O => EmptyString
  | S fuel => if i mod line_size =? 0 then EmptyString else "__ " +:+ hex_pad fuel (i + 1) line_size
  end.

(** [(c < 32 || c > 126) ? '.' : c] *)
Definition printable (c : Z) : ascii := if (c <? 32) || (126 <? c) then "."%char else char c.
Definition print_chars (l : list Z) : string := string_of_list_ascii (printable <$> l).

(** The loop: [pending] are the bytes from [line] to [address], [i] those printed so far (an
    [int]: it does not wrap for buffers of less than 2 GiB). *)
Fixpoint hex_dump_loop (prefix : string) (line_size : Z) (pending rest : list Z) (i : Z) : string :=
  match rest with
  | [] => EmptyString
  | b :: rest =>
      let i := i + 1 in
      let pending := pending ++ [b] in
      let length0 := match rest with [] => true | _ => false end in
      hex2 b +:+ " " +:+
      if (i mod line_size =? 0) || (length0 && negb (i mod line_size =? 0)) then
        (if length0 then hex_pad (Z.to_nat line_size) i line_size else EmptyString)
        +:+ " |" +:+ print_chars pending +:+ "|
" +:+ (if length0 then EmptyString else prefix +:+ " | ")
        +:+ hex_dump_loop prefix line_size [] rest i
      else hex_dump_loop prefix line_size pending rest i
  end.

Definition hex_dump (src : list Z) (line_size : Z) (prefix : string) : outcome string :=
  if (line_size =? 0) && negb (length src =? 0)%nat then Fault DivByZero
  else Ok (prefix +:+ " | " +:+ hex_dump_loop prefix line_size [] src 0).

(** ** The layout *)

(** One line of the dump, of [n] columns. *)
Definition dump_line (prefix : string) (n : nat) (bytes : list Z) : string :=
  prefix +:+ " | " +:+ String.concat "" ((fun b => hex2 b +:+ " ") <$> bytes)
  +:+ String.concat "" (replicate (n - length bytes) "__ "%string)
  +:+ " |" +:+ print_chars bytes +:+ "|
".

(** The bytes cut into lines of [n]. *)
Fixpoint chunks (fuel n : nat) (l : list Z) : list (list Z) :=
  match fuel, l with
  | S fuel, _ :: _ => take n l :: chunks fuel n (drop n l)
  | _, _ => []
  end.

Lemma concat_app l1 l2 :
  String.concat "" (l1 ++ l2) = String.concat "" l1 +:+ String.concat "" l2.
Proof.
  induction l1 as [|a l1 IH]; [done|]. rewrite <- app_comm_cons, !string_concat_cons, IH.
  by rewrite string_app_assoc.
Qed.

Lemma hex_pad_line n q k fuel :
  0 < n -> 0 <= k < n -> (Z.to_nat n - Z.to_nat k <= fuel)%nat -> 0 < k ->
  hex_pad fuel (q * n + k) n = String.concat "" (replicate (Z.to_nat n - Z.to_nat k) "__ "%string).
Proof.
  intros Hn Hk Hf Hk0. revert k Hk Hf Hk0. induction fuel as [|fuel IH]; intros k Hk Hf Hk0; [lia|].
  cbn [hex_pad].
  assert ((q * n + k) mod n = k) as -> by (rewrite Z.add_comm, Z.mod_add, Z.mod_small by lia; done).
  rewrite (proj2 (Z.eqb_neq k 0)) by lia.
  replace (Z.to_nat n - Z.to_nat k)%nat with (S (Z.to_nat n - Z.to_nat (k + 1))) by lia.
  cbn [replicate]. rewrite string_concat_cons. f_equal.
  destruct (decide (k + 1 = n)) as [He|He].
  - replace (q * n + k + 1) with ((q + 1) * n) by lia.
    replace (Z.to_nat n - Z.to_nat (k + 1))%nat with 0%nat by lia. simpl.
    destruct fuel; simpl; [done|]. by rewrite Z.mod_mul by lia.
  - rewrite <- Z.add_assoc. apply IH; lia.
Qed.

(** The bytes of one line, from column [k] on, then the rest of the dump. *)
Lemma hex_dump_loop_line prefix n q bytes : forall pending rest,
  0 < n -> Z.of_nat (length pending) + Z.of_nat (length bytes) = n -> bytes <> [] ->
  hex_dump_loop prefix n pending (bytes ++ rest) (q * n + Z.of_nat (length pending)) =
    String.concat "" ((fun b => hex2 b +:+ " ") <$> bytes)
    +:+ " |" +:+ print_chars (pending ++ bytes) +:+ "|
" +:+ (match rest with [] => EmptyString | _ => prefix +:+ " | " end)
    +:+ hex_dump_loop prefix n [] rest ((q + 1) * n).
Proof.
  induction bytes as [|b bytes IH]; intros pending rest Hn Hlen Hne; [done|].
  cbn [app hex_dump_loop fmap list_fmap]. rewrite string_concat_cons, !string_app_assoc. f_equal. f_equal.
  cbn [length] in Hlen. destruct bytes as [|b' bytes].
  - assert (((q * n + Z.of_nat (length pending) + 1) mod n =? 0) = true) as ->.
    { replace (q * n + Z.of_nat (length pending) + 1) with ((q + 1) * n) by (simpl in *; lia).
      by rewrite Z.mod_mul by lia. }
    cbn [orb app fmap list_fmap String.concat].
    replace (q * n + Z.of_nat (length pending) + 1) with ((q + 1) * n) by (simpl in *; lia).
    destruct rest as [|r rest]; [|done].
    assert (hex_pad (Z.to_nat n) ((q + 1) * n) n = EmptyString) as ->; [|done].
    destruct (Z.to_nat n); [done|]. cbn [hex_pad]. by rewrite Z.mod_mul by lia.
  - assert (((q * n + Z.of_nat (length pending) + 1) mod n =? 0) = false) as ->.
    { apply Z.eqb_neq. rewrite <- Z.add_assoc, Z.add_comm, Z.mod_add, Z.mod_small; simpl in *; lia. }
    cbn [orb andb app].
    replace (q * n + Z.of_nat (length pending) + 1) with (q * n + Z.of_nat (length (pending ++ [b])))
      by (rewrite length_app; simpl; lia).
    rewrite (app_comm_cons bytes rest b'), IH; [|done| |done].
    + rewrite <- (assoc_L (++)). done.
    + rewrite length_app. simpl in *. lia.
Qed.

(** The last, shorter line. *)
Lemma hex_dump_loop_last prefix n q bytes : forall pending,
  0 < n -> Z.of_nat (length pending) + Z.of_nat (length bytes) < n -> bytes <> [] ->
  hex_dump_loop prefix n pending bytes (q * n + Z.of_nat (length pending)) =
    String.concat "" ((fun b => hex2 b +:+ " ") <$> bytes)
    +:+ String.concat "" (replicate (Z.to_nat n - length (pending ++ bytes)) "__ "%string)
    +:+ " |" +:+ print_chars (pending ++ bytes) +:+ "|
".
Proof.
  induction bytes as [|b bytes IH]; intros pending Hn Hlen Hne; [done|].
  cbn [hex_dump_loop fmap list_fmap]. rewrite string_concat_cons, !string_app_assoc. f_equal. f_equal.
  cbn [length] in Hlen.
  assert (Hmod : ((q * n + Z.of_nat (length pending) + 1) mod n =? 0) = false).
  { apply Z.eqb_neq. rewrite <- Z.add_assoc, Z.add_comm, Z.mod_add, Z.mod_small; lia. }
  rewrite Hmod. destruct bytes as [|b' bytes].
  - cbn [orb andb negb fmap list_fmap String.concat hex_dump_loop].
    rewrite <- Z.add_assoc, hex_pad_line by lia.
    rewrite length_app. simpl length.
    replace (Z.to_nat n - Z.to_nat (Z.of_nat (length pending) + 1))%nat
      with (Z.to_nat n - (length pending + 1))%nat by lia. done.
  - cbn [orb andb].
    replace (q * n + Z.of_nat (length pending) + 1) with (q * n + Z.of_nat (length (pending ++ [b])))
      by (rewrite length_app; simpl; lia).
    rewrite IH; [|done| |done].
    + rewrite <- (assoc_L (++)). done.
    + rewrite length_app. simpl in *. lia.
Qed.

Lemma hex_dump_loop_chunks prefix n fuel : forall q l,
  (0 < n)%nat -> (length l <= fuel)%nat -> l <> [] ->
  prefix +:+ " | " +:+ hex_dump_loop prefix (Z.of_nat n) [] l (q * Z.of_nat n) =
    String.concat "" (dump_line prefix n <$> chunks fuel n l).
Proof.
  induction fuel as [|fuel IH]; intros q l Hn Hlen Hne; [destruct l; simpl in *; [done|lia]|].
  assert (Hch : chunks (S fuel) n l = take n l :: chunks fuel n (drop n l)) by by destruct l.
  rewrite Hch, fmap_cons, string_concat_cons. unfold dump_line at 1. rewrite !string_app_assoc.
  f_equal. f_equal.
  destruct (decide (length l < n)%nat) as [Hlt|Hge].
  - rewrite take_ge, drop_ge by lia.
    pose proof (hex_dump_loop_last prefix (Z.of_nat n) q l []) as Hlast.
    rewrite Z.add_0_r in Hlast. rewrite Hlast by (done || (simpl; lia)). clear Hlast.
    rewrite Nat2Z.id. destruct fuel; simpl; by rewrite string_app_nil.
  - pose proof (hex_dump_loop_line prefix (Z.of_nat n) q (take n l) [] (drop n l)) as Hline.
    rewrite Z.add_0_r, take_drop in Hline.
    rewrite Hline; [|lia|rewrite length_take; simpl; lia|by destruct l, n; simpl in *; try lia].
    clear Hline. rewrite length_take, Nat.min_l, Nat.sub_diag by lia.
    cbn [replicate String.concat app]. rewrite string_nil_app. do 4 f_equal.
    destruct (drop n l) as [|x rest] eqn:Hd.
    + by destruct fuel.
    + rewrite string_app_assoc, IH; [done|lia| |done].
      rewrite <- Hd, length_drop. lia.
Qed.

Lemma chunks_concat n fuel : forall l,
  (0 < n)%nat -> (length l <= fuel)%nat -> concat (chunks fuel n l) = l.
Proof.
  induction fuel as [|fuel IH]; intros l Hn Hl; [by destruct l; simpl in *; [|lia]|].
  destruct l as [|x l]; [done|]. cbn [chunks concat].
  rewrite IH; [apply take_drop|done|]. destruct n; [lia|]. simpl in *. rewrite length_drop. lia.
Qed.

Lemma chunks_lengths n fuel : forall l k c,
  (0 < n)%nat -> chunks fuel n l !! k = Some c ->
  length c = n \/ (S k = length (chunks fuel n l) /\ (0 < length c < n)%nat).
Proof.
  induction fuel as [|fuel IH]; intros l k c Hn Hk; [done|].
  destruct l as [|x l]; [done|]. cbn [chunks] in *. destruct k as [|k]; simpl in Hk.
  - injection Hk as <-. rewrite length_take. destruct (decide (n <= length (x :: l))%nat); [lia|].
    right. rewrite drop_ge by lia. destruct fuel; simpl in *; lia.
  - destruct (IH _ _ _ Hn Hk) as [?|[? ?]]; [by left|right]. cbn [length]. lia.
Qed.

(** C36: [hex_dump] prints one line for every [line_size] bytes, in order, each with
    the prefix, two hexadecimal digits per byte, the last line filled up with "__", and
    the printable characters between bars; nothing is printed twice or left out. *)
Theorem hex_dump_lines src n prefix :
  (0 < n)%nat -> src <> [] ->
  hex_dump src (Z.of_nat n) prefix =
    Ok (String.concat "" (dump_line prefix n <$> chunks (length src) n src)) /\
  concat (chunks (length src) n src) = src /\
  (forall k c, chunks (length src) n src !! k = Some c ->
     length c = n \/ (S k = length (chunks (length src) n src) /\ (0 < length c < n)%nat)).
Proof.
  intros Hn Hne. unfold hex_dump.
  rewrite (proj2 (Z.eqb_neq (Z.of_nat n) 0)) by lia. cbn [andb].
  pose proof (hex_dump_loop_chunks prefix n (length src) 0 src Hn ltac:(lia) Hne) as Hd.
  rewrite Z.mul_0_l in Hd. rewrite Hd.
  split; [done|]. split; [by apply chunks_concat|]. intros k c. by apply chunks_lengths.
Qed.

Lemma hex_dump_lines_witness :
  hex_dump [72; 105; 0] (Z.of_nat 2) "TX" = Ok "TX | 48 69  |Hi|
TX | 00 __  |.|
"%string /\ concat (chunks 3 2 [72; 105; 0]) = [72; 105; 0].
Proof.
  destruct (hex_dump_lines [72; 105; 0] 2 "TX") as (H1 & H2 & _); [lia|discriminate|].
  split; [rewrite H1; reflexivity|exact H2].
Defined.

(** * unescape *)

Definition BACKSLASH : Z := 92.
Definition LOWER_X : Z := 120.

(** The loop: [l] are the characters from [src] to the terminator, [ch] the last value
    [sscanf] stored (indeterminate at first).  [src += 4] may step over the terminator; the
    code then goes on with whatever lies behind the string, which is no part of the model: it
    stops there with [OutOfBounds]. *)
Fixpoint unescape_loop (fuel : nat) (ch : Z) (l : list Z) : outcome (list Z) :=
  match fuel, l with
  | _, [] => Ok []
  | O, _ => Fault NoFuel
  | S fuel, c :: l' =>
      if (c =? BACKSLASH) && bool_decide (l' !! 0%nat = Some LOWER_X) then
        let '(matched, v) := sscanf_2x (drop 2 l) in
        if matched =? 0 then Fault Aborted
        else
          let ch := default ch v in
          if (length l <? 4)%nat then Fault OutOfBounds
          else dst ← unescape_loop fuel ch (drop 4 l); Ok (u8 ch :: dst)
      else dst ← unescape_loop fuel ch l'; Ok (c :: dst)
  end.

Definition unescape (ch : Z) (src : list Z) : outcome (list Z) :=
  unescape_loop (length src) ch src.

(** ** Correctness *)

(** [escaped l bs]: the string [l] spells the bytes [bs], each by itself or as [\xHH]; a
    backslash that starts no escape stands for itself. *)
Inductive escaped : list Z -> list Z -> Prop :=
| escaped_nil : escaped [] []
| escaped_char c l bs :
    (c = BACKSLASH -> l !! 0%nat <> Some LOWER_X) -> escaped l bs -> escaped (c :: l) (c :: bs)
| escaped_hex a b l bs :
    0 <= a < 16 -> 0 <= b < 16 -> escaped l bs ->
    escaped (BACKSLASH :: LOWER_X :: digit_code a :: digit_code b :: l) (16 * a + b :: bs).

Lemma unescape_loop_escaped l bs :
  escaped l bs -> forall fuel ch, (length l <= fuel)%nat -> unescape_loop fuel ch l = Ok bs.
Proof.
  induction 1 as [|c l bs Hc Hl IH|a b l bs Ha Hb Hl IH]; intros fuel ch Hf.
  - by destruct fuel.
  - destruct fuel as [|fuel]; simpl in Hf; [lia|]. cbn [unescape_loop].
    assert ((c =? BACKSLASH) && bool_decide (l !! 0%nat = Some LOWER_X) = false) as ->.
    { destruct (Z.eqb_spec c BACKSLASH); [|done]. simpl. apply bool_decide_eq_false. auto. }
    rewrite IH by lia. done.
  - destruct fuel as [|fuel]; simpl in Hf; [lia|]. cbn [unescape_loop].
    rewrite Z.eqb_refl. cbn [andb lookup list_lookup].
    rewrite bool_decide_true by done.
    change (drop 2 (BACKSLASH :: LOWER_X :: digit_code a :: digit_code b :: l))
      with (digit_code a :: digit_code b :: l).
    rewrite sscanf_2x_digits by done. cbn [Z.eqb default length Nat.ltb Nat.leb].
    change (drop 4 (BACKSLASH :: LOWER_X :: digit_code a :: digit_code b :: l)) with l.
    rewrite IH by lia. simpl. rewrite u8_id by lia. done.
Qed.

(** An escape with fewer than two characters behind its "x", at the end of the string. *)
Definition cut_off (l : list Z) : Prop :=
  exists pre t, l = pre ++ BACKSLASH :: LOWER_X :: t /\ (length t < 2)%nat.

(** An escape in which [sscanf] finds no hexadecimal digit. *)
Definition malformed (l : list Z) : Prop :=
  exists pre t, l = pre ++ BACKSLASH :: LOWER_X :: t /\ (sscanf_2x t).1 = 0.

(** What a string behind [l] has of these, [l] has. *)
Lemma cut_off_app pre l : cut_off l -> cut_off (pre ++ l).
Proof. intros (pre' & t & -> & Ht). exists (pre ++ pre'), t. by rewrite <- app_assoc. Qed.
Lemma malformed_app pre l : malformed l -> malformed (pre ++ l).
Proof. intros (pre' & t & -> & Ht). exists (pre ++ pre'), t. by rewrite <- app_assoc. Qed.

(** How [unescape] ends: with no more bytes than the string has characters, or at an escape
    that is malformed or cut off. *)
Definition unescaped (l : list Z) (o : outcome (list Z)) : Prop :=
  match o with
  | Ok bs => (length bs <= length l)%nat
  | Fault Aborted => malformed l
  | Fault OutOfBounds => cut_off l
  | Fault _ => False
  end.

Lemma unescaped_app pre l b o :
  pre <> [] -> unescaped l o -> unescaped (pre ++ l) (dst ← o; Ok (b :: dst)).
Proof.
  intros Hpre. destruct o as [bs|[]]; cbn; try done; auto using cut_off_app, malformed_app.
  rewrite length_app. destruct pre; [done|cbn; lia].
Qed.

Lemma unescape_loop_ends fuel : forall ch l,
  (length l <= fuel)%nat -> unescaped l (unescape_loop fuel ch l).
Proof.
  induction fuel as [|fuel IH]; intros ch l Hl; destruct l as [|c l]; cbn [length] in Hl; try (cbn; lia).
  cbn [unescape_loop].
  destruct ((c =? BACKSLASH) && bool_decide (l !! 0%nat = Some LOWER_X)) eqn:He.
  - apply andb_prop in He as [->%Z.eqb_eq He%bool_decide_eq_true].
    destruct l as [|x l]; [done|]. injection He as ->. change (drop 2 (BACKSLASH :: LOWER_X :: l)) with l.
    destruct (sscanf_2x l) as [matched v] eqn:Hs. destruct (Z.eqb_spec matched 0) as [->|].
    { exists [], l. by rewrite Hs. }
    destruct (Nat.ltb_spec (length (BACKSLASH :: LOWER_X :: l)) 4) as [Hlt|Hge]; cbn [length] in *.
    { exists [], l. split; [done|lia]. }
    rewrite <- (take_drop 4 (BACKSLASH :: LOWER_X :: l)) at 1. apply unescaped_app; [done|].
    apply IH. rewrite length_drop. cbn [length]. lia.
  - apply (unescaped_app [c]); [done|]. apply IH. lia.
Qed.

(** After a text that is spelled well a cut escape is reached. *)
Lemma unescape_loop_cut l bs t :
  escaped l bs -> t = [] \/ (exists a, 0 <= a < 16 /\ t = [digit_code a]) ->
  forall fuel ch, (length (l ++ BACKSLASH :: LOWER_X :: t) <= fuel)%nat ->
  unescape_loop fuel ch (l ++ BACKSLASH :: LOWER_X :: t) = Fault OutOfBounds.
Proof.
  intros Hl Ht. induction Hl as [|c l bs Hc Hl IH|a b l bs Ha Hb Hl IH]; intros [|fuel] ch Hf; cbn [length app] in Hf; try lia.
  - cbn [app unescape_loop]. rewrite Z.eqb_refl. cbn [andb lookup list_lookup]. rewrite bool_decide_true by done.
    change (drop 2 (BACKSLASH :: LOWER_X :: t)) with t.
    destruct Ht as [->|(a & Ha & ->)]; [done|]. unfold sscanf_2x. simpl. destruct (digit_code_plain a Ha) as [-> ->].
    by rewrite hex_value_digit.
  - cbn [app unescape_loop].
    assert ((c =? BACKSLASH) && bool_decide ((l ++ BACKSLASH :: LOWER_X :: t) !! 0%nat = Some LOWER_X) = false) as ->.
    { destruct (Z.eqb_spec c BACKSLASH) as [Hb|]; [|done]. simpl. apply bool_decide_eq_false.
      destruct l; [done|]. by apply Hc. }
    by rewrite IH by lia.
  - cbn [app unescape_loop]. rewrite Z.eqb_refl. cbn [andb lookup list_lookup].
    rewrite bool_decide_true by done. set (l' := l ++ BACKSLASH :: LOWER_X :: t) in *.
    change (drop 2 (BACKSLASH :: LOWER_X :: digit_code a :: digit_code b :: l')) with (digit_code a :: digit_code b :: l').
    rewrite sscanf_2x_digits by done. cbn [Z.eqb default length Nat.ltb Nat.leb].
    change (drop 4 (BACKSLASH :: LOWER_X :: digit_code a :: digit_code b :: l')) with l'.
    by rewrite IH by lia.
Qed.

(** C37: [unescape] is the inverse of escaping: a string that spells the bytes [bs], literally
    or by [\xHH], gives [bs], whatever [ch] holds at first.  On any string it ends with at most
    the [strlen] bytes that its callers allocate, or aborts at an escape without a digit, or
    steps over the terminator at an escape that is cut off at the end of the string; and an
    escape that is cut off behind a text spelled well does make it step over the terminator. *)
Theorem unescape_escaped ch :
  (forall l bs, escaped l bs -> unescape ch l = Ok bs) /\
  (forall l, unescaped l (unescape ch l)) /\
  (forall l bs t, escaped l bs -> t = [] \/ (exists a, 0 <= a < 16 /\ t = [digit_code a]) ->
     unescape ch (l ++ BACKSLASH :: LOWER_X :: t) = Fault OutOfBounds).
Proof.
  split; [|split].
  - intros l bs Hl. by apply unescape_loop_escaped.
  - intros l. by apply unescape_loop_ends.
  - intros l bs t Hl Ht. by eapply unescape_loop_cut.
Qed.

Lemma unescape_escaped_witness :
  unescape 9 (chars "a\x42\") = Ok [97; 0x42; 92].
Proof.
  apply (proj1 (unescape_escaped 9)).
  change (chars "a\x42\") with (97 :: BACKSLASH :: LOWER_X :: digit_code 4 :: digit_code 2 :: [92]).
  apply escaped_char; [discriminate|].
  apply (escaped_hex 4 2); [lia|lia|]. apply escaped_char; [discriminate|]. apply escaped_nil.
Defined.
