(* ===== verification/Posix.v ===== *)
(** Descriptors and files, as the user-space tools use them: which descriptors are open, and
    what was done with them.  The system is the class [PosixOS]; its answers may depend on all
    that has happened. *)
From Stdlib Require Import ZArith Lia Ascii String.
From stdpp Require Import base list numbers gmap strings.
From S2P Require Import Prelude Libc.

#[global] Open Scope Z_scope.

(** What a program does, with the answers; [BadClose] closes a descriptor that is not open. *)
Inductive io :=
| Open (path : string) (fd : Z)
| Close (fd : Z)
| BadClose (fd : Z)
| Read (fd count ret : Z) (data : list Z)
| Write (fd : Z) (data : list Z) (ret : Z)
| Ioctl (fd : Z) (req : string) (args : list Z) (ret : Z) (out : list Z)
| Poll (fd ret : Z) (ready : bool)
| Seek (fd ret : Z)
| Access (path : string) (ret : Z)
| Sleep (seconds : Z)
| System (command : string).

(** The open descriptors, and what has happened, newest first. *)
Record files := Files { fds : gset Z; trace : list io }.

Class PosixOS := {
  os_open : files -> string -> Z;
  os_read : files -> Z -> Z -> Z * list Z;
  os_write : files -> Z -> list Z -> Z;
  os_ioctl : files -> Z -> string -> list Z -> Z * list Z;
  os_ioctl_fd : files -> Z -> string -> list Z -> Z * Z;
  os_poll : files -> Z -> Z * bool;
  os_lseek : files -> Z -> Z;
  os_access : files -> string -> Z }.

(** A new descriptor is not negative and none of those that are open. *)
Class PosixLaws `(O : PosixOS) : Prop := {
  open_fresh f path : 0 <= os_open f path -> os_open f path ∉ fds f;
  ioctl_fresh f fd req args r h : os_ioctl_fd f fd req args = (r, h) -> r <> -1 -> 0 <= h /\ h ∉ fds f }.

Definition did (e : io) (f : files) : files := Files (fds f) (e :: trace f).
Definition opened (fd : Z) (f : files) : files := Files ({[fd]} ∪ fds f) (trace f).
Definition closed (fd : Z) (f : files) : files := Files (fds f ∖ {[fd]}) (trace f).

Abbreviation fprog := (prog files).

Section Calls.
Context `{PosixOS}.

Definition sys_open (path : string) : fprog Z :=
  f ← get;
  let fd := os_open f path in
  modify (did (Open path fd));;
  when (negb (fd <? 0)) (modify (opened fd));;
  mret fd.

Definition sys_close (fd : Z) : fprog Z :=
  f ← get;
  if bool_decide (fd ∈ fds f) then modify (did (Close fd));; modify (closed fd);; mret 0
  else modify (did (BadClose fd));; mret (-1).

Definition sys_read (fd count : Z) : fprog (Z * list Z) :=
  f ← get; let '(ret, data) := os_read f fd count in
  modify (did (Read fd count ret data));; mret (ret, data).

Definition sys_write (fd : Z) (data : list Z) : fprog Z :=
  f ← get; let ret := os_write f fd data in modify (did (Write fd data ret));; mret ret.

Definition sys_ioctl (fd : Z) (req : string) (args : list Z) : fprog (Z * list Z) :=
  f ← get; let '(ret, out) := os_ioctl f fd req args in
  modify (did (Ioctl fd req args ret out));; mret (ret, out).

(** An [ioctl] that opens a descriptor; it returns -1 when it fails. *)
Definition sys_ioctl_fd (fd : Z) (req : string) (args : list Z) : fprog (Z * Z) :=
  f ← get; let '(ret, h) := os_ioctl_fd f fd req args in
  modify (did (Ioctl fd req args ret [h]));;
  when (negb (ret =? -1)) (modify (opened h));;
  mret (ret, h).

Definition sys_poll (fd : Z) : fprog (Z * bool) :=
  f ← get; let '(ret, ready) := os_poll f fd in modify (did (Poll fd ret ready));; mret (ret, ready).

Definition sys_lseek (fd : Z) : fprog Z :=
  f ← get; let ret := os_lseek f fd in modify (did (Seek fd ret));; mret ret.

Definition sys_access (path : string) : fprog Z :=
  f ← get; let ret := os_access f path in modify (did (Access path ret));; mret ret.
End Calls.

Definition sys_sleep (seconds : Z) : fprog unit := modify (did (Sleep seconds)).
(** The result of [system], which no program looks at, is left out. *)
Definition sys_system (command : string) : fprog unit := modify (did (System command)).

(** * Descriptors in hand *)

Definition is_bad_close (e : io) : bool := match e with BadClose _ => true | _ => false end.
Definition bad_closes (f : files) : nat := length (List.filter is_bad_close (trace f)).

(** Since [f0] the program has opened, and not closed, the descriptors of the list, and it has
    closed none that was not open. *)
Record holding (l : list Z) (f0 f : files) : Prop := Holding {
  held_fds : fds f = list_to_set l ∪ fds f0;
  held_new : forall fd, fd ∈ l -> fd ∉ fds f0;
  held_once : NoDup l;
  held_good : bad_closes f = bad_closes f0 }.

Lemma holding_start f : holding [] f f.
Proof. split; [set_solver|set_solver|constructor|done]. Qed.

(** Every call but those that open and close. *)
Lemma holding_did e l f0 f : is_bad_close e = false -> holding l f0 f -> holding l f0 (did e f).
Proof. intros He [H1 H2 H3 H4]. split; try done. unfold bad_closes in *. cbn. by rewrite He. Qed.

(** When the program comes back it has closed what it opened, and nothing else. *)
Definition tidy {A} (c : fprog A) : Prop := forall f, wp c f (fun o f' => forall a, o = Ok a -> holding [] f f').

Section Rules.
Context `{HL : PosixLaws}.

Lemma wp_sys_open path l f0 f Q :
  holding l f0 f ->
  (forall fd f', fd < 0 -> holding l f0 f' -> Q (Ok fd) f') ->
  (forall fd f', 0 <= fd -> holding (fd :: l) f0 f' -> Q (Ok fd) f') ->
  wp (sys_open path) f Q.
Proof.
  intros Hf Hneg Hpos. unfold sys_open. do 4 wstep.
  destruct (Z.ltb_spec (os_open f path) 0) as [Hlt|Hge]; cbn [negb when].
  - do 3 wstep. apply Hneg; [done|]. by apply holding_did.
  - do 3 wstep. apply Hpos; [done|]. pose proof (open_fresh f path Hge) as Hfr.
    destruct Hf as [H1 H2 H3 H4]. rewrite H1 in Hfr. split; cbn.
    + rewrite H1. set_solver.
    + intros fd Hfd. apply elem_of_cons in Hfd as [->|Hfd]; [set_solver|by apply H2].
    + constructor; [|done]. set_solver.
    + exact H4.
Qed.

Lemma wp_sys_ioctl_fd fd req args l f0 f Q :
  holding l f0 f ->
  (forall h f', holding l f0 f' -> Q (Ok (-1, h)) f') ->
  (forall r h f', r <> -1 -> holding (h :: l) f0 f' -> Q (Ok (r, h)) f') ->
  wp (sys_ioctl_fd fd req args) f Q.
Proof.
  intros Hf Hneg Hpos. unfold sys_ioctl_fd. do 2 wstep.
  destruct (os_ioctl_fd f fd req args) as [r h] eqn:Ho. do 2 wstep.
  destruct (Z.eqb_spec r (-1)) as [->|Hr]; cbn [negb when].
  - do 3 wstep. apply Hneg. by apply holding_did.
  - do 3 wstep. apply Hpos; [done|]. destruct (ioctl_fresh _ _ _ _ _ _ Ho Hr) as [_ Hfr].
    destruct Hf as [H1 H2 H3 H4]. rewrite H1 in Hfr. split; cbn.
    + rewrite H1. set_solver.
    + intros fd' Hfd. apply elem_of_cons in Hfd as [->|Hfd]; [set_solver|by apply H2].
    + constructor; [|done]. set_solver.
    + exact H4.
Qed.
End Rules.

Section Closing.
Context `{PosixOS}.

(** Two calls with the answers that the system gives. *)
Lemma wp_ioctl_did fd req args f Q :
  (forall ret out, os_ioctl f fd req args = (ret, out) -> Q (Ok (ret, out)) (did (Ioctl fd req args ret out) f)) ->
  wp (sys_ioctl fd req args) f Q.
Proof. intros HQ. unfold sys_ioctl. do 2 wstep. destruct (os_ioctl _ _ _ _). do 3 wstep. by apply HQ. Qed.
Lemma wp_read_did fd count f Q :
  (forall ret data, os_read f fd count = (ret, data) -> Q (Ok (ret, data)) (did (Read fd count ret data) f)) ->
  wp (sys_read fd count) f Q.
Proof. intros HQ. unfold sys_read. do 2 wstep. destruct (os_read _ _ _). do 3 wstep. by apply HQ. Qed.

Lemma wp_sys_close_open fd f Q :
  fd ∈ fds f -> Q (Ok 0) (closed fd (did (Close fd) f)) -> wp (sys_close fd) f Q.
Proof. intros Hfd HQ. unfold sys_close. do 2 wstep. rewrite bool_decide_true by done. by do 4 wstep. Qed.

Lemma wp_sys_close_bad fd f Q :
  fd ∉ fds f -> Q (Ok (-1)) (did (BadClose fd) f) -> wp (sys_close fd) f Q.
Proof. intros Hfd HQ. unfold sys_close. do 2 wstep. rewrite bool_decide_false by done. by do 2 wstep. Qed.

Lemma wp_sys_close fd l1 l2 f0 f Q :
  holding (l1 ++ fd :: l2) f0 f ->
  (forall f', holding (l1 ++ l2) f0 f' -> Q (Ok 0) f') ->
  wp (sys_close fd) f Q.
Proof.
  intros [H1 H2 H3 H4] HQ. apply wp_sys_close_open; [rewrite H1, list_to_set_app_L; set_solver|].
  apply HQ. assert (Hp : l1 ++ fd :: l2 ≡ₚ fd :: l1 ++ l2) by (symmetry; apply Permutation_middle).
  rewrite Hp in H3. apply NoDup_cons in H3 as [Hn Hnd]. split; cbn.
  - rewrite H1, !list_to_set_app_L. assert (Hf : fd ∉ fds f0) by (apply H2; set_solver). set_solver.
  - intros fd' Hfd. apply H2. set_solver.
  - done.
  - exact H4.
Qed.

(** The other calls keep what is held. *)
Lemma wp_sys_read fd count l f0 f Q :
  holding l f0 f -> (forall r f', holding l f0 f' -> Q (Ok r) f') -> wp (sys_read fd count) f Q.
Proof.
  intros Hf HQ. unfold sys_read. do 2 wstep. destruct (os_read f fd count). do 3 wstep. by apply HQ, holding_did.
Qed.
Lemma wp_sys_write fd data l f0 f Q :
  holding l f0 f -> (forall r f', holding l f0 f' -> Q (Ok r) f') -> wp (sys_write fd data) f Q.
Proof. intros Hf HQ. unfold sys_write. do 5 wstep. by apply HQ, holding_did. Qed.
Lemma wp_sys_ioctl fd req args l f0 f Q :
  holding l f0 f -> (forall r f', holding l f0 f' -> Q (Ok r) f') -> wp (sys_ioctl fd req args) f Q.
Proof.
  intros Hf HQ. unfold sys_ioctl. do 2 wstep. destruct (os_ioctl f fd req args). do 3 wstep. by apply HQ, holding_did.
Qed.
Lemma wp_sys_poll fd l f0 f Q :
  holding l f0 f -> (forall r f', holding l f0 f' -> Q (Ok r) f') -> wp (sys_poll fd) f Q.
Proof.
  intros Hf HQ. unfold sys_poll. do 2 wstep. destruct (os_poll f fd). do 3 wstep. by apply HQ, holding_did.
Qed.
Lemma wp_sys_lseek fd l f0 f Q :
  holding l f0 f -> (forall r f', holding l f0 f' -> Q (Ok r) f') -> wp (sys_lseek fd) f Q.
Proof. intros Hf HQ. unfold sys_lseek. do 5 wstep. by apply HQ, holding_did. Qed.
Lemma wp_sys_access path l f0 f Q :
  holding l f0 f -> (forall r f', holding l f0 f' -> Q (Ok r) f') -> wp (sys_access path) f Q.
Proof. intros Hf HQ. unfold sys_access. do 5 wstep. by apply HQ, holding_did. Qed.
End Closing.

Lemma wp_tidy {A} (c : fprog A) l f0 f (Q : outcome A -> files -> Prop) :
  tidy c -> holding l f0 f ->
  (forall a f', holding l f0 f' -> Q (Ok a) f') -> (forall e f', Q (Fault e) f') -> wp c f Q.
Proof.
  intros Hc [H1 H2 H3 H4] HQ HF. eapply wp_mono; [apply Hc|]. intros [a|e] f' Hd; [|by apply HF].
  apply HQ. destruct (Hd a eq_refl) as [G1 G2 G3 G4]. split; [rewrite G1, H1; set_solver|done|done|congruence].
Qed.

(** A descriptor that is free. *)
Definition next_free (f : files) : Z := 1 + foldr Z.max 2 (elements (fds f)).
Lemma next_free_fresh f : 0 <= next_free f /\ next_free f ∉ fds f.
Proof.
  unfold next_free. rewrite <- (elem_of_elements (fds f)).
  assert (Hmax : forall l : list Z, 2 <= foldr Z.max 2 l /\ forall x, x ∈ l -> x <= foldr Z.max 2 l).
  { induction l as [|y l [IH1 IH2]]; cbn; [split; [lia|intros x Hx; by apply elem_of_nil in Hx]|].
    split; [lia|]. intros x [->|Hx]%elem_of_cons; [lia|]. specialize (IH2 x Hx). lia. }
  destruct (Hmax (elements (fds f))) as [H1 H2]. split; [lia|]. intros Hin. specialize (H2 _ Hin). lia.
Qed.

(** A step of a program that holds descriptors: the call's rule for the branch of each answer. *)
Ltac fstep :=
  lazymatch goal with
  | H : holding _ _ ?f |- wp (sys_open _) ?f _ => eapply wp_sys_open; [exact H|clear f H; intros ? f ? H|clear f H; intros ? f ? H]
  | H : holding _ _ ?f |- wp (sys_ioctl_fd _ _ _) ?f _ =>
      eapply wp_sys_ioctl_fd; [exact H|clear f H; intros ? f H|clear f H; intros ? ? f ? H]
  | H : holding _ _ ?f |- wp (sys_read _ _) ?f _ => eapply wp_sys_read; [exact H|clear f H; intros [? ?] f H]
  | H : holding _ _ ?f |- wp (sys_write _ _) ?f _ => eapply wp_sys_write; [exact H|clear f H; intros ? f H]
  | H : holding _ _ ?f |- wp (sys_ioctl _ _ _) ?f _ => eapply wp_sys_ioctl; [exact H|clear f H; intros [? ?] f H]
  | H : holding _ _ ?f |- wp (sys_poll _) ?f _ => eapply wp_sys_poll; [exact H|clear f H; intros [? ?] f H]
  | H : holding _ _ ?f |- wp (sys_lseek _) ?f _ => eapply wp_sys_lseek; [exact H|clear f H; intros ? f H]
  | H : holding _ _ ?f |- wp (sys_access _) ?f _ => eapply wp_sys_access; [exact H|clear f H; intros ? f H]
  | H : holding (?a :: ?l) _ ?f |- wp (sys_close ?a) ?f _ =>
      eapply (wp_sys_close a [] l); [exact H|clear f H; intros f H; cbn [app] in H]
  | H : holding (?b :: ?a :: ?l) _ ?f |- wp (sys_close ?a) ?f _ =>
      eapply (wp_sys_close a [b] l); [exact H|clear f H; intros f H; cbn [app] in H]
  | |- _ => wstep
  end; cbn [next].
