(* ===== verification/GpioCdev.v ===== *)
(** gpio/user/cdev/gpio-cdev-test.c: the GPIO tool on the character device. *)
From Stdlib Require Import ZArith Lia Ascii String.
From stdpp Require Import base list numbers gmap strings.
From S2P Require Import Prelude Libc Posix.

#[global] Open Scope Z_scope.

Inductive app_mode_t :=
| APP_MODE_GPIO_LIST | APP_MODE_GPIO_READ | APP_MODE_GPIO_WRITE | APP_MODE_GPIO_INT | APP_MODE_GPIO_POLL
| APP_MODE_UNKNOWN.

(** [app_opt_t] and [chip]; [None]: not set yet. *)
Record app_opt_t := AppOpt { chip : option string; offset : option Z; val : Z; mode : app_mode_t }.

(** The flags of a request. *)
Definition GPIOHANDLE_REQUEST_INPUT : Z := 1.
Definition GPIOHANDLE_REQUEST_OUTPUT : Z := 2.

Section Cdev.
Context `{PosixOS}.

(** * The tests *)

(** [n] lines from [i] on. *)
Fixpoint list_lines (n : nat) (i : Z) (fd : Z) : fprog unit :=
  match n with
  | O => mret tt
  | S n => _ ← sys_ioctl fd "GPIO_GET_LINEINFO_IOCTL" [i]; list_lines n (i + 1) fd
  end.

(** The number of lines is an unsigned number of the kernel, compared with an [int]. *)
Definition gpio_list (dev_name : string) : fprog unit :=
  fd ← sys_open dev_name;
  if fd <? 0 then mret tt
  else
    '(ret, info) ← sys_ioctl fd "GPIO_GET_CHIPINFO_IOCTL" [];
    if ret =? -1 then _ ← sys_close fd; mret tt
    else
      list_lines (Z.to_nat (u32 (default 0 (hd_error info)))) 0 fd;;
      _ ← sys_close fd; mret tt.

(** The handle of one line; the chip is closed again in any case. *)
Definition line_handle (dev_name req : string) (args : list Z) : fprog (option Z) :=
  fd ← sys_open dev_name;
  if fd <? 0 then mret None
  else
    '(ret, h) ← sys_ioctl_fd fd req args;
    _ ← sys_close fd;
    mret (if ret =? -1 then None else Some h).

(** When the value cannot be set, the message writes through the text of the error ("%n"). *)
Definition gpio_write (dev_name : string) (offset value : Z) : fprog unit :=
  h ← line_handle dev_name "GPIO_GET_LINEHANDLE_IOCTL" [offset; GPIOHANDLE_REQUEST_OUTPUT; 1];
  match h with
  | None => mret tt
  | Some h =>
      '(ret, _) ← sys_ioctl h "GPIOHANDLE_SET_LINE_VALUES_IOCTL" [value];
      (if ret =? -1 then stop OutOfBounds else mret tt);;
      _ ← sys_close h; mret tt
  end.

(** The value that is printed, if there is one. *)
Definition gpio_read (dev_name : string) (offset : Z) : fprog (option Z) :=
  h ← line_handle dev_name "GPIO_GET_LINEHANDLE_IOCTL" [offset; GPIOHANDLE_REQUEST_INPUT; 1];
  match h with
  | None => mret None
  | Some h =>
      '(ret, data) ← sys_ioctl h "GPIOHANDLE_GET_LINE_VALUES_IOCTL" [];
      _ ← sys_close h;
      mret (if ret =? -1 then None else hd_error data)
  end.

(** The descriptor of an event; on failure the chip is closed a second time. *)
Definition line_event (dev_name : string) (offset value : Z) : fprog (option Z) :=
  fd ← sys_open dev_name;
  if fd <? 0 then mret None
  else
    '(ret, h) ← sys_ioctl_fd fd "GPIO_GET_LINEEVENT_IOCTL" [offset; GPIOHANDLE_REQUEST_INPUT; value];
    _ ← sys_close fd;
    if ret =? -1 then _ ← sys_close fd; mret None
    else mret (Some h).

(** The endless loops, for [rounds] rounds; what follows them is never reached. *)
Definition event_size : Z := 16.
Fixpoint read_events (rounds : nat) (h : Z) : fprog unit :=
  match rounds with
  | O => stop NoFuel
  | S rounds => _ ← sys_read h event_size; read_events rounds h
  end.
Fixpoint poll_events (rounds : nat) (h : Z) : fprog unit :=
  match rounds with
  | O => stop NoFuel
  | S rounds =>
      '(ret, ready) ← sys_poll h;
      (if negb (ret =? -1) && ready then _ ← sys_read h event_size; mret tt else mret tt);;
      poll_events rounds h
  end.

Definition gpio_int (rounds : nat) (dev_name : string) (offset value : Z) : fprog unit :=
  h ← line_event dev_name offset value;
  match h with
  | None => mret tt
  | Some h => read_events rounds h;; _ ← sys_close h; mret tt
  end.

Definition gpio_int_poll (rounds : nat) (dev_name : string) (offset value : Z) : fprog unit :=
  h ← line_event dev_name offset value;
  match h with
  | None => mret tt
  | Some h => poll_events rounds h;; _ ← sys_close h; mret tt
  end.

(** * Options *)

Inductive opt :=
| Opt_c (arg : string) | Opt_n (arg : string) | Opt_l | Opt_r | Opt_w (arg : string) | Opt_i (arg : string)
| Opt_p (arg : string) | Opt_other.

(** [None]: help is printed. *)
Definition apply_opt (o : opt) (s : app_opt_t) : option app_opt_t :=
  match o with
  | Opt_c arg => Some (AppOpt (Some arg) (offset s) (val s) (mode s))
  | Opt_n arg => Some (AppOpt (chip s) (Some (atoi arg)) (val s) (mode s))
  | Opt_l => Some (AppOpt (chip s) (offset s) (val s) APP_MODE_GPIO_LIST)
  | Opt_r => Some (AppOpt (chip s) (offset s) (val s) APP_MODE_GPIO_READ)
  | Opt_w arg => Some (AppOpt (chip s) (offset s) (u8 (atoi arg)) APP_MODE_GPIO_WRITE)
  | Opt_i arg => Some (AppOpt (chip s) (offset s) (u8 (atoi arg)) APP_MODE_GPIO_INT)
  | Opt_p arg => Some (AppOpt (chip s) (offset s) (u8 (atoi arg)) APP_MODE_GPIO_POLL)
  | Opt_other => None
  end.

Fixpoint parse_opts (opts : list opt) (s : app_opt_t) : option app_opt_t :=
  match opts with
  | [] => Some s
  | o :: opts => s ← apply_opt o s; parse_opts opts s
  end.

(** [sprintf(gpio_chip_path, "/dev/gpiochip%s", chip)] into 50 bytes; a chip or an offset that
    was not given is an indeterminate value. *)
Definition chip_path (s : app_opt_t) : outcome string :=
  match chip s with
  | None => Fault OutOfBounds
  | Some c =>
      let path := ("/dev/gpiochip" +:+ c)%string in
      if (50 <=? Z.of_nat (String.length path)) then Fault OutOfBounds else Ok path
  end.
Definition given (o : option Z) : outcome Z := match o with Some n => Ok n | None => Fault OutOfBounds end.

Definition main (rounds : nat) (opts : list opt) : fprog Z :=
  match parse_opts opts (AppOpt None None 0 APP_MODE_UNKNOWN) with
  | None => mret (-1)
  | Some s =>
      match mode s with
      | APP_MODE_UNKNOWN => mret (-1)
      | m =>
          path ← lift (chip_path s);
          match m with
          | APP_MODE_GPIO_LIST => gpio_list path
          | APP_MODE_GPIO_WRITE => n ← lift (given (offset s)); gpio_write path n (val s)
          | APP_MODE_GPIO_READ => n ← lift (given (offset s)); _ ← gpio_read path n; mret tt
          | APP_MODE_GPIO_INT => n ← lift (given (offset s)); gpio_int rounds path n (val s)
          | APP_MODE_GPIO_POLL => n ← lift (given (offset s)); gpio_int_poll rounds path n (val s)
          | APP_MODE_UNKNOWN => mret tt
          end;;
          mret 0
      end
  end.
End Cdev.

(** * Descriptors *)

Definition parsed (opts : list opt) : option app_opt_t :=
  parse_opts opts (AppOpt None None 0 APP_MODE_UNKNOWN).

(** The interrupt modes, which run for ever. *)
Definition endless (m : app_mode_t) : bool :=
  match m with APP_MODE_GPIO_INT | APP_MODE_GPIO_POLL => true | _ => false end.

(** A chip whose path fits the array, and an offset in the modes that use it. *)
Definition complete (s : app_opt_t) : bool :=
  match chip s with Some c => (String.length c <=? 36)%nat | None => false end &&
  match mode s with APP_MODE_GPIO_LIST => true | _ => bool_decide (is_Some (offset s)) end.

(** There are no events to wait for: the chip cannot be opened, or the request for events
    fails, and then the chip is closed a second time when it is open no longer. *)
Definition no_events (path : string) (f f' : files) : Prop :=
  fds f' = fds f /\
  ((exists fd, fd < 0 /\ trace f' = Open path fd :: trace f) \/
   (exists fd args h, 0 <= fd /\ trace f' =
      BadClose fd :: Close fd :: Ioctl fd "GPIO_GET_LINEEVENT_IOCTL" args (-1) [h] :: Open path fd :: trace f)).

(** The test was done and everything it opened is closed; in the interrupt modes this is
    only the case when there are no events. *)
Definition came_back (s : app_opt_t) (f f' : files) : Prop :=
  if endless (mode s) then exists path, chip_path s = Ok path /\ no_events path f f'
  else fds f' = fds f /\ bad_closes f' = bad_closes f.

(** The kernel has just refused the value to write. *)
Definition value_refused (value : Z) (f : files) : Prop :=
  exists h out log, trace f = Ioctl h "GPIOHANDLE_SET_LINE_VALUES_IOCTL" [value] (-1) out :: log.

(** How a run with the options [s] ends. *)
Definition cdev_end {A} (s : app_opt_t) (f : files) (o : outcome A) (f' : files) : Prop :=
  match o with
  | Ok _ => came_back s f f'
  | Fault OutOfBounds => (complete s = false /\ f' = f) \/ (mode s = APP_MODE_GPIO_WRITE /\ value_refused (val s) f')
  | Fault NoFuel => endless (mode s) = true /\ exists h, holding [h] f f'
  | Fault _ => False
  end.

Lemma holding_came_back s f f' : endless (mode s) = false -> holding [] f f' -> came_back s f f'.
Proof. intros He [H1 _ _ H4]. unfold came_back. rewrite He. split; [rewrite H1; set_solver|done]. Qed.
#[export] Hint Resolve holding_start holding_came_back : core.

Section Descriptors.
Context `{HL : PosixLaws}.

Lemma list_lines_tidy n i fd l f0 f :
  holding l f0 f -> wp (list_lines n i fd) f (fun o f' => o = Ok tt /\ holding l f0 f').
Proof.
  revert i f. induction n as [|n IH]; intros i f Hf; cbn [list_lines]; [by wstep|].
  wstep. fstep. by apply IH.
Qed.

Lemma gpio_list_end s dev_name f : mode s = APP_MODE_GPIO_LIST -> wp (gpio_list dev_name) f (cdev_end s f).
Proof.
  intros Hm. assert (He : endless (mode s) = false) by by rewrite Hm. clear Hm.
  pose proof (holding_start f) as Hf. set (f0 := f) in Hf at 1 |- * at 2. clearbody f0.
  unfold gpio_list. wstep. fstep; rewrite ?(proj2 (Z.ltb_lt _ _)), ?(proj2 (Z.ltb_ge _ _)) by done; [wstep; cbn; by auto|].
  wstep. fstep. destruct (_ =? -1).
  - wstep. fstep. wstep. cbn. by auto.
  - wstep. eapply wp_mono; [by apply list_lines_tidy|]. clear f Hf. intros o f [-> Hf]. cbn [next].
    wstep. fstep. wstep. cbn. by auto.
Qed.

(** The chip is closed again; the line's handle is kept. *)
Lemma line_handle_held dev_name req args f0 f :
  holding [] f0 f ->
  wp (line_handle dev_name req args) f (fun o f' =>
    o = Ok None /\ holding [] f0 f' \/ exists h, o = Ok (Some h) /\ holding [h] f0 f').
Proof.
  intros Hf. unfold line_handle. wstep.
  fstep; rewrite ?(proj2 (Z.ltb_lt _ _)), ?(proj2 (Z.ltb_ge _ _)) by done; [wstep; by left|].
  wstep. fstep; wstep; fstep; wstep; [by left|].
  right. rewrite (proj2 (Z.eqb_neq _ _)) by done. by eexists.
Qed.

Lemma gpio_write_end s dev_name offset f :
  mode s = APP_MODE_GPIO_WRITE -> wp (gpio_write dev_name offset (val s)) f (cdev_end s f).
Proof.
  intros Hm. assert (He : endless (mode s) = false) by by rewrite Hm.
  unfold gpio_write. wstep. eapply wp_mono; [apply line_handle_held, holding_start|].
  intros o f' [[-> Hf]|(h & -> & Hf)]; cbn [next]; [wstep; cbn; by auto|].
  wstep. apply wp_ioctl_did. intros ret out _. apply (holding_did (Ioctl h "GPIOHANDLE_SET_LINE_VALUES_IOCTL" [val s] ret out)) in Hf; [|done].
  cbn [next]. wstep. destruct (Z.eqb_spec ret (-1)) as [->|].
  - wstep. right. split; [done|]. do 3 eexists. reflexivity.
  - wstep. wstep. revert Hf. generalize (did (Ioctl h "GPIOHANDLE_SET_LINE_VALUES_IOCTL" [val s] ret out) f').
    clear f'. intros f' Hf. fstep. wstep. cbn. by auto.
Qed.

Lemma gpio_read_end s dev_name offset f :
  mode s = APP_MODE_GPIO_READ -> wp (gpio_read dev_name offset) f (cdev_end s f).
Proof.
  intros Hm. assert (He : endless (mode s) = false) by by rewrite Hm.
  unfold gpio_read. wstep. eapply wp_mono; [apply line_handle_held, holding_start|].
  intros o f' [[-> Hf]|(h & -> & Hf)]; cbn [next]; [wstep; cbn; by auto|].
  wstep. fstep. wstep. fstep. wstep. cbn. by auto.
Qed.

(** When the request fails the chip is closed again, although it is not open. *)
Lemma line_event_held dev_name offset value f :
  wp (line_event dev_name offset value) f (fun o f' =>
    (o = Ok None /\ no_events dev_name f f') \/ exists h, o = Ok (Some h) /\ holding [h] f f').
Proof.
  unfold line_event. wstep. unfold sys_open. do 4 wstep.
  destruct (Z.ltb_spec (os_open f dev_name) 0) as [Hlt|Hge]; cbn [negb when].
  { do 3 wstep. rewrite (proj2 (Z.ltb_lt _ _)) by done. wstep. left. split; [done|]. split; [done|].
    left. by eexists. }
  do 3 wstep. rewrite (proj2 (Z.ltb_ge _ _)) by done. wstep.
  pose proof (open_fresh f dev_name Hge) as Hnew. set (fd := os_open f dev_name) in *.
  unfold sys_ioctl_fd. do 2 wstep. destruct (os_ioctl_fd _ _ _ _) as [r h] eqn:Ho. do 3 wstep.
  destruct (Z.eqb_spec r (-1)) as [->|Hr]; cbn [negb when].
  - do 3 wstep. apply wp_sys_close_open; [cbn; set_solver|]. cbn [next].
    change (-1 =? -1) with true. cbn match. wstep. apply wp_sys_close_bad; [cbn; set_solver|].
    cbn [next]. wstep. left. split; [done|]. split; [cbn; set_solver|]. right. by exists fd, [offset; GPIOHANDLE_REQUEST_INPUT; value], h.
  - destruct (ioctl_fresh _ _ _ _ _ _ Ho Hr) as [_ Hh]. cbn in Hh. do 3 wstep.
    apply wp_sys_close_open; [cbn; set_solver|]. cbn [next]. rewrite (proj2 (Z.eqb_neq _ _)) by done.
    wstep. right. eexists. split; [done|]. split; cbn.
    + set_solver.
    + set_solver.
    + apply NoDup_singleton.
    + done.
Qed.

Lemma read_events_endless rounds h l f0 f :
  holding l f0 f -> wp (read_events rounds h) f (fun o f' => o = Fault NoFuel /\ holding l f0 f').
Proof.
  revert f. induction rounds as [|rounds IH]; intros f Hf; cbn [read_events]; [by wstep|].
  wstep. fstep. by apply IH.
Qed.

Lemma poll_events_endless rounds h l f0 f :
  holding l f0 f -> wp (poll_events rounds h) f (fun o f' => o = Fault NoFuel /\ holding l f0 f').
Proof.
  revert f. induction rounds as [|rounds IH]; intros f Hf; cbn [poll_events]; [by wstep|].
  wstep. fstep. wstep. destruct (negb _ && _); [wstep; fstep; wstep|wstep]; by apply IH.
Qed.

Lemma gpio_int_end s rounds dev_name offset value f :
  chip_path s = Ok dev_name -> endless (mode s) = true ->
  wp (gpio_int rounds dev_name offset value) f (cdev_end s f) /\
  wp (gpio_int_poll rounds dev_name offset value) f (cdev_end s f).
Proof.
  intros Hp He.
  split; unfold gpio_int, gpio_int_poll; wstep; (eapply wp_mono; [apply line_event_held|]);
    intros o f' [[-> Hf]|(h & -> & Hf)]; cbn [next].
  1,3: wstep; cbn; unfold came_back; rewrite He; eauto.
  all: wstep; eapply wp_mono; [by apply read_events_endless || by apply poll_events_endless|].
  all: intros o f2 [-> Hf2]; cbn [next cdev_end]; eauto.
Qed.

Lemma chip_path_fits s c : chip s = Some c -> (String.length c <= 36)%nat -> chip_path s = Ok ("/dev/gpiochip" +:+ c).
Proof.
  intros Hc Hl. unfold chip_path. rewrite Hc.
  change (String.length ("/dev/gpiochip" +:+ c)) with (13 + String.length c)%nat.
  by rewrite (proj2 (Z.leb_gt _ _)) by lia.
Qed.

(** Without what it needs the tool goes wrong before it opens anything. *)
Lemma wp_lift_path {A} s (k : string -> fprog A) f (Q : outcome A -> files -> Prop) :
  (complete s = false -> Q (Fault OutOfBounds) f) ->
  (forall path, chip_path s = Ok path -> wp (k path) f Q) -> wp (lift (chip_path s) ≫= k) f Q.
Proof.
  intros Hf Hk. wstep. wstep. destruct (chip_path s) as [path|e] eqn:Hp; cbn [next]; [by apply Hk|].
  assert (He : e = OutOfBounds) by (unfold chip_path in Hp; repeat case_match; congruence).
  subst e. apply Hf. unfold complete. destruct (chip s) as [c|] eqn:Hc; [|done].
  destruct (Nat.leb_spec (String.length c) 36); [|done]. by rewrite (chip_path_fits s c) in Hp.
Qed.

Lemma wp_lift_given {A} s (k : Z -> fprog A) f (Q : outcome A -> files -> Prop) :
  mode s <> APP_MODE_GPIO_LIST -> (complete s = false -> Q (Fault OutOfBounds) f) ->
  (forall n, wp (k n) f Q) -> wp (lift (given (offset s)) ≫= k) f Q.
Proof.
  intros Hm Hf Hk. wstep. wstep. unfold given. destruct (offset s) as [n|] eqn:Hn; cbn [next]; [apply Hk|].
  apply Hf. unfold complete. rewrite Hn. destruct (mode s); by rewrite ?andb_false_r.
Qed.

Lemma cdev_end_zero {A} s f0 (c : fprog A) f :
  wp c f (cdev_end s f0) -> wp (_ ← c; mret 0) f (fun o f' => cdev_end s f0 o f' /\ (forall r, o = Ok r -> r = 0)).
Proof.
  intros Hc. wstep. eapply wp_mono; [exact Hc|]. intros [a|e] f' Hf; cbn [next]; [wstep|]; (split; [exact Hf|]); congruence.
Qed.

End Descriptors.

(** * Writing a line *)

(** What is done to write [value] to line [offset] of a chip, in order, and how it ends. *)
Inductive write_log (path : string) (offset value : Z) : list io -> outcome unit -> Prop :=
| write_no_chip fd : fd < 0 -> write_log path offset value [Open path fd] (Ok tt)
| write_no_line fd h :
    write_log path offset value
      [Open path fd; Ioctl fd "GPIO_GET_LINEHANDLE_IOCTL" [offset; GPIOHANDLE_REQUEST_OUTPUT; 1] (-1) [h]; Close fd]
      (Ok tt)
| write_value fd h r ret out :
    r <> -1 -> ret <> -1 ->
    write_log path offset value
      [Open path fd; Ioctl fd "GPIO_GET_LINEHANDLE_IOCTL" [offset; GPIOHANDLE_REQUEST_OUTPUT; 1] r [h]; Close fd;
       Ioctl h "GPIOHANDLE_SET_LINE_VALUES_IOCTL" [value] ret out; Close h] (Ok tt)
| write_fails fd h r out :
    r <> -1 ->
    write_log path offset value
      [Open path fd; Ioctl fd "GPIO_GET_LINEHANDLE_IOCTL" [offset; GPIOHANDLE_REQUEST_OUTPUT; 1] r [h]; Close fd;
       Ioctl h "GPIOHANDLE_SET_LINE_VALUES_IOCTL" [value] (-1) out] (Fault OutOfBounds).

Section Writing.
Context `{HL : PosixLaws}.

Lemma gpio_write_log path offset value f :
  wp (gpio_write path offset value) f (fun o f' =>
    exists log, write_log path offset value log o /\ trace f' = rev log ++ trace f).
Proof.
  unfold gpio_write, line_handle. wstep. wstep. unfold sys_open at 1. do 4 wstep.
  destruct (Z.ltb_spec (os_open f path) 0) as [Hlt|Hge]; cbn [negb when].
  { wstep. wstep. wstep. rewrite (proj2 (Z.ltb_lt _ _)) by done. wstep. wstep. eexists. by split; [by constructor|]. }
  do 3 wstep. rewrite (proj2 (Z.ltb_ge _ _)) by done. wstep.
  pose proof (open_fresh f path Hge) as Hnew. set (fd := os_open f path) in *.
  unfold sys_ioctl_fd. do 2 wstep. destruct (os_ioctl_fd _ _ _ _) as [r h] eqn:Ho. do 3 wstep.
  destruct (Z.eqb_spec r (-1)) as [->|Hr]; cbn [negb when].
  - do 2 wstep. wstep. apply wp_sys_close_open; [cbn; set_solver|]. cbn [next].
    wstep. change (-1 =? -1) with true. cbn [next]. wstep. eexists. split; [apply (write_no_line _ _ _ fd h)|]. reflexivity.
  - destruct (ioctl_fresh _ _ _ _ _ _ Ho Hr) as [_ Hh]. cbn in Hh. do 3 wstep.
    apply wp_sys_close_open; [cbn; set_solver|]. cbn [next]. wstep. rewrite (proj2 (Z.eqb_neq _ _)) by done.
    wstep. unfold sys_ioctl. do 2 wstep. destruct (os_ioctl _ _ _ _) as [ret out]. do 3 wstep.
    destruct (Z.eqb_spec ret (-1)) as [->|Hret].
    + wstep. wstep. eexists. split; [by apply (write_fails _ _ _ fd h r out)|]. reflexivity.
    + wstep. wstep. wstep. apply wp_sys_close_open; [cbn; set_solver|]. cbn [next]. wstep.
      eexists. split; [by apply (write_value _ _ _ fd h r ret out)|]. reflexivity.
Qed.

(** With a chip, a line and a value given, the tool asks for that line as an output,
    sets it to the value's low byte and gives the line back, in this order and stopping where
    a call fails; it returns 0 unless the value cannot be set, when it writes out of bounds. *)
Theorem cdev_write_session rounds chip offset value f :
  (String.length chip <= 36)%nat ->
  wp (main rounds [Opt_c chip; Opt_n offset; Opt_w value]) f (fun o f' => exists log o',
    write_log ("/dev/gpiochip" +:+ chip) (atoi offset) (u8 (atoi value)) log o' /\
    trace f' = rev log ++ trace f /\ o = match o' with Ok _ => Ok 0 | Fault e => Fault e end).
Proof.
  intros Hl. unfold main. cbn [parse_opts apply_opt mode mbind option_bind GpioCdev.chip GpioCdev.offset val].
  pose proof (chip_path_fits (AppOpt (Some chip) (Some (atoi offset)) (u8 (atoi value)) APP_MODE_GPIO_WRITE)
    chip eq_refl Hl) as Hp.
  wstep. rewrite Hp. wstep. wstep. wstep. wstep.
  eapply wp_mono; [apply gpio_write_log|]. intros o f' (log & Hlog & Ht).
  destruct o as [[]|e]; cbn [next]; [wstep; by exists log, (Ok ())|by exists log, (Fault e)].
Qed.
End Writing.

(** * A machine on which all calls succeed *)

Module AllWell.

#[global] Instance machine : PosixOS := {|
  os_open f _ := next_free f;
  os_read _ _ _ := (16, []);
  os_write _ _ data := Z.of_nat (length data);
  os_ioctl _ _ _ _ := (0, [2]);
  os_ioctl_fd f _ _ _ := (0, next_free f);
  os_poll _ _ := (1, true);
  os_lseek _ _ := 0;
  os_access _ _ := 0 |}.

#[global] Instance machine_laws : PosixLaws machine.
Proof.
  split; [intros f path _; apply next_free_fresh|]. intros f fd req args r h [= <- <-] _. apply next_free_fresh.
Qed.

Definition at_start : files := Files ∅ [].


Lemma cdev_write_session_witness :
  trace (snd (main 0 [Opt_c "1"; Opt_n "12"; Opt_w "1"] at_start)) = rev
    [Open "/dev/gpiochip1" 3; Ioctl 3 "GPIO_GET_LINEHANDLE_IOCTL" [12; 2; 1] 0 [4]; Close 3;
     Ioctl 4 "GPIOHANDLE_SET_LINE_VALUES_IOCTL" [1] 0 [2]; Close 4] /\
  wp (main 0 [Opt_c "1"; Opt_n "12"; Opt_w "1"]) at_start (fun o f' => exists log o',
    write_log "/dev/gpiochip1" (atoi "12") (u8 (atoi "1")) log o' /\
    trace f' = rev log ++ trace at_start /\ o = match o' with Ok _ => Ok 0 | Fault e => Fault e end).
Proof.
  split; [vm_compute; reflexivity|]. apply (cdev_write_session 0 "1" "12" "1" at_start). cbn. lia.
Defined.
End AllWell.
