(* ===== verification/GpioSysfs.v ===== *)
(** gpio/user/sysfs/gpio-sysfs-test.c: the GPIO tool on the files of sysfs. *)
From Stdlib Require Import ZArith Lia Ascii String.
From stdpp Require Import base list numbers gmap strings.
From S2P Require Import Prelude Libc Posix.

#[global] Open Scope Z_scope.

Inductive app_mode_t :=
| APP_MODE_GPIO_READ | APP_MODE_GPIO_WRITE | APP_MODE_GPIO_INT | APP_MODE_GPIO_POLL | APP_MODE_UNKNOWN.

(** [gpio], [setting] and [mode] of [main]; [None]: not set. *)
Record settings := Settings { gpio : option string; setting : option string; mode : app_mode_t }.

Section Sysfs.
Context `{PosixOS}.

(** [sprintf] into 100 bytes. *)
Definition sprintf (text : string) : fprog string :=
  if 100 <=? Z.of_nat (String.length text) then stop OutOfBounds else mret text.

(** The body of the [if] of [gpio_export]. *)
Definition export_pin (gpio : string) : fprog unit :=
  fd ← sys_open "/sys/class/gpio/export";
  if fd <? 0 then stop (Exited (-1))
  else
    ret ← sys_write fd (chars gpio);
    when (negb (ret =? Z.of_nat (length (chars gpio)))) (_ ← sys_close fd; stop (Exited (-1)));;
    _ ← sys_close fd; mret tt.

(** The pin's directory; the pin is exported when it has none. *)
Definition gpio_export (gpio : string) : fprog string :=
  gpio_path ← sprintf ("/sys/class/gpio/gpio" +:+ gpio);
  missing ← sys_access gpio_path;
  when (negb (missing =? 0)) (export_pin gpio);;
  mret gpio_path.

Definition gpio_unexport (gpio : string) : fprog unit :=
  fd ← sys_open "/sys/class/gpio/unexport";
  if fd <? 0 then stop (Exited (-1))
  else
    ret ← sys_write fd (chars gpio);
    when (negb (ret =? Z.of_nat (length (chars gpio)))) (_ ← sys_close fd; stop (Exited (-1)));;
    _ ← sys_close fd; mret tt.

Definition gpio_config (gpio_path attr val : string) : fprog Z :=
  file_path ← sprintf (gpio_path +:+ "/" +:+ attr);
  fd ← sys_open file_path;
  if fd <? 0 then mret fd
  else
    ret ← sys_write fd (chars val);
    if ret <? Z.of_nat (length (chars val)) then _ ← sys_close fd; mret (-1)
    else _ ← sys_close fd; mret 0.

(** [if (gpio_config(...)) exit(-1);] *)
Definition config_or_exit (gpio_path attr val : string) : fprog unit :=
  ret ← gpio_config gpio_path attr val;
  when (negb (ret =? 0)) (stop (Exited (-1))).

(** [None]: nothing was read, the value is indeterminate. *)
Definition gpio_get_value (gpio_path : string) : fprog (option Z) :=
  file_path ← sprintf (gpio_path +:+ "/value");
  fd ← sys_open file_path;
  if fd <? 0 then stop (Exited (-1))
  else
    '(ret, data) ← sys_read fd 1;
    when (ret <? 0) (_ ← sys_close fd; stop (Exited (-1)));;
    _ ← sys_close fd;
    mret (hd_error data).

Definition gpio_read (gpio_path : string) : fprog (option Z) :=
  config_or_exit gpio_path "direction" "in";;
  config_or_exit gpio_path "active_low" "0";;
  config_or_exit gpio_path "edge" "none";;
  gpio_get_value gpio_path.

Definition gpio_write (gpio_path set : string) : fprog (option Z) :=
  config_or_exit gpio_path "direction" "out";;
  config_or_exit gpio_path "active_low" "0";;
  config_or_exit gpio_path "edge" "none";;
  config_or_exit gpio_path "value" set;;
  gpio_get_value gpio_path.

(** The loop of [gpio_edge_int], for [rounds] rounds; it has no end. *)
Fixpoint edge_loop (rounds : nat) (fd : Z) : fprog unit :=
  match rounds with
  | O => stop NoFuel
  | S rounds =>
      '(ret, ready) ← sys_poll fd;
      if ret <? 0 then stop (Exited (-1))
      else if ret =? 0 then edge_loop rounds fd
      else
        when ready (
          off ← sys_lseek fd;
          when (off <? 0) (stop (Exited (-1)));;
          '(ret, _) ← sys_read fd 1;
          when (ret <? 0) (stop (Exited (-1))));;
        edge_loop rounds fd
  end.

Definition gpio_edge_int (rounds : nat) (gpio_path set : string) : fprog unit :=
  config_or_exit gpio_path "direction" "in";;
  config_or_exit gpio_path "edge" set;;
  file_path ← sprintf (gpio_path +:+ "/value");
  fd ← sys_open file_path;
  if fd <? 0 then stop (Exited (-1))
  else
    _ ← sys_read fd 1;
    edge_loop rounds fd;;
    _ ← sys_close fd; mret tt.

Inductive opt := Opt_n (arg : string) | Opt_r | Opt_w (arg : string) | Opt_i (arg : string) | Opt_other.

(** [None]: help is printed. *)
Definition apply_opt (o : opt) (s : settings) : option settings :=
  match o with
  | Opt_n arg => Some (Settings (Some arg) (setting s) (mode s))
  | Opt_r => Some (Settings (gpio s) (setting s) APP_MODE_GPIO_READ)
  | Opt_w arg => Some (Settings (gpio s) (Some arg) APP_MODE_GPIO_WRITE)
  | Opt_i arg => Some (Settings (gpio s) (Some arg) APP_MODE_GPIO_INT)
  | Opt_other => None
  end.

Fixpoint parse_opts (opts : list opt) (s : settings) : option settings :=
  match opts with
  | [] => Some s
  | o :: opts => s ← apply_opt o s; parse_opts opts s
  end.

(** [setting] is NULL until it is set; a pin that was not given is an indeterminate pointer. *)
Definition pointer (p : option string) : outcome string := match p with Some s => Ok s | None => Fault OutOfBounds end.

Definition main (rounds : nat) (opts : list opt) : fprog Z :=
  match parse_opts opts (Settings None None APP_MODE_UNKNOWN) with
  | None => mret (-1)
  | Some s =>
      match mode s with
      | APP_MODE_UNKNOWN => mret (-1)
      | m =>
          gpio ← lift (pointer (gpio s));
          gpio_path ← gpio_export gpio;
          match m with
          | APP_MODE_GPIO_WRITE =>
              set ← lift (pointer (setting s)); _ ← gpio_write gpio_path set; gpio_unexport gpio;; mret 0
          | APP_MODE_GPIO_READ => _ ← gpio_read gpio_path; gpio_unexport gpio;; mret 0
          | APP_MODE_GPIO_INT =>
              set ← lift (pointer (setting s)); gpio_edge_int rounds gpio_path set;; gpio_unexport gpio;; mret 0
          | _ => gpio_unexport gpio;; mret (-1)
          end
      end
  end.
End Sysfs.

(** * The session *)

(** What the tool does to sysfs: the files it opens and the texts it writes, in order. *)
Inductive deed := Opens (path : string) | Writes (text : list Z).

Definition deed_of (e : io) : option deed :=
  match e with Open path _ => Some (Opens path) | Write _ data _ => Some (Writes data) | _ => None end.
Definition deeds (f : files) : list deed := rev (omap deed_of (trace f)).

Definition sets (path val : string) : list deed := [Opens path; Writes (chars val)].

(** The deeds of a test on a pin, between its export and the end. *)
Definition test_deeds (gpio_path gpio set : string) (m : app_mode_t) : list deed :=
  match m with
  | APP_MODE_GPIO_READ =>
      sets (gpio_path +:+ "/direction") "in" ++ sets (gpio_path +:+ "/active_low") "0" ++
      sets (gpio_path +:+ "/edge") "none" ++ [Opens (gpio_path +:+ "/value")] ++
      sets "/sys/class/gpio/unexport" gpio
  | APP_MODE_GPIO_WRITE =>
      sets (gpio_path +:+ "/direction") "out" ++ sets (gpio_path +:+ "/active_low") "0" ++
      sets (gpio_path +:+ "/edge") "none" ++ sets (gpio_path +:+ "/value") set ++
      [Opens (gpio_path +:+ "/value")] ++ sets "/sys/class/gpio/unexport" gpio
  | APP_MODE_GPIO_INT =>
      sets (gpio_path +:+ "/direction") "in" ++ sets (gpio_path +:+ "/edge") set ++
      [Opens (gpio_path +:+ "/value")]
  | _ => []
  end.
Definition session (gpio set : string) (m : app_mode_t) (new : bool) : list deed :=
  (if new then sets "/sys/class/gpio/export" gpio else []) ++
  test_deeds ("/sys/class/gpio/gpio" +:+ gpio) gpio set m.

(** [c] does all of [l] when it comes back, and also when, [endless], it goes on in a loop
    without an end; it does a first part of it when it exits. *)
Definition does {A} (endless : bool) (l : list deed) (c : fprog A) : Prop := forall f, wp c f (fun o f' =>
  exists ds, deeds f' = deeds f ++ ds /\
    match o with
    | Ok _ => ds = l
    | Fault NoFuel => endless = true /\ ds = l
    | Fault e => e = Exited (-1) /\ ds `prefix_of` l
    end).

Lemma does_bind {A B} endless l1 l2 (c : fprog A) (k : A -> fprog B) :
  does false l1 c -> (forall a, does endless l2 (k a)) -> does endless (l1 ++ l2) (c ≫= k).
Proof.
  intros Hc Hk f. wstep. eapply wp_mono; [apply Hc|]. intros [a|e] f1 (ds & H1 & Hds); cbn [next].
  - subst ds. eapply wp_mono; [apply Hk|]. intros o f2 (ds & H2 & Hds). exists (l1 ++ ds).
    rewrite H2, H1, app_assoc. split; [done|].
    destruct o as [|[]]; destruct_and?; subst; eauto using prefix_app.
  - exists ds. split; [done|]. destruct e; destruct_and?; eauto using prefix_app_r; done.
Qed.

Lemma does_ret {A} endless (a : A) : does endless [] (mret a).
Proof. intros f. wstep. exists []. by rewrite app_nil_r. Qed.
Lemma does_exit {A} endless l : does endless l (stop (A := A) (Exited (-1))).
Proof. intros f. wstep. exists []. rewrite app_nil_r. split; [done|]. split; [done|apply prefix_nil]. Qed.
Lemma does_nofuel {A} : does true [] (stop (A := A) NoFuel).
Proof. intros f. wstep. exists []. by rewrite app_nil_r. Qed.
Lemma does_when endless l b c : (b = true -> does endless l c) -> (b = false -> l = []) -> does endless l (when b c).
Proof. destruct b; intros Ht Hf; [by apply Ht|]. rewrite Hf by done. apply does_ret. Qed.

Lemma does_tail {A B} endless l (c : fprog A) (k : A -> fprog B) :
  does false [] c -> (forall a, does endless l (k a)) -> does endless l (c ≫= k).
Proof. apply (does_bind endless []). Qed.

Lemma does_assoc {A B C} endless l (c : fprog A) (k1 : A -> fprog B) (k2 : B -> fprog C) :
  does endless l (c ≫= fun a => k1 a ≫= k2) -> does endless l ((c ≫= k1) ≫= k2).
Proof. intros Hc f. specialize (Hc f). unfold wp, mbind, prog_bind in *. by destruct (c f) as [[a|e] f1]. Qed.
Lemma does_ret_bind {A B} endless l (a : A) (k : A -> fprog B) : does endless l (k a) -> does endless l (mret a ≫= k).
Proof. done. Qed.

Lemma deeds_did e f : deeds (did e f) = deeds f ++ option_list (deed_of e).
Proof. unfold deeds. cbn [did trace omap list_omap]. by destruct (deed_of e); rewrite ?app_nil_r. Qed.

Section Calls.
Context `{PosixOS} (endless : bool).

Lemma does_open path : does endless [Opens path] (sys_open path).
Proof.
  intros f. unfold sys_open. do 5 wstep. apply wp_when; intros _; cbn [next].
  - wstep. cbn [next]. wstep. eexists. split; [|done]. change (deeds (opened ?fd ?g)) with (deeds g). apply deeds_did.
  - wstep. eexists. split; [|done]. apply deeds_did.
Qed.
Lemma does_write fd data : does endless [Writes data] (sys_write fd data).
Proof. intros f. unfold sys_write. do 5 wstep. eexists. split; [|done]. apply deeds_did. Qed.
Lemma does_close fd : does endless [] (sys_close fd).
Proof.
  intros f. unfold sys_close. do 2 wstep. destruct (bool_decide _); do 2 wstep; [do 2 wstep|];
    (eexists; split; [|done]); apply deeds_did.
Qed.
Lemma does_read fd n : does endless [] (sys_read fd n).
Proof. intros f. unfold sys_read. do 2 wstep. destruct (os_read _ _ _). do 3 wstep. eexists. split; [|done]. apply deeds_did. Qed.
Lemma does_poll fd : does endless [] (sys_poll fd).
Proof. intros f. unfold sys_poll. do 2 wstep. destruct (os_poll _ _). do 3 wstep. eexists. split; [|done]. apply deeds_did. Qed.
Lemma does_lseek fd : does endless [] (sys_lseek fd).
Proof. intros f. unfold sys_lseek. do 5 wstep. eexists. split; [|done]. apply deeds_did. Qed.
Lemma does_access path : does endless [] (sys_access path).
Proof. intros f. unfold sys_access. do 5 wstep. eexists. split; [|done]. apply deeds_did. Qed.
Lemma sprintf_fits text : (String.length text < 100)%nat -> sprintf text = mret text.
Proof. intros Hl. unfold sprintf. by rewrite (proj2 (Z.leb_gt _ _)) by lia. Qed.
End Calls.

Create HintDb does.
#[export] Hint Resolve does_ret does_exit does_nofuel does_open does_write does_close does_read does_poll does_lseek
  does_access : does.

(** Goes through a test; the calls are left to the hints. *)
Ltac does_tac :=
  repeat match goal with
  | |- does _ (Opens _ :: ?l) (mbind _ (sys_open _)) => apply (does_bind _ [_] l); [apply does_open|intros ?]
  | |- does _ (Writes _ :: ?l) (mbind _ (sys_write _ _)) => apply (does_bind _ [_] l); [apply does_write|intros ?]
  | |- does _ _ (mbind _ (sys_close _)) => apply does_tail; [apply does_close|intros _]
  | |- does _ _ (mbind _ (sys_read _ _)) => apply does_tail; [apply does_read|intros [? ?]]
  | |- does _ _ (mbind _ (sys_poll _)) => apply does_tail; [apply does_poll|intros [? ?]]
  | |- does _ _ (mbind _ (sys_lseek _)) => apply does_tail; [apply does_lseek|intros ?]
  | |- does _ _ (if ?b then _ else _) => destruct b
  | |- does _ [] (mbind _ (when _ _)) => apply does_tail; [apply does_when; [intros _|done]|intros _]
  | |- does _ [] (when _ _) => apply does_when; [intros _|done]
  | |- does _ _ _ => solve [auto with does]
  end.

Section Tests.
Context `{PosixOS}.

Lemma does_export gpio : does false (sets "/sys/class/gpio/export" gpio) (export_pin gpio).
Proof. unfold export_pin, sets. does_tac. Qed.
Lemma does_unexport gpio : does false (sets "/sys/class/gpio/unexport" gpio) (gpio_unexport gpio).
Proof. unfold gpio_unexport, sets. does_tac. Qed.

Lemma does_config gpio_path attr val :
  (String.length (gpio_path +:+ "/" +:+ attr) < 100)%nat ->
  does false (sets (gpio_path +:+ "/" +:+ attr) val) (config_or_exit gpio_path attr val).
Proof.
  intros Hl. unfold config_or_exit, gpio_config, sets. apply does_assoc.
  rewrite sprintf_fits by done. apply does_ret_bind, does_assoc. apply (does_bind _ [_] [_]); [apply does_open|]. intros fd.
  destruct (Z.ltb_spec fd 0) as [Hfd|Hfd].
  - apply does_ret_bind. rewrite (proj2 (Z.eqb_neq _ _)) by lia. apply does_exit.
  - apply does_assoc. apply (does_bind _ [_] []); [apply does_write|]. intros ret.
    destruct (_ <? _); apply does_assoc, does_tail; try apply does_close; intros _; apply does_ret_bind; does_tac.
Qed.

Lemma does_get_value gpio_path :
  (String.length (gpio_path +:+ "/value") < 100)%nat ->
  does false [Opens (gpio_path +:+ "/value")] (gpio_get_value gpio_path).
Proof.
  intros Hl. unfold gpio_get_value. rewrite sprintf_fits by done. apply does_ret_bind. does_tac.
Qed.

Lemma does_edge_loop {B} rounds fd (k : unit -> fprog B) : does true [] (edge_loop rounds fd ≫= k).
Proof.
  induction rounds as [|rounds IH]; cbn [edge_loop].
  { intros f. wstep. wstep. apply (does_nofuel (A := B) f). }
  apply does_assoc, does_tail; [apply does_poll|].
  intros [ret ready]. destruct (ret <? 0); [intros f; apply (does_exit (A := B) true [] f)|].
  destruct (ret =? 0); [done|]. apply does_assoc, does_tail; [|done]. does_tac.
Qed.

(** The names of the files fit their buffer. *)
Definition short (gpio : string) : Prop := (String.length gpio <= 68)%nat.

Lemma attr_fits gpio attr :
  short gpio -> (String.length attr <= 11)%nat -> (String.length (("/sys/class/gpio/gpio" +:+ gpio) +:+ attr) < 100)%nat.
Proof.
  intros Hg Ha. unfold short in Hg. rewrite !string_length_app.
  change (String.length "/sys/class/gpio/gpio") with 20%nat. lia.
Qed.

Lemma does_test gpio set m rounds (k : unit -> fprog Z) :
  short gpio -> let gpio_path := "/sys/class/gpio/gpio" +:+ gpio in
  match m with
  | APP_MODE_GPIO_READ => does false (test_deeds gpio_path gpio set m) (_ ← gpio_read gpio_path; gpio_unexport gpio;; mret 0)
  | APP_MODE_GPIO_WRITE => does false (test_deeds gpio_path gpio set m) (_ ← gpio_write gpio_path set; gpio_unexport gpio;; mret 0)
  | APP_MODE_GPIO_INT => does true (test_deeds gpio_path gpio set m) (gpio_edge_int rounds gpio_path set ≫= k)
  | _ => True
  end.
Proof.
  intros Hg gpio_path.
  assert (Hc : forall attr val, (String.length attr <= 10)%nat ->
    does false (sets (gpio_path +:+ "/" +:+ attr) val) (config_or_exit gpio_path attr val)).
  { intros attr val Ha. apply does_config. apply (attr_fits gpio ("/" +:+ attr)); [done|].
    rewrite string_length_app. change (String.length "/") with 1%nat. lia. }
  assert (Hv : (String.length (gpio_path +:+ "/value") < 100)%nat) by (apply attr_fits; [done|cbn; lia]).
  assert (Hu : does false (sets "/sys/class/gpio/unexport" gpio) (gpio_unexport gpio;; mret 0)).
  { rewrite <- (app_nil_r (sets _ _)). apply does_bind; [apply does_unexport|intros _; apply does_ret]. }
  destruct m; [| | |exact I|exact I]; cbn [test_deeds].
  - unfold gpio_read. do 3 (apply does_assoc, does_bind; [apply Hc; cbn; lia|intros _]).
    by apply does_bind; [by apply does_get_value|intros _].
  - unfold gpio_write. do 4 (apply does_assoc, does_bind; [apply Hc; cbn; lia|intros _]).
    by apply does_bind; [by apply does_get_value|intros _].
  - unfold gpio_edge_int.
    do 2 (apply does_assoc, does_bind; [apply Hc; cbn; lia|intros _]).
    rewrite sprintf_fits by done. apply does_assoc, does_ret_bind, does_assoc.
    apply (does_bind _ [_] []); [apply does_open|intros fd].
    destruct (fd <? 0); [intros f; apply (does_exit (A := Z) true _ f)|].
    apply does_assoc, does_tail; [apply does_read|intros _]. apply does_assoc, does_edge_loop.
Qed.
End Tests.

(** * Exits *)

(** A call that failed. *)
Definition failed (e : io) : bool :=
  match e with
  | Open _ fd => fd <? 0
  | Write _ data ret => negb (ret =? Z.of_nat (length data))
  | Read _ _ ret _ | Poll _ ret _ | Seek _ ret => ret <? 0
  | _ => false
  end.
Definition closing (e : io) : bool := match e with Close _ | BadClose _ => true | _ => false end.

(** The last call failed, or the last one before a close. *)
Definition just_failed (f : files) : Prop :=
  match trace f with
  | e :: e' :: _ => failed e = true \/ closing e = true /\ failed e' = true
  | [e] => failed e = true
  | [] => False
  end.

Definition failed_if_exited {A} (o : outcome A) (f : files) : Prop :=
  match o with Fault (Exited _) => just_failed f | _ => True end.
Definition exits_when_failed {A} (c : fprog A) : Prop := forall f, wp c f failed_if_exited.

Lemma exits_bind {A B} (c : fprog A) (k : A -> fprog B) :
  exits_when_failed c -> (forall a, exits_when_failed (k a)) -> exits_when_failed (c ≫= k).
Proof.
  intros Hc Hk f. wstep. eapply wp_mono; [apply Hc|]. intros [a|e] f' Hf; cbn [next]; [apply Hk|exact Hf].
Qed.
Lemma exits_ret {A} (a : A) : exits_when_failed (mret a).
Proof. intros f. by wstep. Qed.
Lemma exits_stop {A} e : (forall code, e <> Exited code) -> exits_when_failed (stop (A := A) e).
Proof. intros He f. wstep. destruct e; try exact I. by destruct (He code). Qed.
Lemma exits_when b c : exits_when_failed c -> exits_when_failed (when b c).
Proof. destruct b; [done|intros _; apply exits_ret]. Qed.
Lemma just_failed_now e f f' : trace f' = e :: trace f -> failed e = true -> just_failed f'.
Proof. unfold just_failed. intros -> He. destruct (trace f); auto. Qed.
Lemma just_failed_closed c e f f' :
  trace f' = c :: e :: trace f -> closing c = true -> failed e = true -> just_failed f'.
Proof. unfold just_failed. intros -> Hc He. auto. Qed.

Section Failures.
Context `{PosixOS}.

Lemma wp_open_trace path f Q :
  (forall fd f', trace f' = Open path fd :: trace f -> Q (Ok fd) f') -> wp (sys_open path) f Q.
Proof. intros HQ. unfold sys_open. do 5 wstep. apply wp_when; intros _; cbn [next]; [wstep; cbn [next]|]; wstep; by apply HQ. Qed.
Lemma wp_write_trace fd data f Q :
  (forall ret f', trace f' = Write fd data ret :: trace f -> Q (Ok ret) f') -> wp (sys_write fd data) f Q.
Proof. intros HQ. unfold sys_write. do 5 wstep. by apply HQ. Qed.
Lemma wp_read_trace fd n f Q :
  (forall ret data f', trace f' = Read fd n ret data :: trace f -> Q (Ok (ret, data)) f') -> wp (sys_read fd n) f Q.
Proof. intros HQ. unfold sys_read. do 2 wstep. destruct (os_read _ _ _). do 3 wstep. by apply HQ. Qed.
Lemma wp_poll_trace fd f Q :
  (forall ret ready f', trace f' = Poll fd ret ready :: trace f -> Q (Ok (ret, ready)) f') -> wp (sys_poll fd) f Q.
Proof. intros HQ. unfold sys_poll. do 2 wstep. destruct (os_poll _ _). do 3 wstep. by apply HQ. Qed.
Lemma wp_lseek_trace fd f Q :
  (forall ret f', trace f' = Seek fd ret :: trace f -> Q (Ok ret) f') -> wp (sys_lseek fd) f Q.
Proof. intros HQ. unfold sys_lseek. do 5 wstep. by apply HQ. Qed.
Lemma wp_close_trace fd f Q :
  (forall c r f', closing c = true -> trace f' = c :: trace f -> Q (Ok r) f') -> wp (sys_close fd) f Q.
Proof.
  intros HQ. unfold sys_close. do 2 wstep. destruct (bool_decide _); do 2 wstep; [do 2 wstep|];
    by (eapply HQ; [|reflexivity]).
Qed.

(** An exit after a close, and one right after a call. *)
Lemma exit_after_close {A} fd code e f0 f :
  trace f = e :: trace f0 -> failed e = true ->
  wp (_ ← sys_close fd; stop (A := A) (Exited code)) f failed_if_exited.
Proof.
  intros Hf He. wstep. apply wp_close_trace. intros c r f' Hc Ht. cbn [next]. wstep. cbn.
  rewrite Hf in Ht. by eapply just_failed_closed.
Qed.
Lemma exit_now {A} code e f0 f :
  trace f = e :: trace f0 -> failed e = true ->
  wp (stop (A := A) (Exited code)) f failed_if_exited.
Proof. intros Hf He. wstep. cbn. by eapply just_failed_now. Qed.

Lemma exits_close fd : exits_when_failed (sys_close fd).
Proof. intros f. by apply wp_close_trace. Qed.
Lemma exits_read fd n : exits_when_failed (sys_read fd n).
Proof. intros f. by apply wp_read_trace. Qed.
Lemma exits_access path : exits_when_failed (sys_access path).
Proof. intros f. unfold sys_access. by do 5 wstep. Qed.
Lemma exits_sprintf text : exits_when_failed (sprintf text).
Proof. unfold sprintf. destruct (_ <=? _); [by apply exits_stop|apply exits_ret]. Qed.
Hint Resolve exits_ret exits_close exits_read exits_access exits_sprintf : core.

(** A file is opened, or else the program exits; in the text of [k] the file is open. *)
Lemma exits_open {A} path (k : Z -> fprog A) :
  (forall fd, exits_when_failed (k fd)) ->
  exits_when_failed (fd ← sys_open path; if fd <? 0 then stop (Exited (-1)) else k fd).
Proof.
  intros Hk f. wstep. apply wp_open_trace. intros fd f' Ht. cbn [next].
  destruct (fd <? 0) eqn:Hfd; [by eapply exit_now|apply Hk].
Qed.

(** Something is written in full, or else the file is closed and the program exits. *)
Lemma exits_write {A} fd data (k : fprog A) :
  exits_when_failed k ->
  exits_when_failed (ret ← sys_write fd data;
    when (negb (ret =? Z.of_nat (length data))) (_ ← sys_close fd; stop (Exited (-1)));; k).
Proof.
  intros Hk f. wstep. apply wp_write_trace. intros ret f' Ht. cbn [next]. wstep.
  apply wp_when; intros Hr; cbn [next]; [|apply Hk].
  eapply wp_mono; [by eapply exit_after_close|]. intros [[]|e] f2 Hf2; cbn [next]; [apply Hk|exact Hf2].
Qed.

Lemma exits_export gpio : exits_when_failed (export_pin gpio).
Proof. apply exits_open. intros fd. apply exits_write, exits_bind; auto. Qed.
Lemma exits_unexport gpio : exits_when_failed (gpio_unexport gpio).
Proof. apply exits_open. intros fd. apply exits_write, exits_bind; auto. Qed.

Lemma exits_config gpio_path attr val : exits_when_failed (config_or_exit gpio_path attr val).
Proof.
  unfold config_or_exit, gpio_config. intros f. do 2 wstep. eapply wp_mono; [apply (exits_sprintf _ f)|].
  intros [path|e] f0 Hf0; cbn [next]; [|exact Hf0].
  wstep. apply wp_open_trace. intros fd f1 Ht1. cbn [next]. destruct (fd <? 0) eqn:Hfd.
  { wstep. cbn [next]. apply wp_when; [intros _; by eapply exit_now|done]. }
  wstep. apply wp_write_trace. intros ret f2 Ht2. cbn [next].
  destruct (Z.ltb_spec ret (Z.of_nat (length (chars val)))) as [Hlt|_]; wstep; apply wp_close_trace;
    intros c r f3 Hc Ht3; cbn [next]; wstep; [|done]. cbn [next]. apply wp_when; [intros _|done].
  wstep. cbn. rewrite Ht2 in Ht3. eapply just_failed_closed; [done|done|]. cbn.
  by rewrite (proj2 (Z.eqb_neq _ _)) by lia.
Qed.

Lemma exits_get_value gpio_path : exits_when_failed (gpio_get_value gpio_path).
Proof.
  unfold gpio_get_value. apply exits_bind; [auto|]. intros path. apply exits_open. intros fd f. wstep.
  apply wp_read_trace. intros ret data f' Ht. cbn [next]. wstep. apply wp_when; intros Hr; cbn [next].
  - eapply wp_mono; [by eapply exit_after_close|]. intros [[]|e] f2 Hf2; cbn [next]; [|exact Hf2].
    apply exits_bind; auto.
  - apply exits_bind; auto.
Qed.

Lemma exits_edge_loop rounds fd : exits_when_failed (edge_loop rounds fd).
Proof.
  induction rounds as [|rounds IH]; cbn [edge_loop]; [by apply exits_stop|]. intros f. wstep.
  apply wp_poll_trace. intros ret ready f1 Ht. cbn [next].
  destruct (ret <? 0) eqn:Hr; [by eapply exit_now|]. destruct (ret =? 0); [apply IH|].
  apply exits_bind; [|done]. apply exits_when.
  assert (Hread : exits_when_failed ('(ret, _) ← sys_read fd 1; when (ret <? 0) (stop (Exited (-1))))).
  { intros f2. wstep. apply wp_read_trace. intros ret' data f3 Ht3. cbn [next].
    apply wp_when; intros Hr'; [by eapply exit_now|done]. }
  intros f2. wstep. apply wp_lseek_trace. intros off f3 Ht3. cbn [next]. wstep.
  apply wp_when; intros Ho; cbn [next]; [|apply Hread].
  eapply wp_mono; [by eapply exit_now|]. intros [[]|e] f4 Hf4; cbn [next]; [apply Hread|exact Hf4].
Qed.

Lemma exits_edge_int rounds gpio_path set : exits_when_failed (gpio_edge_int rounds gpio_path set).
Proof.
  unfold gpio_edge_int. do 2 (apply exits_bind; [apply exits_config|intros _]).
  apply exits_bind; [auto|]. intros path. apply exits_open. intros fd. apply exits_bind; [auto|]. intros _.
  apply exits_bind; [apply exits_edge_loop|]. intros _. apply exits_bind; auto.
Qed.

Lemma exits_lift {A} p (k : string -> fprog A) :
  (forall s, exits_when_failed (k s)) -> exits_when_failed (lift (pointer p) ≫= k).
Proof. intros Hk f. do 2 wstep. destruct p; cbn [pointer next]; [apply Hk|done]. Qed.

Lemma exits_main rounds opts : exits_when_failed (main rounds opts).
Proof.
  assert (Hz : forall gpio (code : Z), exits_when_failed (gpio_unexport gpio;; mret code)).
  { intros gpio code. apply exits_bind; [apply exits_unexport|auto]. }
  unfold main. destruct (parse_opts _ _) as [s|]; [|apply exits_ret].
  destruct (mode s); try apply exits_ret; apply exits_lift; intros gpio;
    (apply exits_bind; [unfold gpio_export; apply exits_bind; [auto|intros path];
       apply exits_bind; [auto|intros missing]; apply exits_bind; [apply exits_when, exits_export|auto]|intros path]).
  - unfold gpio_read. apply exits_bind; [|auto].
    do 3 (apply exits_bind; [apply exits_config|intros _]). apply exits_get_value.
  - apply exits_lift. intros set. unfold gpio_write. apply exits_bind; [|auto].
    do 4 (apply exits_bind; [apply exits_config|intros _]). apply exits_get_value.
  - apply exits_lift. intros set. apply exits_bind; [apply exits_edge_int|auto].
  - auto.
Qed.
End Failures.

Definition endless_mode (m : app_mode_t) : bool := match m with APP_MODE_GPIO_INT => true | _ => false end.

(** A mode that tests comes with its setting. *)
Lemma parse_opts_ok opts s s' :
  parse_opts opts s = Some s' ->
  (match mode s with APP_MODE_GPIO_WRITE | APP_MODE_GPIO_INT => setting s <> None | APP_MODE_GPIO_POLL => False | _ => True end) ->
  match mode s' with APP_MODE_GPIO_WRITE | APP_MODE_GPIO_INT => setting s' <> None | APP_MODE_GPIO_POLL => False | _ => True end.
Proof.
  revert s. induction opts as [|o opts IH]; intros s Hp Hs; [by simplify_eq/=|].
  cbn in Hp. destruct (apply_opt o s) as [s1|] eqn:Ho; [|done]. cbn in Hp. apply (IH s1 Hp).
  destruct o; cbn in Ho; simplify_eq; try done; by destruct (mode s).
Qed.

Section Main.
Context `{PosixOS}.

(** The pin has no directory yet when the tool starts. *)
Definition pin_is_new (pin : string) (f : files) : bool :=
  negb (os_access f ("/sys/class/gpio/gpio" +:+ pin) =? 0).

(** The pin's directory, after an export if it has none. *)
Lemma session_parts {B} endless pin l (c : string -> fprog B) f :
  short pin -> does endless l (c ("/sys/class/gpio/gpio" +:+ pin)) ->
  wp (gpio_export pin ≫= c) f (fun o f' => exists ds, deeds f' = deeds f ++ ds /\
    let l := (if pin_is_new pin f then sets "/sys/class/gpio/export" pin else []) ++ l in
    match o with
    | Ok _ => ds = l
    | Fault NoFuel => endless = true /\ ds = l
    | Fault e => e = Exited (-1) /\ ds `prefix_of` l
    end).
Proof.
  intros Hg Hc. unfold gpio_export. rewrite sprintf_fits.
  2:{ rewrite string_length_app. unfold short in Hg. change (String.length "/sys/class/gpio/gpio") with 20%nat. lia. }
  do 4 wstep. unfold sys_access. do 5 wstep. fold (pin_is_new pin f). set (f1 := did _ f).
  assert (H1 : deeds f1 = deeds f) by (unfold f1; rewrite deeds_did; apply app_nil_r).
  rewrite <- H1. generalize f1. clear H1 f1. destruct (pin_is_new pin f); cbn [when app]; intros f1.
  - pose proof (does_bind endless _ l (export_pin pin) (fun _ => c ("/sys/class/gpio/gpio" +:+ pin))
      (does_export pin) (fun _ => Hc) f1) as Hd.
    wstep. apply wp_intro. intros [[]|e] f2 Hx; unfold wp, mbind, prog_bind in Hd; rewrite Hx in Hd; cbn [next].
    + wstep. exact Hd.
    + exact Hd.
  - wstep. wstep. apply Hc.
Qed.

Definition ends_zero (c : fprog Z) : Prop := forall f, wp c f (fun o _ => forall code, o = Ok code -> code = 0).
Lemma ends_zero_ret : ends_zero (mret 0).
Proof. intros f. wstep. congruence. Qed.
Lemma ends_zero_bind {B} (c : fprog B) (k : B -> fprog Z) : (forall b, ends_zero (k b)) -> ends_zero (c ≫= k).
Proof. intros Hk f. wstep. apply wp_intro. intros [b|e] f1 _; cbn [next]; [apply Hk|done]. Qed.

(** A test of interrupts has no end. *)
Definition never_back {A} (c : fprog A) : Prop := forall f, wp c f (fun o _ => forall a, o <> Ok a).
Lemma never_back_bind {A B} (c : fprog A) (k : A -> fprog B) :
  (forall a, never_back (k a)) -> never_back (c ≫= k).
Proof. intros Hk f. wstep. apply wp_intro. intros [b|e] f1 _; cbn [next]; [apply Hk|done]. Qed.
Lemma never_back_then {A B} (c : fprog A) (k : A -> fprog B) : never_back c -> never_back (c ≫= k).
Proof.
  intros Hc f. wstep. eapply wp_mono; [apply Hc|]. intros [a|e] f1 H1; cbn [next]; [by destruct (H1 a)|done].
Qed.

Lemma edge_loop_never_back rounds fd : never_back (edge_loop rounds fd).
Proof.
  induction rounds as [|rounds IH]; cbn [edge_loop]; [intros f; by wstep|].
  apply never_back_bind. intros [ret ready]. destruct (ret <? 0); [intros f; by wstep|].
  destruct (ret =? 0); [done|]. by apply never_back_bind.
Qed.

Lemma edge_int_never_back rounds gpio_path set : never_back (gpio_edge_int rounds gpio_path set).
Proof.
  do 4 (apply never_back_bind; intros ?). destruct (_ <? 0); [intros f; by wstep|].
  apply never_back_bind. intros _. apply never_back_then, edge_loop_never_back.
Qed.

(** C15: a run with a pin, short enough for the names of its files, and a mode exports the pin if it
    has no directory at the start,
    sets its attributes in the mode's order and opens the value, in this order.  A read or write
    then gives the pin back, and returns 0 after all of it; a test of interrupts has no end, so
    that it returns never and gives the pin back never.  A run stops early only by [exit(-1)],
    right after a call that failed. *)
Theorem sysfs_session rounds opts s pin f :
  parse_opts opts (Settings None None APP_MODE_UNKNOWN) = Some s ->
  gpio s = Some pin -> mode s <> APP_MODE_UNKNOWN -> short pin ->
  wp (main rounds opts) f (fun o f' => exists ds, deeds f' = deeds f ++ ds /\
    let l := session pin (default "" (setting s)) (mode s) (pin_is_new pin f) in
    match o with
    | Ok code => code = 0 /\ endless_mode (mode s) = false /\ ds = l
    | Fault NoFuel => endless_mode (mode s) = true /\ ds = l
    | Fault e => e = Exited (-1) /\ just_failed f' /\ ds `prefix_of` l
    end).
Proof.
  intros Hp Hpin Hm Hg.
  enough (Hw : wp (main rounds opts) f (fun o f' => exists ds, deeds f' = deeds f ++ ds /\
    let l := session pin (default "" (setting s)) (mode s) (pin_is_new pin f) in
    match o with
    | Ok code => code = 0 /\ endless_mode (mode s) = false /\ ds = l
    | Fault NoFuel => endless_mode (mode s) = true /\ ds = l
    | Fault e => e = Exited (-1) /\ ds `prefix_of` l
    end)).
  { eapply wp_mono; [apply wp_and; [exact Hw|apply exits_main]|].
    intros o f' [(ds & Hd & Ho) He]. exists ds. split; [done|]. cbv zeta in *.
    destruct o as [|[]]; cbn in He; destruct_and?; try discriminate; auto. }
  unfold main. rewrite Hp.
  pose proof (parse_opts_ok _ _ _ Hp I) as Hok. destruct s as [? set m]. cbn [gpio setting mode] in *. subst.
  destruct m; [| | |destruct Hok|by destruct Hm]; wstep; wstep; cbn [pointer next].
  - pose proof (does_test pin "" APP_MODE_GPIO_READ 0 (fun _ => mret 0) Hg) as Ht.
    eapply wp_mono; [apply wp_and; [exact (session_parts false pin _ _ f Hg Ht)|]|].
    + repeat (apply ends_zero_bind; intros ?). apply ends_zero_ret.
    + intros o f1 [(ds & H1 & Hds) Hz]. exists ds. split; [done|]. destruct o; auto.
  - destruct set as [set|]; [|by destruct Hok].
    pose proof (does_test pin set APP_MODE_GPIO_WRITE 0 (fun _ => mret 0) Hg) as Ht.
    eapply wp_mono; [apply wp_and; [exact (session_parts false pin _ _ f Hg Ht)|]|].
    + repeat (apply ends_zero_bind; intros ?). apply ends_zero_ret.
    + intros o f1 [(ds & H1 & Hds) Hz]. exists ds. split; [done|]. destruct o; auto.
  - destruct set as [set|]; [|by destruct Hok].
    pose proof (does_test pin set APP_MODE_GPIO_INT rounds (fun _ => gpio_unexport pin;; mret 0) Hg) as Ht.
    eapply wp_mono; [apply wp_and; [exact (session_parts true pin _ _ f Hg Ht)|]|].
    + do 2 (apply never_back_bind; intros ?). apply never_back_then, edge_int_never_back.
    + intros o f1 [(ds & H1 & Hds) Hz]. exists ds. split; [done|]. destruct o as [r|]; [by destruct (Hz r)|done].
Qed.
End Main.

(** * Two machines *)

Module Pins.

(** Every call succeeds; the pin has a directory or not, and polls are limited by the fuel. *)
#[global] Instance machine (missing : Z) : PosixOS := {|
  os_open f _ := next_free f;
  os_read _ _ _ := (1, [48]);
  os_write _ _ data := Z.of_nat (length data);
  os_ioctl _ _ _ _ := (0, []);
  os_ioctl_fd f _ _ _ := (0, next_free f);
  os_poll _ _ := (1, true);
  os_lseek _ _ := 0;
  os_access _ _ := missing |}.

Definition at_start : files := Files ∅ [].

Lemma sysfs_session_witness :
  let r := @main (machine (-1)) 0 [Opt_n "40"; Opt_w "1"] at_start in
  fst r = Ok 0 /\ deeds (snd r) = session "40" "1" APP_MODE_GPIO_WRITE true.
Proof.
  assert (Hok : fst (@main (machine (-1)) 0 [Opt_n "40"; Opt_w "1"] at_start) = Ok 0) by (vm_compute; reflexivity).
  split; [exact Hok|].
  pose proof (@sysfs_session (machine (-1)) 0 [Opt_n "40"; Opt_w "1"]%string (Settings (Some "40") (Some "1") APP_MODE_GPIO_WRITE)%string
    "40" at_start eq_refl eq_refl ltac:(discriminate) ltac:(unfold short; cbn; lia)) as Hs.
  unfold wp in Hs. destruct (@main (machine (-1)) 0 [Opt_n "40"; Opt_w "1"] at_start) as [o f'].
  cbn [fst] in Hok. subst o. destruct Hs as (ds & Hd & _ & _ & Hl). cbn [snd]. rewrite Hd, Hl. reflexivity.
Defined.
End Pins.
