(* ===== verification/GpioUio.v ===== *)
(** gpio/user/uio/gpio-uio-test.c: GPIO interrupts through a UIO device. *)
From Stdlib Require Import ZArith Lia Ascii String.
From stdpp Require Import base list numbers gmap strings.
From S2P Require Import Prelude Libc Posix.

#[global] Open Scope Z_scope.

Inductive app_mode_t := APP_MODE_GPIO_INT | APP_MODE_GPIO_POLL | APP_MODE_UNKNOWN.

Definition EXIT_FAILURE : Z := 1.

(** [uio_int = 1], which unmasks the interrupt, as four bytes. *)
Definition unmask : list Z := [1; 0; 0; 0].

Section Uio.
Context `{PosixOS}.

(** The rounds of [gpio_int]. *)
Fixpoint int_rounds (n : nat) (uio_fd : Z) : fprog unit :=
  match n with
  | O => mret tt
  | S n =>
      ret ← sys_write uio_fd unmask;
      if negb (ret =? 4) then _ ← sys_close uio_fd; stop (Exited EXIT_FAILURE)
      else _ ← sys_read uio_fd 4; int_rounds n uio_fd
  end.

Definition gpio_int (uio_fd : Z) : fprog unit :=
  int_rounds 10 uio_fd;; _ ← sys_close uio_fd; mret tt.

(** The loop of [gpio_int_poll], for [rounds] rounds; it ends only by [exit]. *)
Fixpoint poll_rounds (rounds : nat) (uio_fd : Z) : fprog unit :=
  match rounds with
  | O => stop NoFuel
  | S rounds =>
      ret ← sys_write uio_fd unmask;
      if negb (ret =? 4) then _ ← sys_close uio_fd; stop (Exited EXIT_FAILURE)
      else
        '(ret, _) ← sys_poll uio_fd;
        if 1 <=? ret then _ ← sys_read uio_fd 4; poll_rounds rounds uio_fd
        else _ ← sys_close uio_fd; stop (Exited EXIT_FAILURE)
  end.

Definition gpio_int_poll (rounds : nat) (uio_fd : Z) : fprog unit :=
  poll_rounds rounds uio_fd;; _ ← sys_close uio_fd; mret tt.

Inductive opt := Opt_d (arg : string) | Opt_i | Opt_p | Opt_other.

(** [uiod] and [mode] of [main]; [None]: not set. *)
Record settings := Settings { uiod : option string; mode : app_mode_t }.

(** [None]: the usage is printed. *)
Definition apply_opt (o : opt) (s : settings) : option settings :=
  match o with
  | Opt_d arg => Some (Settings (Some arg) (mode s))
  | Opt_i => Some (Settings (uiod s) APP_MODE_GPIO_INT)
  | Opt_p => Some (Settings (uiod s) APP_MODE_GPIO_POLL)
  | Opt_other => None
  end.

Fixpoint parse_opts (opts : list opt) (s : settings) : option settings :=
  match opts with
  | [] => Some s
  | o :: opts => s ← apply_opt o s; parse_opts opts s
  end.

(** [sprintf(dev_path, "/dev/%s", uiod)] into 50 bytes. *)
Definition dev_path (s : settings) : outcome string :=
  match uiod s with
  | None => Fault OutOfBounds
  | Some u =>
      let path := ("/dev/" +:+ u)%string in
      if 50 <=? Z.of_nat (String.length path) then Fault OutOfBounds else Ok path
  end.

Definition main (rounds : nat) (opts : list opt) : fprog Z :=
  match parse_opts opts (Settings None APP_MODE_UNKNOWN) with
  | None => mret (-1)
  | Some s =>
      match mode s with
      | APP_MODE_UNKNOWN => mret (-1)
      | m =>
          path ← lift (dev_path s);
          uio_fd ← sys_open path;
          if uio_fd <? 0 then stop (Exited EXIT_FAILURE)
          else
            match m with
            | APP_MODE_GPIO_INT => gpio_int uio_fd
            | _ => gpio_int_poll rounds uio_fd
            end;;
            _ ← sys_close uio_fd;
            mret 0
      end
  end.
End Uio.

(** * Ten interrupts *)

(** One interrupt: it is unmasked and waited for. *)
Definition interrupt (fd : Z) (answer : Z * list Z) : list io := [Write fd unmask 4; Read fd 4 answer.1 answer.2].
Definition interrupts (fd : Z) (answers : list (Z * list Z)) : list io := concat (interrupt fd <$> answers).

(** What the test does, in order, and how it ends. *)
Inductive int_log (path : string) : list io -> outcome Z -> Prop :=
| int_no_device fd : fd < 0 -> int_log path [Open path fd] (Fault (Exited EXIT_FAILURE))
| int_ten fd answers :
    length answers = 10%nat ->
    int_log path (Open path fd :: interrupts fd answers ++ [Close fd; BadClose fd]) (Ok 0)
| int_failed fd answers ret :
    (length answers < 10)%nat -> ret <> 4 ->
    int_log path (Open path fd :: interrupts fd answers ++ [Write fd unmask ret; Close fd]) (Fault (Exited EXIT_FAILURE)).

Lemma interrupts_snoc fd answers a : interrupts fd (answers ++ [a]) = interrupts fd answers ++ interrupt fd a.
Proof. unfold interrupts. rewrite fmap_app, concat_app. cbn. done. Qed.

Section Interrupts.
Context `{PosixOS}.

Lemma int_rounds_log n fd f :
  fd ∈ fds f ->
  wp (int_rounds n fd) f (fun o f' => exists answers,
    (o = Ok tt /\ length answers = n /\ trace f' = rev (interrupts fd answers) ++ trace f /\ fds f' = fds f) \/
    (exists ret, o = Fault (Exited EXIT_FAILURE) /\ (length answers < n)%nat /\ ret <> 4 /\
      trace f' = rev (interrupts fd answers ++ [Write fd unmask ret; Close fd]) ++ trace f)).
Proof.
  revert f. induction n as [|n IH]; intros f Hfd; cbn [int_rounds].
  { wstep. exists []. by left. }
  wstep. unfold sys_write. do 5 wstep. set (ret := os_write f fd unmask).
  destruct (Z.eqb_spec ret 4) as [Hr|Hr]; cbn [negb].
  - wstep. unfold sys_read. do 2 wstep. destruct (os_read _ _ _) as [r data]. do 3 wstep.
    eapply wp_mono; [apply IH; exact Hfd|]. intros o f' (answers & Ho). exists ((r, data) :: answers).
    assert (Hc : interrupts fd ((r, data) :: answers) = [Write fd unmask ret; Read fd 4 r data] ++ interrupts fd answers)
      by (rewrite Hr; done).
    rewrite Hc. destruct Ho as [(-> & Hl & Ht & Hf)|(ret' & -> & Hl & Hne & Ht)].
    + left. split; [done|]. split; [cbn; lia|]. split; [|exact Hf].
      rewrite Ht, rev_app_distr, <- app_assoc. done.
    + right. exists ret'. split; [done|]. split; [cbn; lia|]. split; [done|].
      rewrite Ht, <- app_assoc, (rev_app_distr [_; _]), <- app_assoc. done.
  - wstep. apply wp_sys_close_open; [exact Hfd|]. cbn [next]. wstep.
    exists []. right. exists ret. split; [done|]. split; [cbn; lia|]. done.
Qed.
End Interrupts.

Section Runs.
Context `{HL : PosixLaws}.

(** With -i on a device the test unmasks and awaits exactly ten interrupts, one after
    the other, and stops at the first that cannot be unmasked with the device closed; after the
    tenth it closes the device twice. *)
Theorem uio_ten_interrupts rounds dev f :
  (String.length dev <= 44)%nat ->
  wp (main rounds [Opt_d dev; Opt_i]) f (fun o f' => exists log,
    int_log ("/dev/" +:+ dev) log o /\ trace f' = rev log ++ trace f).
Proof.
  intros Hl. unfold main. cbn [parse_opts apply_opt mode mbind option_bind].
  wstep. unfold dev_path. cbn [uiod]. rewrite string_length_app. change (String.length "/dev/") with 5%nat.
  rewrite (proj2 (Z.leb_gt _ _)) by lia. wstep. wstep. unfold sys_open. do 5 wstep.
  set (path := "/dev/" +:+ dev). set (fd := os_open f path).
  pose proof (open_fresh f path) as Hnew. fold fd in Hnew.
  destruct (Z.ltb_spec fd 0) as [Hlt|Hge]; cbn [negb when].
  { wstep. cbn [next]. wstep. rewrite (proj2 (Z.ltb_lt _ _)) by done. wstep. eexists. split; [by apply int_no_device|done]. }
  wstep. cbn [next]. wstep. rewrite (proj2 (Z.ltb_ge _ _)) by done. wstep. unfold gpio_int. wstep.
  eapply wp_mono; [apply int_rounds_log; set_solver|].
  intros o f' (answers & [(-> & Hn & Ht & Hf)|(ret & -> & Hn & Hr & Ht)]); cbn [next].
  - wstep. apply wp_sys_close_open; [rewrite Hf; set_solver|]. cbn [next]. wstep. wstep.
    apply wp_sys_close_bad; [cbn; set_solver|]. cbn [next]. wstep.
    eexists. split; [by apply (int_ten _ fd answers)|]. cbn. rewrite Ht. cbn. rewrite rev_app_distr. cbn.
    by rewrite <- app_assoc.
  - eexists. split; [by apply (int_failed _ fd answers ret)|]. rewrite Ht. cbn. by rewrite <- !app_assoc.
Qed.

(** With -p the test never comes back; when it exits it has closed the device. *)
Lemma poll_rounds_end rounds fd f0 f :
  holding [fd] f0 f ->
  wp (poll_rounds rounds fd) f (fun o f' =>
    o = Fault NoFuel /\ holding [fd] f0 f' \/ o = Fault (Exited EXIT_FAILURE) /\ holding [] f0 f').
Proof.
  revert f. induction rounds as [|rounds IH]; intros f Hf; cbn [poll_rounds]; [wstep; by left|].
  wstep. fstep. destruct (negb _); [wstep; fstep; wstep; by right|]. wstep. fstep.
  destruct (1 <=? _); [wstep; fstep; by apply IH|]. wstep. fstep. wstep. by right.
Qed.

(** With -p the test never comes back: it waits on and on, or exits with 1 when the
    device cannot be opened, unmasked or polled, and then has closed what it opened. *)
Theorem uio_poll_ends_by_exit rounds dev f :
  (String.length dev <= 44)%nat ->
  wp (main rounds [Opt_d dev; Opt_p]) f (fun o f' =>
    o = Fault NoFuel \/ o = Fault (Exited EXIT_FAILURE) /\ fds f' = fds f /\ bad_closes f' = bad_closes f).
Proof.
  intros Hl. unfold main. cbn [parse_opts apply_opt mode mbind option_bind].
  wstep. unfold dev_path. cbn [uiod]. rewrite string_length_app. change (String.length "/dev/") with 5%nat.
  rewrite (proj2 (Z.leb_gt _ _)) by lia. wstep. wstep.
  pose proof (holding_start f) as Hf. set (f0 := f) in Hf at 1 |- * at 2 3. clearbody f0.
  fstep; rewrite ?(proj2 (Z.ltb_lt _ _)), ?(proj2 (Z.ltb_ge _ _)) by done.
  - wstep. right. split; [done|]. destruct Hf as [H1 _ _ H4]. split; [rewrite H1; set_solver|done].
  - wstep. unfold gpio_int_poll. wstep. eapply wp_mono; [by apply poll_rounds_end|].
    intros o f' [[-> _]|[-> [H1 _ _ H4]]]; cbn [next]; [by left|]. right. split; [done|]. split; [rewrite H1; set_solver|done].
Qed.
End Runs.

(** * A device that interrupts *)

Module Uio0.
#[global] Instance machine (polled : Z) : PosixOS := {|
  os_open f _ := next_free f;
  os_read _ _ _ := (4, [7; 0; 0; 0]);
  os_write _ _ data := Z.of_nat (length data);
  os_ioctl _ _ _ _ := (0, []);
  os_ioctl_fd f _ _ _ := (0, next_free f);
  os_poll _ _ := (polled, true);
  os_lseek _ _ := 0;
  os_access _ _ := 0 |}.

#[global] Instance machine_laws polled : PosixLaws (machine polled).
Proof.
  split; [intros f path _; apply next_free_fresh|]. intros f fd req args r h [= <- <-] _. apply next_free_fresh.
Qed.

Definition at_start : files := Files ∅ [].

Lemma uio_ten_interrupts_witness :
  fst (@main (machine 1) 0 [Opt_d "uio0"; Opt_i] at_start) = Ok 0 /\
  @wp files Z (@main (machine 1) 0 [Opt_d "uio0"; Opt_i]) at_start (fun o f' => exists log,
    int_log "/dev/uio0" log o /\ trace f' = rev log ++ trace at_start).
Proof.
  split; [vm_compute; reflexivity|]. apply (@uio_ten_interrupts _ (machine_laws 1) 0 "uio0" at_start). cbn. lia.
Defined.

Lemma uio_poll_ends_by_exit_witness :
  fst (@main (machine 0) 5 [Opt_d "uio0"; Opt_p] at_start) = Fault (Exited 1) /\
  @wp files Z (@main (machine 0) 5 [Opt_d "uio0"; Opt_p]) at_start (fun o f' =>
    o = Fault NoFuel \/ o = Fault (Exited EXIT_FAILURE) /\ fds f' = fds at_start /\ bad_closes f' = bad_closes at_start).
Proof.
  split; [vm_compute; reflexivity|]. apply (@uio_poll_ends_by_exit _ (machine_laws 0) 5 "uio0" at_start). cbn. lia.
Defined.
End Uio0.
