(* ===== verification/Rtc.v ===== *)
(** rtc/rtc.c: reading and setting the clock, and an alarm ten seconds ahead. *)
From Stdlib Require Import ZArith Lia Ascii String.
From stdpp Require Import base list numbers gmap strings.
From S2P Require Import Prelude Libc Posix.

#[global] Open Scope Z_scope.

(** The members of [struct rtc_time] that the program uses. *)
Record rtc_time := Tm { tm_sec : Z; tm_min : Z; tm_hour : Z; tm_mday : Z; tm_mon : Z; tm_year : Z }.

(** The structure as it is passed to [ioctl]. *)
Definition encode (tm : rtc_time) : list Z := [tm_sec tm; tm_min tm; tm_hour tm; tm_mday tm; tm_mon tm; tm_year tm].
Definition decode (l : list Z) : option rtc_time :=
  match l with [s; m; h; d; mo; y] => Some (Tm s m h d mo y) | _ => None end.

Section Rtc.
Context `{PosixOS}.

(** An [ioctl] that fills the structure; it is left alone when the call fails. *)
Definition ioctl_tm (fd : Z) (req : string) (args : list Z) (tm : rtc_time) : fprog (Z * rtc_time) :=
  '(ret, out) ← sys_ioctl fd req args;
  mret (ret, if ret <? 0 then tm else default tm (decode out)).

Definition rtc_read (fd : Z) (tm : rtc_time) : fprog (Z * rtc_time) :=
  '(ret, tm) ← ioctl_tm fd "RTC_RD_TIME" [] tm;
  mret (if ret <? 0 then -1 else 0, tm).

(** 2024-03-23 08:08:08. *)
Definition rtc_write (fd : Z) (tm : rtc_time) : fprog (Z * rtc_time) :=
  let tm := Tm 8 8 8 23 2 (2024 - 1900) in
  '(ret, _) ← sys_ioctl fd "RTC_SET_TIME" (encode tm);
  mret (if ret <? 0 then -1 else 0, tm).

(** Ten seconds later. *)
Definition alarm_time (tm : rtc_time) : rtc_time :=
  let sec := s32 (tm_sec tm + 10) in
  let '(sec, min) := if 60 <=? sec then (Z.rem sec 60, s32 (tm_min tm + 1)) else (sec, tm_min tm) in
  let '(min, hour) := if min =? 60 then (0, s32 (tm_hour tm + 1)) else (min, tm_hour tm) in
  let hour := if hour =? 24 then 0 else hour in
  Tm sec min hour (tm_mday tm) (tm_mon tm) (tm_year tm).

Definition rtc_set_alarm (fd : Z) (tm : rtc_time) : fprog (Z * rtc_time) :=
  '(ret, tm) ← ioctl_tm fd "RTC_RD_TIME" [] tm;
  if ret <? 0 then mret (-1, tm)
  else
    let tm := alarm_time tm in
    '(ret, _) ← sys_ioctl fd "RTC_ALM_SET" (encode tm);
    if ret <? 0 then mret (-1, tm)
    else
      '(ret, tm) ← ioctl_tm fd "RTC_ALM_READ" [] tm;
      if ret <? 0 then mret (-1, tm)
      else
        '(ret, _) ← sys_ioctl fd "RTC_AIE_ON" [0];
        if ret =? -1 then mret (-1, tm)
        else
          '(ret, _) ← sys_read fd 8;
          if ret <? 0 then mret (-1, tm) else mret (0, tm).

Inductive opt := Opt_r | Opt_w | Opt_s | Opt_other.

(** The options, one after the other; [None]: the usage is printed. *)
Fixpoint run_opts (opts : list opt) (fd : Z) (tm : rtc_time) : fprog (option rtc_time) :=
  match opts with
  | [] => mret (Some tm)
  | Opt_other :: _ => mret None
  | o :: opts =>
      '(_, tm) ← match o with Opt_r => rtc_read fd tm | Opt_w => rtc_write fd tm | _ => rtc_set_alarm fd tm end;
      run_opts opts fd tm
  end.

(** [junk] is what [tm] holds at first.  The variable that [main] returns at its end is never
    given a value: [None]. *)
Definition main (opts : list opt) (junk : rtc_time) : fprog (option Z) :=
  fd ← sys_open "/dev/rtc0";
  if fd <? 0 then mret (Some fd)
  else
    end_ ← run_opts opts fd junk;
    match end_ with
    | None => mret (Some 0)
    | Some _ => _ ← sys_close fd; mret None
    end.
End Rtc.

(** * The alarm *)

Definition valid_time (tm : rtc_time) : Prop := 0 <= tm_sec tm < 60 /\ 0 <= tm_min tm < 60 /\ 0 <= tm_hour tm < 24.
Definition second_of_day (tm : rtc_time) : Z := 3600 * tm_hour tm + 60 * tm_min tm + tm_sec tm.

(** The alarm is set ten seconds after the time that was read, as a time of the day that
    is valid, across minutes, hours and midnight; the date stays that of the time read. *)
Lemma alarm_time_ok tm :
  valid_time tm ->
  valid_time (alarm_time tm) /\ second_of_day (alarm_time tm) = (second_of_day tm + 10) mod 86400 /\
  tm_mday (alarm_time tm) = tm_mday tm /\ tm_mon (alarm_time tm) = tm_mon tm /\ tm_year (alarm_time tm) = tm_year tm.
Proof.
  intros (Hs & Hm & Hh). unfold alarm_time, valid_time, second_of_day.
  assert (Hw : forall x, 0 <= x < 100 -> s32 x = x) by (intros; solve_word).
  rewrite (Hw (tm_sec tm + 10)), (Hw (tm_min tm + 1)), (Hw (tm_hour tm + 1)) by lia.
  destruct (Z.leb_spec 60 (tm_sec tm + 10)) as [Hc|Hc].
  - rewrite Z.rem_mod_nonneg by lia. destruct (Z.eqb_spec (tm_min tm + 1) 60) as [Hc2|Hc2].
    + destruct (Z.eqb_spec (tm_hour tm + 1) 24) as [Hc3|Hc3]; cbn; Z.to_euclidean_division_equations; lia.
    + rewrite (proj2 (Z.eqb_neq (tm_hour tm) 24)) by lia. cbn. Z.to_euclidean_division_equations; lia.
  - rewrite (proj2 (Z.eqb_neq (tm_min tm) 60)), (proj2 (Z.eqb_neq (tm_hour tm) 24)) by lia.
    cbn. Z.to_euclidean_division_equations; lia.
Qed.

(** * A run of the alarm test *)

(** The calls of a test that passes: the time, ten seconds later as the alarm, and the wait. *)
Definition alarm_calls (fd : Z) (now : list Z) (alarm : rtc_time) (r1 r2 r3 r4 r5 : Z) (o2 o3 o4 data : list Z) : list io :=
  [Ioctl fd "RTC_RD_TIME" [] r1 now; Ioctl fd "RTC_ALM_SET" (encode alarm) r2 o2;
   Ioctl fd "RTC_ALM_READ" [] r3 o3; Ioctl fd "RTC_AIE_ON" [0] r4 o4; Read fd 8 r5 data].

(** A call failed: the trace is not that of a test that passes. *)
Ltac fails :=
  eexists _, _; split; [done|]; split; [by right|]; split; [done|];
  intros (? & ? & ? & ? & ? & ? & ? & ? & ? & ? & ? & ? & Ht & Hrest); cbn in Ht; (discriminate Ht || (injection Ht as; lia)).

Section Alarm.
Context `{PosixOS}.

(** The clock has a valid time. *)
Context (clock : forall f fd ret out, os_ioctl f fd "RTC_RD_TIME" [] = (ret, out) -> 0 <= ret ->
  exists tm, decode out = Some tm /\ valid_time tm).

(** C22: the alarm test comes back with 0 or -1, and with 0 exactly when the clock was read,
    the alarm set ten seconds later and switched on, and its interrupt awaited, each without an
    error. *)
Theorem rtc_alarm_session fd junk f :
  wp (rtc_set_alarm fd junk) f (fun o f' => exists code tm', o = Ok (code, tm') /\ (code = 0 \/ code = -1) /\
    (code = 0 <-> exists now out alarm r1 r2 r3 r4 r5 o2 o3 o4 data,
      trace f' = rev (alarm_calls fd out alarm r1 r2 r3 r4 r5 o2 o3 o4 data) ++ trace f /\
      0 <= r1 /\ 0 <= r2 /\ 0 <= r3 /\ r4 <> -1 /\ 0 <= r5 /\ decode out = Some now /\ valid_time alarm /\
      second_of_day alarm = (second_of_day now + 10) mod 86400)).
Proof.
  unfold rtc_set_alarm, ioctl_tm.
  repeat wstep. apply wp_ioctl_did. intros r1 out Hclock. cbn [next]. repeat wstep.
  destruct (Z.ltb_spec r1 0) as [H1|H1]; [repeat wstep; by fails|].
  destruct (clock _ _ _ _ Hclock H1) as (now & Hnow & Hv). rewrite Hnow. change (default junk (Some now)) with now.
  repeat wstep. apply wp_ioctl_did. intros r2 o2 _. cbn [next]. repeat wstep.
  destruct (Z.ltb_spec r2 0) as [H2|H2]; [repeat wstep; by fails|].
  repeat wstep. apply wp_ioctl_did. intros r3 o3 _. cbn [next]. repeat wstep.
  destruct (Z.ltb_spec r3 0) as [H3|H3]; [repeat wstep; by fails|].
  repeat wstep. apply wp_ioctl_did. intros r4 o4 _. cbn [next]. repeat wstep.
  destruct (Z.eqb_spec r4 (-1)) as [H4|H4]; [repeat wstep; by fails|].
  repeat wstep. apply wp_read_did. intros r5 data _. cbn [next]. repeat wstep.
  destruct (Z.ltb_spec r5 0) as [H5|H5]; [repeat wstep; by fails|].
  repeat wstep.
  eexists _, _. split; [done|]. split; [by left|]. split; [intros _|done].
  exists now, out, (alarm_time now), r1, r2, r3, r4, r5, o2, o3, o4, data. split; [reflexivity|].
  destruct (alarm_time_ok now Hv) as (Hva & Hs & _). by split_and!.
Qed.
End Alarm.

(** * A clock before midnight *)

Module Midnight.
#[global] Instance machine : PosixOS := {|
  os_open f _ := next_free f;
  os_read _ _ _ := (8, [1; 0; 0; 0; 0; 0; 0; 0]);
  os_write _ _ data := Z.of_nat (length data);
  os_ioctl _ _ req _ := (0, if bool_decide (req = "RTC_RD_TIME"%string) then [55; 59; 23; 31; 11; 123] else []);
  os_ioctl_fd f _ _ _ := (0, next_free f);
  os_poll _ _ := (1, true);
  os_lseek _ _ := 0;
  os_access _ _ := 0 |}.

Lemma machine_clock f fd ret out :
  os_ioctl f fd "RTC_RD_TIME" [] = (ret, out) -> 0 <= ret -> exists tm, decode out = Some tm /\ valid_time tm.
Proof. intros [= <- <-] _. eexists. split; [reflexivity|]. unfold valid_time. cbn. lia. Qed.

Definition junk : rtc_time := Tm 0 0 0 0 0 0.
Definition at_start : files := Files ∅ [].

Lemma rtc_alarm_session_witness :
  nth_error (rev (trace (snd (rtc_set_alarm 3 junk at_start)))) 1 =
    Some (Ioctl 3 "RTC_ALM_SET" [5; 0; 0; 31; 11; 123] 0 []) /\
  wp (rtc_set_alarm 3 junk) at_start (fun o f' => exists code tm', o = Ok (code, tm') /\ (code = 0 \/ code = -1) /\
    (code = 0 <-> exists now out alarm r1 r2 r3 r4 r5 o2 o3 o4 data,
      trace f' = rev (alarm_calls 3 out alarm r1 r2 r3 r4 r5 o2 o3 o4 data) ++ trace at_start /\
      0 <= r1 /\ 0 <= r2 /\ 0 <= r3 /\ r4 <> -1 /\ 0 <= r5 /\ decode out = Some now /\ valid_time alarm /\
      second_of_day alarm = (second_of_day now + 10) mod 86400)).
Proof. split; [vm_compute; reflexivity|]. apply (rtc_alarm_session machine_clock 3 junk at_start). Defined.
End Midnight.
