(* ===== verification/Digests.v ===== *)
(** The digests that the crypto test module checks, as their standards define them: MD5
    (RFC 1321), SHA-256 and SHA-512 (FIPS 180-4) and HMAC (RFC 2104), on lists of bytes. *)
From Stdlib Require Import ZArith Lia Ascii String.
From stdpp Require Import base list numbers strings.
From S2P Require Import Prelude Libc.

#[global] Open Scope Z_scope.

(** * Words and blocks *)

Definition rotl (w n x : Z) : Z := wrap w (Z.lor (Z.shiftl x n) (Z.shiftr x (w - n))).
Definition rotr (w n x : Z) : Z := rotl w (w - n) x.
Definition lnot (w x : Z) : Z := Z.lxor x (2 ^ w - 1).

Definition of_be (l : list Z) : Z := fold_left (fun a b => 256 * a + b) l 0.
Definition of_le (l : list Z) : Z := of_be (rev l).
Definition to_le (n : nat) (z : Z) : list Z := (fun i => u8 (Z.shiftr z (8 * Z.of_nat i))) <$> seq 0 n.
Definition to_be (n : nat) (z : Z) : list Z := rev (to_le n z).

(** [n] pieces of [k] elements. *)
Fixpoint pieces {A} (n k : nat) (l : list A) : list (list A) :=
  match n with O => [] | S n => take k l :: pieces n k (drop k l) end.

(** A one bit, zeros, and the length in bits in [field] bytes. *)
Definition pad (block field : nat) (enc : nat -> Z -> list Z) (l : list Z) : list Z :=
  let n := Z.of_nat (length l) in
  let zeros := (- (n + 1 + Z.of_nat field)) mod Z.of_nat block in
  l ++ [128] ++ replicate (Z.to_nat zeros) 0 ++ enc field (8 * n).
Definition blocks (block : nat) (l : list Z) : list (list Z) := pieces (length l / block) block l.

(** * SHA-2 *)

Definition is_prime (n : nat) : bool := forallb (fun d => negb (Nat.eqb (n mod d) 0)) (seq 2 (n - 2)).
Definition primes (bound : nat) : list Z := Z.of_nat <$> List.filter is_prime (seq 2 (bound - 2)).

(** The integer cube root below [2 ^ n]. *)
Fixpoint cbrt (n : nat) (r z : Z) : Z :=
  match n with
  | O => r
  | S n => let r' := r + 2 ^ Z.of_nat n in cbrt n (if r' ^ 3 <=? z then r' else r) z
  end.

(** The first [w] bits of the fractions of square roots and of cube roots. *)
Definition root_bits (w p : Z) : Z := wrap w (Z.sqrt (p * 2 ^ (2 * w))).
Definition cube_bits (w p : Z) : Z := wrap w (cbrt (Z.to_nat w + 3) 0 (p * 2 ^ (3 * w))).

(** What tells SHA-256 from SHA-512; the rotations of the two sums and of the schedule. *)
Record sha2 := Sha2 {
  width : Z; sum0 : Z * Z * Z; sum1 : Z * Z * Z; sigma0 : Z * Z * Z; sigma1 : Z * Z * Z;
  start : list Z; keys : list Z }.

Definition start256 : list Z := Eval vm_compute in root_bits 32 <$> take 8 (primes 20).
Definition keys256 : list Z := Eval vm_compute in cube_bits 32 <$> take 64 (primes 312).
Definition start512 : list Z := Eval vm_compute in root_bits 64 <$> take 8 (primes 20).
Definition keys512 : list Z := Eval vm_compute in cube_bits 64 <$> take 80 (primes 410).

Definition sha256 : sha2 := {|
  width := 32; sum0 := (2, 13, 22); sum1 := (6, 11, 25); sigma0 := (7, 18, 3); sigma1 := (17, 19, 10);
  start := start256; keys := keys256 |}.
Definition sha512 : sha2 := {|
  width := 64; sum0 := (28, 34, 39); sum1 := (14, 18, 41); sigma0 := (1, 8, 7); sigma1 := (19, 61, 6);
  start := start512; keys := keys512 |}.

Section Sha2.
Context (h : sha2).
Let w := width h.

Definition three_rotations '((a, b, c) : Z * Z * Z) (x : Z) : Z := Z.lxor (Z.lxor (rotr w a x) (rotr w b x)) (rotr w c x).
Definition two_rotations '((a, b, c) : Z * Z * Z) (x : Z) : Z := Z.lxor (Z.lxor (rotr w a x) (rotr w b x)) (Z.shiftr x c).

(** [n] more words of the schedule; the words are kept newest first. *)
Fixpoint schedule (n : nat) (words : list Z) : list Z :=
  match n with
  | O => rev words
  | S n =>
      let at_ i := default 0 (words !! i) in
      schedule n (wrap w (two_rotations (sigma1 h) (at_ 1%nat) + at_ 6%nat + two_rotations (sigma0 h) (at_ 14%nat) + at_ 15%nat)
        :: words)
  end.

Definition sha2_round (s : list Z) '((k, word) : Z * Z) : list Z :=
  match s with
  | [a; b; c; d; e; f; g; x] =>
      let ch := Z.lxor (Z.land e f) (Z.land (lnot w e) g) in
      let maj := Z.lxor (Z.lxor (Z.land a b) (Z.land a c)) (Z.land b c) in
      let t1 := x + three_rotations (sum1 h) e + ch + k + word in
      let t2 := three_rotations (sum0 h) a + maj in
      [wrap w (t1 + t2); a; b; c; wrap w (d + t1); e; f; g]
  | _ => s
  end.

Definition sha2_block (s : list Z) (block : list Z) : list Z :=
  let bytes := Z.to_nat (w / 8) in
  let words := schedule (length (keys h) - 16) (rev (of_be <$> pieces 16 bytes block)) in
  zip_with (fun a b => wrap w (a + b)) s (fold_left sha2_round (zip (keys h) words) s).

Definition sha2_digest (l : list Z) : list Z :=
  let bytes := Z.to_nat (w / 8) in
  concat (to_be bytes <$> fold_left sha2_block (blocks (16 * bytes) (pad (16 * bytes) (2 * bytes) to_be l)) (start h)).
End Sha2.

(** * MD5 *)

(** The fractions of the sines of 1 to 64. *)
Definition md5_keys : list Z := [
  0xd76aa478; 0xe8c7b756; 0x242070db; 0xc1bdceee; 0xf57c0faf; 0x4787c62a; 0xa8304613; 0xfd469501;
  0x698098d8; 0x8b44f7af; 0xffff5bb1; 0x895cd7be; 0x6b901122; 0xfd987193; 0xa679438e; 0x49b40821;
  0xf61e2562; 0xc040b340; 0x265e5a51; 0xe9b6c7aa; 0xd62f105d; 0x02441453; 0xd8a1e681; 0xe7d3fbc8;
  0x21e1cde6; 0xc33707d6; 0xf4d50d87; 0x455a14ed; 0xa9e3e905; 0xfcefa3f8; 0x676f02d9; 0x8d2a4c8a;
  0xfffa3942; 0x8771f681; 0x6d9d6122; 0xfde5380c; 0xa4beea44; 0x4bdecfa9; 0xf6bb4b60; 0xbebfbc70;
  0x289b7ec6; 0xeaa127fa; 0xd4ef3085; 0x04881d05; 0xd9d4d039; 0xe6db99e5; 0x1fa27cf8; 0xc4ac5665;
  0xf4292244; 0x432aff97; 0xab9423a7; 0xfc93a039; 0x655b59c3; 0x8f0ccc92; 0xffeff47d; 0x85845dd1;
  0x6fa87e4f; 0xfe2ce6e0; 0xa3014314; 0x4e0811a1; 0xf7537e82; 0xbd3af235; 0x2ad7d2bb; 0xeb86d391].
Definition md5_shifts : list (list Z) := [[7; 12; 17; 22]; [5; 9; 14; 20]; [4; 11; 16; 23]; [6; 10; 15; 21]].

Definition md5_round (words : list Z) (s : list Z) '((i, k) : nat * Z) : list Z :=
  match s with
  | [a; b; c; d] =>
      let '(f, g) := match (i / 16)%nat with
        | 0%nat => (Z.lor (Z.land b c) (Z.land (lnot 32 b) d), i)
        | 1%nat => (Z.lor (Z.land d b) (Z.land (lnot 32 d) c), (5 * i + 1)%nat)
        | 2%nat => (Z.lxor (Z.lxor b c) d, (3 * i + 5)%nat)
        | _ => (Z.lxor c (Z.lor b (lnot 32 d)), (7 * i)%nat)
        end in
      let shift := default 0 (default [] (md5_shifts !! (i / 16)%nat) !! (i mod 4)%nat) in
      let word := default 0 (words !! (g mod 16)%nat) in
      [d; u32 (b + rotl 32 shift (u32 (f + a + k + word))); b; c]
  | _ => s
  end.

Definition md5_block (s : list Z) (block : list Z) : list Z :=
  let words := of_le <$> pieces 16 4 block in
  zip_with (fun a b => u32 (a + b)) s (fold_left (md5_round words) (zip (seq 0 64) md5_keys) s).

Definition md5_digest (l : list Z) : list Z :=
  concat (to_le 4 <$> fold_left md5_block (blocks 64 (pad 64 8 to_le l)) [0x67452301; 0xefcdab89; 0x98badcfe; 0x10325476]).

(** * HMAC *)

(** [hmac] for a hash with blocks of [block] bytes. *)
Definition hmac (hash : list Z -> list Z) (block : nat) (key l : list Z) : list Z :=
  let key := if Nat.ltb block (length key) then hash key else key in
  let key := key ++ replicate (block - length key) 0 in
  hash ((Z.lxor 0x5c <$> key) ++ hash ((Z.lxor 0x36 <$> key) ++ l)).
