(* ===== verification/Crypto.v ===== *)
(** crypto/realtek-crypto-test.c: the known-answer tests of the crypto driver, and the kernel
    threads that run them. *)
From Stdlib Require Import ZArith Lia Ascii String.
From stdpp Require Import base list numbers strings relations.
From S2P Require Import Prelude Libc Digests.

#[global] Open Scope Z_scope.

Definition ENOMEM : Z := 12.
Definition EINVAL : Z := 22.
Definition NUM_TEST_THREADS : Z := 2.

(** * The kernel's crypto interface *)

Inductive call :=
| AllocTfm (alg : string) (tfm : Z)
| AllocReq (got : bool)
| SetKey (key : list Z) (ret : Z)
| Digest (msg : list Z) (ret : Z) (out : list Z)
| Crypt (encrypt : bool) (iv text : list Z) (ret : Z) (out : list Z).

(** The transforms and requests that are allocated, and the calls so far, newest first. *)
Record kapi := KApi { tfms : list string; reqs : nat; calls : list call }.

(** The interface, whose answers may depend on all the calls: a transform or an error pointer;
    a request or NULL; an error or 0 and the bytes written, and for a cipher the bytes it leaves
    in the IV's buffer. *)
Class CryptoApi := {
  k_alloc_tfm : kapi -> string -> Z;
  k_alloc_req : kapi -> bool;
  k_setkey : kapi -> string -> list Z -> Z;
  k_digest : kapi -> string -> list Z -> list Z -> Z * list Z;
  k_crypt : kapi -> bool -> list Z -> list Z -> list Z -> Z * list Z * list Z }.

Definition IS_ERR (p : Z) : bool := (-4095 <=? p) && (p <? 0).

Definition called (c : call) (k : kapi) : kapi := KApi (tfms k) (reqs k) (c :: calls k).

Section Api.
Context `{CryptoApi}.

Definition crypto_alloc (alg : string) : prog kapi Z :=
  k ← get; let p := k_alloc_tfm k alg in
  modify (called (AllocTfm alg p));;
  when (negb (IS_ERR p)) (modify (fun k => KApi (alg :: tfms k) (reqs k) (calls k)));;
  mret p.

(** Freeing a transform that is not there is a fault. *)
Definition crypto_free (alg : string) : prog kapi unit :=
  k ← get;
  match tfms k with
  | a :: l => if bool_decide (a = alg) then modify (fun k => KApi l (reqs k) (calls k)) else stop Aborted
  | [] => stop Aborted
  end.

Definition request_alloc : prog kapi bool :=
  k ← get; let got := k_alloc_req k in
  modify (called (AllocReq got));;
  when got (modify (fun k => KApi (tfms k) (S (reqs k)) (calls k)));;
  mret got.

(** Freeing NULL does nothing. *)
Definition request_free (req : bool) : prog kapi unit :=
  if negb req then mret tt
  else
    k ← get;
    match reqs k with S n => modify (fun k => KApi (tfms k) n (calls k)) | O => stop Aborted end.

Definition setkey (alg : string) (key : list Z) : prog kapi Z :=
  k ← get; let ret := k_setkey k alg key in modify (called (SetKey key ret));; mret ret.

Definition digest (alg : string) (key msg : list Z) : prog kapi (Z * list Z) :=
  k ← get; let '(ret, out) := k_digest k alg key msg in
  modify (called (Digest msg ret out));; mret (ret, out).

Definition crypt (encrypt : bool) (key iv text : list Z) : prog kapi (Z * list Z * list Z) :=
  k ← get; let '(ret, out, iv') := k_crypt k encrypt key iv text in
  modify (called (Crypt encrypt iv text ret out));; mret (ret, out, iv').

(** * The tests *)

(** The first [n] bytes are equal. *)
Definition memcmp_eq (a b : list Z) (n : nat) : bool := bool_decide (take n a = take n b).

(** What the four digest tests share from the transform on: the key, if there is one, the
    digest, its comparison, and the end that every path comes to. *)
Definition ahash_body (alg : string) (key : option (list Z)) (message : list Z) (msglen : nat)
    (expected : list Z) (size : nat) : prog kapi Z :=
  req ← request_alloc;
  ret ←
    (if negb req then mret (- ENOMEM)
     else
       ret ← (match key with Some key => setkey alg key | None => mret 0 end);
       if negb (ret =? 0) then mret ret
       else
         '(ret, result) ← digest alg (default [] key) (take msglen message);
         mret (if negb (ret =? 0) then ret
               else if negb (memcmp_eq result expected size) then - EINVAL else 0));
  request_free req;;
  crypto_free alg;;
  mret ret.

Definition ahash_test (alg : string) (key : option (list Z)) (message : list Z) (msglen : nat)
    (expected : list Z) (size : nat) : prog kapi Z :=
  tfm ← crypto_alloc alg;
  if IS_ERR tfm then mret tfm else ahash_body alg key message msglen expected size.

Definition quick_fox : list Z := chars "The quick brown fox jumps over the lazy dog".

Definition md5_expected : list Z := [
  0x9e; 0x10; 0x7d; 0x9d; 0x37; 0x2b; 0xb6; 0x82; 0x6b; 0xd8; 0x1d; 0x35; 0x42; 0xa4; 0x19; 0xd6].
Definition rtk_md5_test : prog kapi Z := ahash_test "md5" None quick_fox 43 md5_expected 16.

Definition sha256_expected : list Z := [
  0x7d; 0x1a; 0x54; 0x12; 0x7b; 0x22; 0x25; 0x02; 0xf5; 0xb7; 0x9b; 0x5f; 0xb0; 0x80; 0x30; 0x61;
  0x15; 0x2a; 0x44; 0xf9; 0x2b; 0x37; 0xe2; 0x3c; 0x65; 0x27; 0xba; 0xf6; 0x65; 0xd4; 0xda; 0x9a].
Definition rtk_sha256_test : prog kapi Z := ahash_test "sha256" None (chars "abcdefg") 7 sha256_expected 32.

Definition sha512_message : list Z := [
  0x0f; 0xda; 0x56; 0x1a; 0x2b; 0x3b; 0xac; 0xf0; 0xd7; 0x47; 0xf3; 0x75; 0x12; 0x54; 0xe9; 0xe9;
  0x9c; 0x38; 0xbe; 0xf1; 0x70; 0xdb; 0xed; 0xe5; 0x4e; 0x68; 0x13; 0x8b; 0xe7; 0xbb; 0xd5; 0xa8;
  0xcb; 0xde; 0xb9; 0x6d; 0x5a; 0xf6; 0x0e; 0xad; 0xe8; 0x00; 0x1b; 0x67; 0xd4; 0xc3; 0xe9; 0x2f;
  0x40; 0xe0; 0xf5; 0xf3; 0xa8; 0xe1; 0x22; 0xfa; 0xc9; 0x4b; 0x6d; 0xf0; 0x1f; 0x3a; 0x97; 0xe1;
  0x19; 0x49; 0x7a; 0xc0; 0xfa; 0x40; 0x85; 0xe7; 0x1f; 0x34; 0xaf; 0x93; 0xb8; 0x78; 0xc6; 0x2c;
  0x49; 0xaa; 0x9f; 0x85; 0x7c; 0x4d; 0x81; 0x8f; 0xfa; 0x96; 0x1c; 0x97; 0x09; 0x62; 0xc2; 0xa3;
  0x2e; 0x88; 0xa1; 0x0e; 0x6d; 0xf2; 0x0a; 0xd3; 0x0e; 0x36; 0xe6; 0x4a; 0x67; 0x18; 0x8e; 0xd3;
  0xe3; 0x63; 0x73; 0x30; 0x73; 0x5b; 0x84; 0x18; 0xa3; 0x15; 0xef; 0xe2; 0x60; 0x04; 0x4d; 0xeb].
Definition sha512_expected : list Z := [
  0xa1; 0xf8; 0x80; 0x79; 0x13; 0xa3; 0x2c; 0x7b; 0xd8; 0x89; 0x05; 0x9c; 0xb0; 0xbc; 0x14; 0x02;
  0x87; 0x49; 0x02; 0x4d; 0x84; 0x4b; 0x45; 0x4c; 0x7d; 0x39; 0xf4; 0xbc; 0x83; 0x9a; 0xf8; 0xa7;
  0x1a; 0xb5; 0x3b; 0x33; 0x5c; 0x48; 0x44; 0xeb; 0x62; 0x9e; 0xf0; 0x7c; 0xc5; 0x4a; 0xbf; 0xa5;
  0x84; 0xb3; 0x38; 0x50; 0xc2; 0xd5; 0xd3; 0x83; 0x26; 0xfe; 0xfe; 0x7f; 0x2b; 0xb0; 0xf8; 0x33].
Definition rtk_sha512_test : prog kapi Z := ahash_test "sha512" None sha512_message 128 sha512_expected 64.

Definition hmac_expected : list Z := [
  0xb4; 0x2a; 0xf0; 0x90; 0x57; 0xba; 0xc1; 0xe2; 0xd4; 0x17; 0x08; 0xe4; 0x8a; 0x90; 0x2e; 0x09;
  0xb5; 0xff; 0x7f; 0x12; 0xab; 0x42; 0x8a; 0x4f; 0xe8; 0x66; 0x53; 0xc7; 0x3d; 0xd2; 0x48; 0xfb;
  0x82; 0xf9; 0x48; 0xa5; 0x49; 0xf7; 0xb7; 0x91; 0xa5; 0xb4; 0x19; 0x15; 0xee; 0x4d; 0x1e; 0xc3;
  0x93; 0x53; 0x57; 0xe4; 0xe2; 0x31; 0x72; 0x50; 0xd0; 0x37; 0x2a; 0xfa; 0x2e; 0xbe; 0xeb; 0x3a].
Definition rtk_hmac_sha512_test : prog kapi Z :=
  ahash_test "hmac(sha512)" (Some (chars "key")) quick_fox 43 hmac_expected 64.

Definition aes_plaintext : list Z := [
  0x6b; 0xc1; 0xbe; 0xe2; 0x2e; 0x40; 0x9f; 0x96; 0xe9; 0x3d; 0x7e; 0x11; 0x73; 0x93; 0x17; 0x2a].
Definition aes_key : list Z := [
  0x60; 0x3d; 0xeb; 0x10; 0x15; 0xca; 0x71; 0xbe; 0x2b; 0x73; 0xae; 0xf0; 0x85; 0x7d; 0x77; 0x81;
  0x1f; 0x35; 0x2c; 0x07; 0x3b; 0x61; 0x08; 0xd7; 0x2d; 0x98; 0x10; 0xa3; 0x09; 0x14; 0xdf; 0xf4].
Definition aes_iv : list Z := [
  0x00; 0x01; 0x02; 0x03; 0x04; 0x05; 0x06; 0x07; 0x08; 0x09; 0x0a; 0x0b; 0x0c; 0x0d; 0x0e; 0x0f].

(** The buffer of the IV is handed to both operations. *)
Definition rtk_aes_test : prog kapi Z :=
  tfm ← crypto_alloc "cbc(aes)";
  if IS_ERR tfm then mret tfm
  else
    req ← request_alloc;
    ret ←
      (if negb req then mret (- ENOMEM)
       else
         ret ← setkey "cbc(aes)" aes_key;
         if negb (ret =? 0) then mret ret
         else
           '(ret, ciphertext, iv) ← crypt true aes_key aes_iv aes_plaintext;
           if negb (ret =? 0) then mret ret
           else
             '(ret, decrypttext, _) ← crypt false aes_key iv (take 16 ciphertext);
             mret (if negb (ret =? 0) then ret
                   else if negb (memcmp_eq aes_plaintext decrypttext 16) then - EINVAL else 0));
    request_free req;;
    crypto_free "cbc(aes)";;
    mret ret.

(** The tests of a thread, in its order. *)
Definition tests : list (prog kapi Z) :=
  [rtk_sha256_test; rtk_sha512_test; rtk_md5_test; rtk_hmac_sha512_test; rtk_aes_test].
End Api.

(** * The threads *)

(** Where a thread is: before [++thread_num], between its read and its write, before test [i],
    in its loop, or back.  Nothing stops the threads, so [kthread_should_stop] is never true. *)
Inductive thread :=
| Starting
| Incrementing (n : Z)
| Testing (i : nat) (result : Z)
| Looping (result : Z)
| Ended (result : Z).

(** [thread_num] of [rtk_crypto_test_inst_init], the kernel, how far [rtk_crypto_test_init] is,
    and the threads it has created. *)
Record module := Module_ { thread_num : Z; api : kapi; created : Z; threads : list thread }.

Section Threads.
Context `{CryptoApi}.

(** One step of a thread. *)
Definition thread_step (m : module) (t : thread) : option (Z * kapi * thread) :=
  match t with
  | Starting => Some (thread_num m, api m, Incrementing (thread_num m))
  | Incrementing n => Some (n + 1, api m, Testing 0 0)
  | Testing i result =>
      match tests !! i with
      | Some test =>
          match test (api m) with
          | (Ok ret, k) => Some (thread_num m, k, Testing (S i) (if ret =? 0 then result else 1))
          | (Fault _, _) => None
          end
      | None => Some (thread_num m, api m, Looping result)
      end
  | Looping result =>
      Some (thread_num m, api m, if thread_num m =? NUM_TEST_THREADS then Ended result else Looping result)
  | Ended _ => None
  end.

(** The threads are created one after the other; what [kthread_run] answers is not looked at. *)
Inductive step : module -> module -> Prop :=
| step_create m (ok : bool) :
    created m < NUM_TEST_THREADS ->
    step m (Module_ (thread_num m) (api m) (created m + 1) (threads m ++ if ok then [Starting] else []))
| step_thread m j t n k t' :
    threads m !! j = Some t -> thread_step m t = Some (n, k, t') ->
    step m (Module_ n k (created m) (<[j := t']> (threads m))).

Definition start : module := Module_ 0 (KApi [] 0 []) 0 [].
End Threads.

(** * The tests free what they allocate *)

(** The same transforms and requests are there. *)
Definition same_stock : kapi -> kapi -> Prop := fun k k' => tfms k' = tfms k /\ reqs k' = reqs k.

Section Stock.
Context `{CryptoApi}.

(** A test comes back with the stock it found. *)
Definition balanced (c : prog kapi Z) : Prop := forall k, wp c k (fun o k' => (exists ret, o = Ok ret) /\ same_stock k k').

(** A call that leaves the stock alone and comes back. *)
Definition neutral {A} (c : prog kapi A) : Prop := forall k, wp c k (fun o k' => (exists a, o = Ok a) /\ same_stock k k').

Lemma neutral_ret {A} (a : A) : neutral (mret a).
Proof. intros k. wstep. split; [by eexists|done]. Qed.
Lemma neutral_bind {A B} (c : prog kapi A) (f : A -> prog kapi B) : neutral c -> (forall a, neutral (f a)) -> neutral (c ≫= f).
Proof.
  intros Hc Hf k. wstep. eapply wp_mono; [apply Hc|]. intros o k1 [[a ->] [H1 H2]]. cbn [next].
  eapply wp_mono; [apply Hf|]. intros o k2 [Ho [H3 H4]]. split; [done|]. split; congruence.
Qed.
Lemma neutral_setkey alg key : neutral (setkey alg key).
Proof. intros k. unfold setkey. do 5 wstep. split; [by eexists|done]. Qed.
Lemma neutral_digest alg key msg : neutral (digest alg key msg).
Proof. intros k. unfold digest. do 2 wstep. destruct (k_digest _ _ _ _). do 3 wstep. split; [by eexists|done]. Qed.
Lemma neutral_crypt e key iv text : neutral (crypt e key iv text).
Proof. intros k. unfold crypt. do 2 wstep. destruct (k_crypt _ _ _ _ _) as [[? ?] ?]. do 3 wstep. split; [by eexists|done]. Qed.

(** The frame of all tests: a transform, a request, what is done with them, and the end. *)
Lemma test_frame alg (body : bool -> prog kapi Z) :
  (forall req, neutral (body req)) ->
  balanced (tfm ← crypto_alloc alg;
            if IS_ERR tfm then mret tfm
            else req ← request_alloc; ret ← body req; request_free req;; crypto_free alg;; mret ret).
Proof.
  intros Hbody k. wstep. unfold crypto_alloc. do 5 wstep. set (tfm := k_alloc_tfm k alg).
  destruct (IS_ERR tfm) eqn:He; cbn [negb when].
  { wstep. cbn [next]. wstep. rewrite He. wstep. split; [by eexists|done]. }
  wstep. cbn [next]. wstep. rewrite He. wstep. unfold request_alloc. do 5 wstep. set (got := k_alloc_req _).
  apply wp_when; intros ->; cbn [next]; repeat wstep; (eapply wp_mono; [apply Hbody|]); intros o k1 [[ret ->] [H1 H2]];
    cbn [next] in *; cbn in H1, H2; wstep; unfold request_free; cbn [negb].
  - do 2 wstep. rewrite H2. wstep. wstep. unfold crypto_free. do 2 wstep. cbn [tfms]. rewrite H1, bool_decide_true by done.
    wstep. wstep. split; [by eexists|done].
  - wstep. wstep. unfold crypto_free. do 2 wstep. rewrite H1, bool_decide_true by done.
    wstep. wstep. split; [by eexists|done].
Qed.

Lemma ahash_test_balanced alg key message msglen expected size : balanced (ahash_test alg key message msglen expected size).
Proof.
  apply (test_frame alg (fun req => _)). intros req. destruct (negb req); [apply neutral_ret|].
  apply neutral_bind; [destruct key; [apply neutral_setkey|apply neutral_ret]|]. intros ret.
  destruct (negb _); [apply neutral_ret|]. apply neutral_bind; [apply neutral_digest|]. intros [? ?]. apply neutral_ret.
Qed.

Lemma aes_test_balanced : balanced rtk_aes_test.
Proof.
  apply (test_frame "cbc(aes)" (fun req => _)). intros req. destruct (negb req); [apply neutral_ret|].
  apply neutral_bind; [apply neutral_setkey|]. intros ret. destruct (negb _); [apply neutral_ret|].
  apply neutral_bind; [apply neutral_crypt|]. intros [[r out] iv]. destruct (negb _); [apply neutral_ret|].
  apply neutral_bind; [apply neutral_crypt|]. intros [[? ?] ?]. apply neutral_ret.
Qed.

Lemma tests_balanced : Forall balanced tests.
Proof. repeat constructor; try apply ahash_test_balanced. apply aes_test_balanced. Qed.
End Stock.

(** C12: whatever the crypto interface answers, every test comes back with a verdict, and
    has freed the transform and the request it allocated, once, on every path. *)
Theorem crypto_tests_free `{CryptoApi} :
  Forall (fun test => forall k, exists ret k', test k = (Ok ret, k') /\ tfms k' = tfms k /\ reqs k' = reqs k) tests.
Proof.
  eapply Forall_impl; [apply tests_balanced|]. intros test Ht k. specialize (Ht k). unfold wp in Ht.
  destruct (test k) as [o k']. destruct Ht as [[ret ->] Hs]. exists ret, k'. split; [done|exact Hs].
Qed.

(** * The digests *)

(** A digest test: its algorithm, key and message, and the digest that the standards define. *)
Record hash_test := HashTest {
  program : CryptoApi -> prog kapi Z; algorithm : string; hash_key : option (list Z); hashed : list Z;
  standard : list Z -> list Z }.

Definition hash_tests : list hash_test := [
  HashTest (@rtk_sha256_test) "sha256" None (chars "abcdefg") (sha2_digest sha256);
  HashTest (@rtk_sha512_test) "sha512" None sha512_message (sha2_digest sha512);
  HashTest (@rtk_md5_test) "md5" None quick_fox md5_digest;
  HashTest (@rtk_hmac_sha512_test) "hmac(sha512)" (Some (chars "key")) quick_fox
    (hmac (sha2_digest sha512) 128 (chars "key"))].

(** The calls of a run in which everything works and the driver gives [out]. *)
Definition good_calls (alg : string) (key : option (list Z)) (msg : list Z) (tfm : Z) (out : list Z) : list call :=
  Digest msg 0 out :: match key with Some key => [SetKey key 0] | None => [] end ++ [AllocReq true; AllocTfm alg tfm].

Lemma good_calls_app alg key msg tfm out l :
  good_calls alg key msg tfm out ++ l =
  Digest msg 0 out :: match key with Some key => [SetKey key 0] | None => [] end ++ AllocReq true :: AllocTfm alg tfm :: l.
Proof. by destruct key. Qed.

Section Verdicts.
Context `{CryptoApi}.

Lemma test_end req alg ret l n c (Q : outcome Z -> kapi -> Prop) :
  Q (Ok ret) (KApi l n c) ->
  wp (request_free req;; crypto_free alg;; mret ret) (KApi (alg :: l) (if req then S n else n) c) Q.
Proof.
  intros HQ. unfold wp, request_free, crypto_free, mbind, prog_bind, mret, prog_ret, get, modify.
  destruct req; cbn; rewrite bool_decide_true by done; exact HQ.
Qed.

(** The beginning of all tests. *)
Lemma test_start alg k (body : prog kapi Z) (Q : outcome Z -> kapi -> Prop) :
  (forall tfm, tfm = k_alloc_tfm k alg -> IS_ERR tfm = true -> Q (Ok tfm) (called (AllocTfm alg tfm) k)) ->
  (forall tfm, tfm = k_alloc_tfm k alg -> IS_ERR tfm = false -> wp body (KApi (alg :: tfms k) (reqs k) (AllocTfm alg tfm :: calls k)) Q) ->
  wp (tfm ← crypto_alloc alg; if IS_ERR tfm then mret tfm else body) k Q.
Proof.
  intros Herr Hgood. wstep. unfold crypto_alloc. do 5 wstep. set (tfm := k_alloc_tfm k alg).
  destruct (IS_ERR tfm) eqn:He; cbn [negb when]; wstep; cbn [next]; wstep; rewrite He; [wstep; by apply Herr|].
  by apply Hgood.
Qed.

Lemma wp_request_alloc k (Q : outcome bool -> kapi -> Prop) :
  (forall got : bool, got = k_alloc_req k -> Q (Ok got) (KApi (tfms k) (if got then S (reqs k) else reqs k) (AllocReq got :: calls k))) ->
  wp request_alloc k Q.
Proof.
  intros HQ. unfold request_alloc. do 5 wstep. specialize (HQ _ eq_refl).
  destruct (k_alloc_req k); cbn [when]; repeat wstep; cbn [next]; repeat wstep; exact HQ.
Qed.

(** The key is set, where there is one. *)
Lemma wp_key alg key k (Q : outcome Z -> kapi -> Prop) :
  (forall ret, ret <> 0 -> Q (Ok ret) (called (SetKey (default [] key) ret) k)) ->
  Q (Ok 0) (KApi (tfms k) (reqs k) (match key with Some key => [SetKey key 0] | None => [] end ++ calls k)) ->
  wp (match key with Some key => setkey alg key | None => mret 0 end) k Q.
Proof.
  intros Hbad Hgood. destruct key as [key|]; [|destruct k; by wstep]. unfold setkey. do 5 wstep.
  destruct (decide (k_setkey k alg key = 0)) as [Hr|Hr]; [rewrite Hr; exact Hgood|by apply Hbad].
Qed.

Lemma ahash_test_verdict alg key message msglen expected size k :
  wp (ahash_test alg key message msglen expected size) k (fun o k' =>
    o = Ok 0 <-> exists tfm out, IS_ERR tfm = false /\
      calls k' = good_calls alg key (take msglen message) tfm out ++ calls k /\ take size out = take size expected).
Proof.
  unfold ahash_test. apply test_start; intros tfm _ He.
  { split; [intros [= ->]; done|]. intros (tfm' & out & _ & [=] & _). }
  unfold ahash_body. wstep. apply wp_request_alloc. intros req _. cbn [next tfms reqs calls]. wstep.
  destruct req; cbn [negb]; wstep.
  2:{ apply (test_end false). split; [done|]. intros (tfm' & out & _ & [=] & _). }
  apply wp_key; cbn [tfms reqs calls]; [intros ret Hr|]; cbn [next].
  { rewrite (proj2 (Z.eqb_neq _ _)) by done. cbn [negb]. wstep. apply (test_end true).
    split; [congruence|]. intros (tfm' & out & _ & [=] & _). }
  rewrite Z.eqb_refl. cbn [negb]. wstep. unfold digest. do 2 wstep. destruct (k_digest _ _ _ _) as [ret out]. do 3 wstep. wstep.
  apply (test_end true). unfold called. cbn [tfms reqs calls]. setoid_rewrite good_calls_app.
  destruct (Z.eqb_spec ret 0) as [->|Hr]; cbn [negb].
  - unfold memcmp_eq. split.
    + intros Hz. exists tfm, out. split_and!; [done|done|]. destruct (bool_decide _) eqn:Hb; [|done].
      by apply bool_decide_eq_true in Hb.
    + intros (tfm' & out' & _ & [= -> _] & Ho). rewrite bool_decide_true by done. done.
  - split; [congruence|]. intros (tfm' & out' & _ & [=] & _). congruence.
Qed.
End Verdicts.

(** C7: a digest test passes exactly when the driver gives it a transform and a request,
    takes its key, and answers with the digest of the message that the standard defines: the
    digests written in the module are those of MD5, SHA-256, SHA-512 and HMAC-SHA-512. *)
Theorem hash_tests_verdict `{CryptoApi} :
  Forall (fun t => forall k, exists o k', program t _ k = (o, k') /\
    (o = Ok 0 <-> exists tfm out, IS_ERR tfm = false /\
      calls k' = good_calls (algorithm t) (hash_key t) (hashed t) tfm out ++ calls k /\
      take (length (standard t (hashed t))) out = standard t (hashed t))) hash_tests.
Proof.
  assert (Hone : forall alg key message msglen expected size (standard : list Z -> list Z) k,
    take msglen message = message -> length (take size expected) = size -> take size expected = standard message ->
    exists o k', ahash_test alg key message msglen expected size k = (o, k') /\
      (o = Ok 0 <-> exists tfm out, IS_ERR tfm = false /\
        calls k' = good_calls alg key message tfm out ++ calls k /\
        take (length (standard message)) out = standard message)).
  { intros alg key message msglen expected size standard k Hm Hl He. rewrite <- He, Hl.
    pose proof (ahash_test_verdict alg key message msglen expected size k) as Hv. rewrite Hm in Hv. unfold wp in Hv.
    destruct (ahash_test _ _ _ _ _ _ k) as [o k']. exists o, k'. by split. }
  repeat constructor; intros k; apply Hone; vm_compute; reflexivity.
Qed.

(** * The cipher *)

Definition xor (a b : list Z) : list Z := zip_with Z.lxor a b.

Lemma xor_cancel a b : length a = length b -> xor a (xor a b) = b.
Proof.
  revert b. induction a as [|x a IH]; intros [|y b] Hl; try done. unfold xor in *. cbn in *.
  rewrite IH by lia. by rewrite <- Z.lxor_assoc, Z.lxor_nilpotent, Z.lxor_0_l.
Qed.

Lemma xor_injective a b c : length a = length c -> length b = length c -> xor a c = xor b c -> a = b.
Proof.
  revert a b. induction c as [|z c IH]; intros [|x a] [|y b] Ha Hb Heq; try done. unfold xor in *. cbn in *.
  injection Heq as Hxy Heq. f_equal; [|apply IH; auto with lia].
  rewrite <- (Z.lxor_0_r x), <- (Z.lxor_0_r y), <- (Z.lxor_nilpotent z), <- !Z.lxor_assoc. by rewrite Hxy.
Qed.

Lemma length_xor a b : length a = length b -> length (xor a b) = length a.
Proof. intros Hl. unfold xor. rewrite length_zip_with. lia. Qed.

(** The interface works, and does CBC on one block with a block cipher; [chained]: encryption
    leaves the ciphertext in the buffer of the IV, as the IV of a block that would follow. *)
Class CbcLaws (A : CryptoApi) (encrypt decrypt : list Z -> list Z -> list Z) (chained : bool) : Prop := {
  cbc_alloc k alg : IS_ERR (k_alloc_tfm k alg) = false;
  cbc_request k : k_alloc_req k = true;
  cbc_setkey k alg key : k_setkey k alg key = 0;
  cbc_encrypt k key iv text :
    let c := encrypt key (xor iv text) in k_crypt k true key iv text = (0, c, if chained then c else iv);
  cbc_decrypt k key iv text : exists iv', k_crypt k false key iv text = (0, xor iv (decrypt key text), iv');
  block_size key text : length text = 16%nat -> length (encrypt key text) = 16%nat;
  block_inverse key text : length text = 16%nat -> decrypt key (encrypt key text) = text }.

(** With a driver that does CBC with a block cipher, the AES test passes when the
    driver leaves the buffer of the IV alone, and when the driver chains through that buffer it
    fails, unless the ciphertext happens to be the IV. *)
Theorem aes_test_verdict A encrypt decrypt chained `{!CbcLaws A encrypt decrypt chained} k :
  let ciphertext := encrypt aes_key (xor aes_iv aes_plaintext) in
  fst (rtk_aes_test k) = Ok (if chained && negb (bool_decide (ciphertext = aes_iv)) then - EINVAL else 0).
Proof.
  intros ciphertext. enough (Hw : wp rtk_aes_test k (fun o _ =>
    o = Ok (if chained && negb (bool_decide (ciphertext = aes_iv)) then - EINVAL else 0))).
  { unfold wp in Hw. destruct (rtk_aes_test k). exact Hw. }
  assert (Hx : length (xor aes_iv aes_plaintext) = 16%nat) by reflexivity.
  assert (Hc : length ciphertext = 16%nat) by by apply block_size.
  unfold rtk_aes_test. apply test_start; intros tfm -> He; rewrite cbc_alloc in He; [done|].
  wstep. apply wp_request_alloc. intros req ->. rewrite cbc_request. cbn [next tfms reqs calls negb]. wstep. wstep.
  unfold setkey. do 5 wstep. rewrite cbc_setkey, Z.eqb_refl. cbn [negb]. wstep.
  unfold crypt. do 2 wstep. rewrite cbc_encrypt. fold ciphertext. do 3 wstep. rewrite Z.eqb_refl. cbn [negb].
  wstep. do 2 wstep. set (k1 := called _ _). set (iv := if chained then ciphertext else aes_iv).
  destruct (cbc_decrypt k1 aes_key iv (take 16 ciphertext)) as [iv' Hdec]. rewrite Hdec.
  rewrite take_ge by lia. do 4 wstep. rewrite Z.eqb_refl. cbn [negb].
  apply (test_end true). unfold ciphertext at 1. rewrite block_inverse by done. fold ciphertext.
  assert (Hl : length iv = 16%nat) by (unfold iv; by destruct chained).
  f_equal. unfold memcmp_eq. rewrite (take_ge aes_plaintext) by reflexivity.
  rewrite take_ge by (rewrite length_xor, Hl; [done|by rewrite Hl, Hx]).
  assert (Hiff : aes_plaintext = xor iv (xor aes_iv aes_plaintext) <-> iv = aes_iv).
  { split; [|intros ->; symmetry; by apply xor_cancel]. intros Heq.
    apply (xor_injective _ _ (xor aes_iv aes_plaintext)); [by rewrite Hl|by rewrite Hx|].
    rewrite <- Heq. symmetry. by apply xor_cancel. }
  rewrite (bool_decide_ext _ _ Hiff). unfold iv. destruct chained; cbn [andb].
  - by destruct (bool_decide _).
  - by rewrite bool_decide_true.
Qed.

(** * The end of the threads *)

(** A thread that has counted itself. *)
Definition counted (t : thread) : bool := match t with Starting | Incrementing _ => false | _ => true end.
Definition count (ts : list thread) : nat := length (List.filter counted ts).

Lemma count_app ts us : count (ts ++ us) = (count ts + count us)%nat.
Proof. unfold count. by rewrite List.filter_app, length_app. Qed.

Lemma count_insert ts j t t' :
  ts !! j = Some t ->
  (count (<[j := t']> ts) + (if counted t then 1 else 0) = count ts + (if counted t' then 1 else 0))%nat.
Proof.
  revert j. induction ts as [|u ts IH]; intros [|j] Hj; [done|done| |].
  - injection Hj as ->. unfold count. cbn. destruct (counted t), (counted t'); cbn; lia.
  - specialize (IH j Hj). change (<[S j := t']> (u :: ts)) with (u :: <[j := t']> ts).
    unfold count in *. cbn. destruct (counted u); cbn; lia.
Qed.

Lemma count_all ts : (length ts <= count ts)%nat -> Forall (fun t => counted t = true) ts.
Proof.
  intros Hl. apply Forall_forall. intros t Ht. destruct (counted t) eqn:Hc; [done|exfalso].
  apply list_elem_of_lookup_1 in Ht as [j Hj]. pose proof (count_insert ts j t (Ended 0) Hj) as Hi.
  rewrite Hc in Hi. cbn in Hi.
  assert (Hle : forall l, (count l <= length l)%nat) by (intros l; unfold count; apply List.filter_length_le).
  specialize (Hle (<[j := Ended 0]> ts)). rewrite length_insert in Hle. lia.
Qed.

Section End_.
Context `{CryptoApi}.

(** The counter is no larger than the number of threads that have counted themselves. *)
Record module_ok (m : module) : Prop := ModuleOk {
  counter_ok : 0 <= thread_num m <= Z.of_nat (count (threads m));
  reads_ok : forall n, Incrementing n ∈ threads m -> 0 <= n <= Z.of_nat (count (threads m));
  created_ok : Z.of_nat (length (threads m)) <= created m <= NUM_TEST_THREADS;
  tests_ok : forall i result, Testing i result ∈ threads m -> (i <= length tests)%nat }.

Lemma module_start_ok : module_ok start.
Proof.
  split; [cbn; lia|by intros ? ?%elem_of_nil|cbn; unfold NUM_TEST_THREADS; lia|by intros ? ? ?%elem_of_nil].
Qed.

Lemma elem_of_insert_inv {A} (l : list A) j x y : y ∈ <[j := x]> l -> y = x \/ y ∈ l.
Proof.
  intros Hy. apply list_elem_of_lookup_1 in Hy as [i Hi]. apply list_lookup_insert_Some in Hi as [(<- & <- & _)|[_ Hi]];
    [by left|right; by eapply list_elem_of_lookup_2].
Qed.

Lemma module_step_ok m m' : module_ok m -> step m m' -> module_ok m'.
Proof.
  intros [H1 H2 H3 H4] Hs. destruct Hs as [m ok Hlt|m j t n k t' Hj Ht].
  - split; cbn [thread_num threads created].
    + rewrite count_app. lia.
    + intros n Hn. rewrite count_app. apply elem_of_app in Hn as [Hn|Hn]; [specialize (H2 n Hn); lia|].
      destruct ok; [by apply list_elem_of_singleton in Hn|by apply elem_of_nil in Hn].
    + rewrite length_app. unfold NUM_TEST_THREADS in *. destruct ok; cbn [length]; lia.
    + intros i result Hi. apply elem_of_app in Hi as [Hi|Hi]; [by eapply H4|].
      destruct ok; [by apply list_elem_of_singleton in Hi|by apply elem_of_nil in Hi].
  - pose proof (count_insert _ _ _ t' Hj) as Hc.
    assert (Ht_in : t ∈ threads m) by (by eapply list_elem_of_lookup_2).
    assert (Hgoal : 0 <= n <= Z.of_nat (count (<[j := t']> (threads m))) /\
      (forall n, t' = Incrementing n -> 0 <= n <= Z.of_nat (count (threads m))) /\
      (forall i result, t' = Testing i result -> (i <= length tests)%nat) /\
      (counted t = true -> counted t' = true)).
    { destruct t as [|x|i result|result|result]; cbn [thread_step] in Ht.
      - injection Ht as <- <- <-. cbn in Hc. split_and!; [lia|lia|intros ? [= <-]; lia|done|done].
      - injection Ht as <- <- <-. cbn in Hc. specialize (H2 _ Ht_in). split_and!; [lia|lia|done|intros ? ? [= <- _]; lia|done].
      - destruct (tests !! i) as [test|] eqn:Hi.
        + destruct (test (api m)) as [[ret|e] k'] eqn:Hrun; [|done]. injection Ht as <- <- <-. cbn in Hc.
          apply lookup_lt_Some in Hi. split_and!; [lia|lia|done|intros ? ? [= <- _]; exact Hi|done].
        + injection Ht as <- <- <-. cbn in Hc. split_and!; [lia|lia|done|done|done].
      - injection Ht as <- <- <-. destruct (_ =? _); cbn in Hc; split_and!; (lia || done).
      - done. }
    destruct Hgoal as (G1 & G2 & G3 & G4). split; cbn [thread_num threads created]; [exact G1| | |].
    + intros x Hx. apply elem_of_insert_inv in Hx as [Hx|Hx]; [specialize (G2 x (eq_sym Hx))|specialize (H2 x Hx)];
        destruct (counted t), (counted t'); try lia; by discriminate G4.
    + by rewrite length_insert.
    + intros i result Hi. apply elem_of_insert_inv in Hi as [Hi|Hi]; [by eapply G3|by eapply H4].
Qed.

Lemma module_reachable_ok m : rtc step start m -> module_ok m.
Proof.
  revert m. apply (rtc_ind_r module_ok); [apply module_start_ok|]. intros m1 m2 _ Hs Hok. by eapply module_step_ok.
Qed.

(** ** When both have counted *)

(** What a thread has to do yet, once both are counted. *)
Definition thread_weight (t : thread) : nat :=
  match t with Testing i _ => (length tests - i) + 2 | Looping _ => 1 | _ => 0 end.
Definition weight (m : module) : nat := sum_list (thread_weight <$> threads m).

Record both_counted (m : module) : Prop := BothCounted {
  both_num : thread_num m = NUM_TEST_THREADS;
  both_created : created m = NUM_TEST_THREADS;
  both_threads : length (threads m) = 2%nat;
  both_all : Forall (fun t => counted t = true) (threads m);
  both_tests : forall i result, Testing i result ∈ threads m -> (i <= length tests)%nat }.

Lemma reachable_both m : rtc step start m -> thread_num m = NUM_TEST_THREADS -> both_counted m.
Proof.
  intros Hr Hn. destruct (module_reachable_ok m Hr) as [H1 _ H3 H4]. unfold NUM_TEST_THREADS in *.
  assert (Hle : (count (threads m) <= length (threads m))%nat) by (unfold count; apply List.filter_length_le).
  split; [done|unfold NUM_TEST_THREADS; lia|lia|apply count_all; lia|done].
Qed.

(** A test always comes back. *)
Lemma test_returns i test k : tests !! i = Some test -> exists ret k', test k = (Ok ret, k').
Proof.
  intros Hi. pose proof (Forall_lookup_1 _ _ _ _ tests_balanced Hi k) as Hb. unfold wp in Hb.
  destruct (test k) as [o k']. destruct Hb as [[ret ->] _]. by eexists _, _.
Qed.

Lemma both_step m m' : both_counted m -> step m m' -> both_counted m' /\ (weight m' < weight m)%nat.
Proof.
  intros [H1 H2 H3 H4 H5] Hs. destruct Hs as [m ok Hlt|m j t n k t' Hj Ht]; [unfold NUM_TEST_THREADS in *; lia|].
  pose proof (sum_list_insert thread_weight _ _ _ t' Hj) as Hw.
  assert (Hin : t ∈ threads m) by (by eapply list_elem_of_lookup_2).
  assert (Hgoal : n = NUM_TEST_THREADS /\ counted t' = true /\ (thread_weight t' < thread_weight t)%nat /\
    (forall i result, t' = Testing i result -> (i <= length tests)%nat)).
  { pose proof (Forall_lookup_1 _ _ _ _ H4 Hj) as Hc. cbn beta in Hc.
    destruct t as [|x|i result|result|result]; try done; cbn [thread_step] in Ht.
    - destruct (tests !! i) as [test|] eqn:Hi.
      + destruct (test_returns i test (api m) Hi) as (ret & k' & Hrun). rewrite Hrun in Ht. injection Ht as <- <- <-.
        apply lookup_lt_Some in Hi. change (i < 5)%nat in Hi.
        split_and!; [done|done|cbn [thread_weight]; change (length tests) with 5%nat; lia|]. intros ? ? [= <- _]. exact Hi.
      + injection Ht as <- <- <-. split_and!; [done|done|cbn [thread_weight]; lia|done].
    - rewrite H1, Z.eqb_refl in Ht. injection Ht as <- <- <-. split_and!; [done|done|cbn; lia|done]. }
  destruct Hgoal as (-> & Hc & Hlt & Htest). split; [split; cbn [thread_num created threads]|].
  - done.
  - done.
  - by rewrite length_insert.
  - by apply Forall_insert.
  - intros i result Hi. apply elem_of_insert_inv in Hi as [Hi|Hi]; [by eapply Htest|by eapply H5].
  - unfold weight. cbn [threads]. lia.
Qed.

Lemma both_steps n m m' : both_counted m -> nsteps step n m m' -> both_counted m' /\ (n + weight m' <= weight m)%nat.
Proof.
  intros Hb Hn. induction Hn as [m|n m1 m2 m3 Hs Hn IH]; [split; [done|lia]|].
  destruct (both_step _ _ Hb Hs) as [Hb2 Hlt]. destruct (IH Hb2) as [Hb3 Hle]. split; [done|lia].
Qed.

Lemma both_weight m : both_counted m -> (weight m <= 2 * (length tests + 2))%nat.
Proof.
  intros [_ _ H3 _ H5]. unfold weight.
  assert (Hone : forall t, t ∈ threads m -> (thread_weight t <= length tests + 2)%nat).
  { intros t Ht. destruct t; cbn [thread_weight]; lia. }
  destruct (threads m) as [|t1 [|t2 [|]]]; try discriminate H3.
  pose proof (Hone t1 ltac:(set_solver)). pose proof (Hone t2 ltac:(set_solver)).
  change (thread_weight t1 + (thread_weight t2 + 0) <= 2 * (length tests + 2))%nat. lia.
Qed.
End End_.

(** The steps of the threads in the order of a list. *)
Fixpoint run `{CryptoApi} (order : list nat) (m : module) : option module :=
  match order with
  | [] => Some m
  | j :: order =>
      t ← threads m !! j;
      '(n, k, t') ← thread_step m t;
      run order (Module_ n k (created m) (<[j := t']> (threads m)))
  end.

Lemma run_steps `{CryptoApi} order m m' : run order m = Some m' -> nsteps step (length order) m m'.
Proof.
  revert m. induction order as [|j order IH]; intros m Hr; cbn in Hr; [injection Hr as <-; constructor|].
  destruct (threads m !! j) as [t|] eqn:Hj; [|done]. cbn in Hr.
  destruct (thread_step m t) as [[[n k] t']|] eqn:Ht; [|done]. cbn in Hr.
  eapply nsteps_l; [by eapply step_thread|by apply IH].
Qed.

(** C26: once both threads have counted themselves they come to an end, under every order
    of their steps, after at most 14 of them: none gets stuck before its end. *)
Theorem crypto_threads_end `{CryptoApi} m n m' :
  rtc step start m -> thread_num m = NUM_TEST_THREADS -> nsteps step n m m' ->
  (n <= 14)%nat /\
  ((forall m'', ~ step m' m'') ->
    exists result1 result2, threads m' = [Ended result1; Ended result2]).
Proof.
  intros Hr Hnum Hn. pose proof (reachable_both m Hr Hnum) as Hb.
  destruct (both_steps n m m' Hb Hn) as [Hb' Hle]. pose proof (both_weight m Hb) as Hw.
  change (length tests) with 5%nat in Hw. split; [lia|]. intros Hstuck. destruct Hb' as [H1 H2 H3 H4 H5].
  assert (Hend : forall j t, threads m' !! j = Some t -> exists result, t = Ended result).
  { intros j t Hj. pose proof (Forall_lookup_1 _ _ _ _ H4 Hj) as Hc. destruct t as [| |i r|r|r]; try done; [| |by eexists]; exfalso.
    - destruct (thread_step m' (Testing i r)) as [[[n' k'] t']|] eqn:Ht; [by eapply Hstuck, step_thread|].
      cbn [thread_step] in Ht. destruct (tests !! i) as [test|] eqn:Hi; [|done].
      destruct (test_returns i test (api m') Hi) as (ret & k' & Hrun). by rewrite Hrun in Ht.
    - by eapply Hstuck, (step_thread m' j (Looping r)). }
  destruct (threads m') as [|t1 [|t2 [|]]]; try discriminate H3.
  destruct (Hend 0%nat t1 eq_refl) as [r1 ->]. destruct (Hend 1%nat t2 eq_refl) as [r2 ->]. by exists r1, r2.
Qed.

(** Both threads read the counter before either has written it: one count is lost. *)
Definition lost (k : kapi) (t1 t2 : thread) : module := Module_ 1 k 2 [t1; t2].

(** There is an order of the steps in which one count is lost, and from there no thread
    ever ends: they report their results for ever. *)
Theorem crypto_lost_count `{CryptoApi} :
  exists m, rtc step start m /\ length (threads m) = 2%nat /\
    forall m', rtc step m m' -> forall result, Ended result ∉ threads m'.
Proof.
  exists (lost (api start) (Testing 0 0) (Testing 0 0)). split_and!; [|done|].
  - eapply rtc_l; [apply (step_create start true); cbn; unfold NUM_TEST_THREADS; lia|].
    eapply rtc_l; [apply (step_create _ true); cbn; unfold NUM_TEST_THREADS; lia|].
    eapply rtc_l; [eapply (step_thread _ 0%nat Starting); reflexivity|].
    eapply rtc_l; [eapply (step_thread _ 1%nat Starting); reflexivity|].
    eapply rtc_l; [eapply (step_thread _ 0%nat (Incrementing 0)); reflexivity|].
    eapply rtc_l; [eapply (step_thread _ 1%nat (Incrementing 0)); reflexivity|].
    reflexivity.
  - assert (Hinv : forall m', rtc step (lost (api start) (Testing 0 0) (Testing 0 0)) m' ->
      exists k t1 t2, m' = lost k t1 t2 /\ Forall (fun t => match t with Testing _ _ | Looping _ => True | _ => False end) [t1; t2]).
    { apply (rtc_ind_r (fun m' => _)); [eexists _, _, _; split; [reflexivity|by repeat constructor]|].
      intros m1 m2 _ Hs (k & t1 & t2 & -> & Hf). inversion Hs as [? ok Hlt|? j t n k' t' Hj Ht]; subst.
      { cbn in Hlt. unfold NUM_TEST_THREADS in Hlt. lia. }
      assert (Ht' : n = 1 /\ match t' with Testing _ _ | Looping _ => True | _ => False end).
      { pose proof (Forall_lookup_1 _ _ _ _ Hf Hj) as Hc. destruct t as [| |i r|r|r]; try done; cbn [thread_step] in Ht.
        - destruct (tests !! i) as [test|]; [|by injection Ht as <- <- <-].
          destruct (test _) as [[ret|e] k1]; [by injection Ht as <- <- <-|done].
        - by injection Ht as <- <- <-. }
      destruct Ht' as [-> Hc']. inversion Hf as [|? ? F1 F2]; subst. inversion F2 as [|? ? F3 F4]; subst.
      destruct j as [|[|j]]; [exists k', t', t2|exists k', t1, t'|done]; (split; [reflexivity|by repeat constructor]). }
    intros m' Hr result Hin. destruct (Hinv m' Hr) as (k & t1 & t2 & -> & Hf).
    by pose proof (proj1 (Forall_forall _ _) Hf _ Hin).
Qed.

(** * A driver that does as the standards say *)

Module Drivers.

(** A cipher that turns the block round, and digests that are known. *)
#[global] Instance driver (chained : bool) : CryptoApi := {|
  k_alloc_tfm _ _ := 0;
  k_alloc_req _ := true;
  k_setkey _ _ _ := 0;
  k_digest _ alg _ _ := (0,
    if bool_decide (alg = "md5"%string) then md5_expected
    else if bool_decide (alg = "sha256"%string) then sha256_expected
    else if bool_decide (alg = "sha512"%string) then sha512_expected
    else hmac_expected);
  k_crypt _ enc _ iv text :=
    if enc then (0, rev (xor iv text), if chained then rev (xor iv text) else iv) else (0, xor iv (rev text), iv) |}.

#[global] Instance driver_laws chained : CbcLaws (driver chained) (fun _ l => rev l) (fun _ l => rev l) chained.
Proof.
  split; try done.
  - intros k key iv text. by eexists.
  - intros key text Hl. by rewrite length_rev.
  - intros key text _. apply rev_involutive.
Qed.

Definition idle : kapi := KApi [] 0 [].

(** Both threads are there and have counted themselves; then they take turns. *)
Definition two_threads : module := Module_ 0 idle 2 [Starting; Starting].
Definition both : module := Module_ 2 idle 2 [Testing 0 0; Testing 0 0].
Definition turns : list nat := [0; 1; 0; 1; 0; 1; 0; 1; 0; 1; 0; 1; 0; 1]%nat.
Definition at_end : module := default both (@run (driver false) turns both).

Lemma both_reachable : rtc (@step (driver false)) start both.
Proof.
  eapply rtc_l; [apply (step_create start true); cbn; unfold NUM_TEST_THREADS; lia|].
  eapply rtc_l; [apply (step_create _ true); cbn; unfold NUM_TEST_THREADS; lia|].
  change (rtc (@step (driver false)) two_threads both). eapply rtc_nsteps. exists 4%nat.
  apply (run_steps [0; 0; 1; 1]%nat). reflexivity.
Qed.

Lemma crypto_threads_end_witness :
  threads at_end = [Ended 0; Ended 0] /\ (14 <= 14)%nat /\
  ((forall m'', ~ @step (driver false) at_end m'') ->
    exists result1 result2, threads at_end = [Ended result1; Ended result2]).
Proof.
  split; [vm_compute; reflexivity|].
  apply (@crypto_threads_end (driver false) both 14%nat at_end both_reachable eq_refl).
  apply (run_steps turns). vm_compute. reflexivity.
Defined.

Lemma aes_test_verdict_witness :
  fst (@rtk_aes_test (driver false) idle) = Ok 0 /\ fst (@rtk_aes_test (driver true) idle) = Ok (-22).
Proof.
  split.
  - rewrite (aes_test_verdict (driver false) (fun _ l => rev l) (fun _ l => rev l) false idle). reflexivity.
  - rewrite (aes_test_verdict (driver true) (fun _ l => rev l) (fun _ l => rev l) true idle). vm_compute. reflexivity.
Defined.
End Drivers.
