(* ===== verification/TimerHw.v ===== *)
(** timer_hw/realtek-timer-test.c: a hardware timer set by the module's parameters, whose
    interrupt reports how much time has passed. *)
From Stdlib Require Import ZArith Lia.
From stdpp Require Import base list numbers.
From S2P Require Import Prelude Libc.

#[global] Open Scope Z_scope.

Definition EINVAL : Z := 22.

(** What is done to timer [idx], the times read from the clock, and the result that is printed. *)
Inductive timer_event :=
| DynamicInit (period idx : Z)
| ChangePeriod (idx period : Z)
| IntConfig (idx enable : Z)
| Start (idx enable : Z)
| IntClear (idx : Z)
| Deinit (idx : Z)
| Clock (sec nsec : Z)
| Result (ns : Z).

(** The static variables of the module, and what has happened, newest first. *)
Record timer := Timer {
  start_time : Z; end_time : Z; set_time : Z; timer_idx : Z; set_timer_ms : Z; set_timer_us : Z;
  log : list timer_event }.

(** The timer driver, the clock, and the width of [long]. *)
Class TimerKernel := {
  k_dynamic_init : list timer_event -> Z -> Z;
  k_clock : list timer_event -> Z * Z;
  long_width : Z;
  long_wide : 32 <= long_width }.

Definition happened (e : timer_event) (t : timer) : timer :=
  Timer (start_time t) (end_time t) (set_time t) (timer_idx t) (set_timer_ms t) (set_timer_us t) (e :: log t).
Definition set_start (n : Z) (t : timer) : timer :=
  Timer n (end_time t) (set_time t) (timer_idx t) (set_timer_ms t) (set_timer_us t) (log t).
Definition set_end (n : Z) (t : timer) : timer :=
  Timer (start_time t) n (set_time t) (timer_idx t) (set_timer_ms t) (set_timer_us t) (log t).
Definition set_set_time (n : Z) (t : timer) : timer :=
  Timer (start_time t) (end_time t) n (timer_idx t) (set_timer_ms t) (set_timer_us t) (log t).
Definition set_idx (n : Z) (t : timer) : timer :=
  Timer (start_time t) (end_time t) (set_time t) n (set_timer_ms t) (set_timer_us t) (log t).

Section Timer.
Context `{TimerKernel}.

Abbreviation tprog := (prog timer).

Definition get_system_time_nanosecond : tprog Z :=
  t ← get; let '(sec, nsec) := k_clock (log t) in
  modify (happened (Clock sec nsec));;
  mret (swrap long_width (sec * 1000000000 + nsec)).

Definition rtk_timer_test_callback : tprog Z :=
  t ← get;
  modify (happened (IntClear (timer_idx t)));;
  modify (happened (Start (timer_idx t) 0));;
  now ← get_system_time_nanosecond;
  modify (set_end (s32 now));;
  t ← get;
  modify (happened (Result (s32 (end_time t - start_time t))));;
  mret 0.

(** The first part of the init function: the parameters as nanoseconds. *)
Definition unify_unit : tprog Z :=
  t ← get;
  if negb (set_timer_ms t =? 0) then modify (set_set_time (s32 (set_timer_ms t * 1000000)));; mret 0
  else if negb (set_timer_us t =? 0) then
    modify (set_set_time (s32 (set_timer_us t * 1000)));;
    t ← get;
    mret (if set_time t <? 200000 then - EINVAL else 0)
  else mret (- EINVAL).

Definition rtk_timer_test_init : tprog Z :=
  ret ← unify_unit;
  if negb (ret =? 0) then mret ret
  else
    t ← get;
    let idx := k_dynamic_init (log t) (set_time t) in
    modify (happened (DynamicInit (set_time t) idx));;
    modify (set_idx idx);;
    if idx <? 0 then mret (- EINVAL)
    else
      modify (happened (ChangePeriod idx (set_time t)));;
      modify (happened (IntConfig idx 1));;
      modify (happened (Start idx 1));;
      now ← get_system_time_nanosecond;
      modify (set_start (s32 now));;
      mret 0.

Definition rtk_timer_test_exit : tprog unit :=
  t ← get;
  modify (fun t => Timer (start_time t) (end_time t) (set_time t) (timer_idx t) 0 0 (log t));;
  modify (happened (IntClear (timer_idx t)));;
  modify (happened (Deinit (timer_idx t)));;
  modify (set_idx 0).

(** The module is loaded, its timer rings once, and it is removed. *)
Definition one_ring : tprog Z :=
  ret ← rtk_timer_test_init;
  if negb (ret =? 0) then mret ret
  else _ ← rtk_timer_test_callback; rtk_timer_test_exit;; mret 0.
End Timer.

(** Freshly loaded, with its parameters. *)
Definition loaded (ms us : Z) : timer := Timer 0 0 0 0 ms us [].

(** The period that is asked for, in nanoseconds; the parameters it can be computed for. *)
Definition period (ms us : Z) : Z := if ms =? 0 then us * 1000 else ms * 1000000.
Definition in_range (ms us : Z) : Prop := 1 <= ms <= 2147 \/ ms = 0 /\ 200 <= us <= 2147483.

(** * The result *)

(** The low 32 bits of a time, whatever the width of [long]. *)
Lemma swrap_mod w x : 32 <= w -> exists k, swrap w x = x + 2 ^ 32 * k.
Proof.
  intros Hw. exists (- ((x + 2 ^ (w - 1)) / 2 ^ w) * 2 ^ (w - 32)). unfold swrap, wrap.
  rewrite Z.mod_eq by lia. replace (2 ^ w) with (2 ^ 32 * 2 ^ (w - 32)) at 1 by (rewrite <- Z.pow_add_r by lia; f_equal; lia).
  ring.
Qed.

Lemma s32_shift x k : s32 (x + 2 ^ 32 * k) = s32 x.
Proof.
  unfold s32, swrap, wrap. f_equal. rewrite <- (Z.mod_add (x + 2 ^ (32 - 1)) k (2 ^ 32)) by lia. f_equal. ring.
Qed.

Lemma elapsed_exact w t0 t1 : 32 <= w -> 0 <= t1 - t0 < 2 ^ 31 -> s32 (s32 (swrap w t1) - s32 (swrap w t0)) = t1 - t0.
Proof.
  intros Hw Ht. destruct (swrap_mod w t0 Hw) as [k0 ->]. destruct (swrap_mod w t1 Hw) as [k1 ->]. rewrite !s32_shift.
  unfold s32 at 2 3. destruct (swrap_mod 32 t0 ltac:(lia)) as [j0 ->]. destruct (swrap_mod 32 t1 ltac:(lia)) as [j1 ->].
  replace (_ - _) with (t1 - t0 + 2 ^ 32 * (j1 - j0)) by ring. rewrite s32_shift. apply s32_id. lia.
Qed.

Section Rings.
Context `{TimerKernel}.

Lemma unify_in_range ms us (Q : outcome Z -> timer -> Prop) :
  in_range ms us -> Q (Ok 0) (set_set_time (period ms us) (loaded ms us)) -> wp unify_unit (loaded ms us) Q.
Proof.
  intros Hr HQ. unfold wp, unify_unit, mbind, prog_bind, get, modify, mret, prog_ret. unfold period in HQ.
  cbn [loaded set_timer_ms set_timer_us]. destruct Hr as [Hms|[-> Hus]].
  - rewrite (proj2 (Z.eqb_neq ms 0)) in * by lia. cbn [negb]. rewrite s32_id by lia. exact HQ.
  - rewrite (proj2 (Z.eqb_neq us 0)) by lia. cbn [negb Z.eqb set_set_time set_time].
    rewrite s32_id by lia. rewrite (proj2 (Z.ltb_ge _ _)) by lia. exact HQ.
Qed.

Lemma wp_clock t (Q : outcome Z -> timer -> Prop) :
  (forall sec nsec, Q (Ok (swrap long_width (sec * 1000000000 + nsec))) (happened (Clock sec nsec) t)) ->
  wp get_system_time_nanosecond t Q.
Proof. intros HQ. unfold get_system_time_nanosecond. do 2 wstep. destruct (k_clock (log t)). repeat wstep. apply HQ. Qed.

(** C23: for a period in range the module programs exactly that period, once, starts the
    timer, stops it when it rings, reports the time that has passed, and gives it back; when
    there is no timer it stops with an error and touches none. *)
Theorem timer_ring ms us :
  in_range ms us ->
  wp one_ring (loaded ms us) (fun o t => let p := period ms us in exists idx,
    (idx < 0 /\ o = Ok (- EINVAL) /\ log t = [DynamicInit p idx]) \/
    (exists s0 n0 s1 n1 r, 0 <= idx /\ o = Ok 0 /\
      rev (log t) = [DynamicInit p idx; ChangePeriod idx p; IntConfig idx 1; Start idx 1; Clock s0 n0;
        IntClear idx; Start idx 0; Clock s1 n1; Result r; IntClear idx; Deinit idx] /\
      let elapsed := (s1 * 1000000000 + n1) - (s0 * 1000000000 + n0) in
      0 <= elapsed < 2 ^ 31 -> r = elapsed)).
Proof.
  intros Hr. unfold one_ring, rtk_timer_test_init. do 2 wstep. apply unify_in_range; [done|].
  cbn [next negb Z.eqb]. repeat wstep. cbn [set_set_time set_time log loaded].
  set (idx := k_dynamic_init [] (period ms us)). destruct (Z.ltb_spec idx 0) as [Hi|Hi].
  { repeat wstep. cbn [next negb Z.eqb Z.opp EINVAL]. repeat wstep. exists idx. by left. }
  repeat wstep. apply wp_clock. intros s0 n0. cbn [next]. repeat wstep. cbn [next negb Z.eqb]. repeat wstep.
  unfold rtk_timer_test_callback. repeat wstep. apply wp_clock. intros s1 n1. cbn [next]. repeat wstep.
  unfold rtk_timer_test_exit. repeat wstep. exists idx. right. eexists s0, n0, s1, n1, _. split; [done|]. split; [done|].
  split; [reflexivity|]. intros He. cbn. apply elapsed_exact; [apply long_wide|exact He].
Qed.

(** Without a period, or with less than 200 microseconds, the module refuses and touches
    no timer. *)
Theorem timer_refuses us :
  0 <= us < 200 -> rtk_timer_test_init (loaded 0 us) = (Ok (- EINVAL), set_set_time (us * 1000) (loaded 0 us)).
Proof.
  intros Hus. unfold rtk_timer_test_init, unify_unit, mbind, prog_bind, get, modify, mret, prog_ret. cbn [loaded set_timer_ms set_timer_us negb Z.eqb].
  destruct (Z.eqb_spec us 0) as [->|Hne]; cbn [negb]; [reflexivity|].
  cbn [set_set_time set_time]. rewrite s32_id by lia. by rewrite (proj2 (Z.ltb_lt _ _)) by lia.
Qed.

(** From 2148 milliseconds on the product does not fit: the period that is programmed is wrong. *)
Lemma timer_period_wraps ms us :
  2148 <= ms <= 4294 ->
  wp unify_unit (loaded ms us) (fun o t => o = Ok 0 /\ set_time t = ms * 1000000 - 2 ^ 32).
Proof.
  intros Hms. unfold unify_unit. do 2 wstep. unfold loaded. cbn [set_timer_ms set_timer_us].
  rewrite (proj2 (Z.eqb_neq ms 0)) by lia. cbn [negb]. repeat wstep. split; [done|]. cbn. solve_word.
Qed.
End Rings.

(** * A timer *)

Module OneTimer.
(** A clock that runs a millisecond with each thing that happens. *)
#[global] Instance kernel : TimerKernel := {|
  k_dynamic_init _ _ := 3;
  k_clock l := (1700000000, Z.of_nat (length l) * 1000000);
  long_width := 32;
  long_wide := Z.le_refl 32 |}.

Lemma timer_ring_witness :
  In (Result 3000000) (log (snd (one_ring (loaded 1 0)))) /\
  wp one_ring (loaded 1 0) (fun o t => let p := period 1 0 in exists idx,
    (idx < 0 /\ o = Ok (- EINVAL) /\ log t = [DynamicInit p idx]) \/
    (exists s0 n0 s1 n1 r, 0 <= idx /\ o = Ok 0 /\
      rev (log t) = [DynamicInit p idx; ChangePeriod idx p; IntConfig idx 1; Start idx 1; Clock s0 n0;
        IntClear idx; Start idx 0; Clock s1 n1; Result r; IntClear idx; Deinit idx] /\
      let elapsed := (s1 * 1000000000 + n1) - (s0 * 1000000000 + n0) in
      0 <= elapsed < 2 ^ 31 -> r = elapsed)).
Proof. split; [vm_compute; tauto|]. apply (timer_ring 1 0). left. lia. Defined.

Lemma timer_refuses_witness :
  rtk_timer_test_init (loaded 0 100) = (Ok (-22), set_set_time 100000 (loaded 0 100)).
Proof. apply (timer_refuses 100). lia. Defined.
End OneTimer.
