(* ===== verification/Spi.v ===== *)
(** spi/spi.c: the SPI test tool.  The operating system is the parameter [SpiOS]: what each
    call answers, which may depend on everything the program has done so far; the calls
    themselves, with their arguments, are the trace. *)
From Stdlib Require Import ZArith Lia Ascii String.
From stdpp Require Import base list numbers strings.
From S2P Require Import Prelude Libc HexDump.

#[global] Open Scope Z_scope.

Definition TRANSFER_FULL_DUPLEX : Z := 0.
Definition TRANSFER_TX_ONLY : Z := 1.
Definition TRANSFER_RX_ONLY : Z := 2.

Definition default_tx : list Z :=
  [0xFF; 0xFF; 0xFF; 0xFF; 0xFF; 0xFF;
   0x40; 0x00; 0x00; 0x00; 0x00; 0x95;
   0xFF; 0xFF; 0xFF; 0xFF; 0xFF; 0xFF;
   0xFF; 0xFF; 0xFF; 0xFF; 0xFF; 0xFF;
   0xFF; 0xFF; 0xFF; 0xFF; 0xFF; 0xFF;
   0xF0; 0x0D].

(** struct spi_ioc_transfer: its buffers, [None] for a null pointer, and parameters. *)
Record spi_ioc_transfer := Transfer {
  tx_buf : option (list Z); rx_buf : bool; len : Z;
  delay_usecs : Z; speed_hz : Z; bits_per_word : Z }.

Inductive spi_request :=
| SPI_IOC_WR_MODE32 | SPI_IOC_RD_MODE32
| SPI_IOC_WR_BITS_PER_WORD | SPI_IOC_RD_BITS_PER_WORD
| SPI_IOC_WR_MAX_SPEED_HZ | SPI_IOC_RD_MAX_SPEED_HZ.

Inductive spi_event :=
| Stdout (s : string)
| Stderr (s : string)
| Open (path : string) (fd : Z)
| Close (fd : Z)
| Config (r : spi_request) (v : Z)
| Message (fd : Z) (tr : spi_ioc_transfer)
| WriteFile (fd : Z) (bytes : list Z)
| ReadFile (fd : Z) (size : Z)
| Malloc (size : Z)
| Settings (mode bits speed transfer_type : Z)
| Rate (tx_bits rx_bits : Z).

(** The globals of the file, with the values of their initializers in [initial]. *)
Record spi_state := Spi {
  device : string; device_slave : string; spi_role : string;
  mode : Z; bits : Z; transfer_type : Z;
  input_file : option string; output_file : option string;
  speed : Z; delay : Z; verbose : bool; transfer_size : Z; interval : Z;
  default_rx : list Z; input_tx : option string;
  read_count : Z; write_count : Z; prev_read_count : Z; prev_write_count : Z;
  trace : list spi_event }.

Definition initial : spi_state :=
  Spi "/dev/spidev0.0" "/dev/spidev1.0" "MASTER" 0 8 0 None None 7000000 100 false 0 5
    (replicate 32 0) None 0 0 0 0 [].

Class SpiOS := {
  os_open : list spi_event -> string -> Z;
  os_config : list spi_event -> spi_request -> Z -> Z * Z;
  os_message : list spi_event -> spi_ioc_transfer -> Z * list Z;
  os_write : list spi_event -> list Z -> Z;
  os_malloc : list spi_event -> Z -> option (list Z);
  os_stat : string -> Z;
  os_read : list spi_event -> Z -> Z * list Z;
  os_seconds : list spi_event -> Z }.

(** Assignments to the globals. *)
Definition set_device (v : string) (w : spi_state) : spi_state :=
  let 'Spi dv ds role md bt ty inf outf sp dl vb sz itv rx itx rc wc prc pwc tr := w in
  Spi v ds role md bt ty inf outf sp dl vb sz itv rx itx rc wc prc pwc tr.
Definition set_device_slave (v : string) (w : spi_state) : spi_state :=
  let 'Spi dv ds role md bt ty inf outf sp dl vb sz itv rx itx rc wc prc pwc tr := w in
  Spi dv v role md bt ty inf outf sp dl vb sz itv rx itx rc wc prc pwc tr.
Definition set_role (v : string) (w : spi_state) : spi_state :=
  let 'Spi dv ds role md bt ty inf outf sp dl vb sz itv rx itx rc wc prc pwc tr := w in
  Spi dv ds v md bt ty inf outf sp dl vb sz itv rx itx rc wc prc pwc tr.
Definition set_mode (v : Z) (w : spi_state) : spi_state :=
  let 'Spi dv ds role md bt ty inf outf sp dl vb sz itv rx itx rc wc prc pwc tr := w in
  Spi dv ds role v bt ty inf outf sp dl vb sz itv rx itx rc wc prc pwc tr.
Definition set_bits (v : Z) (w : spi_state) : spi_state :=
  let 'Spi dv ds role md bt ty inf outf sp dl vb sz itv rx itx rc wc prc pwc tr := w in
  Spi dv ds role md v ty inf outf sp dl vb sz itv rx itx rc wc prc pwc tr.
Definition set_transfer_type (v : Z) (w : spi_state) : spi_state :=
  let 'Spi dv ds role md bt ty inf outf sp dl vb sz itv rx itx rc wc prc pwc tr := w in
  Spi dv ds role md bt v inf outf sp dl vb sz itv rx itx rc wc prc pwc tr.
Definition set_input_file (v : string) (w : spi_state) : spi_state :=
  let 'Spi dv ds role md bt ty inf outf sp dl vb sz itv rx itx rc wc prc pwc tr := w in
  Spi dv ds role md bt ty (Some v) outf sp dl vb sz itv rx itx rc wc prc pwc tr.
Definition set_output_file (v : string) (w : spi_state) : spi_state :=
  let 'Spi dv ds role md bt ty inf outf sp dl vb sz itv rx itx rc wc prc pwc tr := w in
  Spi dv ds role md bt ty inf (Some v) sp dl vb sz itv rx itx rc wc prc pwc tr.
Definition set_speed (v : Z) (w : spi_state) : spi_state :=
  let 'Spi dv ds role md bt ty inf outf sp dl vb sz itv rx itx rc wc prc pwc tr := w in
  Spi dv ds role md bt ty inf outf v dl vb sz itv rx itx rc wc prc pwc tr.
Definition set_delay (v : Z) (w : spi_state) : spi_state :=
  let 'Spi dv ds role md bt ty inf outf sp dl vb sz itv rx itx rc wc prc pwc tr := w in
  Spi dv ds role md bt ty inf outf sp v vb sz itv rx itx rc wc prc pwc tr.
Definition set_verbose (v : bool) (w : spi_state) : spi_state :=
  let 'Spi dv ds role md bt ty inf outf sp dl vb sz itv rx itx rc wc prc pwc tr := w in
  Spi dv ds role md bt ty inf outf sp dl v sz itv rx itx rc wc prc pwc tr.
Definition set_transfer_size (v : Z) (w : spi_state) : spi_state :=
  let 'Spi dv ds role md bt ty inf outf sp dl vb sz itv rx itx rc wc prc pwc tr := w in
  Spi dv ds role md bt ty inf outf sp dl vb v itv rx itx rc wc prc pwc tr.
Definition set_default_rx (v : (list Z)) (w : spi_state) : spi_state :=
  let 'Spi dv ds role md bt ty inf outf sp dl vb sz itv rx itx rc wc prc pwc tr := w in
  Spi dv ds role md bt ty inf outf sp dl vb sz itv v itx rc wc prc pwc tr.
Definition set_input_tx (v : string) (w : spi_state) : spi_state :=
  let 'Spi dv ds role md bt ty inf outf sp dl vb sz itv rx itx rc wc prc pwc tr := w in
  Spi dv ds role md bt ty inf outf sp dl vb sz itv rx (Some v) rc wc prc pwc tr.
Definition with_trace (v : (list spi_event)) (w : spi_state) : spi_state :=
  let 'Spi dv ds role md bt ty inf outf sp dl vb sz itv rx itx rc wc prc pwc tr := w in
  Spi dv ds role md bt ty inf outf sp dl vb sz itv rx itx rc wc prc pwc v.
Definition add_counts (n : Z) (w : spi_state) : spi_state :=
  let 'Spi dv ds role md bt ty inf outf sp dl vb sz itv rx itx rc wc prc pwc tr := w in
  Spi dv ds role md bt ty inf outf sp dl vb sz itv rx itx (u64 (rc + n)) (u64 (wc + n)) prc pwc tr.
Definition save_counts (w : spi_state) : spi_state :=
  let 'Spi dv ds role md bt ty inf outf sp dl vb sz itv rx itx rc wc prc pwc tr := w in
  Spi dv ds role md bt ty inf outf sp dl vb sz itv rx itx rc wc rc wc tr.

Definition emit (e : spi_event) : prog spi_state unit :=
  modify (fun w => with_trace (e :: trace w) w).

(** [perror(s); abort();] *)
Definition pabort {A} (s : string) : prog spi_state A := emit (Stderr s);; stop Aborted.

Definition dump (bytes : list Z) (prefix : string) : prog spi_state unit :=
  s ← lift (hex_dump bytes 32 prefix); emit (Stdout s).

Section Spi.
Context `{SpiOS}.

(** The system calls: ask the system, record the call. *)
Definition open (path : string) : prog spi_state Z :=
  w ← get; let fd := os_open (trace w) path in emit (Open path fd);; mret fd.

Definition malloc (size : Z) : prog spi_state (option (list Z)) :=
  w ← get; emit (Malloc size);; mret (os_malloc (trace w) size).

(** Sends one message; the receive buffer is overwritten when its pointer is given. *)
Definition ioctl_message (fd : Z) (tr : spi_ioc_transfer) (rx : list Z)
    : prog spi_state (Z * list Z) :=
  w ← get;
  let '(ret, data) := os_message (trace w) tr in
  emit (Message fd tr);; mret (ret, if rx_buf tr then data else rx).

(** [transfer]; the new contents of [rx]. *)
Definition transfer (fd : Z) (tx rx : list Z) (n : Z) : prog spi_state (list Z) :=
  w ← get;
  let tr := Transfer (if transfer_type w =? TRANSFER_RX_ONLY then None else Some tx)
    (negb (transfer_type w =? TRANSFER_TX_ONLY)) (u32 n) (delay w) (speed w) (bits w) in
  '(ret, rx) ← ioctl_message fd tr rx;
  when (ret <? 1) (pabort "can't send spi message");;
  when (verbose w && negb (transfer_type w =? TRANSFER_RX_ONLY))
    (emit (Stdout ("SPI-" +:+ spi_role w));; dump tx "TX");;
  match output_file w with
  | Some path =>
      when (negb (transfer_type w =? TRANSFER_TX_ONLY))
        (out_fd ← open path;
         when (out_fd <? 0) (pabort "could not open output file");;
         w' ← get;
         emit (WriteFile out_fd rx);;
         when (negb (os_write (trace w') rx =? n)) (pabort "not all bytes written to output file");;
         emit (Close out_fd))
  | None => mret tt
  end;;
  when (verbose w && negb (transfer_type w =? TRANSFER_TX_ONLY))
    (emit (Stdout ("SPI-" +:+ spi_role w));; dump rx "RX");;
  mret rx.

Definition print_usage {A} : prog spi_state A :=
  emit (Stdout "Usage: [-RMSTsbdHOvplI]");; stop (Exited 1).

(** SPI_CPHA and SPI_CPOL of linux/spi/spi.h. *)
Definition SPI_CPHA : Z := 1.
Definition SPI_CPOL : Z := 2.

(** One option, the character [getopt_long] returns and its argument. *)
Definition apply_option (c : ascii) (optarg : string) (w : spi_state) : option spi_state :=
  match c with
  | "R"%char => Some (set_role optarg w)
  | "M"%char => Some (set_device optarg w)
  | "S"%char => Some (set_device_slave optarg w)
  | "T"%char => Some (set_transfer_type (u8 (atoi optarg)) w)
  | "s"%char => Some (set_speed (u32 (atoi optarg)) w)
  | "d"%char => Some (set_delay (u16 (atoi optarg)) w)
  | "b"%char => Some (set_bits (u8 (atoi optarg)) w)
  | "i"%char => Some (set_input_file optarg w)
  | "o"%char => Some (set_output_file optarg w)
  | "H"%char => Some (set_mode (Z.lor (mode w) SPI_CPHA) w)
  | "O"%char => Some (set_mode (Z.lor (mode w) SPI_CPOL) w)
  | "v"%char => Some (set_verbose true w)
  | "p"%char => Some (set_input_tx optarg w)
  | "l"%char => Some (set_transfer_size (atoi optarg) w)
  | _ => None
  end.

(** The loop of [parse_opts] over what [getopt_long] returns before -1. *)
Fixpoint parse_loop (opts : list (ascii * string)) : prog spi_state unit :=
  match opts with
  | [] => mret tt
  | (c, optarg) :: opts =>
      w ← get;
      match apply_option c optarg w with
      | Some w' => modify (fun _ => w');; parse_loop opts
      | None => print_usage
      end
  end.

Definition parse_opts (argc : Z) (opts : list (ascii * string)) : prog spi_state unit :=
  if argc =? 1 then print_usage else parse_loop opts.

(** [exit(1)] after both buffers have been dumped. *)
Definition transfer_error (tx rx : list Z) : prog spi_state unit :=
  emit (Stderr "transfer error !");; dump tx "TX";; dump rx "RX";; stop (Exited 1).

(** [memcmp(tx, rx, n)] is not zero; both have [n] bytes. *)
Definition differ (tx rx : list Z) : bool := negb (bool_decide (tx = rx)).

(** [transfer_escaped_string]; [ch] is what [unescape]'s local holds at first. *)
Definition transfer_escaped_string (ch : Z) (fd : Z) (str : string) : prog spi_state unit :=
  let size := Z.of_nat (length (chars str)) in
  tx ← malloc size;
  when (bool_decide (tx = None)) (pabort "can't allocate tx buffer");;
  rx ← malloc size;
  when (bool_decide (rx = None)) (pabort "can't allocate rx buffer");;
  tx ← lift (unescape ch (chars str));
  let size := Z.of_nat (length tx) in
  rx ← transfer fd tx (take (length tx) (default [] rx)) size;
  if differ tx rx then transfer_error tx rx
  else emit (Stdout "bytes transfer success !").

Definition transfer_file (fd : Z) (filename : string) : prog spi_state unit :=
  let st_size := os_stat filename in
  when (st_size =? -1) (pabort "can't stat input file");;
  tx_fd ← open filename;
  when (tx_fd <? 0) (pabort "can't open input file");;
  tx ← malloc st_size;
  when (bool_decide (tx = None)) (pabort "can't allocate tx buffer");;
  rx ← malloc st_size;
  when (bool_decide (rx = None)) (pabort "can't allocate rx buffer");;
  w ← get;
  let '(bytes, tx) := os_read (trace w) st_size in
  emit (ReadFile tx_fd st_size);;
  when (negb (bytes =? st_size)) (pabort "failed to read input file");;
  rx ← transfer fd tx (default [] rx) st_size;
  if differ tx rx then transfer_error tx rx
  else emit (Stdout "bytes transfier success !");; emit (Close tx_fd).

(** The rates, as the numerators of what is printed. *)
Definition show_transfer_rate : prog spi_state unit :=
  w ← get;
  emit (Rate (u64 (u64 (write_count w - prev_write_count w) * 8))
         (u64 (u64 (read_count w - prev_read_count w) * 8)));;
  modify save_counts.

(** [tx[i] = i] in bytes. *)
Definition ramp (n : Z) : list Z := (fun i => u8 (Z.of_nat i)) <$> seq 0 (Z.to_nat n).

(** [malloc(len)] and the length handed to [transfer] convert the [int] to [size_t]. *)
Definition transfer_buf (fd : Z) (n : Z) : prog spi_state unit :=
  tx ← malloc (u64 n);
  when (bool_decide (tx = None)) (pabort "can't allocate tx buffer");;
  let tx := ramp n in
  rx ← malloc (u64 n);
  when (bool_decide (rx = None)) (pabort "can't allocate rx buffer");;
  rx ← transfer fd tx (default [] rx) (u64 n);
  modify (add_counts n);;
  w ← get;
  if (transfer_type w =? TRANSFER_FULL_DUPLEX) || (transfer_type w =? TRANSFER_RX_ONLY) then
    if differ tx rx then transfer_error tx rx
    else emit (Stdout ("SPI-" +:+ spi_role w +:+ " bytes transfer success !"))
  else mret tt.

(** A configuration request: its result, and the value it leaves in its variable. *)
Definition configure (r : spi_request) (v : Z) (msg : string) : prog spi_state (Z * Z) :=
  w ← get;
  let '(ret, v') := os_config (trace w) r v in
  emit (Config r v);;
  when (ret =? -1) (pabort msg);;
  mret (ret, v').

(** mode, bits per word, max speed hz: each written, then read back; the last result. *)
Definition setup_device : prog spi_state Z :=
  w ← get; _ ← configure SPI_IOC_WR_MODE32 (mode w) "can't set spi mode";
  '(_, v) ← configure SPI_IOC_RD_MODE32 (mode w) "can't get spi mode"; modify (set_mode (u32 v));;
  w ← get; _ ← configure SPI_IOC_WR_BITS_PER_WORD (bits w) "can't set bits per word";
  '(_, v) ← configure SPI_IOC_RD_BITS_PER_WORD (bits w) "can't get bits per word";
  modify (set_bits (u8 v));;
  w ← get; _ ← configure SPI_IOC_WR_MAX_SPEED_HZ (speed w) "can't set max speed hz";
  '(ret, v) ← configure SPI_IOC_RD_MAX_SPEED_HZ (speed w) "can't get max speed hz";
  modify (set_speed (u32 v));;
  w ← get; emit (Settings (mode w) (bits w) (speed w) (transfer_type w));;
  mret ret.

(** The last branch of [main]: the built-in message. *)
Definition transfer_default (fd : Z) : prog spi_state unit :=
  w ← get;
  rx ← transfer fd default_tx (default_rx w) (Z.of_nat (length default_tx));
  modify (set_default_rx rx);;
  if (transfer_type w =? TRANSFER_RX_ONLY) || (transfer_type w =? TRANSFER_FULL_DUPLEX) then
    if differ default_tx rx then transfer_error default_tx rx
    else emit (Stdout ("SPI-" +:+ spi_role w +:+ ": bytes transfer success !"))
  else mret tt.

(** A transfer of [transfer_size] bytes, timed by the clock. *)
Definition transfer_timed (fd : Z) : prog spi_state unit :=
  w ← get;
  let last_stat := os_seconds (trace w) in
  transfer_buf fd (transfer_size w);;
  w ← get;
  let current := os_seconds (trace w) in
  when (interval w <? current - last_stat) show_transfer_rate;;
  emit (Stdout "total").

Definition open_role : prog spi_state Z :=
  w ← get;
  if bool_decide (spi_role w = "MASTER"%string) then
    emit (Stdout ("SPI Master test with device " +:+ device w));; open (device w)
  else if bool_decide (spi_role w = "SLAVE"%string) then
    emit (Stdout ("SPI Slave test with device " +:+ device_slave w));; open (device_slave w)
  else
    emit (Stdout "-R --role must be MASTER or SLAVE");; pabort "invalid spi role".

Definition main (ch : Z) (argc : Z) (opts : list (ascii * string)) : prog spi_state Z :=
  parse_opts argc opts;;
  fd ← open_role;
  when (fd <? 0) (pabort "can't open device");;
  ret ← setup_device;
  w ← get;
  when (bool_decide (is_Some (input_tx w)) && bool_decide (is_Some (input_file w)))
    (pabort "only one of -p and --input may be selected");;
  match input_tx w with
  | Some str => transfer_escaped_string ch fd str
  | None =>
      match input_file w with
      | Some file => transfer_file fd file
      | None => if negb (transfer_size w =? 0) then transfer_timed fd else transfer_default fd
      end
  end;;
  emit (Close fd);;
  mret ret.
End Spi.

(** * Reasoning *)

Definition log (e : spi_event) (w : spi_state) : spi_state := with_trace (e :: trace w) w.

(** The globals other than the trace are unchanged, and the trace has grown. *)
Record extends (w w' : spi_state) : Prop := {
  extends_vars : with_trace [] w' = with_trace [] w;
  extends_trace : exists l, trace w' = l ++ trace w }.

#[global] Instance extends_preorder : PreOrder extends.
Proof.
  split.
  - intros w. split; [done|]. by exists [].
  - intros w1 w2 w3 [H1 [l1 Hl1]] [H2 [l2 Hl2]]. split; [by rewrite H2|].
    exists (l2 ++ l1). by rewrite Hl2, Hl1, (assoc_L (++)).
Qed.

Lemma extends_log e w : extends w (log e w).
Proof. split; [by destruct w|]. exists [e]. by destruct w. Qed.

Lemma extends_event e w w' : extends w w' -> e ∈ trace w -> e ∈ trace w'.
Proof. intros [_ [l ->]] He. apply elem_of_app. by right. Qed.

Lemma extends_fields w w' :
  extends w w' ->
  transfer_type w' = transfer_type w /\ output_file w' = output_file w /\
  input_tx w' = input_tx w /\ input_file w' = input_file w /\
  transfer_size w' = transfer_size w /\ spi_role w' = spi_role w /\
  default_rx w' = default_rx w /\ interval w' = interval w.
Proof. intros [Hv _]. destruct w, w'. simpl in *. injection Hv. intros. by subst. Qed.

Lemma wp_emit e w (Q : outcome unit -> spi_state -> Prop) : Q (Ok tt) (log e w) -> wp (emit e) w Q.
Proof. done. Qed.

Lemma wp_pabort {A} s w (Q : outcome A -> spi_state -> Prop) :
  Q (Fault Aborted) (log (Stderr s) w) -> wp (pabort s) w Q.
Proof. done. Qed.

Lemma wp_dump bytes prefix w (Q : outcome unit -> spi_state -> Prop) :
  (forall s, hex_dump bytes 32 prefix = Ok s -> Q (Ok tt) (log (Stdout s) w)) ->
  wp (dump bytes prefix) w Q.
Proof. intros HQ. unfold dump. repeat wstep. unfold hex_dump. cbn -[hex_dump_loop]. by apply HQ. Qed.

Lemma wp_exec {A} (c : prog spi_state A) w Q :
  wp c w (fun o w' => extends w w' /\ Q o w') -> wp c w Q.
Proof. intros Hc. eapply wp_mono; [exact Hc|]. by intros o w' [_ ?]. Qed.

Lemma wp_any {A} (c : prog spi_state A) w : wp c w (fun _ _ => True).
Proof. unfold wp. by destruct (c w). Qed.

(** Walks back along the calls logged since the state of the goal. *)
Ltac log_ext := repeat first [reflexivity | eapply extends_log | etransitivity; [|apply extends_log]].

(** Skips a command nothing is known about: only its success goes on. *)
Ltac wskip :=
  wstep; eapply wp_mono; [apply wp_any|];
  let o := fresh "o" in let w0 := fresh "w" in
  intros [o|?] w0 _; cbn [next]; [|done].

Section Facts.
Context `{SpiOS}.

(** The message [transfer] sends. *)
Definition message_of (w : spi_state) (tx : list Z) (n : Z) : spi_ioc_transfer :=
  Transfer (if transfer_type w =? TRANSFER_RX_ONLY then None else Some tx)
    (negb (transfer_type w =? TRANSFER_TX_ONLY)) (u32 n) (delay w) (speed w) (bits w).

(** What can make [transfer] abort: the message, or the output file. *)
Definition transfer_fails (w : spi_state) (tx : list Z) (n : Z) : Prop :=
  (os_message (trace w) (message_of w tx n)).1 < 1 \/
  exists path hist, output_file w = Some path /\ transfer_type w <> TRANSFER_TX_ONLY /\
    (os_open hist path < 0 \/ exists bytes, os_write hist bytes <> n).


Lemma wp_ioctl_message fd tr rx w (Q : outcome (Z * list Z) -> spi_state -> Prop) :
  (let '(ret, data) := os_message (trace w) tr in
   Q (Ok (ret, if rx_buf tr then data else rx)) (log (Message fd tr) w)) ->
  wp (ioctl_message fd tr rx) w Q.
Proof. unfold ioctl_message. intros HQ. wstep. wstep. by destruct (os_message _ _). Qed.

Lemma wp_open path w (Q : outcome Z -> spi_state -> Prop) :
  Q (Ok (os_open (trace w) path)) (log (Open path (os_open (trace w) path)) w) ->
  wp (open path) w Q.
Proof. done. Qed.

Lemma wp_malloc size w (Q : outcome (option (list Z)) -> spi_state -> Prop) :
  Q (Ok (os_malloc (trace w) size)) (log (Malloc size) w) -> wp (malloc size) w Q.
Proof. done. Qed.

Lemma wp_transfer fd tx rx n w :
  wp (transfer fd tx rx n) w (fun o w' =>
    let msg := message_of w tx n in
    let '(ret, data) := os_message (trace w) msg in
    extends w w' /\ Message fd msg ∈ trace w' /\
    match o with
    | Ok rx' => 1 <= ret /\ rx' = (if rx_buf msg then data else rx)
    | Fault f => f = Aborted /\ transfer_fails w tx n
    end).
Proof.
  unfold transfer. wstep. wstep. wstep. fold (message_of w tx n).
  set (msg := message_of w tx n). cbv zeta. apply wp_ioctl_message.
  destruct (os_message (trace w) msg) as [ret data] eqn:Hmsg. cbn [next].
  set (rx' := if rx_buf msg then data else rx).
  assert (H1 : extends w (log (Message fd msg) w)) by apply extends_log.
  assert (H1' : Message fd msg ∈ trace (log (Message fd msg) w)) by (destruct w; left).
  revert H1 H1'. generalize (log (Message fd msg) w). intros w1 H1 H1'.
  assert (Hkeep : forall w2, extends w1 w2 -> extends w w2 /\ Message fd msg ∈ trace w2).
  { intros w2 H2. split; [by transitivity w1|by eapply extends_event]. }
  wstep. apply wp_when.
  { intros Hret%Z.ltb_lt. apply wp_pabort. cbn [next].
    destruct (Hkeep (log (Stderr "can't send spi message") w1)) as [? ?]; [apply extends_log|].
    split_and!; try done. left. fold msg. by rewrite Hmsg. }
  intros Hret%Z.ltb_ge. cbn [next].
  (* the dump of TX *)
  wstep. eapply wp_mono with (P := fun o w2 => o = Ok tt /\ extends w1 w2).
  { apply wp_when; [|intros _; by split]. intros _. wstep. apply wp_emit. cbn [next]. apply wp_dump.
    intros s _. split; [done|]. log_ext. }
  intros o w2 [-> H2]. cbn [next].
  (* the output file *)
  wstep. eapply wp_mono with (P := fun o w3 => extends w2 w3 /\
    (o = Ok tt \/ o = Fault Aborted /\ transfer_fails w tx n)).
  { destruct (output_file w) as [path|] eqn:Hout; [|wstep; split; [reflexivity|by left]].
    apply wp_when; [|intros _; split; [reflexivity|by left]]. intros Htt%negb_true_iff%Z.eqb_neq.
    wstep. apply wp_open. cbn [next]. wstep. apply wp_when.
    { intros Hfd%Z.ltb_lt. apply wp_pabort. cbn [next]. split; [log_ext|].
      right. split; [done|]. right. exists path, (trace w2). eauto. }
    intros _. cbn [next]. wstep. wstep. wstep. apply wp_emit. cbn [next]. wstep. apply wp_when.
    { intros Hw%negb_true_iff%Z.eqb_neq. apply wp_pabort. cbn [next]. split; [log_ext|].
      right. split; [done|]. right. eexists path, _. split_and!; eauto. }
    intros _. cbn [next]. apply wp_emit. split; [log_ext|by left]. }
  intros o w3 [H3 [-> |[-> Hf]]]; cbn [next].
  2: { destruct (Hkeep w3) as [? ?]; [by transitivity w2|]. done. }
  (* the dump of RX *)
  wstep. eapply wp_mono with (P := fun o w4 => o = Ok tt /\ extends w3 w4).
  { apply wp_when; [|intros _; by split]. intros _. wstep. apply wp_emit. cbn [next]. apply wp_dump.
    intros s _. split; [done|]. log_ext. }
  intros o w4 [-> H4]. cbn [next]. wstep.
  destruct (Hkeep w4) as [? ?]; [by transitivity w3; [transitivity w2|]|]. done.
Qed.

(** ** Success means an echo *)

(** In full duplex mode, some message was sent and its reply was its own data. *)
Definition echoed (w : spi_state) : Prop :=
  transfer_type w = TRANSFER_FULL_DUPLEX ->
  exists fd msg hist, Message fd msg ∈ trace w /\ 1 <= (os_message hist msg).1 /\
    tx_buf msg = Some (os_message hist msg).2.

(** The mode is unchanged and the trace has grown; other globals may differ. *)
Record keeps (w w' : spi_state) : Prop := {
  keeps_type : transfer_type w' = transfer_type w;
  keeps_trace : exists l, trace w' = l ++ trace w }.

Lemma extends_keeps w w' : extends w w' -> keeps w w'.
Proof. intros He. split; [apply (extends_fields w w' He)|apply He]. Qed.

#[global] Instance keeps_preorder : PreOrder keeps.
Proof.
  split; [by intros w; split; [|exists []]|].
  intros w1 w2 w3 [H1 [l1 Hl1]] [H2 [l2 Hl2]]. split; [congruence|].
  exists (l2 ++ l1). by rewrite Hl2, Hl1, (assoc_L (++)).
Qed.

Lemma keeps_log e w : keeps w (log e w).
Proof. apply extends_keeps, extends_log. Qed.

Ltac log_keep := repeat first [reflexivity | eapply keeps_log | etransitivity; [|apply keeps_log]].

(** What [transfer] followed by a comparison shows. *)
Lemma transfer_compared fd tx rx n w (k : list Z -> prog spi_state unit) :
  (forall rx1 w1, keeps w w1 ->
     wp (k rx1) w1 (fun o w2 => keeps w1 w2 /\
       (o = Ok tt -> transfer_type w = TRANSFER_FULL_DUPLEX -> tx = rx1))) ->
  wp (rx ← transfer fd tx rx n; k rx) w (fun o w1 => o = Ok tt -> echoed w1).
Proof.
  intros Hk. wstep. eapply wp_mono; [apply wp_transfer|]. cbv zeta.
  destruct (os_message (trace w) (message_of w tx n)) as [ret data] eqn:Hmsg.
  intros [rx'|f] w1 (He%extends_keeps & Hin & Ho); cbn [next]; [|done].
  eapply wp_mono; [by apply Hk|]. intros o w2 [He2 Heq] Hok Hfull.
  assert (Htt : transfer_type w2 = transfer_type w) by (rewrite (keeps_type _ _ He2); apply He).
  rewrite Htt in Hfull. exists fd, (message_of w tx n), (trace w). rewrite Hmsg.
  destruct Ho as [Hret ->]. split_and!; [|done|].
  - destruct He2 as [_ [l ->]]. apply elem_of_app. by right.
  - specialize (Heq Hok Hfull). unfold message_of in *. simpl in *.
    rewrite Hfull in *. simpl in *. by rewrite Heq.
Qed.

(** The end of every comparison: equal, or [exit(1)]. *)
Lemma wp_compare tx rx w (good : prog spi_state unit) (Q : outcome unit -> spi_state -> Prop) :
  (tx = rx -> wp good w Q) ->
  (forall w1, tx <> rx -> keeps w w1 -> Q (Fault (Exited 1)) w1) ->
  wp (if differ tx rx then transfer_error tx rx else good) w Q.
Proof.
  intros Hgood Hbad. unfold differ. destruct (bool_decide_reflect (tx = rx)) as [->|Hne]; simpl.
  - by apply Hgood.
  - unfold transfer_error. wstep. apply wp_emit. cbn [next]. wstep. apply wp_dump. intros s1 _.
    cbn [next]. wstep. apply wp_dump. intros s2 _. cbn [next]. wstep.
    apply Hbad; [done|log_keep].
Qed.

Lemma escaped_string_echo ch fd str w :
  wp (transfer_escaped_string ch fd str) w (fun o w1 => o = Ok tt -> echoed w1).
Proof.
  unfold transfer_escaped_string. cbv zeta. do 5 wskip. apply transfer_compared.
  intros rxv wa He. apply wp_compare.
  - intros ->. apply wp_emit. split; [log_keep|done].
  - intros wb _ He'. done.
Qed.

Lemma transfer_file_echo fd file w :
  wp (transfer_file fd file) w (fun o w1 => o = Ok tt -> echoed w1).
Proof.
  unfold transfer_file. cbv zeta. do 7 wskip. wstep. wstep. destruct (os_read _ _) as [bytes tx].
  wskip. wskip. apply transfer_compared. intros rxv wa He.
  apply wp_compare.
  - intros ->. wstep. apply wp_emit. cbn [next]. apply wp_emit. split; [log_keep|done].
  - intros wb _ He'. done.
Qed.

Lemma set_default_rx_keeps rx w : keeps w (set_default_rx rx w).
Proof. destruct w. split; [done|by exists []]. Qed.

Lemma add_counts_keeps n w : keeps w (add_counts n w).
Proof. destruct w. split; [done|by exists []]. Qed.

Lemma transfer_default_echo fd w :
  wp (transfer_default fd) w (fun o w1 => o = Ok tt -> echoed w1).
Proof.
  unfold transfer_default. wstep. wstep. apply transfer_compared. intros rxv wa He.
  wstep. wstep.
  pose proof (set_default_rx_keeps rxv wa) as Hset.
  destruct (orb _ _) eqn:Hor.
  - apply wp_compare.
    + intros ->. apply wp_emit. split; [by etransitivity; [|apply keeps_log]|done].
    + intros wb _ He'. split; [by etransitivity|done].
  - wstep. split; [done|]. intros _ Hfull. rewrite Hfull in Hor. done.
Qed.

Lemma transfer_buf_echo fd n w :
  wp (transfer_buf fd n) w (fun o w1 => o = Ok tt -> echoed w1).
Proof.
  unfold transfer_buf. cbv zeta. do 4 wskip. apply transfer_compared. intros rxv wa He.
  wstep. wstep. wstep. wstep.
  pose proof (add_counts_keeps n wa) as Hset.
  destruct (orb _ _) eqn:Hor.
  - apply wp_compare.
    + intros ->. apply wp_emit. split; [by etransitivity; [|apply keeps_log]|done].
    + intros wb _ He'. split; [by etransitivity|done].
  - wstep. split; [done|]. intros _ Hfull.
    rewrite (keeps_type _ _ Hset), (keeps_type _ _ He), Hfull in Hor. done.
Qed.

Lemma save_counts_keeps w : keeps w (save_counts w).
Proof. destruct w. split; [done|by exists []]. Qed.

Lemma echoed_keeps w w' : keeps w w' -> echoed w -> echoed w'.
Proof.
  intros [Ht [l Hl]] Hw Hfull. rewrite Ht in Hfull. destruct (Hw Hfull) as (fd & msg & hist & Hin & ?).
  exists fd, msg, hist. split; [|done]. rewrite Hl. apply elem_of_app. by right.
Qed.

Lemma transfer_timed_echo fd w :
  wp (transfer_timed fd) w (fun o w1 => o = Ok tt -> echoed w1).
Proof.
  unfold transfer_timed. cbv zeta. wstep. wstep. wstep. eapply wp_mono; [apply transfer_buf_echo|].
  intros [[]|f] w1 He; cbn [next]; [|done]. wstep. wstep. wstep.
  eapply wp_mono with (P := fun _ w2 => keeps w1 w2).
  - apply wp_when; [|done]. intros _. unfold show_transfer_rate. wstep. wstep. wstep. apply wp_emit.
    cbn [next]. wstep. etransitivity; [apply keeps_log|apply save_counts_keeps].
  - intros [[]|f] w2 Hk; cbn [next]; [|done]. apply wp_emit. intros _.
    eapply echoed_keeps; [|by apply He]. etransitivity; [exact Hk|apply keeps_log].
Qed.
End Facts.

(** C8: whatever the operating system answers, the tool never claims a full-duplex
    success the device did not earn: when [main] returns in that mode, a message was sent
    whose ioctl succeeded and whose reply was byte for byte the data sent. *)
Theorem spi_success_means_echo `{SpiOS} ch argc opts r w :
  main ch argc opts initial = (Ok r, w) -> transfer_type w = TRANSFER_FULL_DUPLEX ->
  exists fd msg hist, Message fd msg ∈ trace w /\ 1 <= (os_message hist msg).1 /\
    tx_buf msg = Some (os_message hist msg).2.
Proof.
  intros Hmain. enough (Hw : wp (main ch argc opts) initial (fun o w =>
    match o with Ok _ => echoed w | Fault _ => True end)) by exact (wp_run _ _ _ _ _ Hw Hmain).
  clear. unfold main.
  wskip. wskip. wskip. wskip. wstep. wstep. wskip.
  wstep. eapply wp_mono with (P := fun o w => o = Ok tt -> echoed w).
  { destruct (input_tx _); [apply escaped_string_echo|].
    destruct (input_file _); [apply transfer_file_echo|].
    destruct (negb _); [apply transfer_timed_echo|apply transfer_default_echo]. }
  intros [[]|f] wz He; cbn [next]; [|done]. wstep. apply wp_emit. cbn [next]. wstep.
  eapply echoed_keeps; [apply keeps_log|by apply He].
Qed.

(** * A working system and a loopback *)

(** Every call succeeds, and the device sends back what it was sent. *)
Class LoopbackOS `{SpiOS} := {
  loop_open : forall hist path, 0 <= os_open hist path;
  loop_config : forall hist r v, (os_config hist r v).1 <> -1;
  loop_message : forall hist msg, 1 <= (os_message hist msg).1;
  loop_echo : forall hist msg tx, tx_buf msg = Some tx -> (os_message hist msg).2 = tx;
  loop_malloc : forall hist n, is_Some (os_malloc hist n);
  loop_stat : forall path, os_stat path <> -1;
  loop_read : forall hist n, (os_read hist n).1 = n }.

Section Loopback.
Context `{LoopbackOS}.

Lemma transfer_loops fd tx rx n w (k : list Z -> prog spi_state unit) :
  transfer_type w = TRANSFER_FULL_DUPLEX -> output_file w = None ->
  (forall w1, extends w w1 -> wp (k tx) w1 (fun o _ => o = Ok tt)) ->
  wp (rx ← transfer fd tx rx n; k rx) w (fun o _ => o = Ok tt).
Proof.
  intros Hfull Hout Hk. wstep. eapply wp_mono; [apply wp_transfer|]. cbv zeta.
  pose proof (loop_message (trace w) (message_of w tx n)) as Hret.
  pose proof (loop_echo (trace w) (message_of w tx n) tx) as Hecho.
  destruct (os_message (trace w) (message_of w tx n)) as [ret data] eqn:Hmsg.
  intros [rx1|f] w1 (He & _ & Ho); cbn [next].
  - destruct Ho as [_ ->]. unfold message_of in Hecho |- *. rewrite Hfull in *. simpl in *.
    rewrite Hecho by done. by apply Hk.
  - destruct Ho as [_ [Hbad|(path & hist & Hbad & _)]].
    + rewrite Hmsg in Hbad. simpl in *. lia.
    + congruence.
Qed.

Lemma wp_malloc_ok size w (Q : outcome (option (list Z)) -> spi_state -> Prop) :
  (forall l, Q (Ok (Some l)) (log (Malloc size) w)) -> wp (malloc size) w Q.
Proof.
  intros HQ. apply wp_malloc. destruct (loop_malloc (trace w) size) as [l ->]. apply HQ.
Qed.

(** Only the trace distinguishes the states reached. *)
Record full_duplex (w : spi_state) : Prop := {
  fd_type : transfer_type w = TRANSFER_FULL_DUPLEX;
  fd_out : output_file w = None }.

Lemma full_duplex_extends w w' : extends w w' -> full_duplex w -> full_duplex w'.
Proof. intros He%extends_fields [? ?]. split; destruct_and!; congruence. Qed.

Lemma full_duplex_log e w : full_duplex w -> full_duplex (log e w).
Proof. apply full_duplex_extends, extends_log. Qed.

Lemma compare_same tx w good :
  wp good w (fun o _ => o = Ok tt) ->
  wp (if differ tx tx then transfer_error tx tx else good) w (fun o _ => o = Ok tt).
Proof. intros Hg. unfold differ. by rewrite bool_decide_true by done. Qed.

Lemma escaped_string_loops ch fd str bs w :
  full_duplex w -> unescape ch (chars str) = Ok bs ->
  wp (transfer_escaped_string ch fd str) w (fun o _ => o = Ok tt).
Proof.
  intros Hw Hbs. unfold transfer_escaped_string. cbv zeta.
  wstep. apply wp_malloc_ok. intros l. cbn [next]. wstep. apply wp_when; [done|]. intros _. cbn [next].
  wstep. apply wp_malloc_ok. intros l'. cbn [next]. wstep. apply wp_when; [done|]. intros _. cbn [next].
  wstep. wstep. rewrite Hbs. cbn [next].
  destruct (full_duplex_log (Malloc (Z.of_nat (length (chars str)))) _
    (full_duplex_log (Malloc (Z.of_nat (length (chars str)))) _ Hw)) as [Ht Ho].
  apply transfer_loops; [done|done|]. intros w1 _. apply compare_same. by apply wp_emit.
Qed.

Lemma transfer_file_loops fd file w :
  full_duplex w -> wp (transfer_file fd file) w (fun o _ => o = Ok tt).
Proof.
  intros Hw. unfold transfer_file. cbv zeta. wstep. apply wp_when.
  { intros Hs%Z.eqb_eq. by destruct (loop_stat file). }
  intros _. cbn [next]. wstep. apply wp_open. cbn [next]. wstep. apply wp_when.
  { intros Hs%Z.ltb_lt. pose proof (loop_open (trace w) file). lia. }
  intros _. cbn [next]. apply (full_duplex_log (Open file (os_open (trace w) file))) in Hw.
  wstep. apply wp_malloc_ok. intros l. cbn [next]. wstep. apply wp_when; [done|]. intros _. cbn [next].
  wstep. apply wp_malloc_ok. intros l'. cbn [next]. wstep. apply wp_when; [done|]. intros _. cbn [next].
  do 2 apply (full_duplex_log (Malloc (os_stat file))) in Hw.
  wstep. wstep. pose proof (loop_read (trace (log (Malloc (os_stat file)) (log (Malloc (os_stat file))
    (log (Open file (os_open (trace w) file)) w)))) (os_stat file)) as Hr.
  destruct (os_read _ _) as [bytes tx]. simpl in Hr. subst bytes.
  wstep. apply wp_emit. cbn [next]. apply (full_duplex_log (ReadFile (os_open (trace w) file) (os_stat file))) in Hw.
  wstep. apply wp_when; [by rewrite Z.eqb_refl|]. intros _. cbn [next].
  destruct Hw as [Ht Ho]. apply transfer_loops; [done|done|]. intros w1 _. apply compare_same.
  wstep. apply wp_emit. by apply wp_emit.
Qed.

Lemma transfer_default_loops fd w :
  full_duplex w -> wp (transfer_default fd) w (fun o _ => o = Ok tt).
Proof.
  intros [Ht Ho]. unfold transfer_default. wstep. wstep. apply transfer_loops; [done|done|].
  intros w1 _. wstep. wstep. rewrite Ht.
  change (orb _ _) with true. cbv iota. apply compare_same. by apply wp_emit.
Qed.

Lemma transfer_timed_loops fd w :
  full_duplex w -> wp (transfer_timed fd) w (fun o _ => o = Ok tt).
Proof.
  intros Hw. unfold transfer_timed. cbv zeta. wstep. wstep. wstep.
  eapply wp_mono with (P := fun o _ => o = Ok tt).
  - unfold transfer_buf. cbv zeta.
    wstep. apply wp_malloc_ok. intros l. cbn [next]. wstep. apply wp_when; [done|]. intros _. cbn [next].
    wstep. apply wp_malloc_ok. intros l'. cbn [next]. wstep. apply wp_when; [done|]. intros _. cbn [next].
    do 2 apply (full_duplex_log (Malloc (u64 (transfer_size w)))) in Hw. destruct Hw as [Ht Ho].
    apply transfer_loops; [done|done|]. intros w1 He. wstep. wstep. wstep. wstep.
    destruct (orb _ _); [|done]. apply compare_same. by apply wp_emit.
  - intros o w1 ->. cbn [next]. wstep. wstep. wstep.
    eapply wp_mono with (P := fun o _ => o = Ok tt).
    + by apply wp_when.
    + intros o w2 ->. cbn [next]. by apply wp_emit.
Qed.

Lemma wp_configure_ok r v msg w (Q : outcome (Z * Z) -> spi_state -> Prop) :
  (forall p, Q (Ok p) (log (Config r v) w)) -> wp (configure r v msg) w Q.
Proof.
  intros HQ. unfold configure. wstep. wstep. pose proof (loop_config (trace w) r v) as Hc.
  destruct (os_config (trace w) r v) as [ret v']. wstep. apply wp_emit. cbn [next]. wstep.
  apply wp_when; [by intros ?%Z.eqb_eq|]. intros _. cbn [next]. wstep. apply HQ.
Qed.

(** The options the user gave are still those after the set-up. *)
Definition same_request (w w' : spi_state) : Prop :=
  transfer_type w' = transfer_type w /\ output_file w' = output_file w /\
  input_tx w' = input_tx w /\ input_file w' = input_file w.

Lemma setup_device_ok w :
  wp setup_device w (fun o w' => (exists r, o = Ok r) /\ same_request w w').
Proof.
  unfold setup_device.
  do 3 (wstep; wstep; wstep; apply wp_configure_ok; intros ?; cbn [next];
    wstep; apply wp_configure_ok; intros [? ?]; cbn [next]; wstep; wstep).
  wstep. wstep. wstep. apply wp_emit. cbn [next]. wstep. split; [eauto|]. by destruct w.
Qed.

(** With a working system and a device that echoes, every full-duplex run without
    an output file succeeds: a command line that parses, with a valid role and at most one
    input, whose string (if it gives one) is well escaped. *)
Theorem spi_loopback_succeeds ch argc opts w :
  parse_opts argc opts initial = (Ok tt, w) ->
  spi_role w = "MASTER"%string \/ spi_role w = "SLAVE"%string ->
  transfer_type w = TRANSFER_FULL_DUPLEX -> output_file w = None ->
  input_tx w = None \/ input_file w = None ->
  (forall str, input_tx w = Some str -> exists bs, escaped (chars str) bs) ->
  exists r, (main ch argc opts initial).1 = Ok r.
Proof.
  intros Hparse Hrole Hfull Hout Hin Hesc.
  enough (Hw : wp (main ch argc opts) initial (fun o _ => exists r, o = Ok r)).
  { unfold wp in Hw. by destruct (main ch argc opts initial). }
  unfold main. wstep. unfold wp at 1. rewrite Hparse. cbn [next].
  wstep. eapply wp_mono with (P := fun o w1 => extends w w1 /\ exists fd, o = Ok fd /\ 0 <= fd).
  { unfold open_role. wstep. wstep. destruct (bool_decide_reflect (spi_role w = "MASTER"%string)).
    - wstep. apply wp_emit. cbn [next]. apply wp_open. split; [log_ext|]. eauto using loop_open.
    - rewrite bool_decide_true by (by destruct Hrole).
      wstep. apply wp_emit. cbn [next]. apply wp_open. split; [log_ext|]. eauto using loop_open. }
  intros o w1 (He & fd & -> & Hfd). cbn [next].
  wstep. apply wp_when; [intros ?%Z.ltb_lt; lia|]. intros _. cbn [next].
  wstep. eapply wp_mono; [apply setup_device_ok|].
  intros o w2 ([ret ->] & Ht & Ho & Hi & Hf). cbn [next].
  destruct (extends_fields _ _ He) as (Ht1 & Ho1 & Hi1 & Hf1 & _).
  rewrite Ht1, Hfull in Ht. rewrite Ho1, Hout in Ho. rewrite Hi1 in Hi. rewrite Hf1 in Hf.
  assert (Hw2 : full_duplex w2) by by split.
  wstep. wstep. wstep. apply wp_when.
  { rewrite Hi, Hf. destruct Hin as [-> | ->]; simpl; [done|by rewrite andb_false_r]. }
  intros _. cbn [next]. wstep. eapply wp_mono with (P := fun o _ => o = Ok tt).
  - rewrite Hi, Hf. destruct (input_tx w) as [str|].
    + destruct (Hesc str eq_refl) as [bs Hbs]. eapply escaped_string_loops; [done|].
      by apply (proj1 (unescape_escaped ch)).
    + destruct (input_file w); [by apply transfer_file_loops|].
      destruct (negb _); [by apply transfer_timed_loops|by apply transfer_default_loops].
  - intros o w3 ->. cbn [next]. wstep. apply wp_emit. cbn [next]. wstep. eauto.
Qed.
End Loopback.

(** ** A simulated device *)

(** It echoes; files are four bytes long; memory comes zeroed. *)
Definition echo_os : SpiOS := {|
  os_open _ _ := 3;
  os_config _ _ v := (0, v);
  os_message _ msg := (1, default (replicate (Z.to_nat (len msg)) 0) (tx_buf msg));
  os_write _ bytes := Z.of_nat (length bytes);
  os_malloc _ n := Some (replicate (Z.to_nat n) 0);
  os_stat _ := 4;
  os_read _ n := (n, [1; 2; 3; 4]);
  os_seconds _ := 0 |}.

Lemma echo_os_loops : @LoopbackOS echo_os.
Proof. split; simpl; try done; try lia. by intros ? ? ? ->. Qed.

Lemma spi_success_means_echo_witness :
  exists fd msg hist,
    Message fd msg ∈ trace (@main echo_os 0 2 [("p"%char, "\x41B"%string)] initial).2 /\
    tx_buf msg = Some (@os_message echo_os hist msg).2.
Proof.
  destruct (@spi_success_means_echo echo_os 0 2 [("p"%char, "\x41B"%string)] 0
    (@main echo_os 0 2 [("p"%char, "\x41B"%string)] initial).2) as (fd & msg & hist & H1 & _ & H2);
    [vm_compute; reflexivity|vm_compute; reflexivity|eauto].
Defined.

Lemma spi_loopback_succeeds_witness :
  exists r, (@main echo_os 0 2 [("l"%char, "16"%string); ("v"%char, ""%string)] initial).1 = Ok r.
Proof.
  eapply (@spi_loopback_succeeds echo_os echo_os_loops).
  - vm_compute. reflexivity.
  - left. reflexivity.
  - reflexivity.
  - reflexivity.
  - left. reflexivity.
  - intros str Hs. discriminate Hs.
Defined.

(** A transmit-only transfer of a string or a file is judged by a buffer nothing was
    received into: with the echoing device, "-T 1 -p AB" and "-T 1 -i file" exit with 1,
    while the same transfer of a generated buffer ("-T 1 -l 2"), which is not compared,
    succeeds. *)
Theorem spi_tx_only_compares_unreceived :
  (@main echo_os 0 5 [("T"%char, "1"%string); ("p"%char, "AB"%string)] initial).1 = Fault (Exited 1) /\
  (@main echo_os 0 5 [("T"%char, "1"%string); ("i"%char, "file"%string)] initial).1 = Fault (Exited 1) /\
  (@main echo_os 0 5 [("T"%char, "1"%string); ("l"%char, "2"%string)] initial).1 = Ok 0.
Proof. vm_compute. repeat split. Qed.
