(* ===== verification/I2c.v ===== *)
(** i2c/i2c.c: the I2C master test tool.  As for the SPI tool, the operating system is a
    parameter, [I2cOS], and the calls made are the trace. *)
From Stdlib Require Import ZArith Lia Ascii String.
From stdpp Require Import base list numbers strings.
From S2P Require Import Prelude Libc HexDump.

#[global] Open Scope Z_scope.

Definition TRANSFER_TX_ONLY : Z := 1.
Definition TRANSFER_RX_ONLY : Z := 2.
(** I2C_M_TEN of linux/i2c.h. *)
Definition I2C_M_TEN : Z := 16.

Definition default_tx : list Z :=
  [0xFF; 0xFF; 0xFF; 0xFF; 0xFF; 0xFF;
   0x40; 0x00; 0x00; 0x00; 0x00; 0x95;
   0xFF; 0xFF; 0xFF; 0xFF; 0xFF; 0xFF;
   0xFF; 0xFF; 0xFF; 0xFF; 0xFF; 0xFF;
   0xFF; 0xFF; 0xFF; 0xFF; 0xFF; 0xFF;
   0xF0; 0x0D].

(** struct i2c_msg: 16-bit address, flags and length; [buf] is the receive buffer when
    [msg_read], else the data. *)
Record i2c_msg := Msg { msg_addr : Z; flags : Z; msg_len : Z; buf_is_rx : bool; buf : list Z }.

Inductive i2c_event :=
| Stdout (s : string)
| Stderr (s : string)
| Open (path : string) (fd : Z)
| Close (fd : Z)
| Rdwr (fd : Z) (m : i2c_msg)
| WriteFile (fd : Z) (bytes : list Z)
| ReadFile (fd : Z) (size : Z)
| Malloc (size : Z).

(** The globals of the file. *)
Record i2c_state := I2c {
  device : string; address : Z; transfer_type : Z;
  input_file : option string; output_file : option string;
  verbose : bool; transfer_size : Z; ten_bit_mode : bool;
  default_rx : list Z; input_tx : option string;
  read_count : Z; write_count : Z; trace : list i2c_event }.

Definition initial : i2c_state :=
  I2c "/dev/i2c-0" 0x23 0 None None false 0 false (replicate 32 0) None 0 0 [].

Class I2cOS := {
  os_open : list i2c_event -> string -> Z;
  os_rdwr : list i2c_event -> i2c_msg -> Z * list Z;
  os_write : list i2c_event -> list Z -> Z;
  os_malloc : list i2c_event -> Z -> option (list Z);
  os_stat : string -> Z;
  os_read : list i2c_event -> Z -> Z * list Z }.

(** Assignments to the globals. *)
Definition set_device (v : string) (w : i2c_state) : i2c_state :=
  let 'I2c dev addr ty inf outf vb sz ten rx itx rc wc tr := w in
  I2c v addr ty inf outf vb sz ten rx itx rc wc tr.
Definition set_address (v : Z) (w : i2c_state) : i2c_state :=
  let 'I2c dev addr ty inf outf vb sz ten rx itx rc wc tr := w in
  I2c dev v ty inf outf vb sz ten rx itx rc wc tr.
Definition set_transfer_type (v : Z) (w : i2c_state) : i2c_state :=
  let 'I2c dev addr ty inf outf vb sz ten rx itx rc wc tr := w in
  I2c dev addr v inf outf vb sz ten rx itx rc wc tr.
Definition set_input_file (v : string) (w : i2c_state) : i2c_state :=
  let 'I2c dev addr ty inf outf vb sz ten rx itx rc wc tr := w in
  I2c dev addr ty (Some v) outf vb sz ten rx itx rc wc tr.
Definition set_output_file (v : string) (w : i2c_state) : i2c_state :=
  let 'I2c dev addr ty inf outf vb sz ten rx itx rc wc tr := w in
  I2c dev addr ty inf (Some v) vb sz ten rx itx rc wc tr.
Definition set_verbose (v : bool) (w : i2c_state) : i2c_state :=
  let 'I2c dev addr ty inf outf vb sz ten rx itx rc wc tr := w in
  I2c dev addr ty inf outf v sz ten rx itx rc wc tr.
Definition set_transfer_size (v : Z) (w : i2c_state) : i2c_state :=
  let 'I2c dev addr ty inf outf vb sz ten rx itx rc wc tr := w in
  I2c dev addr ty inf outf vb v ten rx itx rc wc tr.
Definition set_ten_bit_mode (v : bool) (w : i2c_state) : i2c_state :=
  let 'I2c dev addr ty inf outf vb sz ten rx itx rc wc tr := w in
  I2c dev addr ty inf outf vb sz v rx itx rc wc tr.
Definition set_default_rx (v : (list Z)) (w : i2c_state) : i2c_state :=
  let 'I2c dev addr ty inf outf vb sz ten rx itx rc wc tr := w in
  I2c dev addr ty inf outf vb sz ten v itx rc wc tr.
Definition with_trace (v : (list i2c_event)) (w : i2c_state) : i2c_state :=
  let 'I2c dev addr ty inf outf vb sz ten rx itx rc wc tr := w in
  I2c dev addr ty inf outf vb sz ten rx itx rc wc v.
Definition add_counts (n : Z) (w : i2c_state) : i2c_state :=
  let 'I2c dev addr ty inf outf vb sz ten rx itx rc wc tr := w in
  I2c dev addr ty inf outf vb sz ten rx itx (u64 (rc + n)) (u64 (wc + n)) tr.

Definition emit (e : i2c_event) : prog i2c_state unit :=
  modify (fun w => with_trace (e :: trace w) w).

Definition pabort {A} (s : string) : prog i2c_state A := emit (Stderr s);; stop Aborted.

(** The file has its own copies of the two helpers. *)
Definition hex_dump : list Z -> Z -> string -> outcome string := HexDump.hex_dump.
Definition unescape : Z -> list Z -> outcome (list Z) := HexDump.unescape.

Definition dump (bytes : list Z) (prefix : string) : prog i2c_state unit :=
  s ← lift (hex_dump bytes 32 prefix); emit (Stdout s).

Section I2c.
Context `{I2cOS}.

Definition open (path : string) : prog i2c_state Z :=
  w ← get; let fd := os_open (trace w) path in emit (Open path fd);; mret fd.

Definition malloc (size : Z) : prog i2c_state (option (list Z)) :=
  w ← get; emit (Malloc size);; mret (os_malloc (trace w) size).

(** The message of a transfer; [.len = len] keeps 16 bits. *)
Definition message_of (w : i2c_state) (tx rx : list Z) (n : Z) : i2c_msg :=
  let reading := transfer_type w =? TRANSFER_RX_ONLY in
  Msg (address w)
    (Z.lor (if reading then 1 else 0) (if ten_bit_mode w then I2C_M_TEN else 0))
    (u16 n) reading (if reading then rx else tx).

Definition transfer (fd : Z) (tx rx : list Z) (n : Z) : prog i2c_state (list Z) :=
  w ← get;
  let msg := message_of w tx rx n in
  let '(ret, data) := os_rdwr (trace w) msg in
  emit (Rdwr fd msg);;
  let rx := if buf_is_rx msg then data else rx in
  when (ret <? 1) (pabort "Call i2c transfer fail.");;
  when (verbose w && negb (transfer_type w =? TRANSFER_RX_ONLY))
    (emit (Stdout "I2C Master TX content:");; dump tx "TX");;
  match output_file w with
  | Some path =>
      when (negb (transfer_type w =? TRANSFER_TX_ONLY))
        (out_fd ← open path;
         when (out_fd <? 0) (pabort "could not open output file");;
         w' ← get;
         emit (WriteFile out_fd rx);;
         when (negb (os_write (trace w') rx =? n)) (pabort "not all bytes written to output file");;
         emit (Close out_fd))
  | None => mret tt
  end;;
  when (verbose w && negb (transfer_type w =? TRANSFER_TX_ONLY))
    (emit (Stdout "I2C Master RX content: ");; dump rx "RX");;
  mret rx.

Definition print_usage {A} : prog i2c_state A :=
  emit (Stdout "Usage: [-RMSTsbdHOvplI]");; stop (Exited 1).

(** [if (!transfer_type) transfer_type = t; else pabort(...)] *)
Definition choose_direction (t : Z) : prog i2c_state unit :=
  w ← get;
  if transfer_type w =? 0 then modify (set_transfer_type t)
  else pabort "I2C master can only rx or tx for one transfer.".

Definition apply_option (c : ascii) (optarg : string) : prog i2c_state unit :=
  match c with
  | "M"%char => modify (set_device optarg)
  | "a"%char => modify (set_address (u16 (atoi optarg)))
  | "b"%char => modify (set_ten_bit_mode true)
  | "R"%char => choose_direction TRANSFER_RX_ONLY
  | "W"%char => choose_direction TRANSFER_TX_ONLY
  | "i"%char => modify (set_input_file optarg)
  | "o"%char => modify (set_output_file optarg)
  | "v"%char => modify (set_verbose true)
  | "l"%char => modify (set_transfer_size (atoi optarg))
  | _ => print_usage
  end.

(** The loop of [parse_opts] over what [getopt_long] returns before -1. *)
Fixpoint parse_loop (opts : list (ascii * string)) : prog i2c_state unit :=
  match opts with
  | [] => mret tt
  | (c, optarg) :: opts => apply_option c optarg;; parse_loop opts
  end.

Definition parse_opts (argc : Z) (opts : list (ascii * string)) : prog i2c_state unit :=
  if argc =? 1 then print_usage else parse_loop opts.

Definition transfer_escaped_string (ch : Z) (fd : Z) (str : string) : prog i2c_state unit :=
  let size := Z.of_nat (length (chars str)) in
  tx ← malloc size;
  when (bool_decide (tx = None)) (pabort "can't allocate tx buffer");;
  rx ← malloc size;
  when (bool_decide (rx = None)) (pabort "can't allocate rx buffer");;
  tx ← lift (unescape ch (chars str));
  _ ← transfer fd tx (default [] rx) (Z.of_nat (length tx));
  mret tt.

Definition transfer_file (fd : Z) (filename : string) : prog i2c_state unit :=
  let st_size := os_stat filename in
  when (st_size =? -1) (pabort "can't stat input file");;
  tx_fd ← open filename;
  when (tx_fd <? 0) (pabort "can't open input file");;
  tx ← malloc st_size;
  when (bool_decide (tx = None)) (pabort "can't allocate tx buffer");;
  rx ← malloc st_size;
  when (bool_decide (rx = None)) (pabort "can't allocate rx buffer");;
  w ← get;
  let '(bytes, tx) := os_read (trace w) st_size in
  emit (ReadFile tx_fd st_size);;
  when (negb (bytes =? st_size)) (pabort "failed to read input file");;
  _ ← transfer fd tx (default [] rx) st_size;
  emit (Close tx_fd).

Definition ramp (n : Z) : list Z := (fun i => u8 (Z.of_nat i)) <$> seq 0 (Z.to_nat n).

Definition transfer_buf (fd : Z) (n : Z) : prog i2c_state unit :=
  tx ← malloc (u64 n);
  when (bool_decide (tx = None)) (pabort "can't allocate tx buffer");;
  let tx := ramp n in
  rx ← malloc (u64 n);
  when (bool_decide (rx = None)) (pabort "can't allocate rx buffer");;
  _ ← transfer fd tx (default [] rx) (u64 n);
  modify (add_counts n).

Definition transfer_default (fd : Z) : prog i2c_state unit :=
  w ← get;
  rx ← transfer fd default_tx (default_rx w) (Z.of_nat (length default_tx));
  modify (set_default_rx rx).

Definition main (ch : Z) (argc : Z) (opts : list (ascii * string)) : prog i2c_state Z :=
  parse_opts argc opts;;
  w ← get;
  when (transfer_type w =? 0) (pabort "Must assign TX or RX mode by using option -W or -R.");;
  emit (Stdout "Start I2C-Master TEST");;
  when (negb (verbose w)) (emit (Stdout "Use -v to show TRX transfer buf."));;
  fd ← open (device w);
  when (fd =? -1) (emit (Stdout "open test error");; pabort "Can't open device");;
  when (bool_decide (is_Some (input_tx w)) && bool_decide (is_Some (input_file w)))
    (pabort "only one of -p and --input may be selected");;
  match input_tx w with
  | Some str => transfer_escaped_string ch fd str
  | None =>
      match input_file w with
      | Some file => transfer_file fd file
      | None =>
          if negb (transfer_size w =? 0) then transfer_buf fd (transfer_size w)
          else transfer_default fd
      end
  end;;
  emit (Close fd);;
  mret 0.
End I2c.

(** * Reasoning *)

Definition log (e : i2c_event) (w : i2c_state) : i2c_state := with_trace (e :: trace w) w.

Lemma wp_i2c_emit e w (Q : outcome unit -> i2c_state -> Prop) : Q (Ok tt) (log e w) -> wp (emit e) w Q.
Proof. done. Qed.

Lemma wp_i2c_abort {A} s w (Q : outcome A -> i2c_state -> Prop) :
  Q (Fault Aborted) (log (Stderr s) w) -> wp (pabort s) w Q.
Proof. done. Qed.

(** The messages sent so far. *)
Definition messages (w : i2c_state) : list i2c_msg :=
  omap (fun e => match e with Rdwr _ m => Some m | _ => None end) (trace w).

(** A command that sends no message and leaves the options alone. *)
Record quiet (w w' : i2c_state) : Prop := {
  quiet_messages : messages w' = messages w;
  quiet_vars : with_trace [] w' = with_trace [] w }.

#[global] Instance quiet_preorder : PreOrder quiet.
Proof.
  split; [done|]. intros w1 w2 w3 [H1 H2] [H3 H4]. split; congruence.
Qed.

Definition silent_event (e : i2c_event) : Prop := match e with Rdwr _ _ => False | _ => True end.

Lemma quiet_log e w : silent_event e -> quiet w (log e w).
Proof. intros He. split; [|by destruct w]. destruct w. by destruct e. Qed.

Lemma quiet_fields w w' : quiet w w' ->
  transfer_type w' = transfer_type w /\ address w' = address w /\ ten_bit_mode w' = ten_bit_mode w /\
  input_tx w' = input_tx w /\ input_file w' = input_file w /\ transfer_size w' = transfer_size w /\
  messages w' = messages w.
Proof. intros [Hm Hv]. destruct w, w'. simpl in *. injection Hv. intros. by subst. Qed.

Ltac log_quiet :=
  repeat first [reflexivity | apply quiet_log; exact I
               | etransitivity; [|apply quiet_log; exact I]].

Section Facts.
Context `{I2cOS}.

Lemma wp_quiet_dump bytes prefix w (Q : outcome unit -> i2c_state -> Prop) :
  (forall w', quiet w w' -> Q (Ok tt) w') -> wp (dump bytes prefix) w Q.
Proof.
  intros HQ. unfold dump. wstep. wstep. unfold hex_dump, HexDump.hex_dump. cbn -[hex_dump_loop].
  apply wp_i2c_emit, HQ. log_quiet.
Qed.

(** A transfer sends one message, the one of its buffers, and succeeds only when the
    system says so. *)
Lemma wp_i2c_transfer fd tx rx n w (Q : outcome (list Z) -> i2c_state -> Prop) :
  (forall rx' w', messages w' = message_of w tx rx n :: messages w ->
     with_trace [] w' = with_trace [] w ->
     1 <= (os_rdwr (trace w) (message_of w tx rx n)).1 -> Q (Ok rx') w') ->
  (forall f w', Q (Fault f) w') ->
  wp (transfer fd tx rx n) w Q.
Proof.
  intros HQ HF. unfold transfer. wstep. wstep. set (msg := message_of w tx rx n).
  cbv zeta. fold msg. fold msg in HQ. destruct (os_rdwr (trace w) msg) as [ret data] eqn:Hmsg.
  wstep. apply wp_i2c_emit. cbn [next]. set (rx' := if buf_is_rx msg then data else rx).
  assert (H1 : messages (log (Rdwr fd msg) w) = msg :: messages w /\
    with_trace [] (log (Rdwr fd msg) w) = with_trace [] w) by by destruct w.
  revert H1. generalize (log (Rdwr fd msg) w). intros w1 [Hm1 Hv1].
  wstep. apply wp_when; [intros _; apply wp_i2c_abort; cbn [next]; apply HF|].
  intros Hret%Z.ltb_ge. cbn [next].
  wstep. eapply wp_mono with (P := fun o w2 => o = Ok tt /\ quiet w1 w2).
  { apply wp_when; [|done]. intros _. wstep. apply wp_i2c_emit. cbn [next].
    apply wp_quiet_dump. intros w' Hq. split; [done|]. etransitivity; [|exact Hq]. log_quiet. }
  intros o w2 [-> Hq2]. cbn [next].
  wstep. eapply wp_mono with (P := fun o w3 => (o = Ok tt /\ quiet w2 w3) \/ exists f, o = Fault f).
  { destruct (output_file w); [|wstep; by left].
    apply wp_when; [|by left]. intros _.
    wstep. unfold open. wstep. wstep. wstep. apply wp_i2c_emit. cbn [next]. wstep.
    wstep. apply wp_when; [intros _; apply wp_i2c_abort; cbn [next]; eauto|]. intros _. cbn [next].
    wstep. wstep. wstep. apply wp_i2c_emit. cbn [next].
    wstep. apply wp_when; [intros _; apply wp_i2c_abort; cbn [next]; eauto|]. intros _. cbn [next].
    apply wp_i2c_emit. left. split; [done|]. log_quiet. }
  intros o w3 [[-> Hq3]|[f ->]]; cbn [next]; [|apply HF].
  wstep. eapply wp_mono with (P := fun o w4 => o = Ok tt /\ quiet w3 w4).
  { apply wp_when; [|done]. intros _. wstep. apply wp_i2c_emit. cbn [next].
    apply wp_quiet_dump. intros w' Hq. split; [done|]. etransitivity; [|exact Hq]. log_quiet. }
  intros o w4 [-> Hq4]. cbn [next]. wstep.
  assert (Hq : quiet w1 w4) by (etransitivity; [exact Hq2|]; by etransitivity).
  destruct Hq as [Hqm Hqv]. rewrite <- Hqm in Hm1. rewrite <- Hqv in Hv1. by apply (HQ rx').
Qed.

(** ** One message per run *)

(** What a command line asks for, read off the options as they are given. *)
Definition directions (opts : list (ascii * string)) : list ascii :=
  filter (fun c => c = "R"%char \/ c = "W"%char) opts.*1.

Definition asked (c : ascii) (opts : list (ascii * string)) : bool := bool_decide (c ∈ opts.*1).

(** The address of the last -a, as [atoi] reads it, or the default one. *)
Definition address_asked (opts : list (ascii * string)) : Z :=
  from_option (fun s => u16 (atoi s)) 0x23
    (last (omap (fun o => if decide (o.1 = "a"%char) then Some o.2 else None) opts)).

(** The globals say what the options asked for. *)
Definition obeys (opts : list (ascii * string)) (w : i2c_state) : Prop :=
  address w = address_asked opts /\ ten_bit_mode w = asked "b" opts /\
  ((directions opts = [] /\ transfer_type w = 0) \/
   (directions opts = ["W"%char] /\ transfer_type w = TRANSFER_TX_ONLY) \/
   (directions opts = ["R"%char] /\ transfer_type w = TRANSFER_RX_ONLY)).

(** No message yet, and a direction chosen. *)
Definition ready (opts : list (ascii * string)) (w : i2c_state) : Prop :=
  messages w = [] /\ obeys opts w /\ directions opts <> [].

(** The run got through: exactly one message was sent, the one asked for. *)
Definition one_message (opts : list (ascii * string)) (w : i2c_state) : Prop :=
  exists msg c, messages w = [msg] /\ directions opts = [c] /\
    msg_addr msg = address_asked opts /\
    buf_is_rx msg = bool_decide (c = "R"%char) /\
    flags msg = (if decide (c = "R"%char) then 1 else 0) + (if asked "b" opts then I2C_M_TEN else 0).

Lemma message_of_asked opts w tx rx n :
  ready opts w ->
  exists c, directions opts = [c] /\ msg_addr (message_of w tx rx n) = address_asked opts /\
    buf_is_rx (message_of w tx rx n) = bool_decide (c = "R"%char) /\
    flags (message_of w tx rx n) =
      (if decide (c = "R"%char) then 1 else 0) + (if asked "b" opts then I2C_M_TEN else 0).
Proof.
  intros (_ & (Ha & Hb & Hd) & Hne). unfold message_of. cbn [msg_addr buf_is_rx flags].
  rewrite <- Hb. destruct Hd as [[Hd _]|[[Hd Ht]|[Hd Ht]]]; [done| |];
    eexists; rewrite Ht; (split_and!; [exact Hd|done|done|by destruct (ten_bit_mode w)]).
Qed.

(** The step from no message to one. *)
Lemma transfer_sends opts fd tx rx n w (k : list Z -> prog i2c_state unit) :
  ready opts w ->
  (forall rx' w1, one_message opts w1 -> wp (k rx') w1 (fun o w2 => o = Ok tt -> one_message opts w2)) ->
  wp (rx ← transfer fd tx rx n; k rx) w (fun o w2 => o = Ok tt -> one_message opts w2).
Proof.
  intros Hr Hk. wstep. apply wp_i2c_transfer; [|done]. intros rx' w1 Hm Hv _. cbn [next].
  apply Hk. destruct (message_of_asked opts w tx rx n Hr) as (c & Hd & Ha & Hb & Hf).
  exists (message_of w tx rx n), c. rewrite Hm, (proj1 Hr). auto.
Qed.

Lemma one_message_messages opts w w' :
  messages w' = messages w -> one_message opts w -> one_message opts w'.
Proof. unfold one_message. by intros ->. Qed.

Lemma wp_quiet_call (c : prog i2c_state unit) w (Q : outcome unit -> i2c_state -> Prop) :
  (forall o w', (o = Ok tt -> quiet w w') -> Q o w') ->
  wp c w (fun o w' => o = Ok tt -> quiet w w') -> wp c w Q.
Proof. intros HQ Hc. eapply wp_mono; [exact Hc|]. auto. Qed.

(** A guard that aborts, and a call for memory, before the message. *)
Lemma wp_guard (b : bool) s w (k : unit -> prog i2c_state unit) (Q : i2c_state -> Prop) :
  wp (k tt) w (fun o w' => o = Ok tt -> Q w') ->
  wp (when b (pabort s) ≫= k) w (fun o w' => o = Ok tt -> Q w').
Proof.
  intros Hk. wstep. apply wp_when; [|by intros _].
  intros _. apply wp_i2c_abort. by cbn [next].
Qed.

Lemma wp_malloc_any size w (k : option (list Z) -> prog i2c_state unit) Q :
  (forall l w', quiet w w' -> wp (k l) w' Q) -> wp (malloc size ≫= k) w Q.
Proof.
  intros Hk. wstep. unfold malloc. wstep. wstep. wstep. apply wp_i2c_emit. cbn [next]. wstep.
  apply Hk. log_quiet.
Qed.

Lemma quiet_ready opts w w' : quiet w w' -> ready opts w -> ready opts w'.
Proof.
  intros (Ht & Ha & Hten & _ & _ & _ & Hm)%quiet_fields. unfold ready, obeys. by rewrite Ht, Ha, Hten, Hm.
Qed.

Lemma transfer_buf_sends opts fd n w :
  ready opts w -> wp (transfer_buf fd n) w (fun o w2 => o = Ok tt -> one_message opts w2).
Proof.
  intros Hn. unfold transfer_buf. cbv zeta.
  apply wp_malloc_any. intros l w1 H1. apply wp_guard.
  apply wp_malloc_any. intros l' w2 H2. apply wp_guard.
  apply transfer_sends; [eapply quiet_ready; [exact H2|]; by eapply quiet_ready|].
  intros rx' w3 H3. wstep. intros _. eapply one_message_messages; [|exact H3]. by destruct w3.
Qed.

Lemma transfer_default_sends opts fd w :
  ready opts w -> wp (transfer_default fd) w (fun o w2 => o = Ok tt -> one_message opts w2).
Proof.
  intros Hn. unfold transfer_default. wstep. wstep. apply transfer_sends; [done|].
  intros rx' w3 H3. wstep. intros _. eapply one_message_messages; [|exact H3]. by destruct w3.
Qed.

Lemma transfer_escaped_sends opts ch fd str w :
  ready opts w -> wp (transfer_escaped_string ch fd str) w (fun o w2 => o = Ok tt -> one_message opts w2).
Proof.
  intros Hn. unfold transfer_escaped_string. cbv zeta.
  apply wp_malloc_any. intros l w1 H1. apply wp_guard.
  apply wp_malloc_any. intros l' w2 H2. apply wp_guard.
  wstep. wstep. destruct (unescape ch (chars str)); cbn [next]; [|done].
  apply transfer_sends; [eapply quiet_ready; [exact H2|]; by eapply quiet_ready|].
  intros rx' w3 H3. wstep. done.
Qed.

Lemma transfer_file_sends opts fd file w :
  ready opts w -> wp (transfer_file fd file) w (fun o w2 => o = Ok tt -> one_message opts w2).
Proof.
  intros Hn. unfold transfer_file. cbv zeta. apply wp_guard.
  wstep. unfold open. wstep. wstep. wstep. apply wp_i2c_emit. cbn [next]. wstep. apply wp_guard.
  apply wp_malloc_any. intros l w1 H1. apply wp_guard.
  apply wp_malloc_any. intros l' w2 H2. apply wp_guard.
  wstep. wstep. destruct (os_read _ _) as [bytes tx]. wstep. apply wp_i2c_emit. cbn [next]. apply wp_guard.
  apply transfer_sends.
  - eapply quiet_ready; [apply quiet_log; exact I|]. eapply quiet_ready; [exact H2|].
    eapply quiet_ready; [exact H1|]. eapply quiet_ready; [apply quiet_log; exact I|]. done.
  - intros rx' w3 H3. apply wp_i2c_emit. intros _. eapply one_message_messages; [|exact H3]. by destruct w3.
Qed.

(** *** The options *)

(** The globals after the options [opts]: no message is sent, no text to send chosen (the
    tool has no option for it), and what was asked for noted down. *)
Definition parsed (opts : list (ascii * string)) (w : i2c_state) : Prop :=
  messages w = [] /\ input_tx w = None /\ obeys opts w.

Lemma directions_snoc opts c optarg :
  directions (opts ++ [(c, optarg)]) =
  directions opts ++ (if decide (c = "R"%char \/ c = "W"%char) then [c] else []).
Proof. unfold directions. rewrite fmap_app, filter_app. cbn. by destruct (decide _). Qed.

Lemma asked_snoc b opts c optarg :
  asked b (opts ++ [(c, optarg)]) = asked b opts || bool_decide (b = c).
Proof.
  unfold asked. rewrite fmap_app, <- bool_decide_or. apply bool_decide_ext.
  rewrite elem_of_app. cbn. by rewrite list_elem_of_singleton.
Qed.

Lemma address_asked_snoc opts c optarg :
  address_asked (opts ++ [(c, optarg)]) =
  if decide (c = "a"%char) then u16 (atoi optarg) else address_asked opts.
Proof.
  unfold address_asked. rewrite omap_app. cbn. destruct (decide _); cbn.
  - by rewrite last_snoc.
  - by rewrite app_nil_r.
Qed.

Lemma choose_direction_parsed opts c optarg t w :
  (c = "W"%char /\ t = TRANSFER_TX_ONLY) \/ (c = "R"%char /\ t = TRANSFER_RX_ONLY) ->
  parsed opts w ->
  wp (choose_direction t) w (fun o w' => o = Ok tt -> parsed (opts ++ [(c, optarg)]) w').
Proof.
  intros Hc (Hm & Hi & Ha & Hb & Hd). unfold choose_direction. wstep. wstep.
  destruct (Z.eqb_spec (transfer_type w) 0) as [H0|]; [|by apply wp_i2c_abort].
  assert (Hn : directions opts = []) by (destruct Hd as [[? _]|[[_ Ht]|[_ Ht]]]; [done|rewrite H0 in Ht..]; done).
  wstep. intros _. unfold parsed, obeys. rewrite directions_snoc, asked_snoc, address_asked_snoc, Hn.
  destruct w; cbn in *. destruct Hc as [[-> ->]|[-> ->]]; cbn; rewrite orb_false_r; split_and!; auto.
Qed.

Lemma modify_parsed opts c optarg f w :
  c <> "R"%char -> c <> "W"%char -> parsed opts w ->
  messages (f w) = messages w -> input_tx (f w) = input_tx w -> transfer_type (f w) = transfer_type w ->
  address (f w) = (if decide (c = "a"%char) then u16 (atoi optarg) else address w) ->
  ten_bit_mode (f w) = ten_bit_mode w || bool_decide ("b"%char = c) ->
  wp (modify f) w (fun o w' => o = Ok tt -> parsed (opts ++ [(c, optarg)]) w').
Proof.
  intros HR HW (Hm & Hi & Ha & Hb & Hd) H1 H2 H3 H4 H5. wstep. intros _. unfold parsed, obeys.
  rewrite directions_snoc, asked_snoc, address_asked_snoc, H1, H2, H3, H4, H5, Ha, Hb.
  rewrite (decide_False (P := c = "R"%char \/ c = "W"%char)) by tauto. rewrite app_nil_r. split_and!; auto.
Qed.

Lemma apply_option_parsed opts c optarg w :
  parsed opts w ->
  wp (apply_option c optarg) w (fun o w' => o = Ok tt -> parsed (opts ++ [(c, optarg)]) w').
Proof.
  intros Hw.
  assert (Hus : wp (print_usage (A:=unit)) w (fun o w' => o = Ok tt -> parsed (opts ++ [(c, optarg)]) w')).
  { unfold print_usage. wstep. apply wp_i2c_emit. cbn [next]. by wstep. }
  destruct c as [[] [] [] [] [] [] [] []]; cbn [apply_option]; try exact Hus;
    first [apply choose_direction_parsed; [auto|done]
          | apply modify_parsed; [done|done|exact Hw|destruct w; cbn; rewrite ?orb_false_r, ?orb_true_r; done..]].
Qed.

Lemma parse_loop_parsed opts opts' w :
  parsed opts w -> wp (parse_loop opts') w (fun o w' => o = Ok tt -> parsed (opts ++ opts') w').
Proof.
  revert opts w. induction opts' as [|[c optarg] opts' IH]; intros opts w Hw; cbn [parse_loop].
  - wstep. by rewrite app_nil_r.
  - wstep. eapply wp_mono; [by apply apply_option_parsed|].
    intros [[]|f] w1 H1; cbn [next]; [|done]. rewrite cons_middle, app_assoc. apply IH. by apply H1.
Qed.

Lemma parse_opts_parsed argc opts :
  wp (parse_opts argc opts) initial (fun o w' => o = Ok tt -> parsed opts w').
Proof.
  unfold parse_opts. destruct (argc =? 1).
  { unfold print_usage. wstep. apply wp_i2c_emit. cbn [next]. by wstep. }
  apply (parse_loop_parsed []). unfold parsed, obeys. split_and!; auto.
Qed.

Lemma parsed_ready opts w : parsed opts w -> transfer_type w <> 0 -> ready opts w.
Proof.
  intros (Hm & _ & Ho) Ht. split_and!; [done|done|]. destruct Ho as (_ & _ & [[_ H0]|[[-> _]|[-> _]]]); done.
Qed.
End Facts.

(** C11: whatever the operating system answers, a run of the tool that returns was given
    exactly one of -R and -W, once, and has sent exactly one message: to the address of the
    last -a as [atoi] reads it ("0x23" is 0 to it, [i2c_hex_address_is_zero]), 0x23 without
    -a; a read if the option was -R and a write if it was -W; with the ten-bit flag exactly
    when -b was given.  With neither direction, or two, it does not return but aborts. *)
Theorem i2c_run_sends_one_message `{I2cOS} ch argc opts r w :
  main ch argc opts initial = (Ok r, w) ->
  exists msg c, messages w = [msg] /\ directions opts = [c] /\
    msg_addr msg = address_asked opts /\
    buf_is_rx msg = bool_decide (c = "R"%char) /\
    flags msg = (if decide (c = "R"%char) then 1 else 0) + (if asked "b" opts then I2C_M_TEN else 0).
Proof.
  intros Hmain. enough (Hw : wp (main ch argc opts) initial (fun o w =>
    match o with Ok _ => one_message opts w | Fault _ => True end)) by exact (wp_run _ _ _ _ _ Hw Hmain).
  clear. unfold main. wstep. eapply wp_mono; [apply parse_opts_parsed|].
  intros [[]|f] w H1; cbn [next]; [|done]. specialize (H1 eq_refl).
  wstep. wstep. wstep. apply wp_when; [intros _; by apply wp_i2c_abort|]. intros Hd%Z.eqb_neq.
  pose proof (parsed_ready _ _ H1 Hd) as Hready. destruct H1 as (_ & Hi & _).
  cbn [next]. wstep. apply wp_i2c_emit. cbn [next]. wstep.
  eapply wp_mono with (P := fun o w' => o = Ok tt /\ quiet w w').
  { apply wp_when; intros _; [apply wp_i2c_emit|]; (split; [done|log_quiet]). }
  intros o w1 [-> Hq]. cbn [next]. wstep. unfold open. wstep. wstep. wstep. apply wp_i2c_emit. cbn [next].
  wstep. set (fd := os_open _ _). set (w2 := log _ w1).
  assert (Hq2 : quiet w w2) by (unfold w2; log_quiet; exact Hq). clearbody w2 fd.
  wstep. apply wp_when.
  { intros _. wstep. apply wp_i2c_emit. cbn [next]. by apply wp_i2c_abort. }
  intros _. cbn [next]. rewrite Hi. cbn [andb]. wstep. apply wp_when; [done|]. intros _. cbn [next].
  apply (quiet_ready _ _ _ Hq2) in Hready.
  wstep. eapply wp_mono with (P := fun o w2 => o = Ok tt -> one_message opts w2).
  { destruct (input_file w); [by apply transfer_file_sends|].
    destruct (negb _); [by apply transfer_buf_sends|by apply transfer_default_sends]. }
  intros [[]|f] w3 H3; cbn [next]; [|done]. wstep. apply wp_i2c_emit. cbn [next]. wstep.
  eapply one_message_messages; [|by apply H3]. by destruct w3.
Qed.

(** ** A simulated bus *)

Definition zero_os : I2cOS := {|
  os_open _ _ := 3;
  os_rdwr _ msg := (1, replicate (Z.to_nat (msg_len msg)) 0);
  os_write _ bytes := Z.of_nat (length bytes);
  os_malloc _ n := Some [];
  os_stat _ := 4;
  os_read _ n := (n, [1; 2; 3; 4]) |}.

Lemma i2c_run_sends_one_message_witness :
  let opts := [("a"%char, "80"%string); ("R"%char, ""%string); ("b"%char, ""%string)] in
  exists msg, messages (@main zero_os 0 6 opts initial).2 = [msg] /\
    msg_addr msg = 80 /\ buf_is_rx msg = true /\ flags msg = 17.
Proof.
  intros opts.
  destruct (@i2c_run_sends_one_message zero_os 0 6 opts 0 (@main zero_os 0 6 opts initial).2)
    as (msg & c & Hm & Hd & Ha & Hr & Hf); [vm_compute; reflexivity|].
  assert (Hc : c = "R"%char) by (vm_compute in Hd; congruence). subst c.
  exists msg. split; [exact Hm|]. rewrite Ha, Hr, Hf. vm_compute. auto.
Defined.

(** A size of [n] bytes sends [n mod 65536]: the length field of the message has 16
    bits, and [transfer_buf] neither splits nor refuses longer transfers, but counts all [n]
    bytes as written. *)
Theorem i2c_long_transfer_truncated `{I2cOS} fd n w w' :
  0 <= n < 2147483648 -> messages w = [] ->
  transfer_buf fd n w = (Ok tt, w') ->
  exists msg, messages w' = [msg] /\ msg_len msg = n mod 65536 /\
    write_count w' = u64 (write_count w + n).
Proof.
  intros Hn Hm Hrun. enough (Hw : wp (transfer_buf fd n) w (fun o w' => o = Ok tt ->
    exists msg, messages w' = [msg] /\ msg_len msg = n mod 65536 /\
      write_count w' = u64 (write_count w + n))) by exact (wp_run _ _ _ _ _ Hw Hrun eq_refl).
  unfold transfer_buf. cbv zeta.
  apply wp_malloc_any. intros l w1 H1. apply wp_guard.
  apply wp_malloc_any. intros l' w2 H2. apply wp_guard.
  wstep. apply wp_i2c_transfer; [|done]. intros rx' w3 Hm3 Hv3 _. cbn [next]. wstep. intros _.
  assert (Hm2 : messages w2 = []) by (rewrite (quiet_messages _ _ H2), (quiet_messages _ _ H1); done).
  assert (Hc : write_count w3 = write_count w).
  { destruct H1 as [_ H1], H2 as [_ H2]. rewrite H1 in H2. rewrite H2 in Hv3.
    clear -Hv3. destruct w, w3. simpl in *. injection Hv3. intros. by subst. }
  exists (message_of w2 (ramp n) (default [] l') (u64 n)). split_and!.
  - transitivity (messages w3); [by destruct w3|]. by rewrite Hm3, Hm2.
  - simpl. by rewrite u64_id by lia.
  - rewrite <- Hc. by destruct w3.
Qed.

Lemma i2c_long_transfer_truncated_witness :
  exists msg, messages (@transfer_buf zero_os 3 5 (set_transfer_type 1 initial)).2 = [msg] /\
    msg_len msg = 5.
Proof.
  destruct (@i2c_long_transfer_truncated zero_os 3 5 (set_transfer_type 1 initial)
    (@transfer_buf zero_os 3 5 (set_transfer_type 1 initial)).2) as (msg & H1 & H2 & _);
    [lia|reflexivity|vm_compute; reflexivity|].
  exists msg. split; [exact H1|exact H2].
Defined.

(** The help text gives the default slave address in hexadecimal, but an address
    given so is not read: [atoi] stops at the "x", and "-a 0x23" addresses slave 0. *)
Theorem i2c_hex_address_is_zero :
  address (@main zero_os 0 4 [("W"%char, ""%string); ("a"%char, "0x23"%string)] initial).2 = 0 /\
  address (@main zero_os 0 4 [("W"%char, ""%string); ("a"%char, "35"%string)] initial).2 = 0x23.
Proof. vm_compute. repeat split. Qed.
