(* ===== verification/GpioTest.v ===== *)
(** gpio/kernel/realtek-gpio-test.c: the GPIO test module.

    The kernel is the parameter [GpioKernel]; the GPIOs and interrupt lines that the module
    holds, the completion, the wake-up setting and the calls made are the state.  Of the
    messages only those of the probe are kept, which are the only report of a test. *)
From Stdlib Require Import ZArith Lia String.
From stdpp Require Import base list numbers gmap strings.
From S2P Require Import Prelude Libc.

#[global] Open Scope Z_scope.

Definition EINVAL : Z := 22.
Definition ENODEV : Z := 19.
Definition ENOMEM : Z := 12.
Definition MAX_ERRNO : Z := 4095.
Definition IS_ERR_VALUE (x : Z) : bool := (- MAX_ERRNO <=? x) && (x <? 0).

Definition IRQF_TRIGGER_RISING : Z := 1.
Definition IRQF_TRIGGER_FALLING : Z := 2.
Definition IRQF_TRIGGER_HIGH : Z := 4.
Definition IRQF_TRIGGER_LOW : Z := 8.

(** * The state *)

Inductive gpio_event :=
| Request (g ret : Z)
| Free (g : Z)
| DirectionInput (g ret : Z)
| DirectionOutput (g v ret : Z)
| SetValue (g v : Z)
| GetValue (g v : Z)
| RequestIrq (irq flags ret : Z)
| FreeIrq (irq : Z)
| Interrupt
| Wait (ret : Z)
| SetDebounce (g div ret : Z)
| Info (s : string).

(** What the module holds, and [struct rtk_gpio_test_data]; the trace is newest first. *)
Record gpio_state := Gpio {
  held : gset Z; irqs : gset Z; wake : bool;
  done : nat; index : Z; in_index : Z; out_index : Z;
  db_enable : option string; db_div_cnt : Z;
  trace : list gpio_event }.

Definition set_held (h : gset Z) (w : gpio_state) : gpio_state :=
  Gpio h (irqs w) (wake w) (done w) (index w) (in_index w) (out_index w) (db_enable w) (db_div_cnt w) (trace w).
Definition set_irqs (i : gset Z) (w : gpio_state) : gpio_state :=
  Gpio (held w) i (wake w) (done w) (index w) (in_index w) (out_index w) (db_enable w) (db_div_cnt w) (trace w).
Definition set_wake (b : bool) (w : gpio_state) : gpio_state :=
  Gpio (held w) (irqs w) b (done w) (index w) (in_index w) (out_index w) (db_enable w) (db_div_cnt w) (trace w).
Definition set_done (n : nat) (w : gpio_state) : gpio_state :=
  Gpio (held w) (irqs w) (wake w) n (index w) (in_index w) (out_index w) (db_enable w) (db_div_cnt w) (trace w).
Definition log (e : gpio_event) (w : gpio_state) : gpio_state :=
  Gpio (held w) (irqs w) (wake w) (done w) (index w) (in_index w) (out_index w) (db_enable w) (db_div_cnt w)
    (e :: trace w).

Abbreviation gprog := (prog gpio_state).

(** The kernel's answers, which may depend on everything that happened; [k_interrupts] is how
    many interrupts arrive until a wait ends, [k_left] the time left when it succeeds. *)
Class GpioKernel := {
  k_request : gpio_state -> Z -> Z;
  k_direction_input : gpio_state -> Z -> Z;
  k_direction_output : gpio_state -> Z -> Z -> Z;
  k_get_value : gpio_state -> Z -> Z;
  gpio_to_irq : Z -> Z;
  k_request_irq : gpio_state -> Z -> Z -> Z;
  k_interrupts : gpio_state -> nat;
  k_left : gpio_state -> Z;
  k_set_debounce : gpio_state -> Z -> Z -> Z }.

(** What the kernel promises: a GPIO is given to one holder at a time, a refusal is an error
    code, an interrupt line requested without IRQF_SHARED has one holder too, and a wait that
    succeeds gives at least one jiffy. *)
Class GpioLaws `(K : GpioKernel) : Prop := {
  request_exclusive w g : g ∈ held w -> k_request w g <> 0;
  request_errno w g : k_request w g = 0 \/ IS_ERR_VALUE (k_request w g) = true;
  request_irq_exclusive w irq flags : irq ∈ irqs w -> IS_ERR_VALUE (k_request_irq w irq flags) = true;
  left_positive w : 0 < k_left w }.

Section Gpio.
Context `{GpioKernel}.

(** * The calls *)

Definition gpio_request (g : Z) : gprog Z :=
  w ← get; let ret := k_request w g in
  when (ret =? 0) (modify (set_held ({[g]} ∪ held w)));;
  modify (log (Request g ret));; mret ret.

Definition gpio_free (g : Z) : gprog unit :=
  w ← get; modify (set_held (held w ∖ {[g]}));; modify (log (Free g)).

Definition gpio_direction_input (g : Z) : gprog Z :=
  w ← get; modify (log (DirectionInput g (k_direction_input w g)));; mret (k_direction_input w g).

Definition gpio_direction_output (g v : Z) : gprog Z :=
  w ← get; modify (log (DirectionOutput g v (k_direction_output w g v)));; mret (k_direction_output w g v).

Definition gpio_get_value (g : Z) : gprog Z :=
  w ← get; modify (log (GetValue g (k_get_value w g)));; mret (k_get_value w g).

Definition gpio_set_value (g v : Z) : gprog unit := modify (log (SetValue g v)).

Definition gpio_set_debounce (g div : Z) : gprog Z :=
  w ← get; modify (log (SetDebounce g div (k_set_debounce w g div)));; mret (k_set_debounce w g div).

Definition request_irq (irq flags : Z) : gprog Z :=
  w ← get; let ret := k_request_irq w irq flags in
  when (negb (IS_ERR_VALUE ret)) (modify (set_irqs ({[irq]} ∪ irqs w)));;
  modify (log (RequestIrq irq flags ret));; mret ret.

Definition free_irq (irq : Z) : gprog unit :=
  w ← get; modify (set_irqs (irqs w ∖ {[irq]}));; modify (log (FreeIrq irq)).

(** [init_completion], [reinit_completion] and [complete]: the count of the completion. *)
Definition reinit_completion : gprog unit := modify (set_done 0).
Definition complete : gprog unit := w ← get; modify (set_done (S (done w))).

Definition rtk_gpio_irq_handler : gprog unit := modify (log Interrupt);; complete.

(** The interrupts that arrive run the handler; then a completion is taken, or the time is up. *)
Fixpoint interrupts (n : nat) : gprog unit :=
  match n with O => mret tt | S n => rtk_gpio_irq_handler;; interrupts n end.

Definition wait_for_completion_timeout : gprog Z :=
  w ← get; interrupts (k_interrupts w);;
  w ← get;
  match done w with
  | O => modify (log (Wait 0));; mret 0
  | S n => modify (set_done n);; modify (log (Wait (k_left w)));; mret (k_left w)
  end.

Definition pr_info (s : string) : gprog unit := modify (log (Info s)).

(** * The tests *)

Definition rtk_gpio_set_debounce : gprog Z :=
  w ← get; let gpio_index := index w in
  if bool_decide (db_enable w = Some "enable"%string) then
    ret ← gpio_set_debounce gpio_index (db_div_cnt w);
    if negb (ret =? 0) then mret (- EINVAL) else mret 0
  else mret 0.

Definition rtk_gpio_re_request : gprog Z :=
  w ← get; let gpio_index := index w in
  req_status ← gpio_request gpio_index;
  if negb (req_status =? 0) then mret (- EINVAL)
  else
    req_status ← gpio_request gpio_index;
    if req_status =? 0 then gpio_free gpio_index;; mret (- EINVAL)
    else gpio_free gpio_index;; mret 0.

(** [n] times: high, then low. *)
Fixpoint toggle (n : nat) (g : Z) : gprog unit :=
  match n with
  | O => mret tt
  | S n => gpio_set_value g 1;; gpio_set_value g 0;; toggle n g
  end.

Definition rtk_gpio_output_test : gprog Z :=
  w ← get; let gpio_index := index w in
  req_status ← gpio_request gpio_index;
  if negb (req_status =? 0) then mret (- EINVAL)
  else
    let fail : gprog Z := gpio_free gpio_index;; mret (- EINVAL) in
    set_direct_status ← gpio_direction_output gpio_index 0;
    if IS_ERR_VALUE set_direct_status then fail
    else
      _ ← gpio_get_value gpio_index;
      gpio_set_value gpio_index 1;;
      val ← gpio_get_value gpio_index;
      if negb (val =? 1) then fail
      else
        gpio_set_value gpio_index 0;;
        val ← gpio_get_value gpio_index;
        if negb (val =? 0) then fail
        else toggle 100 gpio_index;; gpio_free gpio_index;; mret 0.

Fixpoint sample (n : nat) (g : Z) : gprog unit :=
  match n with
  | O => mret tt
  | S n => _ ← gpio_get_value g; sample n g
  end.

Definition rtk_gpio_input_test : gprog Z :=
  w ← get; let gpio_index := index w in
  req_status ← gpio_request gpio_index;
  if negb (req_status =? 0) then mret (- EINVAL)
  else
    set_direct_status ← gpio_direction_input gpio_index;
    if IS_ERR_VALUE set_direct_status then gpio_free gpio_index;; mret (- EINVAL)
    else sample 10 gpio_index;; gpio_free gpio_index;; mret 0.

(** The rounds of the in-out test that are left; what [ret] is when they end. *)
Fixpoint inout_loop (n : nat) (inp out set_value ret : Z) : gprog Z :=
  match n with
  | O => mret ret
  | S n =>
      let set_value := if set_value =? 0 then 1 else 0 in
      gpio_set_value out set_value;;
      value ← gpio_get_value inp;
      if negb (value =? set_value) then mret (- EINVAL)
      else inout_loop n inp out set_value ret
  end.

Definition rtk_gpio_inout_test : gprog Z :=
  w ← get; let inp := in_index w in let out := out_index w in
  ret ← gpio_request inp;
  if negb (ret =? 0) then mret ret
  else
    ret ← gpio_direction_input inp;
    if IS_ERR_VALUE ret then gpio_free inp;; mret ret
    else
      ret ← gpio_request out;
      if negb (ret =? 0) then gpio_free inp;; mret ret
      else
        ret ← gpio_direction_output out 0;
        ret ← (if IS_ERR_VALUE ret then mret ret else inout_loop 10 inp out 0 ret);
        gpio_free out;; gpio_free inp;; mret ret.

(** The functions of the table, and the table. *)
Inductive test_func :=
| rtk_gpio_request_high_irq | rtk_gpio_request_low_irq | rtk_gpio_request_fall_irq
| rtk_gpio_request_rise_irq | rtk_gpio_request_both_irq
| re_request | output_test | input_test | inout_test.

Record rtk_gtest_case := Case { name : string; func : test_func; irq_trigger : Z }.

Definition rtk_test_case : list rtk_gtest_case :=
  [Case "rtk_gpio_high_irq" rtk_gpio_request_high_irq IRQF_TRIGGER_HIGH;
   Case "rtk_gpio_low_irq" rtk_gpio_request_low_irq IRQF_TRIGGER_LOW;
   Case "rtk_gpio_fall_irq" rtk_gpio_request_fall_irq IRQF_TRIGGER_FALLING;
   Case "rtk_gpio_rise_irq" rtk_gpio_request_rise_irq IRQF_TRIGGER_RISING;
   Case "rtk_gpio_both_irq" rtk_gpio_request_both_irq (Z.lor IRQF_TRIGGER_FALLING IRQF_TRIGGER_RISING);
   Case "rtk_gpio_re_request" re_request 0;
   Case "rtk_gpio_output_test" output_test 0;
   Case "rtk_gpio_input_test" input_test 0;
   Case "rtk_gpio_inout_test" inout_test 0].

(** [n] completions; [false] when one does not come in time. *)
Fixpoint wait_irqs (n : nat) : gprog bool :=
  match n with
  | O => mret true
  | S n => ret ← wait_for_completion_timeout; if ret =? 0 then mret false else wait_irqs n
  end.

Definition rtk_gpio_irq_test (int_idx : Z) : gprog Z :=
  w ← get; let g := index w in let virq := gpio_to_irq g in
  reinit_completion;;
  ret ← gpio_request g;
  if negb (ret =? 0) then mret (- EINVAL)
  else
    let fail_gpio : gprog Z := gpio_free g;; mret (- EINVAL) in
    case ← lift (array_get rtk_test_case int_idx);
    ret ← request_irq virq (irq_trigger case);
    if IS_ERR_VALUE ret then fail_gpio
    else
      let faill_irq : gprog Z := free_irq virq;; fail_gpio in
      ret ← rtk_gpio_set_debounce;
      if negb (ret =? 0) then faill_irq
      else
        ok ← wait_irqs 5;
        if ok : bool then free_irq virq;; gpio_free g;; mret 0 else faill_irq.

Definition call_test (f : test_func) : gprog Z :=
  match f with
  | rtk_gpio_request_high_irq => rtk_gpio_irq_test 0
  | rtk_gpio_request_low_irq => rtk_gpio_irq_test 1
  | rtk_gpio_request_fall_irq => rtk_gpio_irq_test 2
  | rtk_gpio_request_rise_irq => rtk_gpio_irq_test 3
  | rtk_gpio_request_both_irq => rtk_gpio_irq_test 4
  | re_request => rtk_gpio_re_request
  | output_test => rtk_gpio_output_test
  | input_test => rtk_gpio_input_test
  | inout_test => rtk_gpio_inout_test
  end.

(** * Probe and remove *)

(** What the device tree node says: the two GPIOs (negative when missing), the debounce
    settings, and whether the device is a wake-up source. *)
Record node := Node {
  test_gpios_0 : Z; test_gpios_1 : Z; node_db_enable : option string; node_db_div_cnt : option Z;
  wakeup_source : bool }.

(** [struct rtk_gpio_test_data] fresh from [devm_kzalloc], then filled in. *)
Definition setup_data (np : node) (w : gpio_state) : gpio_state :=
  Gpio (held w) (irqs w) (wake w) 0 (test_gpios_0 np) (test_gpios_0 np) (test_gpios_1 np)
    (node_db_enable np) (default 0 (node_db_div_cnt np)) (trace w).

(** [nr] is the kernel's ARCH_NR_GPIOS, for [gpio_is_valid]; [alloc]: the allocation succeeds. *)
Definition gpio_is_valid (nr g : Z) : bool := (0 <=? g) && (g <? nr).

Definition rtk_gpio_test_probe (nr test_case : Z) (np : option node) (alloc : bool) : gprog Z :=
  match np with
  | None => mret (- ENODEV)
  | Some np =>
      if negb (gpio_is_valid nr (test_gpios_0 np)) then mret (- ENODEV)
      else if negb (gpio_is_valid nr (test_gpios_1 np)) then mret (- ENODEV)
      else if negb alloc then mret (- ENOMEM)
      else
        modify (setup_data np);;
        case ← lift (array_get rtk_test_case test_case);
        pr_info (name case);;
        when ((test_case <=? 4) && wakeup_source np) (modify (set_wake true));;
        ret ← call_test (func case);
        pr_info (if ret =? 0 then "pass" else "fail");;
        mret 0
  end.

Definition rtk_gpio_test_remove (test_case : Z) (np : node) : gprog Z :=
  when ((test_case <=? 4) && wakeup_source np) (modify (set_wake false));;
  mret 0.
End Gpio.

(** * What a test leaves behind *)

(** What the module holds in [w'] is what it held in [w]. *)
Definition same_holdings (w w' : gpio_state) : Prop :=
  held w' = held w /\ irqs w' = irqs w /\ wake w' = wake w.

(** A command that returns and does not change what is held. *)
Definition keeps `{GpioKernel} {A} (c : gprog A) : Prop :=
  forall w, wp c w (fun o w' => (exists a, o = Ok a) /\ same_holdings w w').

Lemma wp_keeps `{GpioKernel} {A} (c : gprog A) w Q :
  keeps c -> (forall a w', same_holdings w w' -> Q (Ok a) w') -> wp c w Q.
Proof. intros Hc HQ. eapply wp_mono; [apply Hc|]. intros o w' [[a ->] Hw]. by apply HQ. Qed.

#[global] Instance same_holdings_preorder : PreOrder same_holdings.
Proof. unfold same_holdings. split; [done|]. intros ??? (?&?&?) (?&?&?). split_and!; congruence. Qed.

Create HintDb gpio.

Section Keeps.
Context `{GpioKernel}.

Lemma keeps_ret {A} (a : A) : keeps (mret a).
Proof. intros w. wstep. split; [eauto|done]. Qed.
Lemma keeps_modify f : (forall w, same_holdings w (f w)) -> keeps (modify f).
Proof. intros Hf w. wstep. split; [eauto|apply Hf]. Qed.
Lemma keeps_get : keeps get.
Proof. intros w. wstep. split; [eauto|done]. Qed.
Lemma keeps_bind {A B} (c : gprog A) (k : A -> gprog B) : keeps c -> (forall a, keeps (k a)) -> keeps (c ≫= k).
Proof.
  intros Hc Hk w. wstep. apply wp_keeps; [done|]. intros a w1 H1. cbn [next].
  apply wp_keeps; [apply Hk|]. intros b w2 H2. split; [eauto|by trans w1].
Qed.
Lemma keeps_if {A} (b : bool) (c d : gprog A) : keeps c -> keeps d -> keeps (if b then c else d).
Proof. by destruct b. Qed.
End Keeps.
#[export] Hint Resolve keeps_ret keeps_get keeps_bind keeps_if : gpio.
#[export] Hint Extern 1 (keeps (modify _)) => apply keeps_modify; done : gpio.
#[export] Hint Extern 1 (keeps (log _)) => apply keeps_modify; done : gpio.

(** Splits a command into its parts, as far as they keep what is held. *)
Ltac keeps_tac :=
  repeat first [solve [auto with gpio nocore] | apply keeps_if | apply keeps_bind; [|intros ?]
    | case_match ].

Section KeepsCalls.
Context `{GpioKernel}.

Lemma keeps_direction_input g : keeps (gpio_direction_input g).
Proof. unfold gpio_direction_input. keeps_tac. Qed.
Lemma keeps_direction_output g v : keeps (gpio_direction_output g v).
Proof. unfold gpio_direction_output. keeps_tac. Qed.
Lemma keeps_get_value g : keeps (gpio_get_value g).
Proof. unfold gpio_get_value. keeps_tac. Qed.
Lemma keeps_set_value g v : keeps (gpio_set_value g v).
Proof. unfold gpio_set_value. keeps_tac. Qed.
Lemma keeps_reinit : keeps reinit_completion.
Proof. unfold reinit_completion. keeps_tac. Qed.
Lemma keeps_interrupts n : keeps (interrupts n).
Proof. induction n; cbn [interrupts]; unfold rtk_gpio_irq_handler, complete; keeps_tac. Qed.
#[local] Hint Resolve keeps_direction_input keeps_direction_output keeps_get_value keeps_set_value
  keeps_interrupts : gpio.

Lemma keeps_wait : keeps wait_for_completion_timeout.
Proof. unfold wait_for_completion_timeout. keeps_tac. Qed.
#[local] Hint Resolve keeps_wait : gpio.

Lemma keeps_debounce : keeps rtk_gpio_set_debounce.
Proof. unfold rtk_gpio_set_debounce, gpio_set_debounce. keeps_tac. Qed.
Lemma keeps_toggle n g : keeps (toggle n g).
Proof. induction n; cbn [toggle]; keeps_tac. Qed.
Lemma keeps_sample n g : keeps (sample n g).
Proof. induction n; cbn [sample]; keeps_tac. Qed.
Lemma keeps_inout_loop n inp out v ret : keeps (inout_loop n inp out v ret).
Proof. revert v ret. induction n; intros; cbn [inout_loop]; keeps_tac. Qed.
Lemma keeps_wait_irqs n : keeps (wait_irqs n).
Proof. induction n; cbn [wait_irqs]; keeps_tac. Qed.
End KeepsCalls.
#[export] Hint Resolve keeps_direction_input keeps_direction_output keeps_get_value keeps_set_value
  keeps_reinit keeps_wait keeps_debounce keeps_toggle keeps_sample keeps_inout_loop keeps_wait_irqs : gpio.

(** [w'] holds the GPIO [g], or the line [irq], and otherwise what [w] holds. *)
Definition holding (g : Z) (w w' : gpio_state) : Prop :=
  (g ∉ held w) /\ held w' = {[g]} ∪ held w /\ irqs w' = irqs w /\ wake w' = wake w.
Definition handling (irq : Z) (w w' : gpio_state) : Prop :=
  (irq ∉ irqs w) /\ irqs w' = {[irq]} ∪ irqs w /\ held w' = held w /\ wake w' = wake w.

Lemma holding_same g w w1 w2 : holding g w w1 -> same_holdings w1 w2 -> holding g w w2.
Proof. intros (?&?&?&?) (?&?&?). split_and!; congruence. Qed.
Lemma handling_same irq w w1 w2 : handling irq w w1 -> same_holdings w1 w2 -> handling irq w w2.
Proof. intros (?&?&?&?) (?&?&?). split_and!; congruence. Qed.

Section Balance.
Context `{HL : GpioLaws}.

Lemma wp_request g w Q :
  (forall w', holding g w w' -> Q (Ok 0) w') ->
  (forall ret w', ret <> 0 -> same_holdings w w' -> Q (Ok ret) w') ->
  wp (gpio_request g) w Q.
Proof.
  intros Hok Hno. unfold gpio_request. wstep. wstep. wstep. apply wp_when; intros Hr; cbn [next].
  - wstep. wstep. wstep. wstep. apply Z.eqb_eq in Hr. rewrite Hr. apply Hok. split; [|done].
    intros Hin. by apply (request_exclusive w g) in Hin.
  - wstep. wstep. wstep. apply Hno; [by apply Z.eqb_neq|done].
Qed.

Lemma wp_free g w w1 Q :
  holding g w w1 -> (forall w', same_holdings w w' -> Q (Ok tt) w') -> wp (gpio_free g) w1 Q.
Proof.
  intros (Hn & Hh & Hi & Hw) HQ. unfold gpio_free. do 4 wstep. apply HQ.
  split_and!; simpl; [|done..]. rewrite Hh. clear -Hn. set_solver.
Qed.

Lemma wp_request_irq irq flags w Q :
  (forall ret w', IS_ERR_VALUE ret = false -> handling irq w w' -> Q (Ok ret) w') ->
  (forall ret w', IS_ERR_VALUE ret = true -> same_holdings w w' -> Q (Ok ret) w') ->
  wp (request_irq irq flags) w Q.
Proof.
  intros Hok Hno. unfold request_irq. wstep. wstep. wstep. apply wp_when; intros Hr; cbn [next].
  - wstep. wstep. wstep. wstep. apply negb_true_iff in Hr. apply Hok; [done|]. split; [|done].
    intros Hin. apply (request_irq_exclusive w irq flags) in Hin. congruence.
  - wstep. wstep. wstep. apply Hno; [by apply negb_false_iff|done].
Qed.

Lemma wp_free_irq irq w w1 Q :
  handling irq w w1 -> (forall w', same_holdings w w' -> Q (Ok tt) w') -> wp (free_irq irq) w1 Q.
Proof.
  intros (Hn & Hh & Hi & Hw) HQ. unfold free_irq. do 4 wstep. apply HQ.
  split_and!; simpl; [done| |done]. rewrite Hh. clear -Hn. set_solver.
Qed.

(** The test returned 0 or -EINVAL, and holds what it held. *)
Definition balanced (w : gpio_state) (o : outcome Z) (w' : gpio_state) : Prop :=
  (o = Ok 0 \/ o = Ok (- EINVAL)) /\ same_holdings w w'.

Lemma wp_free_return g r w w1 :
  (r = 0 \/ r = - EINVAL) -> holding g w w1 -> wp (gpio_free g;; mret r) w1 (balanced w).
Proof.
  intros Hr Hg. wstep. eapply wp_free; [done|]. intros w' Hs. cbn [next]. wstep. split; [|done].
  destruct Hr as [-> | ->]; auto.
Qed.

(** The common shape of the tests: request the GPIO, then a part that ends by freeing it. *)
Lemma wp_with_gpio g (c : gprog Z) w :
  (forall w1, holding g w w1 -> wp c w1 (balanced w)) ->
  wp (gpio_request g ≫= (fun req => if negb (req =? 0) then mret (- EINVAL) else c)) w (balanced w).
Proof.
  intros Hc. wstep. apply wp_request.
  - intros w1 Hg. by apply Hc.
  - intros ret w1 Hr Hs. cbn [next]. rewrite (proj2 (Z.eqb_neq ret 0) Hr). cbn [negb].
    wstep. split; auto.
Qed.
End Balance.

(** Runs a command that keeps what is held, and carries [holding] over it. *)
Ltac kstep a :=
  wstep; apply wp_keeps; [solve [auto with gpio]|]; intros a ? ?; cbn [next];
  repeat match goal with
  | Hg : holding ?g ?w ?w1, Hs : same_holdings ?w1 ?w2 |- _ =>
      apply (holding_same _ _ _ _ Hg) in Hs; clear Hg
  | Hg : handling ?g ?w ?w1, Hs : same_holdings ?w1 ?w2 |- _ =>
      apply (handling_same _ _ _ _ Hg) in Hs; clear Hg
  end.

Section Tests.
Context `{HL : GpioLaws}.

Lemma re_request_balanced w : wp rtk_gpio_re_request w (balanced w).
Proof.
  unfold rtk_gpio_re_request. wstep. wstep. apply wp_with_gpio. intros w1 Hg.
  wstep. apply wp_request; cbn [next].
  - intros w2 [Hn _]. destruct Hg as (_ & Hh & _). rewrite Hh in Hn. clear -Hn. set_solver.
  - intros ret w2 Hr Hs. rewrite (proj2 (Z.eqb_neq ret 0) Hr).
    eapply wp_free_return; [auto|by eapply holding_same].
Qed.

Lemma output_test_balanced w : wp rtk_gpio_output_test w (balanced w).
Proof.
  unfold rtk_gpio_output_test. wstep. wstep. apply wp_with_gpio. intros w1 Hg.
  kstep st. case_match; [by eapply wp_free_return; eauto|].
  kstep v0. kstep u0. kstep v1. case_match; [by eapply wp_free_return; eauto|].
  kstep u1. kstep v2. case_match; [by eapply wp_free_return; eauto|].
  kstep u2. eapply wp_free_return; eauto.
Qed.

Lemma input_test_balanced w : wp rtk_gpio_input_test w (balanced w).
Proof.
  unfold rtk_gpio_input_test. wstep. wstep. apply wp_with_gpio. intros w1 Hg.
  kstep st. case_match; [by eapply wp_free_return; eauto|].
  kstep u2. eapply wp_free_return; eauto.
Qed.

Lemma wp_free_both irq g r w w1 w2 :
  (r = 0 \/ r = - EINVAL) -> holding g w w1 -> handling irq w1 w2 ->
  wp (free_irq irq;; gpio_free g;; mret r) w2 (balanced w).
Proof.
  intros Hr Hg Hi. wstep. eapply wp_free_irq; [done|]. intros w3 Hs. cbn [next].
  eapply wp_free_return; [done|by eapply holding_same].
Qed.

Lemma irq_test_balanced int_idx w :
  0 <= int_idx <= 8 -> wp (rtk_gpio_irq_test int_idx) w (balanced w).
Proof.
  intros Hidx. unfold rtk_gpio_irq_test. wstep. wstep. wstep. apply wp_keeps; [auto with gpio|].
  intros [] w0 H0. cbn [next].
  apply wp_mono with (P := balanced w0); [|intros o w2 [Ho Hs]; split; [done|by trans w0]].
  apply wp_with_gpio. intros w1 Hg.
  wstep. wstep. destruct (array_get_ok rtk_test_case int_idx) as (case & -> & _); [simpl; lia|].
  cbn [next]. wstep. apply wp_request_irq; cbn [next]; intros ret w2 -> Hs.
  - kstep st. case_match; [by eapply wp_free_both; eauto|].
    kstep ok. case_match; eapply wp_free_both; eauto.
  - eapply wp_free_return; [auto|by eapply holding_same].
Qed.

(** The in-out test gives the error of the call that failed. *)
Lemma inout_test_returns w :
  wp rtk_gpio_inout_test w (fun o w' => (exists r, o = Ok r) /\ same_holdings w w').
Proof.
  assert (Hend : forall g (r : Z) w w1, holding g w w1 ->
    wp (gpio_free g;; mret r) w1 (fun o w' => (exists r, o = Ok r) /\ same_holdings w w')).
  { intros g r w0 w1 Hg. wstep. eapply wp_free; [done|]. intros w2 Hs. cbn [next]. wstep. eauto. }
  unfold rtk_gpio_inout_test. wstep. wstep. wstep. apply wp_request; cbn [next].
  2:{ intros ret w1 Hr Hs. rewrite (proj2 (Z.eqb_neq ret 0) Hr). cbn [negb]. wstep. eauto. }
  intros w1 Hg. cbn [Z.eqb negb]. kstep ret. case_match; [by eapply Hend|].
  wstep. apply wp_request; cbn [next].
  2:{ intros ret2 w2 Hr Hs. rewrite (proj2 (Z.eqb_neq ret2 0) Hr). eapply Hend, holding_same; eauto. }
  intros w2 Hg2. cbn [Z.eqb negb]. kstep ret2. wstep.
  apply wp_keeps; [auto with gpio|]. intros ret3 w3 Hs3. cbn [next]. wstep.
  eapply wp_free; [eapply holding_same; eauto|]. intros w4 Hs4. cbn [next].
  eapply Hend, holding_same; eauto.
Qed.

Lemma call_test_balanced f w :
  wp (call_test f) w (fun o w' =>
    (exists r, o = Ok r /\ (f <> inout_test -> r = 0 \/ r = - EINVAL)) /\ same_holdings w w').
Proof.
  assert (Hb : forall c, wp c w (balanced w) -> wp c w (fun o w' =>
    (exists r, o = Ok r /\ (f <> inout_test -> r = 0 \/ r = - EINVAL)) /\ same_holdings w w')).
  { intros c Hc. apply (wp_mono _ _ _ _ Hc). intros o w' [[-> | ->] Hs]; eauto. }
  destruct f; cbn [call_test].
  1-5: apply Hb, irq_test_balanced; lia.
  - apply Hb, re_request_balanced.
  - apply Hb, output_test_balanced.
  - apply Hb, input_test_balanced.
  - apply (wp_mono _ _ _ _ (inout_test_returns w)). intros o w' [[r ->] Hs]. split; [|done].
    by exists r.
Qed.
End Tests.

(** C3: whatever the kernel answers, every test returns, 0 or -EINVAL except for the in-out
    test, which gives the error it met; and on every path it gives back the GPIOs and the
    interrupt line it took: the module holds what it held before. *)
Theorem gpio_tests_balanced `{GpioLaws} f w :
  exists r w', call_test f w = (Ok r, w') /\
    (f <> inout_test -> r = 0 \/ r = - EINVAL) /\
    held w' = held w /\ irqs w' = irqs w /\ wake w' = wake w.
Proof.
  destruct (call_test f w) as [o w'] eqn:Hc.
  destruct (wp_run _ _ _ _ _ (call_test_balanced f w) Hc) as [(r & -> & Hr) Hs]. by exists r, w'.
Qed.

(** * The in-out test *)

(** The calls of [n] rounds, newest first, the first value being the other one than [v]. *)
Fixpoint inout_rounds (n : nat) (inp out v : Z) : list gpio_event :=
  match n with
  | O => []
  | S n =>
      let v := if v =? 0 then 1 else 0 in
      inout_rounds n inp out v ++ [GetValue inp v; SetValue out v]
  end.

(** A kernel that refuses nothing it can grant. *)
Class Granting `(K : GpioKernel) : Prop := {
  grant_request w g : g ∉ held w -> k_request w g = 0;
  grant_input w g : IS_ERR_VALUE (k_direction_input w g) = false;
  grant_output w g v : IS_ERR_VALUE (k_direction_output w g v) = false;
  grant_irq w irq flags : irq ∉ irqs w -> IS_ERR_VALUE (k_request_irq w irq flags) = false;
  grant_debounce w g div : k_set_debounce w g div = 0 }.

(** A wire from [out] to [inp]: reading after writing gives what was written. *)
Definition wired `{GpioKernel} (inp out : Z) : Prop :=
  forall w v tl, trace w = SetValue out v :: tl -> k_get_value w inp = v.

Section InOut.
Context `{HL : GpioLaws}.

Lemma wp_request_trace g w Q :
  (forall w', k_request w g = 0 -> held w' = {[g]} ∪ held w -> trace w' = Request g 0 :: trace w ->
    in_index w' = in_index w -> Q (Ok 0) w') ->
  (forall w', k_request w g <> 0 -> IS_ERR_VALUE (k_request w g) = true -> Q (Ok (k_request w g)) w') ->
  wp (gpio_request g) w Q.
Proof.
  intros Hok Hno. unfold gpio_request. do 3 wstep. apply wp_when; intros Hr; cbn [next].
  - do 4 wstep. apply Z.eqb_eq in Hr. rewrite Hr. by apply Hok.
  - do 3 wstep. apply Z.eqb_neq in Hr. apply Hno; [done|]. by destruct (request_errno w g).
Qed.

Lemma inout_loop_trace n inp out v ret w :
  wp (inout_loop n inp out v ret) w (fun o w' =>
    o = Ok ret /\ trace w' = inout_rounds n inp out v ++ trace w \/
    o = Ok (- EINVAL) /\ ~ wired inp out).
Proof.
  revert v w. induction n as [|n IH]; intros v w; cbn [inout_loop inout_rounds].
  { wstep. by left. }
  set (v' := if v =? 0 then 1 else 0).
  wstep. unfold gpio_set_value. wstep. wstep. unfold gpio_get_value. do 5 wstep.
  set (w1 := log _ w). destruct (Z.eqb_spec (k_get_value w1 inp) v') as [Hv|Hv]; cbn [negb].
  - eapply wp_mono; [apply IH|]. intros o w2 [[-> Ht]|[-> Hw]]; [left|by right].
    split; [done|]. rewrite Ht, Hv, <- app_assoc. done.
  - wstep. right. split; [done|]. intros Hw. apply Hv. by eapply (Hw w1).
Qed.

(** Nothing in the kernel is in the way of the test, and its GPIOs are wired. *)
Definition inout_ready (w : gpio_state) : Prop :=
  Granting K /\ wired (in_index w) (out_index w) /\ in_index w <> out_index w /\
  (in_index w ∉ held w) /\ (out_index w ∉ held w).

(** What the whole test has shown when it did not fail, and that it does not fail on a wire. *)
Definition inout_verdict (w : gpio_state) (o : outcome Z) (w' : gpio_state) : Prop :=
  let inp := in_index w in let out := out_index w in
  exists r, o = Ok r /\
  (IS_ERR_VALUE r = false -> exists ri ro,
    trace w' = [Free inp; Free out] ++ inout_rounds 10 inp out 0 ++
      [DirectionOutput out 0 ro; Request out 0; DirectionInput inp ri; Request inp 0] ++ trace w) /\
  (inout_ready w -> IS_ERR_VALUE r = false).

Lemma inout_fails r w w' :
  IS_ERR_VALUE r = true -> ~ inout_ready w -> inout_verdict w (Ok r) w'.
Proof. intros Hr Hn. exists r. split; [done|]. split; [congruence|]. intros. by destruct Hn. Qed.

Lemma wp_free_trace {A} g (c : gprog A) w Q :
  (forall w', trace w' = Free g :: trace w -> wp c w' Q) -> wp (gpio_free g;; c) w Q.
Proof. intros HQ. wstep. unfold gpio_free. do 4 wstep. by apply HQ. Qed.

(** The part in which both GPIOs are held. *)
Lemma inout_drive_verdict w w1 ri :
  trace w1 = [Request (out_index w) 0; DirectionInput (in_index w) ri; Request (in_index w) 0] ++ trace w ->
  wp (gpio_direction_output (out_index w) 0 ≫= (fun ret =>
      (if IS_ERR_VALUE ret then mret ret else inout_loop 10 (in_index w) (out_index w) 0 ret) ≫= (fun ret =>
      gpio_free (out_index w);; gpio_free (in_index w);; mret ret))) w1 (inout_verdict w).
Proof.
  intros Ht. wstep. unfold gpio_direction_output. do 5 wstep.
  destruct (IS_ERR_VALUE _) eqn:Hro.
  { wstep. wstep. apply wp_free_trace. intros w2 _. apply wp_free_trace. intros w3 _. wstep.
    apply inout_fails; [done|]. intros (HG & _). by rewrite grant_output in Hro. }
  wstep. eapply wp_mono; [apply inout_loop_trace|].
  intros o w2 [[-> Ht2]|[-> Hw]]; cbn [next]; apply wp_free_trace; intros w3 Ht3; apply wp_free_trace;
    intros w4 Ht4; wstep.
  - eexists. split; [done|]. split; [|done]. intros _. exists ri, (k_direction_output w1 (out_index w) 0).
    rewrite Ht4, Ht3, Ht2. cbn [trace log]. by rewrite Ht.
  - apply inout_fails; [done|]. by intros (_ & ? & _).
Qed.

Lemma inout_test_verdict_wp w : wp rtk_gpio_inout_test w (inout_verdict w).
Proof.
  unfold rtk_gpio_inout_test. do 3 wstep. apply wp_request_trace; cbn [next].
  2:{ intros w1 Hr He. rewrite (proj2 (Z.eqb_neq _ 0) Hr). cbn [negb]. wstep.
      apply inout_fails; [done|]. intros (? & _ & _ & Hi & _). by apply Hr, grant_request. }
  intros w1 Hr1 Hh1 Ht1 _. cbn [Z.eqb negb].
  wstep. unfold gpio_direction_input. do 5 wstep.
  destruct (IS_ERR_VALUE _) eqn:Hri.
  { apply wp_free_trace. intros w3 _. wstep.
    apply inout_fails; [done|]. intros (? & _). by rewrite grant_input in Hri. }
  wstep. apply wp_request_trace; cbn [next].
  2:{ intros w3 Hr He. rewrite (proj2 (Z.eqb_neq _ 0) Hr). cbn [negb]. apply wp_free_trace. intros w4 _.
      wstep. apply inout_fails; [done|]. intros (? & _ & Hio & Hi & Ho). apply Hr, grant_request.
      cbn [held log]. rewrite Hh1. clear -Hio Ho. set_solver. }
  intros w3 Hr3 Hh3 Ht3 _. cbn [Z.eqb negb].
  apply (inout_drive_verdict w w3 (k_direction_input w1 (in_index w))).
  rewrite Ht3. cbn [trace log]. by rewrite Ht1.
Qed.
End InOut.

(** When the in-out test does not return an error, it has requested both GPIOs, set
    their directions, and in each of ten rounds written the other value than before (first 1)
    to the output and read that value back at the input, and freed both; and when the kernel
    refuses nothing and the two GPIOs are wired together, it does not return an error. *)
Theorem gpio_inout_verdict `{GpioLaws} w r w' :
  rtk_gpio_inout_test w = (Ok r, w') ->
  (IS_ERR_VALUE r = false -> exists ri ro,
    trace w' = [Free (in_index w); Free (out_index w)] ++ inout_rounds 10 (in_index w) (out_index w) 0 ++
      [DirectionOutput (out_index w) 0 ro; Request (out_index w) 0;
       DirectionInput (in_index w) ri; Request (in_index w) 0] ++ trace w) /\
  (inout_ready w -> IS_ERR_VALUE r = false).
Proof.
  intros Hrun. destruct (wp_run _ _ _ _ _ (inout_test_verdict_wp w) Hrun) as (r' & [= <-] & Hv). exact Hv.
Qed.

(** * The interrupt tests *)

Fixpoint count_interrupts (t : list gpio_event) : Z :=
  match t with
  | [] => 0
  | Interrupt :: t => 1 + count_interrupts t
  | _ :: t => count_interrupts t
  end.

(** Completions not yet taken, less the interrupts so far: each successful wait takes one. *)
Definition credit (w : gpio_state) : Z := Z.of_nat (done w) - count_interrupts (trace w).

Definition irq_ready `{K : GpioKernel} (w : gpio_state) : Prop :=
  Granting K /\ (forall w', 1 <= k_interrupts w')%nat /\
  (index w ∉ held w) /\ (gpio_to_irq (index w) ∉ irqs w).

Section Irq.
Context `{HL : GpioLaws}.

Lemma interrupts_credit n w :
  wp (interrupts n) w (fun o w' => o = Ok tt /\ credit w' = credit w /\ (done w' = n + done w)%nat).
Proof.
  revert w. induction n as [|n IH]; intros w; cbn [interrupts].
  { wstep. done. }
  wstep. unfold rtk_gpio_irq_handler, complete. do 5 wstep. eapply wp_mono; [apply IH|].
  intros o w' (-> & Hc & Hd). rewrite Hc, Hd. unfold credit. simpl. split_and!; [done|lia|lia].
Qed.

Lemma wait_credit w :
  wp wait_for_completion_timeout w (fun o w' => exists r, o = Ok r /\
    (r <> 0 -> credit w' = credit w - 1) /\ ((1 <= k_interrupts w)%nat -> r <> 0)).
Proof.
  unfold wait_for_completion_timeout. do 3 wstep. eapply wp_mono; [apply interrupts_credit|].
  intros o w1 (-> & Hc & Hd). cbn [next]. do 2 wstep. destruct (done w1) as [|n] eqn:Hn.
  - do 3 wstep. exists 0. split_and!; [done|done|lia].
  - do 5 wstep. pose proof (left_positive w1). eexists. split_and!; [done| |lia].
    intros _. rewrite <- Hc. unfold credit. simpl. rewrite Hn. lia.
Qed.

Lemma wait_irqs_credit n w :
  wp (wait_irqs n) w (fun o w' => exists b, o = Ok b /\
    (b = true -> credit w' = credit w - Z.of_nat n) /\ ((forall w', 1 <= k_interrupts w')%nat -> b = true)).
Proof.
  revert w. induction n as [|n IH]; intros w; cbn [wait_irqs].
  { wstep. exists true. split_and!; [done| |done]. intros _. lia. }
  wstep. eapply wp_mono; [apply wait_credit|]. intros o w1 (r & -> & Hc & Hr). cbn [next].
  destruct (Z.eqb_spec r 0) as [->|Hr0].
  { wstep. exists false. split_and!; [done|done|]. intros Hi. by destruct Hr. }
  eapply wp_mono; [apply IH|]. intros o w2 (b & -> & Hb & Hi). exists b. split_and!; [done| |done].
  intros ->. rewrite Hb, Hc by done. lia.
Qed.

Lemma debounce_credit w :
  wp rtk_gpio_set_debounce w (fun o w' => exists r, o = Ok r /\ credit w' = credit w /\ (Granting K -> r = 0)).
Proof.
  unfold rtk_gpio_set_debounce, gpio_set_debounce. do 2 wstep. case_bool_decide.
  - do 6 wstep. destruct (Z.eqb_spec (k_set_debounce w (index w) (db_div_cnt w)) 0) as [|Hd]; cbn [negb]; wstep.
    + by exists 0.
    + exists (- EINVAL). split_and!; [done|done|]. intros HG. by rewrite grant_debounce in Hd.
  - wstep. by exists 0.
Qed.

(** The verdict of an interrupt test, and that a failure means that something was amiss. *)
Definition irq_verdict (w : gpio_state) (o : outcome Z) (w' : gpio_state) : Prop :=
  exists r, o = Ok r /\
  (r = 0 -> count_interrupts (trace w) + 5 <= count_interrupts (trace w')) /\ (irq_ready w -> r = 0).

Lemma irq_fails w w' : ~ irq_ready w -> irq_verdict w (Ok (- EINVAL)) w'.
Proof. intros Hn. exists (- EINVAL). by split_and!. Qed.

Lemma wp_free_fails irq w w1 (c : gprog Z) :
  (forall w2, wp c w2 (irq_verdict w)) -> wp (free_irq irq;; c) w1 (irq_verdict w).
Proof. intros Hc. wstep. unfold free_irq. do 4 wstep. apply Hc. Qed.

Lemma irq_test_verdict int_idx w :
  0 <= int_idx <= 8 -> wp (rtk_gpio_irq_test int_idx) w (irq_verdict w).
Proof.
  intros Hidx. unfold rtk_gpio_irq_test, reinit_completion. do 4 wstep.
  unfold gpio_request at 1. do 4 wstep. apply wp_when; intros Hr; cbn [next].
  2:{ do 3 wstep. rewrite Hr. cbn [negb]. wstep. apply irq_fails. intros (? & _ & Hg & _).
      apply Z.eqb_neq in Hr. by apply Hr, grant_request. }
  do 4 wstep. rewrite Hr. cbn [negb].
  assert (Hgpio : ~ irq_ready w -> forall w1,
    wp (gpio_free (index w);; mret (- EINVAL)) w1 (irq_verdict w)).
  { intros Hn w1. apply wp_free_trace. intros w2 _. wstep. by apply irq_fails. }
  do 2 wstep. destruct (array_get_ok rtk_test_case int_idx) as (case & -> & _); [simpl; lia|].
  cbn [next]. unfold request_irq. do 4 wstep. apply wp_when; intros Hi; cbn [next].
  2:{ do 3 wstep. apply negb_false_iff in Hi. rewrite Hi. apply Hgpio. intros (? & _ & _ & Hv).
      by rewrite grant_irq in Hi. }
  do 4 wstep. apply negb_true_iff in Hi. rewrite Hi.
  wstep. eapply wp_mono; [apply debounce_credit|]. intros o w1 (r & -> & Hc & Hd). cbn [next].
  destruct (Z.eqb_spec r 0) as [->|Hr0]; cbn [negb].
  2:{ apply wp_free_fails. apply Hgpio. intros [HG _]. auto. }
  wstep. eapply wp_mono; [apply wait_irqs_credit|]. intros o w2 (ok & -> & Hok & Hall). cbn [next].
  destruct ok.
  2:{ apply wp_free_fails. apply Hgpio. intros (_ & Hk & _). discriminate (Hall Hk). }
  specialize (Hok eq_refl). rewrite Hc in Hok. unfold credit in Hok. simpl in Hok.
  wstep. unfold free_irq, gpio_free. do 9 wstep. exists 0. split_and!; [done| |done].
  intros _. simpl. lia.
Qed.
End Irq.

(** An interrupt test returns 0 only when the handler has run at least five times
    during the test; and it does return 0 when the kernel refuses nothing, the GPIO and its
    line are free, and every wait sees an interrupt. *)
Theorem gpio_irq_verdict `{GpioLaws} int_idx w r w' :
  0 <= int_idx <= 4 -> rtk_gpio_irq_test int_idx w = (Ok r, w') ->
  (r = 0 -> count_interrupts (trace w) + 5 <= count_interrupts (trace w')) /\
  (irq_ready w -> r = 0).
Proof.
  intros Hidx Hrun. assert (0 <= int_idx <= 8) as Hi by lia.
  destruct (wp_run _ _ _ _ _ (irq_test_verdict int_idx w Hi) Hrun) as (r' & [= <-] & Hv). exact Hv.
Qed.

(** * Probe and remove *)

(** The state in which the probe calls the test. *)
Definition test_start (case : rtk_gtest_case) (wakes : bool) (np : node) (w : gpio_state) : gpio_state :=
  let w := log (Info (name case)) (setup_data np w) in if wakes then set_wake true w else w.

(** On a complete node and with a test of the table, the probe succeeds whatever the test
    returns, reports pass exactly when it returned 0, holds no GPIO or line it did not hold
    before, and arms the wake-up only for the interrupt tests of a wake-up source; removing
    the device disarms it. *)
Theorem gpio_probe_remove `{GpioLaws} nr test_case np w :
  0 <= test_case <= 8 ->
  gpio_is_valid nr (test_gpios_0 np) = true -> gpio_is_valid nr (test_gpios_1 np) = true ->
  let wakes := (test_case <=? 4) && wakeup_source np in
  exists case r wt w1 w2,
    rtk_test_case !! Z.to_nat test_case = Some case /\
    call_test (func case) (test_start case wakes np w) = (Ok r, wt) /\
    rtk_gpio_test_probe nr test_case (Some np) true w = (Ok 0, w1) /\
    w1 = log (Info (if r =? 0 then "pass" else "fail")) wt /\
    held w1 = held w /\ irqs w1 = irqs w /\ wake w1 = wakes || wake w /\
    rtk_gpio_test_remove test_case np w1 = (Ok 0, w2) /\
    held w2 = held w /\ irqs w2 = irqs w /\ wake w2 = negb wakes && wake w.
Proof.
  intros Htc Hv0 Hv1 wakes. destruct (array_get_ok rtk_test_case test_case) as (case & Hget & Hl).
  { simpl. lia. }
  pose proof (call_test_balanced (func case) (test_start case wakes np w)) as Hb.
  unfold wp in Hb. destruct (call_test (func case) _) as [o wt] eqn:Hcall.
  destruct Hb as [(r & -> & _) (Hh & Hi & Hw)].
  set (w1 := log (Info (if r =? 0 then "pass" else "fail")) wt).
  exists case, r, wt, w1, (if wakes then set_wake false w1 else w1).
  split; [done|]. split; [done|]. split.
  { unfold rtk_gpio_test_probe. rewrite Hv0, Hv1. cbn [negb].
    unfold pr_info, when, lift, modify, mbind, prog_bind. rewrite Hget.
    fold wakes. unfold test_start in Hcall. destruct wakes; cbv beta iota zeta in Hcall |- *;
      unfold mret, prog_ret; by rewrite Hcall. }
  split; [done|]. unfold w1, rtk_gpio_test_remove. fold wakes.
  unfold test_start, when in *. destruct wakes; simpl; rewrite ?Hh, ?Hi, ?Hw; split_and!; reflexivity.
Qed.

(** The parameter [test_case] of the module is not checked: with a value outside 0..8
    the probe reads outside the table. *)
Theorem gpio_probe_out_of_table `{GpioKernel} nr test_case np w :
  ~ (0 <= test_case <= 8) ->
  gpio_is_valid nr (test_gpios_0 np) = true -> gpio_is_valid nr (test_gpios_1 np) = true ->
  exists w', rtk_gpio_test_probe nr test_case (Some np) true w = (Fault OutOfBounds, w').
Proof.
  intros Htc Hv0 Hv1. eexists. unfold rtk_gpio_test_probe. rewrite Hv0, Hv1. cbn [negb].
  unfold mbind, prog_bind, modify, lift.
  assert (array_get rtk_test_case test_case = Fault OutOfBounds) as ->; [|done].
  unfold array_get. destruct (Z.ltb_spec test_case 0); [done|].
  rewrite lookup_ge_None_2; [done|]. simpl. lia.
Qed.

(** * A board *)

(** A board with a wire from each output to each input, one interrupt at each wait, and a
    kernel that refuses what is taken with -EBUSY. *)
Definition wire_kernel : GpioKernel := {|
  k_request w g := if bool_decide (g ∈ held w) then -16 else 0;
  k_direction_input _ _ := 0;
  k_direction_output _ _ _ := 0;
  k_get_value w _ := match trace w with SetValue _ v :: _ => v | _ => 0 end;
  gpio_to_irq g := 32 + g;
  k_request_irq w irq _ := if bool_decide (irq ∈ irqs w) then -16 else 0;
  k_interrupts _ := 1%nat;
  k_left _ := 100;
  k_set_debounce _ _ _ := 0 |}.

Lemma wire_laws : GpioLaws wire_kernel.
Proof.
  split; cbn; intros.
  - by rewrite bool_decide_true.
  - case_bool_decide; [right; reflexivity|by left].
  - by rewrite bool_decide_true.
  - lia.
Qed.

Lemma wire_granting : Granting wire_kernel.
Proof. split; cbn; intros; try done; by rewrite bool_decide_false. Qed.

Lemma wire_wired inp out : @wired wire_kernel inp out.
Proof. intros w v tl Ht. cbn. by rewrite Ht. Qed.

Definition idle : gpio_state := Gpio ∅ ∅ false 0 5 5 6 (Some "enable"%string) 10 [].

(** The tests of the table on that board. *)
Definition verdict_of (f : test_func) : outcome Z := fst (@call_test wire_kernel f idle).

Example wire_board_passes :
  (verdict_of <$> (func <$> rtk_test_case)) = replicate 9 (Ok 0).
Proof. vm_compute. reflexivity. Qed.

Lemma gpio_tests_balanced_witness :
  exists r w', @call_test wire_kernel inout_test idle = (Ok r, w') /\
    (inout_test <> inout_test -> r = 0 \/ r = - EINVAL) /\
    held w' = held idle /\ irqs w' = irqs idle /\ wake w' = wake idle.
Proof. exact (@gpio_tests_balanced wire_kernel wire_laws inout_test idle). Defined.

Lemma gpio_inout_verdict_witness :
  let '(o, w') := @rtk_gpio_inout_test wire_kernel idle in
  o = Ok 0 /\ exists ri ro,
    trace w' = [Free 5; Free 6] ++ inout_rounds 10 5 6 0 ++
      [DirectionOutput 6 0 ro; Request 6 0; DirectionInput 5 ri; Request 5 0].
Proof.
  destruct (@rtk_gpio_inout_test wire_kernel idle) as [o w'] eqn:Hrun.
  assert (o = Ok 0) as ->.
  { change o with (fst (o, w')). rewrite <- Hrun. vm_compute. reflexivity. }
  split; [done|]. exact (proj1 (@gpio_inout_verdict wire_kernel wire_laws idle 0 w' Hrun) eq_refl).
Defined.

Lemma gpio_irq_verdict_witness :
  let '(o, w') := @rtk_gpio_irq_test wire_kernel 4 idle in
  o = Ok 0 /\ 5 <= count_interrupts (trace w').
Proof.
  destruct (@rtk_gpio_irq_test wire_kernel 4 idle) as [o w'] eqn:Hrun.
  assert (o = Ok 0) as ->.
  { change o with (fst (o, w')). rewrite <- Hrun. vm_compute. reflexivity. }
  split; [done|]. apply (proj1 (@gpio_irq_verdict wire_kernel wire_laws 4 idle 0 w' ltac:(lia) Hrun) eq_refl).
Defined.

Lemma gpio_probe_remove_witness :
  let np := Node 5 6 None None true in
  exists case r wt w1 w2,
    rtk_test_case !! Z.to_nat 3 = Some case /\
    @call_test wire_kernel (func case) (test_start case true np idle) = (Ok r, wt) /\
    @rtk_gpio_test_probe wire_kernel 512 3 (Some np) true idle = (Ok 0, w1) /\
    w1 = log (Info (if r =? 0 then "pass" else "fail")) wt /\
    held w1 = ∅ /\ irqs w1 = ∅ /\ wake w1 = true /\
    rtk_gpio_test_remove 3 np w1 = (Ok 0, w2) /\
    held w2 = ∅ /\ irqs w2 = ∅ /\ wake w2 = false.
Proof.
  exact (@gpio_probe_remove wire_kernel wire_laws 512 3 (Node 5 6 None None true) idle
    ltac:(lia) eq_refl eq_refl).
Defined.

Lemma gpio_probe_out_of_table_witness :
  exists w', @rtk_gpio_test_probe wire_kernel 512 9 (Some (Node 5 6 None None true)) true idle
    = (Fault OutOfBounds, w').
Proof.
  exact (@gpio_probe_out_of_table wire_kernel 512 9 (Node 5 6 None None true) idle
    ltac:(lia) eq_refl eq_refl).
Defined.
