(* ===== verification/I2cSlave.v ===== *)
(** i2c-slave/i2c-slave.c: the example slave of the I2C slave test module: the callback that
    the bus driver calls for each event, and the registration of the slave. *)
From Stdlib Require Import ZArith Lia.
From stdpp Require Import base list numbers.
From S2P Require Import Prelude.

#[global] Open Scope Z_scope.

(** [enum i2c_slave_event]. *)
Inductive i2c_slave_event :=
| I2C_SLAVE_READ_REQUESTED
| I2C_SLAVE_WRITE_REQUESTED
| I2C_SLAVE_READ_PROCESSED
| I2C_SLAVE_WRITE_RECEIVED
| I2C_SLAVE_STOP.

(** What [verbose] prints: a heading, or a byte, with the running total at the end of a line. *)
Inductive printed :=
| GiveHeading (data : Z)
| ReceiveHeading
| Byte (data : Z)
| ByteTotal (data total : Z).

(** The static variables, and what was printed, newest first. *)
Record slave_state := Slave { recv_index : Z; send_index : Z; out : list printed }.

Definition say (verbose : Z) (p : printed) (s : slave_state) : slave_state :=
  if verbose =? 0 then s else Slave (recv_index s) (send_index s) (p :: out s).

(** Sixteen bytes a line; [%] of C. *)
Definition byte_printed (index data : Z) : printed :=
  if Z.rem index 16 =? 15 then ByteTotal data (s32 (index + 1)) else Byte data.

(** The new state and the new [*data]; the callback always returns 0. *)
Definition i2c_slave_callback_example (verbose : Z) (s : slave_state) (slave_event : i2c_slave_event)
    (data : Z) : slave_state * Z :=
  match slave_event with
  | I2C_SLAVE_READ_REQUESTED =>
      let s := Slave (recv_index s) 0 (out s) in
      (say verbose (GiveHeading 0) s, 0)
  | I2C_SLAVE_READ_PROCESSED =>
      let s := Slave (recv_index s) (s32 (send_index s + 1)) (out s) in
      let data := u8 (send_index s) in
      (say verbose (byte_printed (send_index s) data) s, data)
  | I2C_SLAVE_WRITE_REQUESTED =>
      let s := Slave 0 (send_index s) (out s) in
      (say verbose ReceiveHeading s, data)
  | I2C_SLAVE_WRITE_RECEIVED =>
      let s := say verbose (byte_printed (recv_index s) data) s in
      (Slave (s32 (recv_index s + 1)) (send_index s) (out s), data)
  | I2C_SLAVE_STOP => (Slave 0 0 (out s), data)
  end.

(** The bus driver calls the callback for one event after the other, with the byte that the
    master wrote (or whatever the buffer holds); [replies] are the values of [*data] after. *)
Fixpoint run_events (verbose : Z) (s : slave_state) (evs : list (i2c_slave_event * Z))
    : slave_state * list Z :=
  match evs with
  | [] => (s, [])
  | (e, data) :: evs =>
      let '(s, d) := i2c_slave_callback_example verbose s e data in
      let '(s, ds) := run_events verbose s evs in (s, d :: ds)
  end.

Definition slave_initial : slave_state := Slave 0 0 [].

(** * Registration *)

Definition I2C_CLIENT_TEN : Z := 16.
Definition I2C_CLIENT_SLAVE : Z := 32.

(** The client as the probe leaves it: its flags, and whether the callback is registered;
    [register_ok]: the kernel accepts the registration, whose result is not looked at. *)
Record client := Client { flags : Z; registered : bool }.

Definition rtk_i2c_slave_test_probe (addr10bit : Z) (register_ok : bool) (c : client) : Z * client :=
  (0, Client (if addr10bit =? 0 then I2C_CLIENT_SLAVE else Z.lor I2C_CLIENT_TEN I2C_CLIENT_SLAVE)
        register_ok).

Definition rtk_i2c_slave_test_remove (c : client) : Z * client := (0, Client (flags c) false).

(** * The counters *)

Definition counts_read (e : i2c_slave_event) : option bool :=
  match e with
  | I2C_SLAVE_READ_REQUESTED | I2C_SLAVE_STOP => Some false
  | I2C_SLAVE_READ_PROCESSED => Some true
  | _ => None
  end.
Definition counts_write (e : i2c_slave_event) : option bool :=
  match e with
  | I2C_SLAVE_WRITE_REQUESTED | I2C_SLAVE_STOP => Some false
  | I2C_SLAVE_WRITE_RECEIVED => Some true
  | _ => None
  end.

(** How often the counted event came since the last reset, from [n] on. *)
Fixpoint since_reset (counts : i2c_slave_event -> option bool) (n : Z)
    (evs : list (i2c_slave_event * Z)) : Z :=
  match evs with
  | [] => n
  | (e, _) :: evs =>
      since_reset counts (match counts e with Some true => n + 1 | Some false => 0 | None => n end) evs
  end.

Lemma since_reset_app counts n evs evs' :
  since_reset counts n (evs ++ evs') = since_reset counts (since_reset counts n evs) evs'.
Proof. revert n. induction evs as [|[e d] evs IH]; intros n; simpl; [done|]. apply IH. Qed.

Lemma run_events_app v s evs evs' :
  run_events v s (evs ++ evs') =
  let '(s1, ds1) := run_events v s evs in let '(s2, ds2) := run_events v s1 evs' in (s2, ds1 ++ ds2).
Proof.
  revert s. induction evs as [|[e d] evs IH]; intros s; simpl.
  { by destruct (run_events v s evs'). }
  destruct (i2c_slave_callback_example v s e d) as [s1 d1]. rewrite IH.
  destruct (run_events v s1 evs) as [s2 ds]. by destruct (run_events v s2 evs').
Qed.

Lemma s32_add_s32 n : s32 (s32 n + 1) = s32 (n + 1).
Proof. solve_word. Qed.

Lemma u8_s32 n : u8 (s32 n) = u8 n.
Proof. solve_word. Qed.

Lemma callback_counters v s e d :
  let s' := (i2c_slave_callback_example v s e d).1 in
  send_index s' = match counts_read e with
    | Some true => s32 (send_index s + 1) | Some false => 0 | None => send_index s end /\
  recv_index s' = match counts_write e with
    | Some true => s32 (recv_index s + 1) | Some false => 0 | None => recv_index s end.
Proof. destruct e; simpl; unfold say; by destruct (v =? 0). Qed.

(** The counters are the numbers of bytes since the last reset, as [int]s. *)
Lemma run_events_counters v s evs n m :
  send_index s = s32 n -> recv_index s = s32 m ->
  let s' := (run_events v s evs).1 in
  send_index s' = s32 (since_reset counts_read n evs) /\
  recv_index s' = s32 (since_reset counts_write m evs).
Proof.
  revert s n m. induction evs as [|[e d] evs IH]; intros s n m Hn Hm; simpl; [done|].
  pose proof (callback_counters v s e d) as [Hs Hr].
  destruct (i2c_slave_callback_example v s e d) as [s1 d1]. cbn [fst] in Hs, Hr.
  specialize (IH s1
    (match counts_read e with Some true => n + 1 | Some false => 0 | None => n end)
    (match counts_write e with Some true => m + 1 | Some false => 0 | None => m end)).
  destruct (run_events v s1 evs) as [s2 ds]. apply IH.
  - rewrite Hs, Hn. destruct (counts_read e) as [[]|]; [apply s32_add_s32|done|done].
  - rewrite Hr, Hm. destruct (counts_write e) as [[]|]; [apply s32_add_s32|done|done].
Qed.

(** C13: at any point of any sequence of bus events, the byte offered to the master is 0 after
    READ_REQUESTED, and after READ_PROCESSED the number of bytes processed since the last
    request or stop, modulo 256, whatever was written in between; other events leave the byte
    alone.  So the first byte of every read is 0 (i2c-slave.c:53), and not the 23 (hex) that
    the transcripts of i2c-slave/readme.txt and i2c/readme.txt show. *)
Theorem i2c_slave_byte_offered v evs e d :
  let s := (run_events v slave_initial evs).1 in
  (i2c_slave_callback_example v s e d).2 =
    match e with
    | I2C_SLAVE_READ_REQUESTED => 0
    | I2C_SLAVE_READ_PROCESSED => (since_reset counts_read 0 evs + 1) mod 256
    | _ => d
    end.
Proof.
  intros s. pose proof (run_events_counters v slave_initial evs 0 0 eq_refl eq_refl) as [Hs _].
  fold s in Hs. destruct e; try done. simpl. rewrite Hs, s32_add_s32, u8_s32. done.
Qed.

Lemma i2c_slave_byte_offered_witness :
  let evs := [(I2C_SLAVE_WRITE_REQUESTED, 0); (I2C_SLAVE_WRITE_RECEIVED, 7); (I2C_SLAVE_STOP, 7);
              (I2C_SLAVE_READ_REQUESTED, 7); (I2C_SLAVE_READ_PROCESSED, 7)] in
  let s := (run_events 1 slave_initial evs).1 in
  (i2c_slave_callback_example 1 s I2C_SLAVE_READ_REQUESTED 7).2 = 0 /\
  (i2c_slave_callback_example 1 s I2C_SLAVE_READ_PROCESSED 7).2 = 2 /\
  (i2c_slave_callback_example 1 s I2C_SLAVE_WRITE_RECEIVED 7).2 = 7.
Proof.
  intros evs s. split_and!.
  - exact (i2c_slave_byte_offered 1 evs I2C_SLAVE_READ_REQUESTED 7).
  - exact (i2c_slave_byte_offered 1 evs I2C_SLAVE_READ_PROCESSED 7).
  - exact (i2c_slave_byte_offered 1 evs I2C_SLAVE_WRITE_RECEIVED 7).
Defined.

(** * Whole transfers *)

(** A read of [n] bytes: the request gives the first byte, each processed byte the next. *)
Definition master_read (n : nat) (junk : Z) : list (i2c_slave_event * Z) :=
  (I2C_SLAVE_READ_REQUESTED, junk) :: replicate n (I2C_SLAVE_READ_PROCESSED, junk).
Definition master_write (bytes : list Z) : list (i2c_slave_event * Z) :=
  (I2C_SLAVE_WRITE_REQUESTED, 0) :: ((fun b => (I2C_SLAVE_WRITE_RECEIVED, b)) <$> bytes).

(** What is printed for the bytes from the one with number [i] on, oldest first. *)
Fixpoint report (i : Z) (bytes : list Z) : list printed :=
  match bytes with
  | [] => []
  | b :: bytes => (if i mod 16 =? 15 then ByteTotal b (i + 1) else Byte b) :: report (i + 1) bytes
  end.

Lemma byte_printed_report i b :
  0 <= i < 2147483647 -> byte_printed i b = if i mod 16 =? 15 then ByteTotal b (i + 1) else Byte b.
Proof. intros Hi. unfold byte_printed. rewrite Z.rem_mod_nonneg, s32_id by lia. done. Qed.

Lemma write_bytes_reported v s bytes :
  v <> 0 -> 0 <= recv_index s -> recv_index s + Z.of_nat (length bytes) < 2147483648 ->
  (run_events v s ((fun b => (I2C_SLAVE_WRITE_RECEIVED, b)) <$> bytes)).1 =
  Slave (recv_index s + Z.of_nat (length bytes)) (send_index s)
    (rev (report (recv_index s) bytes) ++ out s).
Proof.
  intros Hv. revert s. induction bytes as [|b bytes IH]; intros s Hi Hb; simpl.
  { destruct s. simpl. f_equal. lia. }
  unfold say. rewrite (proj2 (Z.eqb_neq v 0) Hv). simpl in Hb |- *.
  match goal with |- context [run_events v ?s1 _] => specialize (IH s1) end. simpl in IH.
  rewrite s32_id in IH |- * by lia. specialize (IH ltac:(lia) ltac:(lia)).
  destruct (run_events v _ _) as [s2 ds]. simpl in IH |- *. rewrite IH.
  rewrite byte_printed_report by lia. rewrite <- app_assoc. simpl. f_equal. lia.
Qed.

(** A write of the master is reported in full: after the heading every byte in order,
    sixteen to a line, each line ending with the number of bytes so far; and the counter is
    the length of the write. *)
Theorem i2c_slave_write_reported v s bytes :
  v <> 0 -> Z.of_nat (length bytes) < 2147483648 ->
  (run_events v s (master_write bytes)).1 =
  Slave (Z.of_nat (length bytes)) (send_index s)
    (rev (ReceiveHeading :: report 0 bytes) ++ out s).
Proof.
  intros Hv Hb. unfold master_write. simpl. unfold say.
  rewrite (proj2 (Z.eqb_neq v 0) Hv). simpl.
  pose proof (write_bytes_reported v (Slave 0 (send_index s) (ReceiveHeading :: out s)) bytes Hv) as Hw.
  simpl in Hw. specialize (Hw ltac:(lia) Hb).
  destruct (run_events v _ _) as [s2 ds]. simpl in Hw |- *. rewrite Hw, <- app_assoc. done.
Qed.

Lemma i2c_slave_write_reported_witness :
  (run_events 1 slave_initial (master_write (seqZ 0 17))).1 =
  Slave 17 0 (rev (ReceiveHeading :: report 0 (seqZ 0 17))) /\
  report 0 (seqZ 0 17) !! 15%nat = Some (ByteTotal 15 16).
Proof.
  split; [|reflexivity].
  rewrite (i2c_slave_write_reported 1 slave_initial (seqZ 0 17)); [|lia|reflexivity].
  rewrite app_nil_r. reflexivity.
Defined.

Lemma master_read_offers v s n junk :
  (run_events v s (master_read n junk)).2 = (fun k => Z.of_nat k mod 256) <$> seq 0 (S n).
Proof.
  assert (Hn : forall s m, send_index s = s32 (Z.of_nat m) ->
    (run_events v s (replicate n (I2C_SLAVE_READ_PROCESSED, junk))).2 =
    (fun k => Z.of_nat k mod 256) <$> seq (S m) n).
  { induction n as [|n IH]; intros s0 m Hm; simpl; [done|].
    match goal with |- context [run_events v ?s1 _] => specialize (IH s1 (S m)) end.
    destruct (run_events v _ _) as [s2 ds]. simpl in IH |- *.
    rewrite IH; [|unfold say; destruct (v =? 0); simpl; rewrite Hm, s32_add_s32; f_equal; lia].
    rewrite Hm, s32_add_s32, u8_s32. do 2 f_equal. unfold u8, wrap. f_equal. lia. }
  unfold master_read. simpl.
  specialize (Hn (say v (GiveHeading 0) (Slave (recv_index s) 0 (out s))) O).
  destruct (run_events v _ _) as [s2 ds]. simpl in Hn |- *. rewrite Hn; [done|].
  unfold say. by destruct (v =? 0).
Qed.
