(* ===== verification/Dmac.v ===== *)
(** dmac/dmac.c: the cyclic DMA test.  The thread of the probe and the DMA engine, which writes
    the destination and calls the completion callback, run interleaved; the kernel's answers
    are the parameter [DmaKernel]. *)
From Stdlib Require Import ZArith Lia.
From stdpp Require Import base list numbers relations.
From S2P Require Import Prelude Libc.

#[global] Open Scope Z_scope.

(** [enum test_mode] and [enum test_result]. *)
Definition RTK_DMAC_TEST_MEMCPY : Z := 1.
Definition RTK_DMAC_TEST_CYCLIC : Z := 2.
Definition RTK_DMAC_TEST_FAIL : Z := 0.
Definition RTK_DMAC_TEST_SUCCESS : Z := 1.
Definition RTK_DMAC_TEST_WAIT : Z := 2.

(** * Buffers *)

(** The comparison of words [i], [i + 1], ..., [n] of them; each word is read from its buffer. *)
Fixpoint buf_compare_loop (n : nat) (i : Z) (bufa bufb : list Z) : outcome bool :=
  match n with
  | O => Ok true
  | S n =>
      a ← array_get bufa i; b ← array_get bufb i;
      if negb (a =? b) then Ok false else buf_compare_loop n (i + 1) bufa bufb
  end.

(** The words a buffer prints, [n] of them from the word [i]. *)
Fixpoint print_words (n : nat) (i : Z) (buf : list Z) : outcome (list Z) :=
  match n with
  | O => Ok []
  | S n => x ← array_get buf i; rest ← print_words n (i + 1) buf; Ok (x :: rest)
  end.
Definition buf_print (buf : list Z) (buflen : Z) : outcome (list Z) := print_words (Z.to_nat (buflen / 4)) 0 buf.

(** Both buffers are printed when they differ. *)
Definition buf_compare (bufa bufb : list Z) (compare_len : Z) : outcome bool :=
  same ← buf_compare_loop (Z.to_nat (compare_len / 4)) 0 bufa bufb;
  if same : bool then Ok true
  else _ ← buf_print bufa compare_len; _ ← buf_print bufb compare_len; Ok false.

Definition word_set (buf : list Z) (i v : Z) : outcome (list Z) :=
  if (0 <=? i) && (i <? Z.of_nat (length buf)) then Ok (<[Z.to_nat i := v]> buf) else Fault OutOfBounds.

Definition test_word (i dma_test_times : Z) : Z :=
  u32 (Z.lor (Z.lor (Z.lor (Z.shiftl i 24) (Z.shiftl i 16)) (Z.shiftl i 8)) i + dma_test_times + 1).

Fixpoint fill_words (n : nat) (i dma_test_times : Z) (buf : list Z) : outcome (list Z) :=
  match n with
  | O => Ok buf
  | S n => buf ← word_set buf i (test_word i dma_test_times); fill_words n (i + 1) dma_test_times buf
  end.

(** * The state *)

Inductive dma_event := Started (round : Z) | Passed | Failed.

(** Where the thread is: at the top of the loop, before [rtk_prepare_test_buf], after
    [dma_test_times ++], in the wait after the loop, or back with a result. *)
Inductive dma_pc := InLoop | Preparing | Starting | AfterLoop | Returned (ret : Z).

(** [dma_cyclic_status]; [dma_test_times]; the buffers and sizes of [struct rtk_dma_test_addr]
    ([buffers]: both are allocated); whether the channel and the configuration are there and
    whether a transfer was issued; the rounds started and compared, newest first. *)
Record dma := Dma {
  status : Z; times : Z; mem_size : Z; buffers : bool; src : list Z; dst : list Z;
  chan : bool; config : bool; active : bool; at_pc : dma_pc; rounds : list dma_event }.

Definition set_status (x : Z) (w : dma) : dma :=
  Dma x (times w) (mem_size w) (buffers w) (src w) (dst w) (chan w) (config w) (active w) (at_pc w) (rounds w).
Definition set_times (x : Z) (w : dma) : dma :=
  Dma (status w) x (mem_size w) (buffers w) (src w) (dst w) (chan w) (config w) (active w) (at_pc w) (rounds w).
Definition set_mem_size (x : Z) (w : dma) : dma :=
  Dma (status w) (times w) x (buffers w) (src w) (dst w) (chan w) (config w) (active w) (at_pc w) (rounds w).
Definition set_buffers (b : bool) (s d : list Z) (w : dma) : dma :=
  Dma (status w) (times w) (mem_size w) b s d (chan w) (config w) (active w) (at_pc w) (rounds w).
Definition set_src (s : list Z) (w : dma) : dma := set_buffers (buffers w) s (dst w) w.
Definition set_dst (d : list Z) (w : dma) : dma := set_buffers (buffers w) (src w) d w.
Definition set_chan (c g a : bool) (w : dma) : dma :=
  Dma (status w) (times w) (mem_size w) (buffers w) (src w) (dst w) c g a (at_pc w) (rounds w).
Definition set_pc (p : dma_pc) (w : dma) : dma :=
  Dma (status w) (times w) (mem_size w) (buffers w) (src w) (dst w) (chan w) (config w) (active w) p (rounds w).
Definition record (e : dma_event) (w : dma) : dma :=
  Dma (status w) (times w) (mem_size w) (buffers w) (src w) (dst w) (chan w) (config w) (active w) (at_pc w)
    (e :: rounds w).

(** The kernel: whether the allocations, the request of the channel and the preparation of
    the transfer of a round succeed, and the result of configuring the channel in a round. *)
Class DmaKernel := {
  k_alloc : bool;
  k_chan : bool;
  k_kzalloc : bool;
  k_slave_config : Z -> Z;
  k_prep : Z -> bool }.

Section Dmac.
Context `{DmaKernel}.

(** Pointers that were never set or are error values are used unchecked. *)
Definition need (b : bool) : prog dma unit := if b then mret tt else stop OutOfBounds.

(** Releasing the channel ends its transfer. *)
Definition rtk_dmac_test_end : prog dma unit :=
  w ← get; need (chan w);; modify (set_chan false (config w) false);;
  need (buffers w);; modify (set_buffers false [] []).

(** Coherent memory comes zeroed. *)
Definition rtk_prepare_test_buf (dma_test_times test_mode : Z) : prog dma unit :=
  let size := if test_mode =? RTK_DMAC_TEST_MEMCPY then 4
              else if test_mode =? RTK_DMAC_TEST_CYCLIC then 1024 else 4 in
  modify (set_mem_size size);;
  when (dma_test_times =? 0)
    (let words := replicate (Z.to_nat (size / 4)) 0 in modify (set_buffers k_alloc words words));;
  w ← get; need (buffers w);;
  buf ← lift (fill_words (Z.to_nat (size / 4)) 0 dma_test_times (src w));
  modify (set_src buf).

Definition on_stack (w : dma) : bool := match at_pc w with Returned _ => false | _ => true end.

(** Its argument is the local [test_addr] of [rtk_dma_test_cyclic]. *)
Definition rtk_dma_test_cyclic_callback : prog dma unit :=
  w ← get; need (on_stack w);; need (buffers w);;
  same ← lift (buf_compare (src w) (dst w) (mem_size w));
  if same : bool then modify (set_status RTK_DMAC_TEST_SUCCESS);; modify (record Passed)
  else modify (set_status RTK_DMAC_TEST_FAIL);; modify (record Failed).

(** The loop condition, and the status, which is read once. *)
Definition loop_test (loop : Z) : prog dma unit :=
  w ← get;
  if times w <? u32 loop then
    if status w =? RTK_DMAC_TEST_FAIL then
      rtk_dmac_test_end;; modify (set_pc (Returned RTK_DMAC_TEST_FAIL))
    else if status w =? RTK_DMAC_TEST_WAIT then mret tt
    else if status w =? RTK_DMAC_TEST_SUCCESS then
      modify (set_status RTK_DMAC_TEST_WAIT);; modify (record (Started (u32 (times w + 1))));;
      modify (set_pc Preparing)
    else modify (set_pc Starting)
  else modify (set_pc AfterLoop).

Definition prepare_round : prog dma unit :=
  w ← get;
  rtk_prepare_test_buf (times w) RTK_DMAC_TEST_CYCLIC;;
  modify (set_times (u32 (times w + 1)));; modify (set_pc Starting).

Definition start_transfer : prog dma unit :=
  w ← get;
  when (times w =? 1) (modify (set_chan k_chan k_kzalloc (active w)));;
  w ← get;
  need (config w);; need (chan w);;
  let ret := u32 (k_slave_config (times w)) in
  if negb (ret =? 0) then modify (set_pc (Returned RTK_DMAC_TEST_FAIL))
  else
    need (k_prep (times w));; modify (set_chan (chan w) (config w) true);;
    modify (set_pc InLoop).

(** One look at the status after the loop. *)
Definition after_loop : prog dma unit :=
  w ← get;
  if status w =? RTK_DMAC_TEST_WAIT then mret tt
  else rtk_dmac_test_end;; modify (set_pc (Returned RTK_DMAC_TEST_SUCCESS)).

(** [rtk_dma_test_cyclic]: what the thread does next. *)
Definition rtk_dma_test_cyclic (loop : Z) : prog dma unit :=
  w ← get;
  match at_pc w with
  | InLoop => loop_test loop
  | Preparing => prepare_round
  | Starting => start_transfer
  | AfterLoop => after_loop
  | Returned _ => mret tt
  end.

(** The interleavings.  The engine may write and call the callback at any time after a transfer
    was issued: the transfers are cyclic, and none is terminated before the end.  A callback,
    and the filling of the source buffer, are taken as one step. *)
Inductive dma_step (loop : Z) : dma -> outcome unit * dma -> Prop :=
| step_thread w : (forall r, at_pc w <> Returned r) -> dma_step loop w (rtk_dma_test_cyclic loop w)
| step_write w d : active w = true -> length d = length (dst w) -> dma_step loop w (Ok tt, set_dst d w)
| step_callback w : active w = true -> dma_step loop w (rtk_dma_test_cyclic_callback w).

Definition dma_run (loop : Z) : dma -> dma -> Prop :=
  rtc (fun w w' => dma_step loop w (Ok tt, w')).
End Dmac.

(** [dma_cyclic_status] after loading the module; the locals of [rtk_dma_test_cyclic]. *)
Definition dma_start (st : Z) : dma := Dma st 0 0 false [] [] false false false InLoop [].

(** * The buffers of a round *)

Lemma array_get_nth {A} (l : list A) n x : l !! n = Some x -> array_get l (Z.of_nat n) = Ok x.
Proof. intros Hl. unfold array_get. rewrite (proj2 (Z.ltb_ge (Z.of_nat n) 0)) by lia. by rewrite Nat2Z.id, Hl. Qed.

Lemma buf_compare_loop_spec n (i : nat) a b :
  length a = (i + n)%nat -> length b = length a ->
  buf_compare_loop n (Z.of_nat i) a b = Ok (bool_decide (drop i a = drop i b)).
Proof.
  revert i. induction n as [|n IH]; intros i Ha Hb; simpl.
  { rewrite !drop_ge by lia. by rewrite bool_decide_true. }
  destruct (lookup_lt_is_Some_2 a i) as [x Hx]; [lia|].
  destruct (lookup_lt_is_Some_2 b i) as [y Hy]; [lia|].
  rewrite (array_get_nth a i x), (array_get_nth b i y) by done.
  rewrite (drop_S _ _ _ Hx), (drop_S _ _ _ Hy). cbn.
  destruct (Z.eqb_spec x y) as [->|Hxy]; cbn.
  - replace (Z.of_nat i + 1) with (Z.of_nat (S i)) by lia. rewrite IH by lia. f_equal.
    apply bool_decide_ext. split; congruence.
  - rewrite bool_decide_false; [done|congruence].
Qed.

Lemma print_words_spec n (i : nat) buf :
  length buf = (i + n)%nat -> print_words n (Z.of_nat i) buf = Ok (drop i buf).
Proof.
  revert i. induction n as [|n IH]; intros i Hb; cbn [print_words].
  { by rewrite drop_ge by lia. }
  destruct (lookup_lt_is_Some_2 buf i) as [x Hx]; [lia|]. rewrite (array_get_nth buf i x) by done.
  rewrite (drop_S _ _ _ Hx). cbn. replace (Z.of_nat i + 1) with (Z.of_nat (S i)) by lia. by rewrite IH by lia.
Qed.

Lemma buf_print_spec buf len : length buf = Z.to_nat (len / 4) -> buf_print buf len = Ok buf.
Proof. intros Hb. by apply (print_words_spec _ 0). Qed.

Lemma buf_compare_spec a b len :
  length a = Z.to_nat (len / 4) -> length b = Z.to_nat (len / 4) ->
  buf_compare a b len = Ok (bool_decide (a = b)).
Proof.
  intros Ha Hb. unfold buf_compare. rewrite (buf_compare_loop_spec _ 0) by lia. rewrite !drop_0.
  unfold mbind, outcome_bind. case_bool_decide; [done|].
  by rewrite !buf_print_spec by done.
Qed.

Lemma fill_words_spec n (i : nat) t buf :
  length buf = (i + n)%nat ->
  fill_words n (Z.of_nat i) t buf =
    Ok (take i buf ++ ((fun k => test_word (Z.of_nat k) t) <$> seq i n)).
Proof.
  revert i buf. induction n as [|n IH]; intros i buf Hb; simpl.
  { by rewrite take_ge, app_nil_r by lia. }
  unfold word_set. rewrite (proj2 (Z.leb_le 0 (Z.of_nat i))), (proj2 (Z.ltb_lt (Z.of_nat i) (Z.of_nat (length buf)))) by lia. cbn.
  rewrite Nat2Z.id. replace (Z.of_nat i + 1) with (Z.of_nat (S i)) by lia.
  rewrite IH by (rewrite length_insert; lia). f_equal.
  rewrite (take_S_r _ _ (test_word (Z.of_nat i) t)) by (apply list_lookup_insert_eq; lia).
  rewrite take_insert_ge, <- app_assoc by lia. done.
Qed.

(** The source buffer of the round after [t] rounds. *)
Definition test_words (t : Z) : list Z := (fun k => test_word (Z.of_nat k) t) <$> seq 0 256.

Lemma fill_words_cyclic t buf :
  length buf = 256%nat -> fill_words (Z.to_nat (1024 / 4)) 0 t buf = Ok (test_words t).
Proof. intros Hb. exact (fill_words_spec 256 0 t buf Hb). Qed.

Lemma test_word_differs i t t' :
  0 <= t < 4294967296 -> 0 <= t' < 4294967296 -> test_word i t = test_word i t' -> t = t'.
Proof. unfold test_word. generalize (Z.lor (Z.lor (Z.lor (Z.shiftl i 24) (Z.shiftl i 16)) (Z.shiftl i 8)) i). intros c. solve_word. Qed.

(** The buffers of different rounds differ in every word. *)
Lemma test_words_differ t t' i x y :
  0 <= t < 4294967296 -> 0 <= t' < 4294967296 -> t <> t' ->
  test_words t !! i = Some x -> test_words t' !! i = Some y -> x <> y.
Proof.
  intros Ht Ht' Hne. unfold test_words. rewrite !list_lookup_fmap.
  destruct (seq 0 256 !! i); simpl; [|done]. intros [= <-] [= <-] Hxy.
  by apply Hne, (test_word_differs (Z.of_nat n)).
Qed.

Lemma length_test_words t : length (test_words t) = 256%nat.
Proof. unfold test_words. by rewrite length_fmap, length_seq. Qed.

(** * What the rounds show *)

Fixpoint last_started (t : list dma_event) : Z :=
  match t with [] => 0 | Started k :: _ => k | _ :: t => last_started t end.

Definition status_of (t : list dma_event) : Z :=
  match t with
  | [] | Passed :: _ => RTK_DMAC_TEST_SUCCESS
  | Started _ :: _ => RTK_DMAC_TEST_WAIT
  | Failed :: _ => RTK_DMAC_TEST_FAIL
  end.

(** Rounds are started one after the other, each but the first after a good comparison. *)
Fixpoint rounds_ok (t : list dma_event) : Prop :=
  match t with
  | [] => True
  | Started k :: t => k = last_started t + 1 /\ status_of t = RTK_DMAC_TEST_SUCCESS /\ rounds_ok t
  | _ :: t => rounds_ok t
  end.

Lemma last_started_nonneg t : rounds_ok t -> 0 <= last_started t.
Proof. induction t as [|[] t IH]; simpl; [lia|intros (-> & _ & ?); specialize (IH ltac:(done)); lia|auto..]. Qed.

Lemma rounds_passed t k :
  rounds_ok t -> 1 <= k < last_started t ->
  exists pre post, t = pre ++ Started (k + 1) :: Passed :: post /\ last_started post = k.
Proof.
  induction t as [|e t IH]; simpl; [lia|].
  intros Hok Hk. assert (Hrec : rounds_ok t -> k < last_started t ->
    exists pre post, e :: t = pre ++ Started (k + 1) :: Passed :: post /\ last_started post = k).
  { intros Ht Hlt. destruct IH as (pre & post & -> & Hp); [done|lia|]. by exists (e :: pre), post. }
  destruct e as [m| |]; [|by apply Hrec; [|lia]..].
  destruct Hok as (-> & Hs & Ht). destruct (decide (k = last_started t)) as [Hkt|]; [|apply Hrec; [done|lia]].
  destruct t as [|[] t]; simpl in *; [lia|done| |done]. exists [], t. rewrite Hkt. done.
Qed.

(** ** The invariant *)

(** Everything a running transfer needs is there. *)
Definition equipped (w : dma) : Prop :=
  buffers w = true /\ chan w = true /\ config w = true /\ mem_size w = 1024 /\
  length (src w) = 256%nat /\ length (dst w) = 256%nat.

(** A kernel that refuses nothing. *)
Class Granted `(K : DmaKernel) : Prop := {
  g_alloc : k_alloc = true; g_chan : k_chan = true; g_kzalloc : k_kzalloc = true;
  g_slave_config t : k_slave_config t = 0; g_prep t : k_prep t = true }.

Section Invariant.
Context `{K : DmaKernel} (loop : Z).

Definition pc_inv (w : dma) : Prop :=
  let k := last_started (rounds w) in
  match at_pc w with
  | InLoop => times w = k /\ (if k =? 0 then rounds w = [] /\ chan w = false /\ active w = false else active w = true)
  | Preparing =>
      times w + 1 = k /\ 1 <= k /\ (if k =? 1 then active w = false else active w = true)
  | Starting =>
      times w = k /\ 1 <= k /\ buffers w = true /\ mem_size w = 1024 /\
      length (src w) = 256%nat /\ length (dst w) = 256%nat /\
      (if k =? 1 then active w = false else active w = true)
  | AfterLoop => k = u32 loop /\ (if k =? 0 then chan w = false else active w = true)
  | Returned r =>
      (active w = true -> ~ Granted K) /\
      (r = RTK_DMAC_TEST_SUCCESS ->
      k = u32 loop /\ 1 <= k /\ status w <> RTK_DMAC_TEST_WAIT /\
      buffers w = false /\ chan w = false /\ active w = false)
  end.

Definition dma_inv (w : dma) : Prop :=
  rounds_ok (rounds w) /\ status w = status_of (rounds w) /\ last_started (rounds w) <= u32 loop /\
  (active w = true -> equipped w) /\ pc_inv w.

(** A step of the thread or a callback: it keeps the invariant; it faults only when the
    kernel refuses something or no round is asked for. *)
Definition good (o : outcome unit) (w : dma) : Prop :=
  match o with Ok _ => dma_inv w | Fault _ => ~ (Granted K /\ 1 <= u32 loop) end.

Lemma wp_need b (w : dma) Q :
  (b = true -> Q (Ok tt) w) -> (b = false -> Q (Fault OutOfBounds) w) -> wp (need b) w Q.
Proof. destruct b; intros Ht Hf; [by apply Ht|by apply Hf]. Qed.

Lemma loop_test_good w : dma_inv w -> at_pc w = InLoop -> wp (loop_test loop) w good.
Proof.
  intros (Hr & Hs & Hk & Ha & Hpc) Hat. unfold pc_inv in Hpc. rewrite Hat in Hpc. destruct Hpc as [Ht Hc].
  pose proof (last_started_nonneg _ Hr) as Hnn. pose proof (u32_range loop) as Hu.
  unfold loop_test. do 2 wstep. destruct (Z.ltb_spec (times w) (u32 loop)).
  2:{ wstep. unfold good, dma_inv, pc_inv. simpl. split_and!; auto; [lia|].
      destruct (_ =? 0); [by destruct Hc as (_ & ? & _)|done]. }
  destruct (Z.eqb_spec (status w) RTK_DMAC_TEST_FAIL) as [Hf|Hf].
  { assert (Hact : active w = true).
    { destruct (_ =? 0); [|done]. destruct Hc as [Hc _]. rewrite Hs, Hc in Hf. discriminate Hf. }
    destruct (Ha Hact) as (Hb & Hch & _). unfold rtk_dmac_test_end. do 3 wstep.
    wstep. apply wp_need; intros Hx; [|congruence]. cbn [next]. do 3 wstep.
    apply wp_need; intros Hy; [|simpl in Hy; congruence]. cbn [next]. do 2 wstep.
    unfold good, dma_inv, pc_inv. simpl. split_and!; done. }
  destruct (Z.eqb_spec (status w) RTK_DMAC_TEST_WAIT) as [Hw|Hw].
  { wstep. unfold good, dma_inv, pc_inv. rewrite Hat. done. }
  destruct (Z.eqb_spec (status w) RTK_DMAC_TEST_SUCCESS) as [Hsu|Hsu].
  2:{ destruct (rounds w) as [|[] ?]; simpl in Hs; done. }
  do 5 wstep. unfold good, dma_inv, pc_inv. simpl. rewrite u32_id by lia. split_and!; try done; try lia; try (by rewrite <- Hs).
  destruct (Z.eqb_spec (last_started (rounds w)) 0).
  - rewrite (proj2 (Z.eqb_eq _ 1)) by lia. tauto.
  - rewrite (proj2 (Z.eqb_neq _ 1)) by lia. done.
Qed.
(** The prepared buffers; nothing else changes. *)
Lemma prepare_test_buf_spec w :
  times w = 0 \/ equipped w ->
  wp (rtk_prepare_test_buf (times w) RTK_DMAC_TEST_CYCLIC) w (fun o w' =>
    match o with
    | Ok _ => exists d, length d = 256%nat /\
        w' = Dma (status w) (times w) 1024 true (test_words (times w)) d (chan w) (config w) (active w)
               (at_pc w) (rounds w)
    | Fault _ => k_alloc = false
    end).
Proof.
  intros Hw. unfold rtk_prepare_test_buf. change (RTK_DMAC_TEST_CYCLIC =? RTK_DMAC_TEST_MEMCPY) with false.
  change (RTK_DMAC_TEST_CYCLIC =? RTK_DMAC_TEST_CYCLIC) with true. cbv iota zeta.
  do 3 wstep. apply wp_when; intros Ht; cbn [next].
  - do 4 wstep. apply wp_need; intros Hb; [|done]. cbn [next]. simpl in Hb.
    do 2 wstep. cbn [src set_buffers set_mem_size]. rewrite fill_words_cyclic; [|reflexivity]. cbn [next]. wstep.
    exists (replicate 256 0). split; [reflexivity|]. unfold set_src, set_buffers, set_mem_size. simpl. by rewrite Hb.
  - destruct Hw as [Hw|(Hb & _ & _ & _ & Hls & Hld)]; [by rewrite Hw in Ht|].
    do 3 wstep. apply wp_need; intros Hb'; [|by simpl in Hb'; rewrite Hb in Hb']. cbn [next].
    do 2 wstep. cbn [src set_mem_size]. rewrite fill_words_cyclic by done. cbn [next]. wstep.
    exists (dst w). split; [done|]. unfold set_src, set_buffers, set_mem_size. simpl. by rewrite Hb.
Qed.

Lemma prepare_round_good w : dma_inv w -> at_pc w = Preparing -> wp prepare_round w good.
Proof.
  intros (Hr & Hs & Hk & Ha & Hpc) Hat. unfold pc_inv in Hpc. rewrite Hat in Hpc. destruct Hpc as (Ht & Hk1 & Hc).
  pose proof (u32_range loop) as Hu.
  assert (Hw : times w = 0 \/ equipped w).
  { destruct (Z.eqb_spec (last_started (rounds w)) 1); [left; lia|right; by apply Ha]. }
  unfold prepare_round. do 3 wstep. eapply wp_mono; [by apply prepare_test_buf_spec|].
  intros [[]|f] w' Hw'; cbn [next]; [|intros [HG _]; rewrite g_alloc in Hw'; done].
  destruct Hw' as (d & Hd & ->). do 3 wstep. unfold good, dma_inv, pc_inv, set_pc, set_times. simpl.
  pose proof (length_test_words (times w)). rewrite (u32_id (times w + 1)) by lia. split_and!; auto; try lia.
  intros Hact. destruct (Ha Hact) as (_ & ? & ? & _). by split_and!.
Qed.

Lemma start_transfer_good w : dma_inv w -> at_pc w = Starting -> wp start_transfer w good.
Proof.
  intros (Hr & Hs & Hk & Ha & Hpc) Hat. unfold pc_inv in Hpc. rewrite Hat in Hpc.
  destruct Hpc as (Ht & Hk1 & Hb & Hm & Hls & Hld & Hc).
  unfold start_transfer. do 3 wstep.
  eapply wp_mono with (P := fun o w1 => o = Ok tt /\ exists c g, w1 = set_chan c g (active w) w /\
    (Granted K -> c = true /\ g = true)).
  { apply wp_when; intros H1; [wstep; split; [done|]; exists k_chan, k_kzalloc|split; [done|]; exists (chan w), (config w)].
    - split; [done|]. split; [apply g_chan|apply g_kzalloc].
    - split; [by destruct w|]. intros _. rewrite Ht in H1. rewrite H1 in Hc. destruct (Ha Hc) as (_ & ? & ? & _). done. }
  intros o w1 [-> (c & g & -> & Hcg)]. cbn [next]. do 3 wstep.
  apply wp_need; intros Hg; cbn [next]; simpl in Hg; [|intros [HG _]; destruct (Hcg HG); congruence].
  wstep. apply wp_need; intros Hch; cbn [next]; simpl in Hch; [|intros [HG _]; destruct (Hcg HG); congruence].
  subst c g. simpl.
  assert (Hact : forall a, equipped (set_chan true true a w)) by (by repeat split).
  destruct (Z.eqb_spec (u32 (k_slave_config (times w))) 0) as [Hz|Hz]; cbn [negb].
  - wstep. apply wp_need; intros Hp; cbn [next]; [|intros [HG _]; rewrite g_prep in Hp; done].
    do 3 wstep. unfold good, dma_inv, pc_inv. simpl. rewrite (proj2 (Z.eqb_neq _ 0)) by lia.
    split_and!; auto. intros _. apply (Hact true).
  - wstep. unfold good, dma_inv, pc_inv. simpl. split_and!; auto; try done.
    intros _ HG. by rewrite g_slave_config in Hz.
Qed.

Lemma after_loop_good w : dma_inv w -> at_pc w = AfterLoop -> wp after_loop w good.
Proof.
  intros (Hr & Hs & Hk & Ha & Hpc) Hat. unfold pc_inv in Hpc. rewrite Hat in Hpc. destruct Hpc as (Hl & Hc).
  pose proof (last_started_nonneg _ Hr) as Hnn.
  unfold after_loop. do 2 wstep. destruct (Z.eqb_spec (status w) RTK_DMAC_TEST_WAIT).
  { wstep. unfold good, dma_inv, pc_inv. rewrite Hat. split_and!; auto. }
  unfold rtk_dmac_test_end. do 3 wstep.
  wstep. apply wp_need; intros Hx; cbn [next].
  2:{ intros [_ Hn]. rewrite Hl in Hc. rewrite (proj2 (Z.eqb_neq _ 0)) in Hc by lia.
      destruct (Ha Hc) as (_ & ? & _). congruence. }
  destruct (Z.eqb_spec (last_started (rounds w)) 0) as [|Hnz]; [congruence|].
  destruct (Ha Hc) as (Hb & _). do 3 wstep. apply wp_need; intros Hy; [|simpl in Hy; congruence].
  cbn [next]. do 2 wstep. unfold good, dma_inv, pc_inv. simpl. split_and!; auto; try done.
  intros _. split_and!; auto. lia.
Qed.

Lemma callback_good w : dma_inv w -> active w = true -> wp rtk_dma_test_cyclic_callback w good.
Proof.
  intros (Hr & Hs & Hk & Ha & Hpc) Hact. destruct (Ha Hact) as (Hb & Hch & Hg & Hm & Hls & Hld).
  unfold rtk_dma_test_cyclic_callback. do 3 wstep.
  apply wp_need; intros Hst; cbn [next].
  2:{ intros [HG _]. unfold on_stack in Hst. unfold pc_inv in Hpc. destruct (at_pc w); try done.
      by apply (proj1 Hpc). }
  wstep. apply wp_need; intros Hbb; [|congruence]. cbn [next]. do 2 wstep. rewrite Hm.
  rewrite buf_compare_spec by done. cbn [next].
  assert (Hpc' : forall e st, (e = Passed \/ e = Failed) -> pc_inv (record e (set_status st w))).
  { intros e st He. unfold pc_inv in Hpc |- *. unfold on_stack in Hst.
    assert (last_started (rounds (record e (set_status st w))) = last_started (rounds w)) as ->
      by (by destruct He as [-> | ->]).
    simpl. destruct (at_pc w); try done. destruct (_ =? 0); [|done]. destruct Hpc as (_ & _ & _ & ?). congruence. }
  case_bool_decide; do 3 wstep; unfold good, dma_inv; simpl; split_and!; auto; by repeat split.
Qed.

Lemma write_good w d : dma_inv w -> length d = length (dst w) -> dma_inv (set_dst d w).
Proof.
  intros (Hr & Hs & Hk & Ha & Hpc) Hd. unfold dma_inv. simpl. split_and!; auto.
  - intros Hact. destruct (Ha Hact) as (Hb & Hch & Hg & Hm & Hls & Hld). repeat split; auto. simpl. lia.
  - unfold pc_inv in *. simpl. destruct (at_pc w); try done. rewrite Hd. tauto.
Qed.

Lemma step_good w o w' : dma_inv w -> dma_step loop w (o, w') -> good o w'.
Proof.
  intros Hw Hstep. inversion Hstep as [w0 Hret Heq1 Heq2|w0 d Hact Hd Heq1 Heq2|w0 Hact Heq1 Heq2]; subst.
  - assert (wp (rtk_dma_test_cyclic loop) w good) as Hg; [|by eapply (wp_run _ _ good)].
    unfold rtk_dma_test_cyclic. do 2 wstep. destruct (at_pc w) eqn:Hat.
    + by apply loop_test_good.
    + by apply prepare_round_good.
    + by apply start_transfer_good.
    + by apply after_loop_good.
    + by destruct (Hret ret).
  - by apply write_good.
  - by eapply (wp_run _ _ good); [apply callback_good|].
Qed.

Lemma start_inv : dma_inv (dma_start RTK_DMAC_TEST_SUCCESS).
Proof. unfold dma_inv, pc_inv. pose proof (u32_range loop). simpl. split_and!; done || lia. Qed.

Lemma run_inv w : dma_run loop (dma_start RTK_DMAC_TEST_SUCCESS) w -> dma_inv w.
Proof.
  apply (rtc_ind_r (fun w => dma_inv w)); [apply start_inv|].
  intros w1 w2 _ Hstep H1. by apply (step_good _ _ _ H1) in Hstep.
Qed.
End Invariant.

(** C9: under every interleaving of the thread and the engine, and whatever the kernel
    answers: when the test returns success, all rounds were started in order, every round but
    the last was started again only after a callback in the round before found the buffers
    equal, a callback has ended the wait for the last round, and channel and buffers are
    released. *)
Theorem dma_success_means_rounds_passed `{DmaKernel} loop w :
  dma_run loop (dma_start RTK_DMAC_TEST_SUCCESS) w ->
  at_pc w = Returned RTK_DMAC_TEST_SUCCESS ->
  1 <= u32 loop /\
  (forall k, 1 <= k < u32 loop -> exists pre post,
     rounds w = pre ++ Started (k + 1) :: Passed :: post /\ last_started post = k) /\
  (exists e post, rounds w = e :: post /\ (e = Passed \/ e = Failed) /\ last_started post = u32 loop) /\
  chan w = false /\ buffers w = false.
Proof.
  intros Hrun Hpc. destruct (run_inv loop w Hrun) as (Hr & Hs & _ & _ & Hi).
  unfold pc_inv in Hi. rewrite Hpc in Hi. destruct Hi as [_ Hi].
  destruct (Hi eq_refl) as (Hl & Hl1 & Hw & Hb & Hc & _). rewrite Hl in Hl1. split_and!; auto.
  - intros k Hk. apply rounds_passed; [done|lia].
  - rewrite Hs in Hw. destruct (rounds w) as [|[] t]; simpl in *; [lia|done|exists Passed, t; auto|exists Failed, t; auto].
Qed.

(** When the kernel refuses nothing and at least one round is asked for, no interleaving
    makes the thread or the callback use a pointer that is not there. *)
Theorem dma_test_memory_safe `{Granted} loop w o w' :
  1 <= u32 loop ->
  dma_run loop (dma_start RTK_DMAC_TEST_SUCCESS) w -> dma_step loop w (o, w') -> o = Ok tt.
Proof.
  intros Hl Hrun Hstep. apply run_inv in Hrun. apply (step_good _ _ _ _ Hrun) in Hstep.
  destruct o as [[]|f]; [done|]. by destruct Hstep.
Qed.

(** ** Runs *)

Inductive act := Thread | Write (d : list Z) | Callback.

Definition do_act `{DmaKernel} (loop : Z) (a : act) (w : dma) : option dma :=
  match a with
  | Thread =>
      match at_pc w, rtk_dma_test_cyclic loop w with
      | Returned _, _ => None
      | _, (Ok _, w) => Some w
      | _, _ => None
      end
  | Write d => if active w && bool_decide (length d = length (dst w)) then Some (set_dst d w) else None
  | Callback =>
      if active w then match rtk_dma_test_cyclic_callback w with (Ok _, w) => Some w | _ => None end else None
  end.

Fixpoint do_acts `{DmaKernel} (loop : Z) (acts : list act) (w : dma) : option dma :=
  match acts with
  | [] => Some w
  | a :: acts => w ← do_act loop a w; do_acts loop acts w
  end.

Lemma do_act_sound `{DmaKernel} loop a w w' : do_act loop a w = Some w' -> dma_step loop w (Ok tt, w').
Proof.
  destruct a; simpl.
  - intros Hc. assert (rtk_dma_test_cyclic loop w = (Ok tt, w')) as <-.
    { destruct (rtk_dma_test_cyclic loop w) as [[[]|] w1]; destruct (at_pc w); congruence. }
    apply step_thread. intros r Hr. by rewrite Hr in Hc.
  - destruct (active w) eqn:Ha; simpl; [|done]. case_bool_decide; [|done]. intros [= <-]. by apply step_write.
  - destruct (active w) eqn:Ha; [|done]. intros Hc.
    assert (rtk_dma_test_cyclic_callback w = (Ok tt, w')) as <-.
    { destruct (rtk_dma_test_cyclic_callback w) as [[[]|] w1]; congruence. }
    by apply step_callback.
Qed.

Lemma do_acts_sound `{DmaKernel} loop acts w w' : do_acts loop acts w = Some w' -> dma_run loop w w'.
Proof.
  revert w. induction acts as [|a acts IH]; intros w; simpl.
  { intros [= ->]. apply rtc_refl. }
  destruct (do_act loop a w) as [w1|] eqn:Ha; simpl; [|done].
  intros Hr. eapply rtc_l; [by eapply do_act_sound|by apply IH].
Qed.

Definition granting_kernel : DmaKernel := {|
  k_alloc := true; k_chan := true; k_kzalloc := true; k_slave_config _ := 0; k_prep _ := true |}.

Lemma granting_granted : Granted granting_kernel.
Proof. by split. Qed.

(** The rounds [k], [k + 1], ..., [n] of them, with an engine that copies. *)
Fixpoint copying (n : nat) (t : Z) : list act :=
  match n with
  | O => [Thread; Thread]
  | S n => [Thread; Thread; Thread; Write (test_words t); Callback] ++ copying n (t + 1)
  end.

(** What a run looks like from outside. *)
Definition outcome_of (w : option dma) : option (dma_pc * list dma_event) :=
  w ← w; Some (at_pc w, rounds w).

Example copying_engine_passes :
  outcome_of (@do_acts granting_kernel 5 (copying 5 0) (dma_start RTK_DMAC_TEST_SUCCESS)) =
  Some (Returned RTK_DMAC_TEST_SUCCESS,
    [Passed; Started 5; Passed; Started 4; Passed; Started 3; Passed; Started 2; Passed; Started 1]).
Proof. vm_compute. reflexivity. Qed.

(** What the acts lead to is a state of a run. *)
Lemma acts_reach loop acts (P : dma -> Prop) :
  match @do_acts granting_kernel loop acts (dma_start RTK_DMAC_TEST_SUCCESS) with
  | Some w => P w | None => False end ->
  exists w, @dma_run granting_kernel loop (dma_start RTK_DMAC_TEST_SUCCESS) w /\ P w.
Proof.
  destruct (do_acts loop acts (dma_start RTK_DMAC_TEST_SUCCESS)) as [w|] eqn:Hw; [|done].
  intros HP. exists w. split; [by eapply do_acts_sound|done].
Qed.

(** A comparison that fails in the last round is not reported: the test returns success. *)
Theorem dma_last_failure_is_success :
  exists w, @dma_run granting_kernel 5 (dma_start RTK_DMAC_TEST_SUCCESS) w /\
    at_pc w = Returned RTK_DMAC_TEST_SUCCESS /\ hd_error (rounds w) = Some Failed.
Proof.
  destruct (acts_reach 5 (concat ((fun t => [Thread; Thread; Thread; Write (test_words t); Callback]) <$> [0; 1; 2; 3])
    ++ [Thread; Thread; Thread; Callback; Thread; Thread]) (fun w =>
      ((at_pc w, hd_error (rounds w)) = (Returned RTK_DMAC_TEST_SUCCESS, Some Failed)))) as (w & Hw & Ho).
  { vm_compute. reflexivity. }
  exists w. by simplify_eq.
Qed.

(** A round can pass although nothing was transferred in it: the transfer of the round
    before goes on, and its callback between [dma_cyclic_status = RTK_DMAC_TEST_WAIT] and
    [rtk_prepare_test_buf] sets the status.  Here the second round of two has passed, and
    the destination still holds the words of the first, all different from the source. *)
Theorem dma_stale_callback_passes :
  exists w, @dma_run granting_kernel 2 (dma_start RTK_DMAC_TEST_SUCCESS) w /\
    at_pc w = AfterLoop /\ status w = RTK_DMAC_TEST_SUCCESS /\
    rounds w = [Passed; Started 2; Passed; Started 1] /\
    src w = test_words 1 /\ dst w = test_words 0 /\
    (forall i x y, src w !! i = Some x -> dst w !! i = Some y -> x <> y).
Proof.
  destruct (acts_reach 2 ([Thread; Thread; Thread; Write (test_words 0); Callback] ++
    [Thread; Callback; Thread; Thread; Thread]) (fun w =>
      (at_pc w, status w, rounds w) =
        (AfterLoop, RTK_DMAC_TEST_SUCCESS, [Passed; Started 2; Passed; Started 1]) /\
      src w = test_words 1 /\ dst w = test_words 0)) as (w & Hw & Ho & Hsrc & Hdst).
  { vm_compute. auto. }
  exists w. simplify_eq. split_and!; try done. rewrite Hsrc, Hdst. intros i x y.
  by apply test_words_differ.
Qed.

(** The status outlives the device: when the test is started again after a failure, it
    releases the channel and the buffers that it has not got. *)
Theorem dma_restart_after_failure `{DmaKernel} loop :
  1 <= u32 loop ->
  exists w, rtk_dma_test_cyclic loop (dma_start RTK_DMAC_TEST_FAIL) = (Fault OutOfBounds, w).
Proof.
  intros Hl. eexists. unfold rtk_dma_test_cyclic, loop_test. unfold mbind, prog_bind, get. simpl.
  rewrite (proj2 (Z.ltb_lt 0 (u32 loop))) by lia. done.
Qed.

Lemma dma_success_means_rounds_passed_witness :
  exists w, (@dma_run granting_kernel 2 (dma_start RTK_DMAC_TEST_SUCCESS) w /\
    at_pc w = Returned RTK_DMAC_TEST_SUCCESS) /\ chan w = false /\ buffers w = false.
Proof.
  destruct (acts_reach 2 (copying 2 0) (fun w => at_pc w = Returned RTK_DMAC_TEST_SUCCESS)) as (w & Hw & Hpc).
  { vm_compute. reflexivity. }
  exists w. split; [done|].
  exact (proj2 (proj2 (proj2 (@dma_success_means_rounds_passed granting_kernel 2 w Hw Hpc)))).
Defined.

Lemma dma_test_memory_safe_witness :
  exists w o w', @dma_run granting_kernel 5 (dma_start RTK_DMAC_TEST_SUCCESS) w /\
    @dma_step granting_kernel 5 w (o, w') /\ o = Ok tt.
Proof.
  destruct (acts_reach 5 (take 14 (copying 5 0)) (fun w => active w = true)) as (w & Hw & Hact).
  { vm_compute. reflexivity. }
  destruct (rtk_dma_test_cyclic_callback w) as [o w'] eqn:Hc.
  assert (@dma_step granting_kernel 5 w (o, w')) as Hstep by (rewrite <- Hc; by apply step_callback).
  exists w, o, w'. split; [done|]. split; [done|].
  exact (@dma_test_memory_safe granting_kernel granting_granted 5 w o w' ltac:(by vm_compute) Hw Hstep).
Defined.

Lemma dma_restart_after_failure_witness :
  exists w, @rtk_dma_test_cyclic granting_kernel 5 (dma_start RTK_DMAC_TEST_FAIL) = (Fault OutOfBounds, w).
Proof. exact (@dma_restart_after_failure granting_kernel 5 ltac:(by vm_compute)). Defined.
