(* ===== verification/TestUsb.v ===== *)
(** usbh_vendor/testusb.c: the search for test devices, the options, the tests of one device,
    and the threads that test all devices at once. *)
From Stdlib Require Import ZArith Lia Ascii String.
From stdpp Require Import base list numbers strings relations.
From S2P Require Import Prelude Libc.

#[global] Open Scope Z_scope.

Definition TEST_CASES : nat := 31.
Definition EOPNOTSUPP : Z := 95.

(** * Data *)

(** The inputs of [struct usbtest_param]. *)
Record usbtest_param := Param { test_num : Z; iterations : Z; plength : Z; vary : Z; sglen : Z }.

Definition set_test_num (i : Z) (p : usbtest_param) : usbtest_param :=
  Param i (iterations p) (plength p) (vary p) (sglen p).

(** The members of [struct usb_device_descriptor] that the program reads. *)
Record usb_device_descriptor := Descriptor { idVendor : Z; idProduct : Z }.

(** The 18 bytes of a descriptor; the two numbers are in the byte order of the machine. *)
Definition descriptor_size : nat := 18.
Definition decode_descriptor (bytes : list Z) : usb_device_descriptor :=
  let byte i := default 0 (bytes !! i) in
  Descriptor (byte 8%nat + 256 * byte 9%nat) (byte 10%nat + 256 * byte 11%nat).

Inductive usb_device_speed := USB_SPEED_UNKNOWN | USB_SPEED_LOW | USB_SPEED_FULL | USB_SPEED_HIGH.

Record testdev := Testdev {
  name : string; speed : usb_device_speed; ifnum : Z; forever : bool; test : Z; param : usbtest_param }.

(** * The devices *)

Definition is_testdev (dev : usb_device_descriptor) : bool :=
  let same_ids v p := (idVendor dev =? v) && (idProduct dev =? p) in
  same_ids 0x0547 0x1002 || same_ids 0x0547 0x2235 || same_ids 0x04b4 0x8613 || same_ids 0x0547 0x0080 ||
  same_ids 0x06cd 0x010b || same_ids 0x0525 0xa4a0 || same_ids 0x0525 0xa4a4 || same_ids 0x0525 0xa4a3 ||
  same_ids 0xfff0 0xfff0 || same_ids 0x0b62 0x0059.

(** What happens, in the order of the program. *)
Inductive usb_event :=
| Opened (name : string)
| OpenFailed (name : string)
| Ioctl (name : string) (ifno : Z) (p : usbtest_param)
| Report (name : string) (i status : Z)
| Closed (name : string).

(** The system, whose answers may depend on all that has happened: the file tree that [ftw]
    walks, with regular files marked; opening and reading a file; opening a device; the test
    request, which gives a negated [errno] when it fails; and the creation of a thread. *)
Class UsbOS := {
  os_tree : option (list (string * bool));
  os_read : string -> option (list Z);
  os_open : list usb_event -> string -> bool;
  os_ioctl : list usb_event -> string -> usbtest_param -> Z;
  os_create : list usb_event -> string -> bool }.

(** The text from the last slash on, or nothing. *)
Fixpoint strrchr (c : ascii) (s : string) : option string :=
  match s with
  | EmptyString => None
  | String a s' =>
      match strrchr c s' with
      | Some r => Some r
      | None => if Ascii.eqb a c then Some s else None
      end
  end.

Definition calloc_testdev (name : string) : testdev :=
  Testdev name USB_SPEED_UNKNOWN 0 false 0 (Param 0 0 0 0 0).

Section Find.
Context `{UsbOS}.

(** The callback of [ftw]; it adds to the front of the list and always returns 0. *)
Definition find_testdev (testdevs : list testdev) (path : string) (regular : bool)
    : outcome (list testdev) :=
  if negb regular then Ok testdevs
  else
    match strrchr "/" path with
    | None => Fault OutOfBounds
    | Some r =>
        if bool_decide (String.get 1 r = Some "d"%char) then Ok testdevs
        else
          match os_read path with
          | None => Ok testdevs
          | Some bytes =>
              if negb (Nat.eqb (length bytes) descriptor_size) then Ok testdevs
              else if is_testdev (decode_descriptor bytes) then Ok (calloc_testdev path :: testdevs)
              else Ok testdevs
          end
    end.

Fixpoint walk (testdevs : list testdev) (tree : list (string * bool)) : outcome (list testdev) :=
  match tree with
  | [] => Ok testdevs
  | (path, regular) :: tree => testdevs ← find_testdev testdevs path regular; walk testdevs tree
  end.

(** * The tests of one device *)

Definition uprog := prog (list usb_event).

(** The test is run: all are, or it is the one asked for. *)
Definition selected (dev : testdev) (i : nat) : bool := (test dev =? -1) || (test dev =? Z.of_nat i).

Definition usbdev_ioctl (dev : testdev) (i : nat) : uprog Z :=
  let p := set_test_num (Z.of_nat i) (param dev) in
  tr ← get;
  let status := os_ioctl tr (name dev) p in
  modify (cons (Ioctl (name dev) (ifnum dev) p));;
  mret status.

(** The round of test [i]. *)
Definition run_test (dev : testdev) (i : nat) : uprog unit :=
  if negb (selected dev i) then mret tt
  else
    status ← usbdev_ioctl dev i;
    if status =? - EOPNOTSUPP then mret tt
    else modify (cons (Report (name dev) (Z.of_nat i) status)).

(** [n] rounds from test [i] on. *)
Fixpoint run_tests (n : nat) (dev : testdev) (i : nat) : uprog unit :=
  match n with
  | O => mret tt
  | S n => run_test dev i;; run_tests n dev (S i)
  end.

(** The passes over the tests; a device tested for ever is followed for [passes] of them. *)
Fixpoint restart (passes : nat) (dev : testdev) : uprog unit :=
  run_tests TEST_CASES dev 0;;
  if forever dev then match passes with O => stop NoFuel | S passes => restart passes dev end
  else mret tt.

(** Whether it returns its argument, or NULL. *)
Definition handle_testdev (passes : nat) (dev : testdev) : uprog bool :=
  tr ← get;
  if negb (os_open tr (name dev)) then modify (cons (OpenFailed (name dev)));; mret false
  else
    modify (cons (Opened (name dev)));;
    restart passes dev;;
    modify (cons (Closed (name dev)));;
    mret true.
End Find.

(** * Options and devices *)

(** What [getopt] gives for the options of its string; -l is not among them. *)
Inductive opt :=
| Opt_D (arg : string) | Opt_a | Opt_c (arg : string) | Opt_g (arg : string) | Opt_n
| Opt_s (arg : string) | Opt_t (arg : string) | Opt_v (arg : string) | Opt_other.

Record settings := Settings { device : option string; all : bool; no_run : bool; only : Z; common : usbtest_param }.

Definition defaults (env : option string) : settings := Settings env false false (-1) (Param 0 1000 512 512 32).

Definition set_common (f : usbtest_param -> usbtest_param) (s : settings) : settings :=
  Settings (device s) (all s) (no_run s) (only s) (f (common s)).

(** [None]: the usage is printed.  The numbers are unsigned, so none of them is negative. *)
Definition apply_opt (o : opt) (s : settings) : option settings :=
  match o with
  | Opt_D arg => Some (Settings (Some arg) (all s) (no_run s) (only s) (common s))
  | Opt_a => Some (Settings None true (no_run s) (only s) (common s))
  | Opt_c arg => Some (set_common (fun p => Param (test_num p) (u32 (atoi arg)) (plength p) (vary p) (sglen p)) s)
  | Opt_g arg => Some (set_common (fun p => Param (test_num p) (iterations p) (plength p) (vary p) (u32 (atoi arg))) s)
  | Opt_n => Some (Settings (device s) (all s) true (only s) (common s))
  | Opt_s arg => Some (set_common (fun p => Param (test_num p) (iterations p) (u32 (atoi arg)) (vary p) (sglen p)) s)
  | Opt_t arg =>
      if atoi arg <? 0 then None
      else Some (Settings (device s) (all s) (no_run s) (atoi arg) (common s))
  | Opt_v arg => Some (set_common (fun p => Param (test_num p) (iterations p) (plength p) (u32 (atoi arg)) (sglen p)) s)
  | Opt_other => None
  end.

Fixpoint parse_opts (opts : list opt) (s : settings) : option settings :=
  match opts with
  | [] => Some s
  | o :: opts => s ← apply_opt o s; parse_opts opts s
  end.

(** What [main] comes to: a result, the tests of one device, or those of all devices. *)
Inductive usb_run := Exit (code : Z) | RunOne (dev : testdev) | RunAll (devs : list testdev).

(** A device with the parameters of the command line. *)
Definition prepare (s : settings) (dev : testdev) : testdev :=
  Testdev (name dev) (speed dev) (ifnum dev) false (only s) (common s).

Section Main.
Context `{UsbOS}.

(** [extra]: arguments that are no options; [usbfs]: /sys/bus/usb/devices can be opened. *)
Definition main (env : option string) (opts : list opt) (extra usbfs : bool) : outcome usb_run :=
  match parse_opts opts (defaults env) with
  | None => Ok (Exit 1)
  | Some s =>
      if extra then Ok (Exit 1)
      else if negb (all s) && bool_decide (device s = None) then Ok (Exit 1)
      else if negb usbfs then Ok (Exit (-1))
      else
        match os_tree with
        | None => Ok (Exit (-1))
        | Some tree =>
            testdevs ← walk [] tree;
            if bool_decide (testdevs = []) && bool_decide (device s = None) then Ok (Exit (-1))
            else if no_run s then Ok (Exit 0)
            else
              let device := match testdevs, device s with [dev], None => Some (name dev) | _, d => d end in
              match device with
              | None => Ok (RunAll (prepare s <$> testdevs))
              | Some d =>
                  match List.find (fun dev => bool_decide (name dev = d)) testdevs with
                  | Some dev => Ok (RunOne (prepare s dev))
                  | None => Ok (RunOne (prepare s (calloc_testdev d)))
                  end
              end
        end
  end.

(** The result of [main] when one device is tested. *)
Definition main_one (passes : nat) (dev : testdev) : uprog Z :=
  ok ← handle_testdev passes dev; mret (if ok : bool then 0 else 1).
End Main.

(** * All devices at once *)

(** Where a thread is: before it opens the device, before test [i], between the request of
    test [i] and its line of output, or back with its result. *)
Inductive thread := Opening | Testing (i : nat) | Reporting (i : nat) (status : Z) | Finished (ok : bool).

(** Where the main thread is in its two loops over the devices; [Crashed]: it has joined a
    thread that was never created. *)
Inductive main_pc := Creating (k : nat) | Joining (k : nat) | Returned | Crashed.

(** The threads that were created, and what has happened, newest first, each event with the
    number of the device whose thread it comes from. *)
Record threads := Threads { pc : main_pc; slots : list (option thread); log : list (nat * usb_event) }.

Definition history (s : threads) : list usb_event := snd <$> log s.

Section Threads.
Context `{UsbOS} (devs : list testdev).

(** One step of a thread, with what it does. *)
Definition thread_step (tr : list usb_event) (dev : testdev) (t : thread) : option (thread * list usb_event) :=
  match t with
  | Opening =>
      if os_open tr (name dev) then Some (Testing 0, [Opened (name dev)])
      else Some (Finished false, [OpenFailed (name dev)])
  | Testing i =>
      if Nat.ltb i TEST_CASES then
        if negb (selected dev i) then Some (Testing (S i), [])
        else
          let p := set_test_num (Z.of_nat i) (param dev) in
          let status := os_ioctl tr (name dev) p in
          Some (if status =? - EOPNOTSUPP then Testing (S i) else Reporting i status,
                [Ioctl (name dev) (ifnum dev) p])
      else if forever dev then Some (Testing 0, [])
      else Some (Finished true, [Closed (name dev)])
  | Reporting i status => Some (Testing (S i), [Report (name dev) (Z.of_nat i) status])
  | Finished _ => None
  end.

Definition main_step (s : threads) : option threads :=
  match pc s with
  | Creating k =>
      match devs !! k with
      | Some dev =>
          Some (Threads (Creating (S k))
            (if os_create (history s) (name dev) then <[k := Some Opening]> (slots s) else slots s) (log s))
      | None => Some (Threads (Joining 0) (slots s) (log s))
      end
  | Joining k =>
      match slots s !! k with
      | Some (Some (Finished _)) => Some (Threads (Joining (S k)) (slots s) (log s))
      | Some (Some _) => None
      | Some None => Some (Threads Crashed (slots s) (log s))
      | None => Some (Threads Returned (slots s) (log s))
      end
  | Returned | Crashed => None
  end.

(** A step of the main thread or of thread [k]; none once the program has ended. *)
Inductive step : threads -> threads -> Prop :=
| step_main s s' : main_step s = Some s' -> step s s'
| step_thread s k dev t t' evs :
    pc s <> Returned -> pc s <> Crashed ->
    devs !! k = Some dev -> slots s !! k = Some (Some t) ->
    thread_step (history s) dev t = Some (t', evs) ->
    step s (Threads (pc s) (<[k := Some t']> (slots s)) (((fun e => (k, e)) <$> evs) ++ log s)).

Definition start : threads := Threads (Creating 0) (replicate (length devs) None) [].
End Threads.

(** * What is done to one device *)

(** The tests that are run, up to test [i], and the events of one of them. *)
Definition tests_before (dev : testdev) (i : nat) : list nat := List.filter (selected dev) (seq 0 i).
Definition test_events (dev : testdev) (answers : nat -> Z) (i : nat) : list usb_event :=
  Ioctl (name dev) (ifnum dev) (set_test_num (Z.of_nat i) (param dev)) ::
  if answers i =? - EOPNOTSUPP then [] else [Report (name dev) (Z.of_nat i) (answers i)].
Definition tests_log (dev : testdev) (answers : nat -> Z) (i : nat) : list usb_event :=
  concat (test_events dev answers <$> tests_before dev i).

(** All that a thread does: every selected test once, in order, each with its line of output
    unless the device does not support it. *)
Definition device_log (dev : testdev) (answers : nat -> Z) : list usb_event :=
  Opened (name dev) :: tests_log dev answers TEST_CASES ++ [Closed (name dev)].

Lemma tests_before_S dev i :
  tests_before dev (S i) = tests_before dev i ++ (if selected dev i then [i] else []).
Proof. unfold tests_before. rewrite seq_S, List.filter_app. cbn. by destruct (selected dev i). Qed.

Lemma tests_log_S dev answers i :
  tests_log dev answers (S i) = tests_log dev answers i ++ (if selected dev i then test_events dev answers i else []).
Proof.
  unfold tests_log. rewrite tests_before_S, fmap_app, concat_app. f_equal.
  destruct (selected dev i); cbn; by rewrite ?app_nil_r.
Qed.

(** The answer to test [i] is none of those before. *)
Definition answer (i : nat) (status : Z) (answers : nat -> Z) : nat -> Z :=
  fun j => if Nat.eqb j i then status else answers j.

Lemma tests_log_answer dev answers i status :
  tests_log dev (answer i status answers) i = tests_log dev answers i.
Proof.
  unfold tests_log. f_equal. apply list_fmap_ext. intros k j Hj. unfold test_events, answer.
  assert (Hin : j ∈ tests_before dev i) by (by eapply list_elem_of_lookup_2).
  unfold tests_before in Hin. rewrite list_elem_of_In, filter_In, in_seq in Hin.
  by rewrite (proj2 (Nat.eqb_neq j i)) by lia.
Qed.

Lemma answer_same i status answers : answer i status answers i = status.
Proof. unfold answer. by rewrite Nat.eqb_refl. Qed.

(** Where a thread is, after what it has done. *)
Definition thread_log (dev : testdev) (t : thread) (evs : list usb_event) : Prop :=
  match t with
  | Opening => evs = []
  | Finished false => evs = [OpenFailed (name dev)]
  | Testing i => exists answers, evs = Opened (name dev) :: tests_log dev answers i /\ (i <= TEST_CASES)%nat
  | Reporting i status => exists answers, evs = Opened (name dev) :: tests_log dev answers i ++
      [Ioctl (name dev) (ifnum dev) (set_test_num (Z.of_nat i) (param dev))] /\
      (i < TEST_CASES)%nat /\ selected dev i = true /\ status <> - EOPNOTSUPP
  | Finished true => exists answers, evs = device_log dev answers
  end.

(** The events of [n] tests from test [i] on. *)
Definition tests_from (dev : testdev) (answers : nat -> Z) (i n : nat) : list usb_event :=
  concat (test_events dev answers <$> List.filter (selected dev) (seq i n)).

Lemma tests_from_log dev answers : tests_from dev answers 0 TEST_CASES = tests_log dev answers TEST_CASES.
Proof. unfold tests_from, tests_log, tests_before. reflexivity. Qed.
#[global] Opaque tests_log.

Section Logs.
Context `{UsbOS}.

Lemma thread_step_log tr dev t t' evs new :
  forever dev = false -> thread_log dev t evs -> thread_step tr dev t = Some (t', new) ->
  thread_log dev t' (evs ++ new).
Proof.
  intros Hf. destruct t as [|i|i status|ok]; cbn [thread_log thread_step]; [| | |done].
  - intros ->. destruct (os_open tr (name dev)); intros [= <- <-]; [|done].
    exists (fun _ => 0). split; [done|lia].
  - intros (answers & -> & Hi). destruct (Nat.ltb_spec i TEST_CASES) as [Hlt|Hge].
    + destruct (selected dev i) eqn:Hs; cbn [negb].
      * generalize (os_ioctl tr (name dev) (set_test_num (Z.of_nat i) (param dev))). intros status [= <- <-].
        destruct (Z.eqb_spec status (- EOPNOTSUPP)) as [He|Hne]; cbn [thread_log].
        -- exists (answer i status answers). split; [|lia].
           rewrite tests_log_S, Hs, tests_log_answer. unfold test_events.
           rewrite answer_same, He, Z.eqb_refl. reflexivity.
        -- exists answers. by split_and!.
      * intros [= <- <-]. exists answers. split; [|lia]. rewrite tests_log_S, Hs, !app_nil_r. reflexivity.
    + rewrite Hf. intros [= <- <-]. exists answers.
      assert (i = TEST_CASES) as -> by lia. unfold device_log. cbn [app]. reflexivity.
  - intros (answers & -> & Hi & Hs & Hne). intros [= <- <-]. exists (answer i status answers). split; [|lia].
    rewrite tests_log_S, Hs, tests_log_answer. unfold test_events. rewrite answer_same.
    rewrite (proj2 (Z.eqb_neq _ _) Hne). cbn [app]. rewrite <- app_assoc. reflexivity.
Qed.
End Logs.

(** * The threads *)

(** What the thread of device [k] has done, in order. *)
Definition events_of (k : nat) (s : threads) : list usb_event :=
  rev (omap (fun '(j, e) => if Nat.eqb j k then Some e else None) (log s)).

Lemma events_of_step k k' evs s pc' slots' :
  (length evs <= 1)%nat ->
  events_of k (Threads pc' slots' (((fun e => (k', e)) <$> evs) ++ log s)) =
    events_of k s ++ (if Nat.eqb k' k then evs else []).
Proof.
  intros Hl. unfold events_of. cbn [log]. rewrite omap_app, rev_app_distr. f_equal.
  destruct evs as [|e [|e' evs]]; cbn in Hl |- *; [by destruct (Nat.eqb k' k)|by destruct (Nat.eqb k' k)|lia].
Qed.

Section System.
Context `{UsbOS} (devs : list testdev).
Context (Hnever : Forall (fun dev => forever dev = false) devs).

Lemma thread_step_one tr dev t t' evs : thread_step tr dev t = Some (t', evs) -> (length evs <= 1)%nat.
Proof.
  destruct t as [|i|i status|ok]; cbn [thread_step].
  - destruct (os_open _ _); intros [= <- <-]; cbn; lia.
  - destruct (Nat.ltb _ _); [destruct (negb _)|destruct (forever dev)]; intros [= <- <-]; cbn; lia.
  - intros [= <- <-]. cbn. lia.
  - done.
Qed.

(** Device [k] and its thread. *)
Definition slot_ok (s : threads) (k : nat) (dev : testdev) : Prop :=
  match slots s !! k with
  | Some (Some t) => thread_log dev t (events_of k s)
  | Some None => events_of k s = []
  | None => False
  end.

(** The main thread creates the threads in order and then waits for them in order. *)
Definition main_ok (s : threads) : Prop :=
  match pc s with
  | Creating k => (k <= length devs)%nat /\ forall j, (k <= j < length devs)%nat -> slots s !! j = Some None
  | Joining k => (k <= length devs)%nat /\ forall j, (j < k)%nat -> exists ok, slots s !! j = Some (Some (Finished ok))
  | Returned => forall j, (j < length devs)%nat -> exists ok, slots s !! j = Some (Some (Finished ok))
  | Crashed => exists j, slots s !! j = Some None
  end.

Definition threads_ok (s : threads) : Prop :=
  length (slots s) = length devs /\ (forall k dev, devs !! k = Some dev -> slot_ok s k dev) /\ main_ok s.

Lemma start_ok : threads_ok (start devs).
Proof.
  unfold threads_ok, start. cbn [slots]. rewrite length_replicate. split_and!; [done| |].
  - intros k dev Hk. unfold slot_ok. cbn [slots]. apply lookup_lt_Some in Hk.
    by rewrite lookup_replicate_2.
  - split; [lia|]. intros j Hj. cbn [slots]. apply lookup_replicate_2. lia.
Qed.

Lemma main_step_ok s s' : threads_ok s -> main_step devs s = Some s' -> threads_ok s'.
Proof.
  intros (Hl & Hslots & Hmain) Hstep. unfold main_step in Hstep. unfold main_ok in Hmain.
  destruct (pc s) as [k|k| |]; [| |done|done].
  - destruct Hmain as [Hk Hnone]. destruct (devs !! k) as [dev|] eqn:Hdev; injection Hstep as <-.
    + apply lookup_lt_Some in Hdev as Hlt. destruct (os_create _ _).
      2:{ split_and!; [done|exact Hslots|]. split; [lia|]. intros j Hj. apply Hnone. lia. }
      split_and!; [cbn; by rewrite length_insert| |].
      * intros j dev' Hj. specialize (Hslots j dev' Hj). unfold slot_ok in *. cbn [slots].
        change (events_of j (Threads _ _ (log s))) with (events_of j s).
        destruct (decide (j = k)) as [->|Hne]; [|by rewrite list_lookup_insert_ne].
        rewrite list_lookup_insert_eq by lia. rewrite Hnone in Hslots by lia. exact Hslots.
      * split; [lia|]. cbn [slots]. intros j Hj. rewrite list_lookup_insert_ne by lia. apply Hnone. lia.
    + split_and!; [done|exact Hslots|]. split; [lia|]. lia.
  - destruct Hmain as [Hk Hfin]. destruct (slots s !! k) as [[[| | |ok]|]|] eqn:Hsl; try done; injection Hstep as <-.
    + split_and!; [done|exact Hslots|]. apply lookup_lt_Some in Hsl as Hlt. split; [lia|].
      intros j Hj. destruct (decide (j = k)) as [->|Hne]; [by exists ok|]. apply Hfin. lia.
    + split_and!; [done|exact Hslots|]. by exists k.
    + split_and!; [done|exact Hslots|]. apply lookup_ge_None in Hsl. intros j Hj. apply Hfin. lia.
Qed.

Lemma step_ok s s' : threads_ok s -> step devs s s' -> threads_ok s'.
Proof.
  intros Hs Hstep. destruct Hstep as [s s' Hm|s k dev t t' evs Hr Hc Hdev Hsl Ht]; [by eapply main_step_ok|].
  destruct Hs as (Hl & Hslots & Hmain). pose proof (thread_step_one _ _ _ _ _ Ht) as H1.
  apply lookup_lt_Some in Hsl as Hlt. split_and!; [cbn; by rewrite length_insert| |].
  - intros j dev' Hj. unfold slot_ok. rewrite events_of_step by done. cbn [slots].
    specialize (Hslots j dev' Hj). unfold slot_ok in Hslots.
    destruct (decide (j = k)) as [->|Hne].
    + rewrite list_lookup_insert_eq, Nat.eqb_refl by done. rewrite Hsl in Hslots.
      assert (dev' = dev) as -> by congruence. eapply thread_step_log; [|exact Hslots|exact Ht].
      by eapply (Forall_lookup_1 _ _ _ _ Hnever).
    + rewrite list_lookup_insert_ne by done. rewrite (proj2 (Nat.eqb_neq k j)) by done. by rewrite app_nil_r.
  - unfold main_ok in *. cbn [pc slots].
    assert (Hrun : forall j, ((exists ok, slots s !! j = Some (Some (Finished ok))) \/ slots s !! j = Some None) -> j <> k).
    { intros j Hj ->. rewrite Hsl in Hj. destruct Hj as [[ok [= ->]]|Hj]; done. }
    destruct (pc s) as [i|i| |]; [| |done|done]; destruct Hmain as [Hi Hall]; (split; [done|]); intros j Hj.
    + rewrite list_lookup_insert_ne; [by apply Hall|]. apply not_eq_sym, Hrun. right. by apply Hall.
    + rewrite list_lookup_insert_ne; [by apply Hall|]. apply not_eq_sym, Hrun. left. by apply Hall.
Qed.

Lemma reachable_ok s : rtc (step devs) (start devs) s -> threads_ok s.
Proof.
  revert s. apply (rtc_ind_r threads_ok); [apply start_ok|]. intros s1 s2 _ Hs Hok. by eapply step_ok.
Qed.

(** C10: when the program has come back from testing all devices, every device was tested by
    its own thread to the end, whatever the order in which the threads ran: the thread opened
    the device and made every selected test request once and in order, each with its line of
    output unless the device does not support it, or it could not open the device. *)
Theorem all_devices_tested s k dev :
  rtc (step devs) (start devs) s -> pc s = Returned -> devs !! k = Some dev ->
  (exists answers, events_of k s = device_log dev answers) \/ events_of k s = [OpenFailed (name dev)].
Proof.
  intros Hr Hpc Hdev. destruct (reachable_ok s Hr) as (_ & Hslots & Hmain).
  unfold main_ok in Hmain. rewrite Hpc in Hmain. destruct (Hmain k) as [ok Hk]; [by eapply lookup_lt_Some|].
  specialize (Hslots k dev Hdev). unfold slot_ok in Hslots. rewrite Hk in Hslots.
  destruct ok; [by left|by right].
Qed.
End System.

(** * Termination *)

(** How many steps a thread, and the main thread, have at most to go. *)
Definition thread_weight (t : option thread) : nat :=
  match t with
  | None => 2 * TEST_CASES + 3
  | Some Opening => 2 * TEST_CASES + 2
  | Some (Testing i) => 2 * (TEST_CASES - i) + 1
  | Some (Reporting i _) => 2 * (TEST_CASES - 1 - i) + 2
  | Some (Finished _) => 0
  end.
Definition main_weight (n : nat) (pc : main_pc) : nat :=
  match pc with
  | Creating k => (n - k) + n + 3
  | Joining k => (n - k) + 2
  | Returned | Crashed => 0
  end.
Definition weight (n : nat) (s : threads) : nat := main_weight n (pc s) + sum_list (thread_weight <$> slots s).

Section Termination.
Context `{UsbOS} (devs : list testdev).
Context (Hnever : Forall (fun dev => forever dev = false) devs).

Lemma thread_step_weight tr dev t t' evs :
  forever dev = false -> thread_step tr dev t = Some (t', evs) ->
  (thread_weight (Some t') < thread_weight (Some t))%nat.
Proof.
  intros Hf. unfold TEST_CASES. destruct t as [|i|i status|ok]; cbn [thread_step]; [| | |done].
  - destruct (os_open _ _); intros [= <- _]; cbn [thread_weight]; unfold TEST_CASES; lia.
  - destruct (Nat.ltb_spec i TEST_CASES) as [Hi|Hi]; unfold TEST_CASES in Hi.
    + destruct (negb _); intros [= <- _]; [|case_match]; cbn [thread_weight]; unfold TEST_CASES; lia.
    + rewrite Hf. intros [= <- _]. cbn [thread_weight]. lia.
  - intros [= <- _]. cbn [thread_weight]. unfold TEST_CASES. lia.
Qed.

Lemma main_step_weight s s' :
  threads_ok devs s -> main_step devs s = Some s' -> (weight (length devs) s' < weight (length devs) s)%nat.
Proof.
  intros (Hl & _ & Hmain) Hm. unfold main_step in Hm. unfold main_ok in Hmain. unfold weight.
  destruct (pc s) as [k|k| |]; [| |done|done].
  - destruct Hmain as [Hk Hnone]. destruct (devs !! k) as [dev|] eqn:Hdev; injection Hm as <-; cbn [pc slots main_weight].
    + apply lookup_lt_Some in Hdev as Hlt. destruct (os_create _ _); [|lia].
      pose proof (sum_list_insert thread_weight (slots s) k None (Some Opening) (Hnone k ltac:(lia))) as Hsum.
      cbn [thread_weight] in Hsum. lia.
    + lia.
  - destruct Hmain as [Hk Hfin]. destruct (slots s !! k) as [[[| | |ok]|]|] eqn:Hsl; try done;
      injection Hm as <-; cbn [pc slots main_weight]; try lia.
    apply lookup_lt_Some in Hsl. lia.
Qed.

Lemma step_weight s s' :
  threads_ok devs s -> step devs s s' -> (weight (length devs) s' < weight (length devs) s)%nat.
Proof.
  intros Hs Hstep. destruct Hstep as [s s' Hm|s k dev t t' evs Hr Hc Hdev Hsl Ht]; [by eapply main_step_weight|].
  unfold weight. cbn [pc slots].
  pose proof (sum_list_insert thread_weight (slots s) k (Some t) (Some t') Hsl) as Hsum.
  apply thread_step_weight in Ht; [lia|]. by eapply (Forall_lookup_1 _ _ _ _ Hnever).
Qed.

(** Unless the program has ended some thread can go on. *)
Lemma threads_progress s :
  threads_ok devs s -> (forall s', ~ step devs s s') -> pc s = Returned \/ pc s = Crashed.
Proof.
  intros (Hl & Hslots & Hmain) Hstuck. unfold main_ok in Hmain.
  destruct (pc s) as [k|k| |] eqn:Hpc; [| |by left|by right]; exfalso.
  - apply (Hstuck (default s (main_step devs s))). constructor. unfold main_step. rewrite Hpc.
    by destruct (devs !! k).
  - destruct (main_step devs s) as [s'|] eqn:Hm; [by apply (Hstuck s'); constructor|].
    unfold main_step in Hm. rewrite Hpc in Hm.
    destruct (slots s !! k) as [[t|]|] eqn:Hsl; [|done|done].
    apply lookup_lt_Some in Hsl as Hlt. rewrite Hl in Hlt. apply lookup_lt_is_Some_2 in Hlt as [dev Hdev].
    assert (Hcan : exists r, thread_step (history s) dev t = Some r).
    { destruct t as [|i|i status|ok]; cbn [thread_step]; [| |by eexists|done].
      - destruct (os_open _ _); by eexists.
      - destruct (Nat.ltb _ _); [destruct (negb _)|destruct (forever dev)]; by eexists. }
    destruct Hcan as [[t' evs] Ht].
    apply (Hstuck (Threads (pc s) (<[k := Some t']> (slots s)) (((fun e => (k, e)) <$> evs) ++ log s))).
    by eapply step_thread; [rewrite Hpc..| | |].
Qed.

Lemma nsteps_weight n s s' :
  threads_ok devs s -> nsteps (step devs) n s s' ->
  threads_ok devs s' /\ (n + weight (length devs) s' <= weight (length devs) s)%nat.
Proof.
  intros Hs Hn. revert Hs. induction Hn as [s|n s1 s2 s3 H12 _ IH]; intros Hs; [split; [done|lia]|].
  pose proof (step_weight _ _ Hs H12). destruct (IH (step_ok devs Hnever _ _ Hs H12)). split; [done|lia].
Qed.

(** A thread that is not there when its turn has passed could not be created. *)
Definition created_before (s : threads) : nat :=
  match pc s with Creating k => k | _ => length devs end.
Lemma missing_thread_failed s :
  rtc (step devs) (start devs) s ->
  forall j, (j < created_before s)%nat -> slots s !! j = Some None -> exists tr dev_name, os_create tr dev_name = false.
Proof.
  revert s. apply (rtc_ind_r (fun s => forall j, (j < created_before s)%nat -> slots s !! j = Some None ->
    exists tr dev_name, os_create tr dev_name = false)).
  - unfold created_before. cbn. lia.
  - intros s s' Hr Hstep IH. destruct (reachable_ok devs Hnever s Hr) as (Hl & _ & Hmain).
    unfold created_before in *.
    destruct Hstep as [s s' Hm|s k dev t t' evs Hpr Hpc Hdev Hsl Ht]; intros j Hj Hnone.
    + unfold main_step in Hm. unfold main_ok in Hmain.
      destruct (pc s) as [k|k| |]; [| |done|done].
      * destruct (devs !! k) as [dev|] eqn:Hdev; injection Hm as <-; cbn [pc slots] in *.
        -- destruct (os_create _ _) eqn:Hc; [|destruct (decide (j = k)) as [->|Hne]; [by eexists _, _|apply (IH j); [lia|done]]].
           apply lookup_lt_Some in Hdev. destruct (decide (j = k)) as [->|Hne].
           ++ rewrite list_lookup_insert_eq in Hnone by lia. done.
           ++ rewrite list_lookup_insert_ne in Hnone by done. apply (IH j); [lia|done].
        -- apply (IH j); [|done]. apply lookup_ge_None in Hdev. lia.
      * destruct (slots s !! k) as [[[| | |ok]|]|]; try done; injection Hm as <-; by apply (IH j).
    + cbn [pc slots] in *. destruct (decide (j = k)) as [->|Hne].
      * rewrite list_lookup_insert_eq in Hnone by (by eapply lookup_lt_Some). done.
      * rewrite list_lookup_insert_ne in Hnone by done. by apply (IH j).
Qed.

(** C16: testing all devices comes to an end under every order of the threads: no execution
    has more than 67 n + 3 steps for n devices, none gets stuck before the main thread has
    ended, and the main thread comes back from its last join when every thread could be
    created. *)
Theorem all_devices_terminates n s :
  nsteps (step devs) n (start devs) s ->
  (n <= 67 * length devs + 3)%nat /\
  ((forall s', ~ step devs s s') ->
    pc s = Returned \/ pc s = Crashed /\ exists tr dev_name, os_create tr dev_name = false).
Proof.
  intros Hn. destruct (nsteps_weight _ _ _ (start_ok devs) Hn) as [Hok Hw].
  assert (Hr : rtc (step devs) (start devs) s) by (apply rtc_nsteps; by exists n).
  split.
  - assert (Hstart : (weight (length devs) (start devs) <= 67 * length devs + 3)%nat); [|lia].
    unfold weight, start. cbn [pc slots main_weight].
    assert (Hsum : forall m, sum_list (thread_weight <$> replicate m None) = (65 * m)%nat).
    { intros m. induction m as [|m IH]; [done|]. cbn in IH |- *. rewrite IH. lia. }
    rewrite Hsum. lia.
  - intros Hstuck. destruct (threads_progress s Hok Hstuck) as [Hpc|Hpc]; [by left|]. right. split; [done|].
    destruct Hok as (Hl & _ & Hmain). unfold main_ok in Hmain. rewrite Hpc in Hmain.
    destruct Hmain as [j Hj]. apply (missing_thread_failed s Hr j); [|done].
    unfold created_before. rewrite Hpc. apply lookup_lt_Some in Hj. lia.
Qed.
End Termination.

(** * One device alone *)

(** A system that gives the device these answers, whatever else happens. *)
Definition replay (opens : bool) (answers : nat -> Z) : UsbOS := {|
  os_tree := None; os_read _ := None; os_open _ _ := opens;
  os_ioctl _ _ p := answers (Z.to_nat (test_num p)); os_create _ _ := true |}.

Lemma tests_from_S dev answers i n :
  tests_from dev answers i (S n) = (if selected dev i then test_events dev answers i else []) ++ tests_from dev answers (S i) n.
Proof. unfold tests_from. cbn [seq List.filter]. by destruct (selected dev i). Qed.

(** A test that is run adds its events. *)
Lemma run_test_events `{UsbOS} dev i tr :
  exists status, run_test dev i tr =
    (Ok tt, rev (if selected dev i then test_events dev (fun _ => status) i else []) ++ tr) /\
    (selected dev i = true -> status = os_ioctl tr (name dev) (set_test_num (Z.of_nat i) (param dev))).
Proof.
  unfold run_test. destruct (selected dev i); cbn [negb]; [|by exists 0].
  exists (os_ioctl tr (name dev) (set_test_num (Z.of_nat i) (param dev))). split; [|done].
  unfold usbdev_ioctl, mbind, prog_bind, mret, prog_ret, get, modify, test_events.
  by destruct (_ =? - EOPNOTSUPP).
Qed.

Lemma tests_from_ext dev a b i n :
  (forall j, (i <= j)%nat -> a j = b j) -> tests_from dev a i n = tests_from dev b i n.
Proof.
  intros Hab. unfold tests_from. f_equal. apply list_fmap_ext. intros k j Hj. unfold test_events.
  assert (Hin : j ∈ List.filter (selected dev) (seq i n)) by (by eapply list_elem_of_lookup_2).
  rewrite list_elem_of_In, filter_In, in_seq in Hin. by rewrite Hab by lia.
Qed.

Lemma run_tests_events `{UsbOS} n dev i tr :
  exists answers, run_tests n dev i tr = (Ok tt, rev (tests_from dev answers i n) ++ tr).
Proof.
  revert i tr. induction n as [|n IH]; intros i tr; [by exists (fun _ => 0)|].
  cbn [run_tests]. unfold mbind, prog_bind.
  destruct (run_test_events dev i tr) as (status & -> & _).
  set (evs := if selected dev i then _ else _). destruct (IH (S i) (rev evs ++ tr)) as (answers & ->).
  exists (answer i status answers). rewrite tests_from_S, rev_app_distr, <- app_assoc.
  rewrite (tests_from_ext dev (answer i status answers) answers (S i) n).
  2:{ intros j Hj. unfold answer. by rewrite (proj2 (Nat.eqb_neq j i)) by lia. }
  unfold evs, test_events. rewrite answer_same. done.
Qed.

Lemma run_tests_replay opens answers n dev i tr :
  @run_tests (replay opens answers) n dev i tr = (Ok tt, rev (tests_from dev answers i n) ++ tr).
Proof.
  revert i tr. induction n as [|n IH]; intros i tr; [done|].
  cbn [run_tests]. unfold mbind, prog_bind.
  destruct (@run_test_events (replay opens answers) dev i tr) as (status & -> & Hst).
  rewrite IH, tests_from_S, rev_app_distr, <- app_assoc. do 3 f_equal.
  destruct (selected dev i); [|done]. unfold test_events. rewrite Hst by done. cbn.
  by rewrite Nat2Z.id.
Qed.

(** [handle_testdev] comes back for every device that is not tested for ever, whatever
    the system answers; it has made every selected test request once and in order, each with
    its line of output unless the device does not support the test, or it could not open the
    device; and the answers do not matter for its result. *)
Theorem handle_testdev_log `{UsbOS} passes dev tr :
  forever dev = false ->
  exists (answers : nat -> Z) (ok : bool), handle_testdev passes dev tr =
    (Ok ok, rev (if ok then device_log dev answers else [OpenFailed (name dev)]) ++ tr) /\
    ok = os_open tr (name dev).
Proof.
  intros Hf. unfold handle_testdev, mbind, prog_bind, get, modify, mret, prog_ret.
  destruct (os_open tr (name dev)); cbn [negb]; [|by exists (fun _ => 0), false].
  assert (Hr : exists answers : nat -> Z, restart passes dev (Opened (name dev) :: tr) =
    (Ok tt, rev (tests_log dev answers TEST_CASES) ++ Opened (name dev) :: tr)).
  { destruct (run_tests_events TEST_CASES dev 0 (Opened (name dev) :: tr)) as (answers & He).
    exists answers. rewrite <- tests_from_log.
    destruct passes; cbn [restart]; unfold mbind, prog_bind; by rewrite He, Hf. }
  destruct Hr as (answers & ->). exists answers, true. split; [|done].
  unfold device_log. cbn [rev]. rewrite rev_app_distr. cbn [rev app]. by rewrite <- app_assoc.
Qed.

(** C5: the threads refine [handle_testdev]: when the program has come back from testing all
    devices, each device has seen what it sees when it is tested alone, by [handle_testdev]
    with the same answers. *)
Theorem threads_refine_handle_testdev `{UsbOS} devs s k dev :
  Forall (fun dev => forever dev = false) devs ->
  rtc (step devs) (start devs) s -> pc s = Returned -> devs !! k = Some dev ->
  exists opens answers ok, @handle_testdev (replay opens answers) 0 dev [] = (Ok ok, rev (events_of k s)).
Proof.
  intros Hnever Hr Hpc Hdev. destruct (reachable_ok devs Hnever s Hr) as (_ & Hslots & Hmain).
  unfold main_ok in Hmain. rewrite Hpc in Hmain. destruct (Hmain k) as [ok Hk]; [by eapply lookup_lt_Some|].
  specialize (Hslots k dev Hdev). unfold slot_ok in Hslots. rewrite Hk in Hslots.
  assert (Hf : forever dev = false) by (by eapply (Forall_lookup_1 _ _ _ _ Hnever)).
  destruct ok; cbn [thread_log] in Hslots.
  - destruct Hslots as (answers & ->). exists true, answers, true.
    unfold handle_testdev, mbind, prog_bind, get, modify, mret, prog_ret. cbn [os_open replay negb].
    cbn [restart]. unfold mbind, prog_bind. rewrite run_tests_replay, Hf, tests_from_log. unfold mret, prog_ret.
    unfold device_log. cbn [rev]. rewrite rev_app_distr. cbn [rev app]. done.
  - rewrite Hslots. by exists false, (fun _ => 0), false.
Qed.

(** * The devices that are tested *)

Section Selection.
Context `{UsbOS}.

(** A file that [find_testdev] takes for a test device. *)
Definition recognised (f : string * bool) : bool :=
  f.2 && match strrchr "/" f.1 with
         | None => false
         | Some r =>
             negb (bool_decide (String.get 1 r = Some "d"%char)) &&
             match os_read f.1 with
             | None => false
             | Some bytes => Nat.eqb (length bytes) descriptor_size && is_testdev (decode_descriptor bytes)
             end
         end.

Lemma walk_recognised tree l l' :
  walk l tree = Ok l' -> l' = rev (calloc_testdev <$> (List.filter recognised tree).*1) ++ l.
Proof.
  revert l. induction tree as [|[path regular] tree IH]; intros l; cbn [walk]; [by intros [= <-]|].
  destruct (find_testdev l path regular) as [l1|] eqn:Hf; cbn; [|done]. intros Hw. rewrite (IH _ Hw). clear IH Hw.
  enough (He : l1 = (if recognised (path, regular) then [calloc_testdev path] else []) ++ l).
  { rewrite He. destruct (recognised (path, regular)); [|done]. cbn. by rewrite <- app_assoc. }
  revert Hf. unfold find_testdev, recognised. cbn [fst snd]. destruct regular; cbn [negb andb]; [|by intros [= <-]].
  destruct (strrchr "/" path) as [r|]; [|done]. destruct (bool_decide _); cbn [negb andb]; [by intros [= <-]|].
  destruct (os_read path) as [bytes|]; [|by intros [= <-]].
  destruct (Nat.eqb _ _); cbn [negb andb]; [|by intros [= <-]]. by destruct (is_testdev _); intros [= <-].
Qed.

Lemma prepared_names s (paths : list string) :
  name <$> (prepare s <$> rev (calloc_testdev <$> paths)) = rev paths.
Proof.
  induction paths as [|p paths IH]; [done|]. rewrite fmap_cons. cbn [rev]. rewrite !fmap_app, IH. done.
Qed.

(** All devices are tested when no device is named and not just one was found; they are
    the recognised files of the tree, the last found first, each with the parameters of the
    command line, and none is tested for ever. *)
Theorem main_selects_recognised env opts s extra usbfs devs :
  parse_opts opts (defaults env) = Some s -> main env opts extra usbfs = Ok (RunAll devs) ->
  device s = None /\ length devs <> 1%nat /\
  (exists tree, os_tree = Some tree /\
    name <$> devs = rev ((List.filter recognised tree).*1)) /\
  Forall (fun dev => forever dev = false /\ test dev = only s /\ param dev = common s) devs.
Proof.
  intros Hs. unfold main. rewrite Hs. destruct extra; [done|]. destruct (negb (all s) && _); [done|].
  destruct usbfs; cbn [negb]; [|done]. destruct os_tree as [tree|]; [|done].
  destruct (walk [] tree) as [l|] eqn:Hw; cbn [mbind outcome_bind]; [|done].
  apply walk_recognised in Hw. rewrite app_nil_r in Hw. destruct (bool_decide _ && _); [done|].
  destruct (no_run s); [done|].
  destruct (match l with [dev] => _ | _ => _ end) as [d|] eqn:Hd; [by destruct (List.find _ l)|].
  intros [= <-].
  assert (Hnone : device s = None /\ length l <> 1%nat).
  { destruct l as [|x [|y l]]; [done|by destruct (device s)|done]. }
  destruct Hnone as [Hds Hl]. split_and!; [done|by rewrite length_fmap| |].
  - exists tree. split; [done|]. rewrite Hw. apply prepared_names.
  - apply Forall_fmap. by apply Forall_forall.
Qed.
End Selection.

(** * Two devices *)

(** Two gadgets and a hub; the second gadget does not support test 1. *)
Module Bus.
#[local] Instance two_gadgets : UsbOS := {|
  os_tree := Some [("/dev/bus/usb", false); ("/dev/bus/usb/001/001", true); ("/dev/bus/usb/001/002", true);
                   ("/dev/bus/usb/001/003", true)]%string;
  os_read p :=
    let desc v d := [18; 1; 0; 2; 0; 0; 0; 64; v mod 256; v / 256; d mod 256; d / 256; 0; 0; 0; 0; 0; 1] in
    Some (if bool_decide (p = "/dev/bus/usb/001/001"%string) then desc 0x1d6b 2 else desc 0x0525 0xa4a0);
  os_open _ _ := true;
  os_ioctl _ n p := if bool_decide (n = "/dev/bus/usb/001/003"%string) && (test_num p =? 1) then - EOPNOTSUPP else 0;
  os_create _ _ := true |}.

Definition gadgets : list testdev :=
  match main None [Opt_a; Opt_c "10"] false true with Ok (RunAll devs) => devs | _ => [] end.

(** A schedule: who makes the next step, the main thread or that of a device. *)
Definition next_step (s : threads) (who : option nat) : option threads :=
  match who with
  | None => main_step gadgets s
  | Some k =>
      dev ← gadgets !! k; t ← slots s !! k; t ← t;
      match pc s, thread_step (history s) dev t with
      | (Creating _ | Joining _), Some (t', evs) =>
          Some (Threads (pc s) (<[k := Some t']> (slots s)) (((fun e => (k, e)) <$> evs) ++ log s))
      | _, _ => None
      end
  end.

Lemma next_step_step s who s' : next_step s who = Some s' -> step gadgets s s'.
Proof.
  destruct who as [k|]; cbn [next_step]; [|by constructor].
  destruct (gadgets !! k) as [dev|] eqn:Hdev; cbn [mbind option_bind]; [|done].
  destruct (slots s !! k) as [[t|]|] eqn:Hsl; cbn [mbind option_bind]; [|done|done].
  destruct (pc s) eqn:Hpc; try done; destruct (thread_step (history s) dev t) as [[t' evs]|] eqn:Ht; try done;
    intros [= <-]; rewrite <- Hpc; eapply step_thread; rewrite ?Hpc; eauto; done.
Qed.

Fixpoint schedule (s : threads) (ws : list (option nat)) : option threads :=
  match ws with
  | [] => Some s
  | w :: ws => s ← next_step s w; schedule s ws
  end.

Lemma schedule_rtc s ws s' : schedule s ws = Some s' -> rtc (step gadgets) s s'.
Proof.
  revert s. induction ws as [|w ws IH]; intros s; cbn [schedule]; [by intros [= <-]|].
  destruct (next_step s w) as [s1|] eqn:Hs; cbn [mbind option_bind]; [|done].
  intros Hr. eapply rtc_l; [by eapply next_step_step|by apply IH].
Qed.

(** The two threads in turn, then the main thread's joins. *)
Definition in_turn : list (option nat) :=
  [None; None; None] ++ concat (replicate 63 [Some 0%nat; Some 1%nat]) ++ [Some 1%nat; None; None; None].

Lemma never_forever : Forall (fun dev => forever dev = false) gadgets.
Proof. vm_compute. repeat constructor. Qed.

Definition ended : threads := default (start gadgets) (schedule (start gadgets) in_turn).

Lemma ended_reached : schedule (start gadgets) in_turn = Some ended.
Proof. vm_compute. reflexivity. Qed.

Example ended_ended : pc ended = Returned /\ length (log ended) = 127%nat.
Proof. vm_compute. auto. Qed.

Definition gadget : testdev := default (calloc_testdev "") (gadgets !! 0%nat).

Lemma all_devices_tested_witness :
  (rtc (step gadgets) (start gadgets) ended /\ pc ended = Returned) /\
  ((exists answers, events_of 0 ended = device_log gadget answers) \/ events_of 0 ended = [OpenFailed (name gadget)]).
Proof.
  assert (Hr : rtc (step gadgets) (start gadgets) ended) by (eapply schedule_rtc, ended_reached).
  assert (Hp : pc ended = Returned) by (vm_compute; reflexivity).
  split; [by split|].
  refine (all_devices_tested gadgets never_forever ended 0 gadget Hr Hp _). vm_compute. reflexivity.
Defined.

Lemma all_devices_terminates_witness :
  exists n, nsteps (step gadgets) n (start gadgets) ended /\ (n <= 137)%nat.
Proof.
  assert (Hr : rtc (step gadgets) (start gadgets) ended) by (eapply schedule_rtc, ended_reached).
  apply rtc_nsteps in Hr as [n Hn]. exists n. split; [done|].
  exact (proj1 (all_devices_terminates gadgets never_forever n ended Hn)).
Defined.

Lemma handle_testdev_log_witness :
  exists answers ok, handle_testdev 0 gadget [] =
    (Ok ok, rev (if ok : bool then device_log gadget answers else [OpenFailed (name gadget)]) ++ []) /\ ok = true.
Proof.
  destruct (handle_testdev_log 0 gadget [] ltac:(vm_compute; reflexivity)) as (answers & ok & He & Hok).
  exists answers, ok. split; [exact He|]. rewrite Hok. reflexivity.
Defined.

Lemma threads_refine_handle_testdev_witness :
  exists opens answers ok, @handle_testdev (replay opens answers) 0 gadget [] = (Ok ok, rev (events_of 0 ended)).
Proof.
  refine (threads_refine_handle_testdev gadgets ended 0 gadget never_forever _ _ _).
  - eapply schedule_rtc, ended_reached.
  - vm_compute. reflexivity.
  - vm_compute. reflexivity.
Defined.

Lemma main_selects_recognised_witness :
  exists s, parse_opts [Opt_a; Opt_t "5"] (defaults None) = Some s /\
    exists devs, main None [Opt_a; Opt_t "5"] false true = Ok (RunAll devs) /\
      Forall (fun dev => forever dev = false /\ test dev = 5 /\ param dev = common s) devs.
Proof.
  exists (Settings None true false 5 (Param 0 1000 512 512 32)). split; [vm_compute; reflexivity|].
  destruct (main None [Opt_a; Opt_t "5"] false true) as [[| |devs]|] eqn:Hm; try (vm_compute in Hm; discriminate Hm).
  exists devs. split; [done|].
  refine (proj2 (proj2 (proj2 (main_selects_recognised None [Opt_a; Opt_t "5"]
    (Settings None true false 5 (Param 0 1000 512 512 32)) false true devs _ Hm)))).
  vm_compute. reflexivity.
Defined.
End Bus.
