(* ===== verification/Resources.v ===== *)
(** drm/modetest/modetest.c: the tables of DRM objects that the program works on, and the
    searches in them.

    An object the kernel did not give is a NULL pointer, [None]; following one is the fault
    [OutOfBounds].  Pointers into the tables are indices. *)
From Stdlib Require Import ZArith Lia Ascii String Floats.SpecFloat.
From stdpp Require Import base list numbers strings.
From S2P Require Import Prelude Libc.

#[global] Open Scope Z_scope.

(** * Objects *)

(** What the program uses of [drmModeModeInfo]; [mode_preferred] is the bit
    DRM_MODE_TYPE_PREFERRED of [type]. *)
Record drmModeModeInfo := ModeInfo {
  mode_name : string; clock : Z; htotal : Z; vtotal : Z; hdisplay : Z; vdisplay : Z;
  mode_preferred : bool }.

Record drmModeEncoder := Encoder { encoder_id : Z; encoder_crtc_id : Z; encoder_possible_crtcs : Z }.

(** [connected]: the status is DRM_MODE_CONNECTED. *)
Record drmModeConnector := Connector {
  connector_id : Z; connected : bool; modes : list drmModeModeInfo; connector_encoders : list Z }.

Record drmModePlane := Plane {
  plane_id : Z; plane_crtc_id : Z; plane_possible_crtcs : Z; formats : list Z }.

(** [struct crtc]: the id of the CRTC, and the mode the program last gave it. *)
Record crtc := Crtc { crtc_id : option Z; crtc_mode : option drmModeModeInfo }.

(** [struct connector], with its name. *)
Record connector := NamedConnector { conn : option drmModeConnector; conn_name : string }.

Record resources := Resources {
  crtcs : list crtc; encoders : list (option drmModeEncoder); connectors : list connector;
  planes : list (option drmModePlane) }.

(** Following a pointer. *)
Definition deref {A} (p : option A) : outcome A :=
  match p with Some a => Ok a | None => Fault OutOfBounds end.

(** * Searches *)

(** The first element that satisfies [p], and its index from [i] on. *)
Fixpoint find_index {A} (p : A -> bool) (i : nat) (l : list A) : option nat :=
  match l with
  | [] => None
  | a :: l => if p a then Some i else find_index p (S i) l
  end.

Definition get_crtc_by_id (res : resources) (id : Z) : option nat :=
  find_index (fun c => bool_decide (crtc_id c = Some id)) 0 (crtcs res).

(** The bit of the first entry with the id, which is compared through every pointer before. *)
Fixpoint crtc_mask_loop (i : Z) (id : Z) (l : list crtc) : outcome Z :=
  match l with
  | [] => Fault Aborted
  | c :: l => id' ← deref (crtc_id c); if id =? id' then Ok (u32 (Z.shiftl 1 i)) else crtc_mask_loop (i + 1) id l
  end.
Definition get_crtc_mask (res : resources) (crtc : nat) : outcome Z :=
  c ← deref (crtcs res !! crtc); id ← deref (crtc_id c); crtc_mask_loop 0 id (crtcs res).

Definition get_connector_by_name (res : resources) (name : string) : option drmModeConnector :=
  match List.find (fun c => String.eqb (conn_name c) name) (connectors res) with
  | Some c => conn c
  | None => None
  end.

Fixpoint connector_by_id (id : Z) (l : list connector) : option drmModeConnector :=
  match l with
  | [] => None
  | c :: l =>
      match conn c with
      | Some con => if connector_id con =? id then Some con else connector_by_id id l
      | None => connector_by_id id l
      end
  end.
Definition get_connector_by_id (res : resources) (id : Z) : option drmModeConnector :=
  connector_by_id id (connectors res).

Fixpoint encoder_by_id (id : Z) (l : list (option drmModeEncoder)) : option drmModeEncoder :=
  match l with
  | [] => None
  | Some enc :: l => if encoder_id enc =? id then Some enc else encoder_by_id id l
  | None :: l => encoder_by_id id l
  end.
Definition get_encoder_by_id (res : resources) (id : Z) : option drmModeEncoder :=
  encoder_by_id id (encoders res).

(** * Modes *)

(** [float] and [double]. *)
Definition of_int (n : Z) : spec_float := binary_normalize 53 1024 n 0 false.
Definition resize (prec emax : Z) (x : spec_float) : spec_float :=
  match x with
  | S754_finite s m e => binary_normalize prec emax (if s then Zneg m else Zpos m) e s
  | _ => x
  end.
Definition to_float := resize 24 128.
Definition to_double := resize 53 1024.

Definition mode_vrefresh (mode : drmModeModeInfo) : spec_float :=
  to_float (SFdiv 53 1024 (SFmul 53 1024 (of_int (clock mode)) (of_int 1000))
    (of_int (s32 (htotal mode * vtotal mode)))).

(** [fabs(mode_vrefresh(mode) - vrefresh) < 0.005] *)
Definition refresh_matches (mode : drmModeModeInfo) (vrefresh : spec_float) : bool :=
  SFltb (SFabs (to_double (SFsub 24 128 (mode_vrefresh mode) vrefresh)))
    (SFdiv 53 1024 (of_int 5) (of_int 1000)).

Definition is_zero (x : spec_float) : bool := match x with S754_zero _ => true | _ => false end.

Fixpoint find_mode_by_name (mode_str : string) (vrefresh : spec_float) (l : list drmModeModeInfo)
    : option drmModeModeInfo :=
  match l with
  | [] => None
  | mode :: l =>
      if String.eqb (mode_name mode) mode_str && (is_zero vrefresh || refresh_matches mode vrefresh)
      then Some mode else find_mode_by_name mode_str vrefresh l
  end.

Definition connector_find_mode (res : resources) (con_id : Z) (mode_str : string) (vrefresh : spec_float)
    : option drmModeModeInfo :=
  match get_connector_by_id res con_id with
  | None => None
  | Some connector =>
      match modes connector with
      | [] => None
      | _ =>
          match mode_str with
          | String c rest =>
              if Ascii.eqb c "#" then
                let index := atoi rest in
                if (Z.of_nat (length (modes connector)) <=? index) || (index <? 0) then None
                else modes connector !! Z.to_nat index
              else find_mode_by_name mode_str vrefresh (modes connector)
          | EmptyString => find_mode_by_name mode_str vrefresh (modes connector)
          end
      end
  end.

Example vrefresh_60 :
  let m := ModeInfo "1920x1080" 148500 2200 1125 1920 1080 true in
  refresh_matches m (to_float (of_int 60)) = true /\ refresh_matches m (to_float (of_int 59)) = false.
Proof. vm_compute. auto. Qed.
