(* ===== verification/Strto.v ===== *)
(** The number-reading functions of the C library that the programs use on their arguments:
    [strtoul], [strtol], [strtoull], [strtof], [strtod], and [strpbrk].  Strings are lists of
    character codes without the terminator; [long] has 32 bits.  The second result of a
    [strto] function is the text from [endp] on, all of it when there is no number. *)
From Stdlib Require Import ZArith Lia Ascii String Floats.SpecFloat.
From stdpp Require Import base list numbers strings pretty.
From S2P Require Import Prelude Libc.

#[global] Open Scope Z_scope.

Definition code (a : ascii) : Z := Z.of_nat (nat_of_ascii a).
Arguments code a%_char_scope.

(** The string with these characters. *)
Definition of_chars (l : list Z) : string := string_of_list_ascii (char <$> l).

(** * Searching *)

(** [strpbrk]: the text before the first character that satisfies [p], and from it on. *)
Fixpoint strpbrk (p : Z -> bool) (l : list Z) : option (list Z * list Z) :=
  match l with
  | [] => None
  | c :: l' =>
      if p c then Some ([], l)
      else match strpbrk p l' with Some (a, b) => Some (c :: a, b) | None => None end
  end.

(** The characters at a pointer; past the last one stands the terminator. *)
Definition at_ptr (l : list Z) : Z := match l with c :: _ => c | [] => NUL end.

(** * Integers *)

Fixpoint read_digits (acc : Z) (l : list Z) : Z * list Z :=
  match l with
  | c :: l' => if isdigit c then read_digits (10 * acc + (c - 48)) l' else (acc, l)
  | [] => (acc, [])
  end.

(** Blanks, a sign, decimal digits: whether it is negative, the digits' value, the rest. *)
Definition scan_sign (l : list Z) : bool * list Z :=
  match l with
  | c :: l' => if c =? 45 then (true, l') else if c =? 43 then (false, l') else (false, l)
  | [] => (false, [])
  end.
Definition scan_number (l : list Z) : option (bool * Z * list Z) :=
  let '(neg, l') := scan_sign (skip_spaces l) in
  if isdigit (at_ptr l') then let '(v, rest) := read_digits 0 l' in Some (neg, v, rest) else None.

(** Base ten; a value out of range becomes the nearest limit, and a negative unsigned one
    is taken modulo the width. *)
Definition strtou (w : Z) (l : list Z) : Z * list Z :=
  match scan_number l with
  | Some (neg, v, rest) =>
      (if 2 ^ w - 1 <? v then 2 ^ w - 1 else if neg : bool then wrap w (- v) else v, rest)
  | None => (0, l)
  end.
Definition strtoul (l : list Z) : Z * list Z := strtou 32 l.
Definition strtoull (l : list Z) : Z * list Z := strtou 64 l.

Definition strtol (l : list Z) : Z * list Z :=
  match scan_number l with
  | Some (neg, v, rest) =>
      let v := if neg : bool then - v else v in
      (Z.max (- 2147483648) (Z.min 2147483647 v), rest)
  | None => (0, l)
  end.

(** * Floats *)

(** [m * base^e], rounded to the nearest number of the format. *)
Definition nearest (prec emax : Z) (neg : bool) (m base e : Z) : spec_float :=
  match m with
  | Z.pos p =>
      if 0 <=? e then binary_normalize prec emax ((if neg then -1 else 1) * (m * base ^ e)) 0 neg
      else SFdiv prec emax (S754_finite neg p 0) (S754_finite false (Z.to_pos (base ^ (- e))) 0)
  | _ => S754_zero neg
  end.

(** Digits in a base, after [acc] of [n] digits. *)
Fixpoint scan_digits (value : Z -> option Z) (base acc n : Z) (l : list Z) : Z * Z * list Z :=
  match l with
  | [] => (acc, n, [])
  | c :: l' =>
      match value c with
      | Some d => scan_digits value base (base * acc + d) (n + 1) l'
      | None => (acc, n, l)
      end
  end.
Definition dec_value (c : Z) : option Z := if isdigit c then Some (c - 48) else None.

(** The mantissa without its point, and the number of digits after the point. *)
Definition scan_mantissa (value : Z -> option Z) (base : Z) (l : list Z) : option (Z * Z * list Z) :=
  let '(m, n, rest) := scan_digits value base 0 0 l in
  if at_ptr rest =? code "." then
    let '(m', f, rest') := scan_digits value base m 0 (tail rest) in
    if n + f =? 0 then None else Some (m', f, rest')
  else if n =? 0 then None else Some (m, 0, rest).

(** An exponent after its mark; without digits the mark is not part of the number. *)
Definition scan_exponent (mark : Z -> bool) (l : list Z) : Z * list Z :=
  if mark (at_ptr l) then
    let '(neg, l') := scan_sign (tail l) in
    if isdigit (at_ptr l') then let '(v, rest) := read_digits 0 l' in (if neg : bool then - v else v, rest)
    else (0, l)
  else (0, l).

(** [word] in any case at the start of the text. *)
Definition lower (c : Z) : Z := if (65 <=? c) && (c <=? 90) then c + 32 else c.
Fixpoint strip_word (word l : list Z) : option (list Z) :=
  match word, l with
  | [], _ => Some l
  | w :: word, c :: l => if lower c =? w then strip_word word l else None
  | _ :: _, [] => None
  end.

(** "nan" may be followed by letters, digits and underscores in parentheses. *)
Definition nan_char (c : Z) : bool :=
  isdigit c || ((97 <=? lower c) && (lower c <=? 122)) || (c =? code "_").
Definition strip_payload (l : list Z) : list Z :=
  if at_ptr l =? code "(" then
    match strpbrk (fun c => negb (nan_char c)) (tail l) with
    | Some (_, c :: rest) => if c =? code ")" then rest else l
    | _ => l
    end
  else l.

Definition strto_float (prec emax : Z) (l : list Z) : spec_float * list Z :=
  let '(neg, s) := scan_sign (skip_spaces l) in
  match strip_word (chars "infinity") s, strip_word (chars "inf") s, strip_word (chars "nan") s with
  | Some rest, _, _ | None, Some rest, _ => (S754_infinity neg, rest)
  | None, None, Some rest => (S754_nan, strip_payload rest)
  | None, None, None =>
      match strip_word (chars "0x") s ≫= scan_mantissa hex_value 16 with
      | Some (m, f, rest) =>
          let '(e, rest) := scan_exponent (fun c => lower c =? code "p") rest in
          (nearest prec emax neg m 2 (e - 4 * f), rest)
      | None =>
          match scan_mantissa dec_value 10 s with
          | Some (m, f, rest) =>
              let '(e, rest) := scan_exponent (fun c => lower c =? code "e") rest in
              (nearest prec emax neg m 10 (e - f), rest)
          | None => (S754_zero false, l)
          end
      end
  end.
Definition strtof := strto_float 24 128.
Definition strtod := strto_float 53 1024.

Example strtod_examples :
  strtod (chars "1.5@XR24") = (S754_finite false 6755399441055744 (-52), chars "@XR24") /\
  strtod (chars " -0x1p-1") = (S754_finite true 4503599627370496 (-53), []) /\
  strtof (chars "59.94@") = (S754_finite false 15712911 (-18), chars "@") /\
  strtod (chars "1e") = (S754_finite false 4503599627370496 (-52), chars "e") /\
  strtod (chars ".") = (S754_zero false, chars ".") /\
  strtof (chars "1e39") = (S754_infinity false, []).
Proof. vm_compute. auto 8. Qed.

(** * Facts *)

Lemma chars_app a b : chars (a +:+ b) = chars a ++ chars b.
Proof. induction a as [|c a IH]; [done|]. by apply (f_equal (cons (code c))). Qed.

Lemma char_code a : char (code a) = a.
Proof. unfold char, code. by rewrite Nat2Z.id, ascii_nat_embedding. Qed.

Lemma of_chars_chars s : of_chars (chars s) = s.
Proof.
  unfold of_chars, chars. rewrite <- list_fmap_compose.
  rewrite (list_fmap_ext _ id), list_fmap_id, string_of_list_ascii_of_string; [done|].
  intros i a _. apply char_code.
Qed.

Lemma length_chars s : length (chars s) = String.length s.
Proof. induction s as [|c s IH]; [done|]. by apply (f_equal S). Qed.

Lemma length_of_chars l : String.length (of_chars l) = length l.
Proof. induction l as [|c l IH]; [done|]. by apply (f_equal S). Qed.

Lemma strpbrk_found p a c b :
  Forall (fun c => p c = false) a -> p c = true -> strpbrk p (a ++ c :: b) = Some (a, c :: b).
Proof.
  intros Ha Hc. induction Ha as [|x a Hx _ IH]; cbn; [by rewrite Hc|]. by rewrite Hx, IH.
Qed.

Lemma strpbrk_none p a : Forall (fun c => p c = false) a -> strpbrk p a = None.
Proof. intros Ha. induction Ha as [|x a Hx _ IH]; cbn; [done|]. by rewrite Hx, IH. Qed.

(** ** Printed numbers *)

Definition digit (c : Z) : Prop := isdigit c = true.

Lemma digit_range c : digit c <-> 48 <= c <= 57.
Proof. unfold digit, isdigit. rewrite andb_true_iff, !Z.leb_le. lia. Qed.

Lemma pretty_digit (d : N) : (d < 10)%N -> code (pretty_N_char d) = 48 + Z.of_N d.
Proof. intros Hd. assert (Hd' : (N.to_nat d < 10)%nat) by lia.
  rewrite <- (N2Nat.id d). generalize dependent (N.to_nat d). clear. intros n Hn.
  do 10 (destruct n as [|n]; [reflexivity|]). lia.
Qed.

Lemma read_digits_go x s r :
  read_digits 0 (chars (pretty_N_go x s) ++ r) = read_digits (Z.of_N x) (chars s ++ r).
Proof.
  revert s. induction (N.lt_wf_0 x) as [x _ IH]. intros s.
  destruct (decide (x = 0%N)) as [->|Hx]; [by rewrite pretty_N_go_0|].
  rewrite pretty_N_go_step by lia. rewrite IH by (apply N.div_lt; lia).
  pose proof (N.mod_lt x 10 ltac:(lia)) as Hm. cbn [chars list_ascii_of_string fmap list_fmap app read_digits].
  change (Z.of_nat (nat_of_ascii ?a)) with (code a). rewrite pretty_digit by done.
  pose proof (N.div_mod' x 10) as Hx10. set (d := N.modulo x 10) in *. set (q := N.div x 10) in *.
  assert (Hd : digit (48 + Z.of_N d)) by (apply digit_range; lia). rewrite Hd. f_equal. lia.
Qed.

Lemma pretty_go_digits x s : Forall digit (chars s) -> Forall digit (chars (pretty_N_go x s)).
Proof.
  revert s. induction (N.lt_wf_0 x) as [x _ IH]. intros s Hs.
  destruct (decide (x = 0%N)) as [->|Hx]; [by rewrite pretty_N_go_0|].
  rewrite pretty_N_go_step by lia. apply IH; [apply N.div_lt; lia|].
  constructor; [|done]. apply digit_range. fold (code (pretty_N_char (x mod 10))).
  pose proof (N.mod_lt x 10 ltac:(lia)) as Hm. rewrite pretty_digit by done.
  set (d := N.modulo x 10) in *. lia.
Qed.

Lemma pretty_go_nonempty x s : (0 < x)%N \/ s <> ""%string -> pretty_N_go x s <> ""%string.
Proof.
  revert s. induction (N.lt_wf_0 x) as [x _ IH]. intros s Hs.
  destruct (decide (x = 0%N)) as [->|Hx].
  - rewrite pretty_N_go_0. destruct Hs; [lia|done].
  - rewrite pretty_N_go_step by lia. apply IH; [apply N.div_lt; lia|by right].
Qed.

(** The text that ends a number does not go on with a digit. *)
Definition stops (r : list Z) : Prop := isdigit (at_ptr r) = false.

Lemma stops_read v r : stops r -> read_digits v r = (v, r).
Proof. unfold stops. destruct r as [|c r]; cbn; [done|]. by intros ->. Qed.

(** A natural number in decimal. *)
Definition decimal (n : Z) : list Z := chars (pretty (Z.to_N n)).

Lemma decimal_digits n : Forall digit (decimal n).
Proof.
  unfold decimal, pretty, pretty_N. case_decide; [|apply pretty_go_digits; constructor].
  constructor; [by apply digit_range|constructor].
Qed.

Lemma decimal_cons n : exists c l, decimal n = c :: l /\ digit c.
Proof.
  pose proof (decimal_digits n) as Hd. destruct (decimal n) as [|c l] eqn:He.
  - exfalso. unfold decimal, pretty, pretty_N in He. case_decide; [done|].
    apply (pretty_go_nonempty (Z.to_N n) ""); [lia|]. by destruct (pretty_N_go _ _).
  - exists c, l. split; [done|]. by apply Forall_cons in Hd as [Hd _].
Qed.

Lemma read_decimal n r : 0 <= n -> stops r -> read_digits 0 (decimal n ++ r) = (n, r).
Proof.
  intros Hn Hr. unfold decimal, pretty, pretty_N. case_decide as Hz.
  - change (read_digits 0 (chars "0" ++ r)) with (read_digits 0 r).
    rewrite stops_read by done. f_equal. lia.
  - rewrite read_digits_go. change (chars "" ++ r) with r.
    rewrite stops_read by done. f_equal. lia.
Qed.

(** A digit is no blank, no sign and no letter. *)
Lemma digit_plain c :
  digit c -> isspace c = false /\ (c =? 45) = false /\ (c =? 43) = false /\ lower c = c.
Proof.
  rewrite digit_range. intros Hc. unfold isspace, lower.
  rewrite orb_false_iff, andb_false_iff, !Z.eqb_neq, !Z.leb_gt.
  rewrite (proj2 (Z.leb_gt 65 c)) by lia. split_and!; [lia|lia|lia|lia|done].
Qed.

Lemma decimal_scan n r :
  skip_spaces (decimal n ++ r) = decimal n ++ r /\ scan_sign (decimal n ++ r) = (false, decimal n ++ r) /\
  isdigit (at_ptr (decimal n ++ r)) = true.
Proof.
  destruct (decimal_cons n) as (c & l & -> & Hc). destruct (digit_plain c Hc) as (Hs & Hm & Hp & _).
  cbn. rewrite Hs, Hm, Hp. by split_and!.
Qed.

Lemma scan_decimal n r : 0 <= n -> stops r -> scan_number (decimal n ++ r) = Some (false, n, r).
Proof.
  intros Hn Hr. unfold scan_number. destruct (decimal_scan n r) as (-> & -> & ->).
  by rewrite read_decimal.
Qed.

Lemma strtou_decimal w n r : 0 <= n < 2 ^ w -> stops r -> strtou w (decimal n ++ r) = (n, r).
Proof.
  intros Hn Hr. unfold strtou. rewrite scan_decimal by (done || lia).
  by rewrite (proj2 (Z.ltb_ge (2 ^ w - 1) n)) by lia.
Qed.

(** An integer with its sign always printed. *)
Definition signed_decimal (n : Z) : list Z :=
  if n <? 0 then code "-" :: decimal (- n) else code "+" :: decimal n.

Lemma strtol_signed n r :
  - 2147483648 <= n < 2147483648 -> stops r -> strtol (signed_decimal n ++ r) = (n, r).
Proof.
  assert (Hl : forall sign neg v, isspace sign = false -> scan_sign [sign] = (neg, []) ->
    0 <= v -> stops r -> scan_number (sign :: decimal v ++ r) = Some (neg, v, r)).
  { intros sign neg v Hs Hsign Hv Hr. destruct (decimal_scan v r) as (_ & _ & Hd).
    unfold scan_number. cbn [skip_spaces]. rewrite Hs.
    assert (scan_sign (sign :: decimal v ++ r) = (neg, decimal v ++ r)) as ->.
    { revert Hsign. unfold scan_sign. destruct (sign =? 45), (sign =? 43); by intros [= <-]. }
    by rewrite Hd, read_decimal. }
  intros Hn Hr. unfold strtol, signed_decimal.
  destruct (Z.ltb_spec n 0) as [Hs|Hs]; cbn [app].
  - rewrite (Hl _ true) by (done || lia). f_equal. lia.
  - rewrite (Hl _ false) by (done || lia). f_equal. lia.
Qed.

(** ** A number without point and exponent, as a float *)

Lemma scan_digits_read acc n l :
  exists k, 0 <= k /\ scan_digits dec_value 10 acc n l =
    ((read_digits acc l).1, n + k, (read_digits acc l).2) /\ (isdigit (at_ptr l) = true -> 1 <= k).
Proof.
  revert acc n. induction l as [|c l IH]; intros acc n; cbn [scan_digits read_digits at_ptr].
  { exists 0. split_and!; [done|by rewrite Z.add_0_r|]. discriminate. }
  unfold dec_value at 1. destruct (isdigit c) eqn:Hc.
  - destruct (IH (10 * acc + (c - 48)) (n + 1)) as (k & Hk & He & _). exists (k + 1).
    rewrite He. split_and!; [lia|by rewrite <- Z.add_assoc, (Z.add_comm 1)|lia].
  - exists 0. split_and!; [done|by rewrite Z.add_0_r|done].
Qed.

Lemma scan_digits_decimal n r :
  0 <= n -> stops r -> exists k, 1 <= k /\ scan_digits dec_value 10 0 0 (decimal n ++ r) = (n, k, r).
Proof.
  intros Hn Hr. destruct (scan_digits_read 0 0 (decimal n ++ r)) as (k & Hk & He & Hd).
  exists k. destruct (decimal_scan n r) as (_ & _ & Hat). rewrite He, read_decimal by done.
  split; [by apply Hd|done].
Qed.

(** What a float is followed by: no digit, no point and no mark of an exponent or of a
    hexadecimal number. *)
Definition stops_float (r : list Z) : Prop :=
  stops r /\ at_ptr r <> code "." /\ lower (at_ptr r) <> code "e" /\ lower (at_ptr r) <> code "x".

Lemma strip_word_digit w word c l : digit c -> (w <? 48) || (57 <? w) = true -> strip_word (w :: word) (c :: l) = None.
Proof.
  intros Hc Hw. cbn. destruct (digit_plain c Hc) as (_ & _ & _ & ->).
  apply digit_range in Hc. apply orb_true_iff in Hw. rewrite !Z.ltb_lt in Hw.
  by rewrite (proj2 (Z.eqb_neq c w)) by lia.
Qed.

Lemma strip_0x_decimal n r : stops_float r -> strip_word (chars "0x") (decimal n ++ r) = None.
Proof.
  intros (_ & _ & _ & Hx). destruct (decimal_cons n) as (c & l & He & Hc). pose proof (decimal_digits n) as Hd.
  rewrite He in Hd |- *. apply Forall_cons in Hd as [_ Hl]. cbn. case_match; [|done].
  destruct Hl as [|c' l Hc' _]; cbn.
  - destruct r as [|x r]; [done|]. fold (code "x"). cbn [at_ptr] in Hx.
    by rewrite (proj2 (Z.eqb_neq _ _) Hx).
  - fold (code "x"). destruct (digit_plain c' Hc') as (_ & _ & _ & ->). apply digit_range in Hc'.
    by rewrite (proj2 (Z.eqb_neq c' (code "x"))) by (change (code "x") with 120; lia).
Qed.

(** The nearest float to an integer, read back from its decimal form. *)
Lemma strto_float_decimal prec emax n r :
  0 <= n -> stops_float r ->
  strto_float prec emax (decimal n ++ r) = (nearest prec emax false n 10 0, r).
Proof.
  intros Hn Hr. pose proof (strip_0x_decimal n r Hr) as Hx.
  destruct Hr as (Hr & Hpoint & Hexp & _). unfold strto_float.
  destruct (decimal_scan n r) as (-> & -> & _).
  assert (Hw : forall word, word <> [] -> (at_ptr word <? 48) || (57 <? at_ptr word) = true ->
    strip_word word (decimal n ++ r) = None).
  { intros [|w word] Hn' Hw; [done|]. destruct (decimal_cons n) as (c & l & -> & Hc).
    by apply strip_word_digit. }
  rewrite Hx, !Hw by done. cbn [mbind option_bind].
  unfold scan_mantissa. destruct (scan_digits_decimal n r Hn Hr) as (k & Hk & ->).
  rewrite (proj2 (Z.eqb_neq _ _) Hpoint), (proj2 (Z.eqb_neq k 0)) by lia.
  unfold scan_exponent. by rewrite (proj2 (Z.eqb_neq _ _) Hexp).
Qed.
