(* ===== verification/Pipes.v ===== *)
(** drm/modetest/modetest.c: from the connectors, mode and format asked for to a CRTC and a
    mode: [pipe_find_crtc], [pipe_find_crtc_and_mode], the preferred pipes, and the choice of
    planes. *)
From Stdlib Require Import ZArith Lia Ascii String Floats.SpecFloat.
From stdpp Require Import base list numbers strings pretty.
From S2P Require Import Prelude Libc Strto Format Resources.

#[global] Open Scope Z_scope.

Definition EINVAL : Z := 22.
Definition ENODEV : Z := 19.

(** [struct pipe_arg], as far as the set-up uses it; [crtc] points into the table. *)
Record pipe_arg := Pipe {
  cons_args : list string; con_ids : list Z; pipe_crtc_id : Z; mode_str : string; format_str : string;
  vrefresh : spec_float; fourcc : Z; pipe_mode : option drmModeModeInfo; pipe_crtc : option nat }.

Definition num_cons (pipe : pipe_arg) : Z := Z.of_nat (length (cons_args pipe)).

Definition set_con_ids (ids : list Z) (p : pipe_arg) : pipe_arg :=
  Pipe (cons_args p) ids (pipe_crtc_id p) (mode_str p) (format_str p) (vrefresh p) (fourcc p) (pipe_mode p) (pipe_crtc p).
Definition set_crtc (id : Z) (c : option nat) (p : pipe_arg) : pipe_arg :=
  Pipe (cons_args p) (con_ids p) id (mode_str p) (format_str p) (vrefresh p) (fourcc p) (pipe_mode p) c.
Definition set_pipe_mode (m : option drmModeModeInfo) (p : pipe_arg) : pipe_arg :=
  Pipe (cons_args p) (con_ids p) (pipe_crtc_id p) (mode_str p) (format_str p) (vrefresh p) (fourcc p) m (pipe_crtc p).

(** * The CRTC of a pipe *)

(** [ffs]: the number, from 1, of the lowest of [n] bits from [i] on that is set; 0 for none. *)
Fixpoint ffs_loop (n : nat) (i : Z) (x : Z) : Z :=
  match n with
  | O => 0
  | S n => if Z.testbit x i then i + 1 else ffs_loop n (i + 1) x
  end.
Definition ffs (x : Z) : Z := ffs_loop 32 0 x.

(** The encoders of one connector: the CRTCs they can use, and those that are in use. *)
Fixpoint connector_crtcs (res : resources) (ids : list Z) (crtcs_for_connector active_crtcs : Z)
    : outcome (Z * Z) :=
  match ids with
  | [] => Ok (crtcs_for_connector, active_crtcs)
  | id :: ids =>
      match get_encoder_by_id res id with
      | None => connector_crtcs res ids crtcs_for_connector active_crtcs
      | Some encoder =>
          let crtcs_for_connector := Z.lor crtcs_for_connector (encoder_possible_crtcs encoder) in
          match get_crtc_by_id res (encoder_crtc_id encoder) with
          | None => connector_crtcs res ids crtcs_for_connector active_crtcs
          | Some crtc =>
              mask ← get_crtc_mask res crtc;
              connector_crtcs res ids crtcs_for_connector (Z.lor active_crtcs mask)
          end
      end
  end.

(** [None] when a connector is not there. *)
Fixpoint pipe_crtcs (res : resources) (con_ids : list Z) (possible_crtcs active_crtcs : Z)
    : outcome (option (Z * Z)) :=
  match con_ids with
  | [] => Ok (Some (possible_crtcs, active_crtcs))
  | id :: con_ids =>
      match get_connector_by_id res id with
      | None => Ok None
      | Some connector =>
          '(crtcs_for_connector, active_crtcs) ← connector_crtcs res (connector_encoders connector) 0 active_crtcs;
          pipe_crtcs res con_ids (Z.land possible_crtcs crtcs_for_connector) active_crtcs
      end
  end.

Definition pipe_find_crtc (res : resources) (pipe : pipe_arg) : outcome (option nat) :=
  masks ← pipe_crtcs res (con_ids pipe) 4294967295 0;
  match masks with
  | None => Ok None
  | Some (possible_crtcs, active_crtcs) =>
      if possible_crtcs =? 0 then Ok None
      else
        let crtc_idx := if negb (Z.land possible_crtcs active_crtcs =? 0)
                        then ffs (Z.land possible_crtcs active_crtcs) else ffs possible_crtcs in
        Ok (Some (Z.to_nat (crtc_idx - 1)))
  end.

(** * CRTC and mode *)

(** The mode of the last connector; [None] when one has not got it. *)
Fixpoint find_modes (res : resources) (con_ids : list Z) (str : string) (refresh : spec_float)
    (mode : option drmModeModeInfo) : option (option drmModeModeInfo) :=
  match con_ids with
  | [] => Some mode
  | id :: con_ids =>
      match connector_find_mode res id str refresh with
      | None => None
      | Some mode => find_modes res con_ids str refresh (Some mode)
      end
  end.

Definition set_crtc_mode (i : nat) (m : option drmModeModeInfo) (res : resources) : resources :=
  Resources (alter (fun c => Crtc (crtc_id c) m) i (crtcs res)) (encoders res) (connectors res) (planes res).

(** The result, and the pipe and the table as the function leaves them. *)
Definition pipe_find_crtc_and_mode (res : resources) (pipe : pipe_arg)
    : outcome (Z * pipe_arg * resources) :=
  let pipe := set_pipe_mode None pipe in
  match find_modes res (con_ids pipe) (mode_str pipe) (vrefresh pipe) None with
  | None => Ok (- EINVAL, pipe, res)
  | Some mode =>
      pipe ← (if negb (pipe_crtc_id pipe =? 4294967295) then
          Ok (set_crtc (pipe_crtc_id pipe) (get_crtc_by_id res (pipe_crtc_id pipe)) pipe)
        else
          found ← pipe_find_crtc res pipe;
          i ← deref found; c ← deref (crtcs res !! i); id ← deref (crtc_id c);
          Ok (set_crtc id found pipe));
      match pipe_crtc pipe with
      | None => Ok (- EINVAL, pipe, res)
      | Some i => Ok (0, set_pipe_mode mode pipe, set_crtc_mode i mode res)
      end
  end.

(** * Connectors by name *)

(** [None]: a name that no connector has. *)
Fixpoint resolve_connectors (res : resources) (cons_args : list string) : option (list Z) :=
  match cons_args with
  | [] => Some []
  | s :: cons_args =>
      let '(id, endp) := strtoul (chars s) in
      let id := if Nat.eqb (length endp) (String.length s) then
                  match get_connector_by_name res s with
                  | Some connector => Some (connector_id connector)
                  | None => None
                  end
                else Some id in
      id ← id; ids ← resolve_connectors res cons_args; Some (id :: ids)
  end.

Definition pipe_resolve_connectors (res : resources) (pipe : pipe_arg) : Z * pipe_arg :=
  match resolve_connectors res (cons_args pipe) with
  | Some ids => (0, set_con_ids ids pipe)
  | None => (- ENODEV, pipe)
  end.

(** * Preferred pipes *)

(** The first preferred mode, or the first. *)
Definition preferred_mode (l : list drmModeModeInfo) : option drmModeModeInfo :=
  match List.find mode_preferred l with Some m => Some m | None => hd_error l end.

Section Preferred.
Context `{FourccCodes}.

(** [con_str] has eight bytes.  [None]: the function returns -1. *)
Definition pipe_attempt_connector (res : resources) (con : drmModeConnector) (pipe : pipe_arg)
    : outcome (option pipe_arg) :=
  let con_str := pretty (s32 (connector_id con)) in
  if (8 <=? Z.of_nat (String.length con_str)) then Fault OutOfBounds
  else
    let pipe := Pipe [con_str] [connector_id con] (pipe_crtc_id pipe) (mode_str pipe) "RG16" (vrefresh pipe)
                  (util_format_fourcc "RG16") (pipe_mode pipe) (pipe_crtc pipe) in
    found ← pipe_find_crtc res pipe;
    match found with
    | None => Ok None
    | Some i =>
        c ← deref (crtcs res !! i); id ← deref (crtc_id c);
        m ← deref (preferred_mode (modes con));
        Ok (Some (Pipe (cons_args pipe) (con_ids pipe) id
          (pretty (hdisplay m) +:+ "x" +:+ pretty (vdisplay m)) (format_str pipe) (vrefresh pipe)
          (fourcc pipe) (Some m) (Some i)))
    end.

(** A pipe from [calloc]. *)
Definition empty_pipe : pipe_arg := Pipe [] [] 0 "" "" (S754_zero false) 0 None None.

Fixpoint attempt_connectors (res : resources) (l : list connector) : outcome (list pipe_arg) :=
  match l with
  | [] => Ok []
  | c :: l =>
      match conn c with
      | Some con =>
          if connected con then
            pipe ← pipe_attempt_connector res con empty_pipe;
            pipes ← attempt_connectors res l;
            Ok (match pipe with Some pipe => pipe :: pipes | None => pipes end)
          else attempt_connectors res l
      | None => attempt_connectors res l
      end
  end.

(** The pipes that were set up; there is room for all, one for each connected connector. *)
Definition pipe_find_preferred (res : resources) : outcome (list pipe_arg) :=
  attempt_connectors res (connectors res).
End Preferred.

(** * Planes *)

Definition format_support (ovr : drmModePlane) (fmt : Z) : bool := bool_decide (fmt ∈ formats ovr).

(** [struct plane_arg], as far as the choice of a plane uses it. *)
Record plane_request := PlaneRequest { want_plane : Z; want_crtc : Z; want_fourcc : Z }.

(** The loop of [set_plane] over the planes: the index of the plane it breaks at. *)
Definition plane_usable (crtc_mask : Z) (p : plane_request) (ovr : option drmModePlane) : bool :=
  match ovr with
  | None => false
  | Some ovr =>
      negb (negb (want_plane p =? 0) && negb (want_plane p =? plane_id ovr)) &&
      format_support ovr (want_fourcc p) &&
      (negb (Z.land (plane_possible_crtcs ovr) crtc_mask =? 0) &&
       ((plane_crtc_id ovr =? 0) || (plane_crtc_id ovr =? want_crtc p)))
  end.

(** [None]: no such CRTC or no plane. *)
Definition choose_plane (res : resources) (p : plane_request) : outcome (option nat) :=
  match get_crtc_by_id res (want_crtc p) with
  | None => Ok None
  | Some crtc =>
      crtc_mask ← get_crtc_mask res crtc;
      Ok (find_index (plane_usable crtc_mask p) 0 (planes res))
  end.

Fixpoint primary_plane (res : resources) (crtc : nat) (i : nat) (l : list (option drmModePlane))
    : outcome (option nat) :=
  match l with
  | [] => Ok None
  | None :: l => primary_plane res crtc (S i) l
  | Some ovr :: l =>
      mask ← get_crtc_mask res crtc;
      if negb (Z.land (plane_possible_crtcs ovr) mask =? 0) then Ok (Some i)
      else primary_plane res crtc (S i) l
  end.
Definition get_primary_plane_by_crtc (res : resources) (crtc : nat) : outcome (option nat) :=
  primary_plane res crtc 0 (planes res).

(** * What the searches find *)

Lemma find_index_Some {A} (p : A -> bool) i l k :
  find_index p i l = Some k -> exists a, (i <= k)%nat /\ l !! (k - i)%nat = Some a /\ p a = true /\
    forall j b, (i <= j < k)%nat -> l !! (j - i)%nat = Some b -> p b = false.
Proof.
  revert i. induction l as [|a l IH]; intros i; simpl; [done|]. destruct (p a) eqn:Hp.
  - intros [= ->]. exists a. rewrite Nat.sub_diag. split_and!; [done|done|done|]. lia.
  - intros Hf. destruct (IH (S i) Hf) as (b & Hi & Hl & Hb & Hmin). exists b.
    replace (k - i)%nat with (S (k - S i)) by lia. split_and!; [lia|done|done|].
    intros j b' Hj. destruct (decide (j = i)) as [->|].
    + rewrite Nat.sub_diag. by intros [= <-].
    + replace (j - i)%nat with (S (j - S i)) by lia. intros Hl'. apply (Hmin j); [lia|done].
Qed.

Lemma find_index_None {A} (p : A -> bool) i l :
  find_index p i l = None -> forall j a, l !! j = Some a -> p a = false.
Proof.
  revert i. induction l as [|a l IH]; intros i; simpl; [done|]. destruct (p a) eqn:Hp; [done|].
  intros Hf [|j] b; simpl; [by intros [= <-]|by apply (IH (S i))].
Qed.

(** The first index that satisfies [p]. *)
Definition first_index {A} (p : A -> bool) (l : list A) (k : nat) : Prop :=
  (exists a, l !! k = Some a /\ p a = true) /\ forall j b, (j < k)%nat -> l !! j = Some b -> p b = false.

Lemma find_index_first {A} (p : A -> bool) l :
  match find_index p 0 l with
  | Some k => first_index p l k
  | None => forall j a, l !! j = Some a -> p a = false
  end.
Proof.
  destruct (find_index p 0 l) as [k|] eqn:Hf; [|exact (find_index_None _ _ _ Hf)].
  apply find_index_Some in Hf as (a & _ & Hl & Hp & Hmin). rewrite Nat.sub_0_r in Hl.
  split; [eauto|]. intros j b Hj Hb. apply (Hmin j); [lia|]. by rewrite Nat.sub_0_r.
Qed.

Lemma ffs_loop_spec n i x :
  (exists j, i <= j < i + Z.of_nat n /\ Z.testbit x j = true) ->
  let k := ffs_loop n i x - 1 in
  i <= k < i + Z.of_nat n /\ Z.testbit x k = true /\ forall j, i <= j < k -> Z.testbit x j = false.
Proof.
  revert i. induction n as [|n IH]; intros i (j & Hj & Hb); [lia|]. cbn [ffs_loop].
  destruct (Z.testbit x i) eqn:Hi.
  { replace (i + 1 - 1) with i by lia. split_and!; [lia|lia|done|lia]. }
  destruct (IH (i + 1)) as (Hk & Hbk & Hmin).
  { exists j. split; [|done]. destruct (decide (j = i)) as [->|]; [congruence|lia]. }
  split_and!; [lia|lia|done|]. intros j' Hj'. destruct (decide (j' = i)) as [->|]; [done|].
  apply Hmin. lia.
Qed.

(** A non-zero word has a bit. *)
Lemma word_bit x : 0 <= x < 4294967296 -> x <> 0 -> exists j, 0 <= j < 32 /\ Z.testbit x j = true.
Proof.
  intros Hx Hn. exists (Z.log2 x). split; [|by apply Z.bit_log2; lia].
  split; [apply Z.log2_nonneg|]. apply Z.log2_lt_pow2; lia.
Qed.

Lemma ffs_spec x :
  0 <= x < 4294967296 -> x <> 0 ->
  exists k, Z.to_nat (ffs x - 1) = k /\ (k < 32)%nat /\ Z.testbit x (Z.of_nat k) = true /\
    forall j, (j < k)%nat -> Z.testbit x (Z.of_nat j) = false.
Proof.
  intros Hx Hn. destruct (ffs_loop_spec 32 0 x) as (Hk & Hb & Hmin).
  { destruct (word_bit x Hx Hn) as (j & Hj & Hb). exists j. split; [lia|done]. }
  exists (Z.to_nat (ffs x - 1)). split; [done|]. unfold ffs in *. rewrite Z2Nat.id by lia.
  split_and!; [lia|done|]. intros j Hj. apply Hmin. lia.
Qed.

(** ** CRTC masks *)

(** The kernel gave every CRTC, and there are at most as many as a mask has bits. *)
Definition crtcs_ok (res : resources) : Prop :=
  (forall c, c ∈ crtcs res -> crtc_id c <> None) /\ (length (crtcs res) <= 32)%nat.

Lemma crtc_mask_loop_spec i id l k :
  (forall c, c ∈ l -> crtc_id c <> None) ->
  find_index (fun c => bool_decide (crtc_id c = Some id)) i l = Some k ->
  crtc_mask_loop (Z.of_nat i) id l = Ok (u32 (Z.shiftl 1 (Z.of_nat k))).
Proof.
  revert i. induction l as [|c l IH]; intros i Hl; simpl; [done|].
  destruct (crtc_id c) as [id'|] eqn:Hc; [|destruct (Hl c); [left|done]].
  simpl. destruct (Z.eqb_spec id id') as [->|Hne].
  - rewrite bool_decide_true by done. by intros [= ->].
  - rewrite bool_decide_false by congruence. intros Hf.
    replace (Z.of_nat i + 1) with (Z.of_nat (S i)) by lia. apply IH; [|done].
    intros c' Hc'. apply Hl. by right.
Qed.

Lemma get_crtc_by_id_Some res id k :
  get_crtc_by_id res id = Some k ->
  exists c, crtcs res !! k = Some c /\ crtc_id c = Some id.
Proof.
  intros Hf. apply find_index_Some in Hf as (c & _ & Hl & Hp & _).
  rewrite Nat.sub_0_r in Hl. apply bool_decide_eq_true in Hp. eauto.
Qed.

Lemma get_crtc_mask_spec res id k :
  crtcs_ok res -> get_crtc_by_id res id = Some k -> get_crtc_mask res k = Ok (Z.shiftl 1 (Z.of_nat k)).
Proof.
  intros [Hids Hlen] Hk. destruct (get_crtc_by_id_Some _ _ _ Hk) as (c & Hl & Hc).
  unfold get_crtc_mask. rewrite Hl. simpl. rewrite Hc. simpl.
  rewrite (crtc_mask_loop_spec 0 id _ k) by done. f_equal. apply u32_id.
  apply lookup_lt_Some in Hl. rewrite Z.shiftl_1_l. split; [lia|].
  change 4294967296 with (2 ^ 32). apply Z.pow_lt_mono_r; lia.
Qed.

Lemma testbit_one k j : Z.testbit (Z.shiftl 1 (Z.of_nat k)) (Z.of_nat j) = bool_decide (j = k).
Proof.
  rewrite Z.shiftl_1_l. destruct (decide (j = k)) as [->|].
  - rewrite Z.pow2_bits_true by lia. by rewrite bool_decide_true.
  - rewrite Z.pow2_bits_false by lia. by rewrite bool_decide_false.
Qed.

(** ** The CRTC of a pipe *)

(** The encoder with the id can drive, or drives, the CRTC with index [i]. *)
Definition encoder_can (res : resources) (i : nat) (id : Z) : Prop :=
  exists enc, get_encoder_by_id res id = Some enc /\ Z.testbit (encoder_possible_crtcs enc) (Z.of_nat i) = true.
Definition encoder_drives (res : resources) (i : nat) (id : Z) : Prop :=
  exists enc, get_encoder_by_id res id = Some enc /\ get_crtc_by_id res (encoder_crtc_id enc) = Some i.

(** Every connector can be attached to the CRTC; one of them is. *)
Definition possible (res : resources) (ids : list Z) (i : nat) : Prop :=
  (i < 32)%nat /\
  Forall (fun id => exists con, get_connector_by_id res id = Some con /\
    Exists (encoder_can res i) (connector_encoders con)) ids.
Definition in_use (res : resources) (ids : list Z) (i : nat) : Prop :=
  Exists (fun id => exists con, get_connector_by_id res id = Some con /\
    Exists (encoder_drives res i) (connector_encoders con)) ids.

Lemma connector_crtcs_spec res ids cs ac :
  crtcs_ok res -> exists cs' ac',
  connector_crtcs res ids cs ac = Ok (cs', ac') /\
  (forall i, Z.testbit cs' (Z.of_nat i) = true <->
     Z.testbit cs (Z.of_nat i) = true \/ Exists (encoder_can res i) ids) /\
  (forall i, Z.testbit ac' (Z.of_nat i) = true <->
     Z.testbit ac (Z.of_nat i) = true \/ Exists (encoder_drives res i) ids).
Proof.
  intros Hok. revert cs ac. induction ids as [|id ids IH]; intros cs ac; cbn [connector_crtcs].
  { exists cs, ac. split_and!; [done| |]; intros i; rewrite Exists_nil; tauto. }
  destruct (get_encoder_by_id res id) as [enc|] eqn:Henc.
  2:{ assert (Hno : forall i, (encoder_can res i id <-> False) /\ (encoder_drives res i id <-> False))
        by (intros i; unfold encoder_can, encoder_drives; rewrite Henc; naive_solver).
      destruct (IH cs ac) as (cs' & ac' & -> & Hc & Ha). exists cs', ac'. split; [done|].
      split; intros i; rewrite ?Hc, ?Ha, Exists_cons; destruct (Hno i) as [Hn1 Hn2]; rewrite ?Hn1, ?Hn2; tauto. }
  assert (Hcan : forall i, encoder_can res i id <-> Z.testbit (encoder_possible_crtcs enc) (Z.of_nat i) = true)
    by (intros i; unfold encoder_can; rewrite Henc; naive_solver).
  destruct (get_crtc_by_id res (encoder_crtc_id enc)) as [k|] eqn:Hk.
  - assert (Hdr : forall i, encoder_drives res i id <-> i = k)
      by (intros i; unfold encoder_drives; rewrite Henc; naive_solver).
    rewrite (get_crtc_mask_spec _ _ _ Hok Hk). cbn [mbind outcome_bind].
    destruct (IH (Z.lor cs (encoder_possible_crtcs enc)) (Z.lor ac (Z.shiftl 1 (Z.of_nat k))))
      as (cs' & ac' & -> & Hc & Ha).
    exists cs', ac'. split; [done|].
    split; intros i; rewrite ?Hc, ?Ha, Exists_cons, Z.lor_spec, orb_true_iff, ?Hcan, ?Hdr; [tauto|].
    rewrite testbit_one, bool_decide_eq_true. tauto.
  - assert (Hdr : forall i, encoder_drives res i id <-> False)
      by (intros i; unfold encoder_drives; rewrite Henc; naive_solver).
    destruct (IH (Z.lor cs (encoder_possible_crtcs enc)) ac) as (cs' & ac' & -> & Hc & Ha).
    exists cs', ac'. split; [done|].
    split; intros i; rewrite ?Hc, ?Ha, Exists_cons, ?Z.lor_spec, ?orb_true_iff, ?Hcan, ?Hdr; tauto.
Qed.

Lemma pipe_crtcs_spec res ids ps ac :
  crtcs_ok res ->
  match pipe_crtcs res ids ps ac with
  | Ok (Some (ps', ac')) =>
      Forall (fun id => get_connector_by_id res id <> None) ids /\
      (forall i, Z.testbit ps' (Z.of_nat i) = true <-> Z.testbit ps (Z.of_nat i) = true /\
         Forall (fun id => exists con, get_connector_by_id res id = Some con /\
           Exists (encoder_can res i) (connector_encoders con)) ids) /\
      (forall i, Z.testbit ac' (Z.of_nat i) = true <-> Z.testbit ac (Z.of_nat i) = true \/ in_use res ids i)
  | Ok None => Exists (fun id => get_connector_by_id res id = None) ids
  | Fault _ => False
  end.
Proof.
  intros Hok. revert ps ac. induction ids as [|id ids IH]; intros ps ac; cbn [pipe_crtcs].
  { unfold in_use. split_and!; [done| |]; intros i; rewrite ?Forall_nil, ?Exists_nil; tauto. }
  destruct (get_connector_by_id res id) as [con|] eqn:Hcon; [|by left].
  destruct (connector_crtcs_spec res (connector_encoders con) 0 ac Hok) as (cs & ac1 & -> & Hc & Ha).
  cbn [mbind outcome_bind]. specialize (IH (Z.land ps cs) ac1).
  destruct (pipe_crtcs res ids (Z.land ps cs) ac1) as [[[ps' ac']|]|]; [|by right|done].
  destruct IH as (Hids & Hp & Hac). unfold in_use in *. split_and!.
  - constructor; [congruence|done].
  - intros i. rewrite Hp, Forall_cons, Z.land_spec, andb_true_iff, Hc, Z.bits_0, Hcon. naive_solver.
  - intros i. rewrite Hac, Ha, Exists_cons, Hcon. naive_solver.
Qed.

Lemma land_range x y : 0 <= x < 4294967296 -> 0 <= Z.land x y < 4294967296.
Proof.
  intros Hx. assert (Z.land x y = Z.land x y mod 2 ^ 32) as ->; [|apply Z.mod_pos_bound; lia].
  rewrite <- Z.land_ones, <- Z.land_assoc, (Z.land_comm y), Z.land_assoc, Z.land_ones by lia.
  by rewrite (Z.mod_small x).
Qed.

Lemma pipe_crtcs_range res ids ps ac ps' ac' :
  0 <= ps < 4294967296 -> pipe_crtcs res ids ps ac = Ok (Some (ps', ac')) -> 0 <= ps' < 4294967296.
Proof.
  revert ps ac. induction ids as [|id ids IH]; intros ps ac Hps; cbn [pipe_crtcs]; [by intros [= <- _]|].
  destruct (get_connector_by_id res id) as [con|]; [|done].
  destruct (connector_crtcs _ _ _ _) as [[cs ac1]|]; [|done]. cbn [mbind outcome_bind].
  by apply IH, land_range.
Qed.

(** The CRTC of choice: the first possible one that is in use, else the first possible one. *)
Definition best_crtc (res : resources) (ids : list Z) (i : nat) : Prop :=
  possible res ids i /\
  ((in_use res ids i /\ forall j, possible res ids j -> in_use res ids j -> (i <= j)%nat) \/
   (forall j, possible res ids j -> ~ in_use res ids j /\ (i <= j)%nat)).

Lemma best_crtc_unique res ids i j : best_crtc res ids i -> best_crtc res ids j -> i = j.
Proof.
  intros (Hi & [[Hui Hmi]|Hni]) (Hj & [[Huj Hmj]|Hnj]).
  - specialize (Hmi j Hj Huj). specialize (Hmj i Hi Hui). lia.
  - by destruct (Hnj i Hi).
  - by destruct (Hni j Hj).
  - destruct (Hni j Hj), (Hnj i Hi). lia.
Qed.

Lemma ones_testbit j : Z.testbit 4294967295 (Z.of_nat j) = bool_decide (j < 32)%nat.
Proof.
  change 4294967295 with (Z.ones 32). destruct (decide (j < 32)%nat).
  - rewrite Z.ones_spec_low, bool_decide_true by lia. done.
  - rewrite Z.ones_spec_high, bool_decide_false by lia. done.
Qed.

(** The lowest bit of the masks is the best CRTC. *)
Lemma lowest_bit_best res ids ps ac :
  0 <= ps < 4294967296 -> ps <> 0 ->
  (forall i, Z.testbit ps (Z.of_nat i) = true <-> possible res ids i) ->
  (forall i, Z.testbit ac (Z.of_nat i) = true <-> in_use res ids i) ->
  best_crtc res ids (Z.to_nat ((if negb (Z.land ps ac =? 0) then ffs (Z.land ps ac) else ffs ps) - 1)).
Proof.
  intros Hr Hn Hp Ha. destruct (Z.eqb_spec (Z.land ps ac) 0) as [Hz|Hnz]; cbn [negb].
  - destruct (ffs_spec ps Hr Hn) as (k & -> & _ & Hb & Hmin). split; [by apply Hp|].
    right. intros j Hj. split.
    + intros Hu. apply Hp in Hj. apply Ha in Hu.
      assert (Hb2 : Z.testbit (Z.land ps ac) (Z.of_nat j) = true) by (by rewrite Z.land_spec, Hj, Hu).
      by rewrite Hz, Z.bits_0 in Hb2.
    + destruct (Nat.le_gt_cases k j) as [|Hlt]; [done|]. apply Hp in Hj. by rewrite Hmin in Hj.
  - destruct (ffs_spec _ (land_range ps ac Hr) Hnz) as (k & -> & _ & Hb & Hmin).
    rewrite Z.land_spec, andb_true_iff, Hp, Ha in Hb. destruct Hb as [Hb Hu].
    split; [done|]. left. split; [done|]. intros j Hj Huj.
    destruct (Nat.le_gt_cases k j) as [|Hlt]; [done|]. apply Hp in Hj. apply Ha in Huj.
    specialize (Hmin j Hlt). by rewrite Z.land_spec, Hj, Huj in Hmin.
Qed.

(** C33: the CRTC found for a pipe is one that every connector of the pipe can be attached to,
    the first of those in use if there is one, else the first; and none is found only when
    there is none. *)
Theorem pipe_find_crtc_best res pipe :
  crtcs_ok res ->
  match pipe_find_crtc res pipe with
  | Ok (Some i) => best_crtc res (con_ids pipe) i
  | Ok None => forall i, ~ possible res (con_ids pipe) i
  | Fault _ => False
  end.
Proof.
  intros Hok. unfold pipe_find_crtc.
  pose proof (pipe_crtcs_spec res (con_ids pipe) 4294967295 0 Hok) as Hs.
  pose proof (pipe_crtcs_range res (con_ids pipe) 4294967295 0) as Hr.
  destruct (pipe_crtcs _ _ _ _) as [[[ps ac]|]|]; [| |done]; cbn [mbind outcome_bind].
  - destruct Hs as (_ & Hp & Ha). specialize (Hr ps ac ltac:(lia) eq_refl).
    assert (Hps : forall i, Z.testbit ps (Z.of_nat i) = true <-> possible res (con_ids pipe) i)
      by (intros i; rewrite Hp, ones_testbit, bool_decide_eq_true; done).
    assert (Hac : forall i, Z.testbit ac (Z.of_nat i) = true <-> in_use res (con_ids pipe) i)
      by (intros i; rewrite Ha, Z.bits_0; naive_solver).
    destruct (Z.eqb_spec ps 0) as [->|Hn].
    + intros i Hi. apply Hps in Hi. by rewrite Z.bits_0 in Hi.
    + by apply lowest_bit_best.
  - intros i [_ Hi]. apply Exists_exists in Hs as (id & Hid & Hc).
    rewrite Forall_forall in Hi. destruct (Hi id Hid) as (con & Hcon & _). congruence.
Qed.

(** Without a CRTC id in the argument, the pipe gets the best CRTC and its mode, and the
    CRTC remembers the mode; but when no CRTC is possible the program follows a NULL pointer
    instead of reporting it. *)
Theorem pipe_find_crtc_and_mode_auto res pipe mode :
  crtcs_ok res -> pipe_crtc_id pipe = 4294967295 ->
  find_modes res (con_ids pipe) (mode_str pipe) (vrefresh pipe) None = Some mode ->
  ((forall i, ~ possible res (con_ids pipe) i) -> pipe_find_crtc_and_mode res pipe = Fault OutOfBounds) /\
  (forall i c id, best_crtc res (con_ids pipe) i -> crtcs res !! i = Some c -> crtc_id c = Some id ->
     pipe_find_crtc_and_mode res pipe =
       Ok (0, set_pipe_mode mode (set_crtc id (Some i) pipe), set_crtc_mode i mode res)).
Proof.
  intros Hok Hid Hmode. pose proof (pipe_find_crtc_best res (set_pipe_mode None pipe) Hok) as Hbest.
  unfold pipe_find_crtc_and_mode. cbn [con_ids set_pipe_mode mode_str vrefresh pipe_crtc_id] in *.
  rewrite Hmode, Hid. change (negb (4294967295 =? 4294967295)) with false. cbv iota.
  destruct (pipe_find_crtc res (set_pipe_mode None pipe)) as [[k|]|]; [| |done].
  - split; [intros Hno; destruct Hbest as [Hk _]; by destruct (Hno k)|].
    intros i c id Hi Hc Hcid. rewrite (best_crtc_unique _ _ _ _ Hbest Hi).
    cbn [mbind outcome_bind deref]. rewrite Hc. cbn [mbind outcome_bind deref]. by rewrite Hcid.
  - split; [done|]. intros i c id [Hi _]. by destruct (Hbest i).
Qed.

(** * The plane of an argument *)

(** The plane can be used for the request on the CRTC with index [k]. *)
Definition suits (k : nat) (p : plane_request) (ovr : drmModePlane) : Prop :=
  (want_plane p = 0 \/ want_plane p = plane_id ovr) /\ want_fourcc p ∈ formats ovr /\
  Z.testbit (plane_possible_crtcs ovr) (Z.of_nat k) = true /\
  (plane_crtc_id ovr = 0 \/ plane_crtc_id ovr = want_crtc p).

Lemma land_bit x k : (Z.land x (Z.shiftl 1 (Z.of_nat k)) =? 0) = negb (Z.testbit x (Z.of_nat k)).
Proof.
  destruct (Z.eqb_spec (Z.land x (Z.shiftl 1 (Z.of_nat k))) 0) as [Hz|Hnz]; symmetry.
  - apply negb_true_iff. assert (Hb : Z.testbit (Z.land x (Z.shiftl 1 (Z.of_nat k))) (Z.of_nat k) = false)
      by (by rewrite Hz, Z.bits_0).
    by rewrite Z.land_spec, testbit_one, bool_decide_true, andb_true_r in Hb.
  - apply negb_false_iff. destruct (Z.testbit x (Z.of_nat k)) eqn:Hb; [done|]. destruct Hnz.
    apply Z.bits_inj_0. intros n. rewrite Z.land_spec.
    destruct (Z.neg_nonneg_cases n) as [Hn|Hn]; [by rewrite !Z.testbit_neg_r|].
    rewrite <- (Z2Nat.id n), testbit_one by lia. case_bool_decide as Hk; [|by rewrite andb_false_r].
    by rewrite Hk, Hb.
Qed.

Lemma plane_usable_suits k p ovr :
  plane_usable (Z.shiftl 1 (Z.of_nat k)) p (Some ovr) = true <-> suits k p ovr.
Proof.
  unfold plane_usable, suits, format_support. rewrite land_bit, negb_involutive.
  rewrite !andb_true_iff, orb_true_iff, bool_decide_eq_true, negb_true_iff, andb_false_iff, !negb_false_iff,
    !Z.eqb_eq. tauto.
Qed.

(** A plane argument gets the first plane that is the one asked for (or any, for 0), has
    the format, can be shown on the CRTC and is free or already there; the argument fails
    only when the CRTC does not exist or no plane is like that. *)
Theorem choose_plane_first res p :
  crtcs_ok res ->
  match choose_plane res p with
  | Ok (Some n) => exists k ovr, get_crtc_by_id res (want_crtc p) = Some k /\
      planes res !! n = Some (Some ovr) /\ suits k p ovr /\
      forall m ovr', (m < n)%nat -> planes res !! m = Some (Some ovr') -> ~ suits k p ovr'
  | Ok None => forall k m ovr, get_crtc_by_id res (want_crtc p) = Some k ->
      planes res !! m = Some (Some ovr) -> ~ suits k p ovr
  | Fault _ => False
  end.
Proof.
  intros Hok. unfold choose_plane. destruct (get_crtc_by_id res (want_crtc p)) as [k|] eqn:Hk; [|done].
  rewrite (get_crtc_mask_spec _ _ _ Hok Hk). cbn [mbind outcome_bind].
  pose proof (find_index_first (plane_usable (Z.shiftl 1 (Z.of_nat k)) p) (planes res)) as Hf.
  destruct (find_index _ _ _) as [n|].
  - destruct Hf as [([ovr|] & Hl & Hu) Hmin]; [|done]. exists k, ovr. split_and!; [done|done| |].
    + by apply plane_usable_suits.
    + intros m ovr' Hm Hl' Hs. apply plane_usable_suits in Hs. by rewrite (Hmin m _ Hm Hl') in Hs.
  - intros k' m ovr [= <-] Hl Hs. apply plane_usable_suits in Hs. by rewrite (Hf m _ Hl) in Hs.
Qed.

(** * A board *)

(** Two CRTCs; the encoder of the panel can drive both and drives the second. *)
Definition panel_mode : drmModeModeInfo := ModeInfo "800x480" 30000 1000 500 800 480 true.
Definition panel_board : resources := Resources
  [Crtc (Some 31) None; Crtc (Some 41) None]
  [Some (Encoder 51 41 3)]
  [NamedConnector (Some (Connector 61 true [panel_mode] [51])) "DSI-1"]
  [Some (Plane 71 0 1 [875713112]); Some (Plane 72 0 2 [875713112]); Some (Plane 73 41 3 [875713112])].
Definition panel_pipe (id : Z) : pipe_arg :=
  Pipe ["DSI-1"%string] [61] id "#0" "XR24" (S754_zero false) 875713112 None None.

Lemma panel_board_ok : crtcs_ok panel_board.
Proof.
  split; [|simpl; lia]. intros c Hc. simpl in Hc.
  repeat (apply elem_of_cons in Hc as [-> |Hc]; [done|]). by apply elem_of_nil in Hc.
Qed.

Lemma pipe_find_crtc_best_witness :
  pipe_find_crtc panel_board (panel_pipe 4294967295) = Ok (Some 1%nat) /\ best_crtc panel_board [61] 1.
Proof.
  split; [vm_compute; reflexivity|].
  pose proof (pipe_find_crtc_best panel_board (panel_pipe 4294967295) panel_board_ok) as Hb.
  vm_compute pipe_find_crtc in Hb. exact Hb.
Defined.

Lemma pipe_find_crtc_and_mode_auto_witness :
  exists pipe res, pipe_find_crtc_and_mode panel_board (panel_pipe 4294967295) = Ok (0, pipe, res) /\
    pipe_mode pipe = Some panel_mode /\ pipe_crtc_id pipe = 41.
Proof.
  pose proof (pipe_find_crtc_best panel_board (panel_pipe 4294967295) panel_board_ok) as Hb.
  vm_compute pipe_find_crtc in Hb.
  pose proof (proj2 (pipe_find_crtc_and_mode_auto panel_board (panel_pipe 4294967295) (Some panel_mode)
    panel_board_ok eq_refl ltac:(vm_compute; reflexivity)) 1%nat (Crtc (Some 41) None) 41 Hb eq_refl eq_refl) as Hr.
  eexists _, _. split; [exact Hr|]. split; reflexivity.
Defined.

Lemma choose_plane_first_witness :
  exists k ovr, get_crtc_by_id panel_board 41 = Some k /\ planes panel_board !! 1%nat = Some (Some ovr) /\
    suits k (PlaneRequest 0 41 875713112) ovr /\
    forall m ovr', (m < 1)%nat -> planes panel_board !! m = Some (Some ovr') ->
      ~ suits k (PlaneRequest 0 41 875713112) ovr'.
Proof.
  pose proof (choose_plane_first panel_board (PlaneRequest 0 41 875713112) panel_board_ok) as Hc.
  vm_compute choose_plane in Hc. exact Hc.
Defined.
