(* ===== verification/Flip.v ===== *)
(** drm/modetest/modetest.c: the page-flip test of the pipes: [page_flip_handler], which the
    kernel's event of a finished flip calls, and [test_page_flip] around it. *)
From Stdlib Require Import ZArith Lia.
From stdpp Require Import base list numbers.
From S2P Require Import Prelude.

#[global] Open Scope Z_scope.

(** What [struct pipe_arg] has for flips: the CRTC, whether the pipe has a mode, the two
    framebuffers, the one shown, and the flips since the last report. *)
Record flip_pipe := FlipPipe {
  flip_crtc : Z; has_mode : bool; fb0 : Z; fb1 : Z; current_fb_id : Z; swap_count : Z }.

(** Calls, and the report of the frequency. *)
Inductive flip_event := PageFlip (crtc fb : Z) | Freq (crtc : Z) | OtherRemoved (fb : Z) | OtherDestroyed.

Definition page_flip_handler (pipe : flip_pipe) : flip_pipe * list flip_event :=
  let new_fb_id := if current_fb_id pipe =? fb0 pipe then fb1 pipe else fb0 pipe in
  let n := swap_count pipe + 1 in
  (FlipPipe (flip_crtc pipe) (has_mode pipe) (fb0 pipe) (fb1 pipe) new_fb_id (if n =? 60 then 0 else n),
   PageFlip (flip_crtc pipe) new_fb_id :: (if n =? 60 then [Freq (flip_crtc pipe)] else [])).

(** The first flips; [flip_ok i]: the kernel accepts the one of pipe [i].  [false]: one failed. *)
Fixpoint start_flips (flip_ok : nat -> bool) (i : nat) (fb other : Z) (pipes : list flip_pipe)
    : bool * list flip_pipe * list flip_event :=
  match pipes with
  | [] => (true, [], [])
  | pipe :: pipes =>
      if negb (has_mode pipe) then
        let '(ok, ps, evs) := start_flips flip_ok (S i) fb other pipes in (ok, pipe :: ps, evs)
      else if negb (flip_ok i) then (false, pipe :: pipes, [PageFlip (flip_crtc pipe) other])
      else
        let pipe := FlipPipe (flip_crtc pipe) (has_mode pipe) fb other other 0 in
        let '(ok, ps, evs) := start_flips flip_ok (S i) fb other pipes in
        (ok, pipe :: ps, PageFlip (flip_crtc pipe) other :: evs)
  end.

(** What [select] comes back with: nothing or an error, a key, or an event for a pipe. *)
Inductive selected := TimedOut | Key | FlipDone (pipe : nat).

(** The loop, up to a key; [None]: no key came, it still runs. *)
Fixpoint event_loop (sel : list selected) (pipes : list flip_pipe) : option (list flip_pipe) * list flip_event :=
  match sel with
  | [] => (None, [])
  | TimedOut :: sel => event_loop sel pipes
  | Key :: _ => (Some pipes, [])
  | FlipDone i :: sel =>
      match pipes !! i with
      | Some pipe =>
          let '(pipe, evs) := page_flip_handler pipe in
          let '(r, evs') := event_loop sel (<[i := pipe]> pipes) in (r, evs ++ evs')
      | None => event_loop sel pipes
      end
  end.

(** [other]: the framebuffer and buffer of [bo_fb_create], if it succeeds. *)
Definition test_page_flip (other : option Z) (flip_ok : nat -> bool) (fb : Z) (sel : list selected)
    (pipes : list flip_pipe) : option (list flip_pipe) * list flip_event :=
  match other with
  | None => (Some pipes, [])
  | Some other =>
      let '(ok, pipes, evs) := start_flips flip_ok 0 fb other pipes in
      let '(r, evs') := if ok : bool then event_loop sel pipes else (Some pipes, []) in
      (r, evs ++ evs' ++ match r with Some _ => [OtherRemoved other; OtherDestroyed] | None => [] end)
  end.

(** * The flips of a pipe *)

(** The handler [n] times. *)
Fixpoint handle (n : nat) (pipe : flip_pipe) : flip_pipe * list flip_event :=
  match n with
  | O => (pipe, [])
  | S n =>
      let '(pipe, evs) := handle n pipe in
      let '(pipe, evs') := page_flip_handler pipe in (pipe, evs ++ evs')
  end.

(** The framebuffer after [n] flips. *)
Definition shown_after (fb other : Z) (n : nat) : Z := if Nat.even n then other else fb.

Definition flips (evs : list flip_event) : list Z :=
  omap (fun e => match e with PageFlip _ fb => Some fb | _ => None end) evs.
Definition reports (evs : list flip_event) : nat :=
  length (List.filter (fun e => match e with Freq _ => true | _ => false end) evs).

Lemma flips_app evs evs' : flips (evs ++ evs') = flips evs ++ flips evs'.
Proof. apply omap_app. Qed.

(** After the first flip, the kernel's events flip a pipe between its two framebuffers in
    turn, and every sixtieth flip is a report. *)
Theorem page_flips_alternate n crtc fb other :
  let '(pipe, evs) := handle n (FlipPipe crtc true fb other other 0) in
  pipe = FlipPipe crtc true fb other (shown_after fb other n) (Z.of_nat n mod 60) /\
  flips evs = shown_after fb other <$> seq 1 n /\
  Z.of_nat (reports evs) = Z.of_nat n / 60.
Proof.
  induction n as [|n IH]; [done|]. cbn [handle].
  destruct (handle n _) as [pipe evs]. destruct IH as (-> & Hf & Hr).
  assert (Hs : (if shown_after fb other n =? fb then other else fb) = shown_after fb other (S n)).
  { unfold shown_after. rewrite Nat.even_succ, <- Nat.negb_even.
    destruct (Nat.even n); simpl; [destruct (Z.eqb_spec other fb); congruence|by rewrite Z.eqb_refl]. }
  unfold page_flip_handler. cbn [current_fb_id fb0 fb1 flip_crtc has_mode swap_count]. rewrite Hs.
  set (b := Z.of_nat n mod 60 + 1 =? 60). split_and!.
  - f_equal. unfold b. destruct (Z.eqb_spec (Z.of_nat n mod 60 + 1) 60); rewrite Nat2Z.inj_succ;
      Z.to_euclidean_division_equations; lia.
  - rewrite flips_app, Hf, seq_S, fmap_app. f_equal. cbn. by destruct b.
  - unfold reports in *. rewrite List.filter_app, length_app, Nat2Z.inj_add, Hr, Nat2Z.inj_succ.
    unfold b. destruct (Z.eqb_spec (Z.of_nat n mod 60 + 1) 60); cbn; Z.to_euclidean_division_equations; lia.
Qed.

(** However the test ends, it removes the other framebuffer and destroys its buffer, last. *)
Theorem test_page_flip_cleans_up other flip_ok fb sel pipes pipes' evs :
  test_page_flip (Some other) flip_ok fb sel pipes = (Some pipes', evs) ->
  exists evs', evs = evs' ++ [OtherRemoved other; OtherDestroyed].
Proof.
  unfold test_page_flip. destruct (start_flips _ _ _ _ _) as [[ok ps] e1].
  destruct (if ok then event_loop sel ps else (Some ps, [])) as [r e2]. intros [= -> <-].
  exists (e1 ++ e2). by rewrite app_assoc.
Qed.
