(* ===== verification/Device.v ===== *)
(** drm/modetest/modetest.c: the device, with the globals of the program; the properties of
    its objects; and the framebuffers, each with its buffer.  Of buffers.c, which Buffers.v
    models, this only needs that a buffer is created, or not, and that one that exists can be
    destroyed once. *)
From Stdlib Require Import ZArith Lia Ascii String Floats.SpecFloat.
From stdpp Require Import base list numbers gmap strings.
From S2P Require Import Cursor Prelude Libc Smpte Pattern Resources Flip.

#[global] Open Scope Z_scope.

(** * The state *)

Inductive obj_type := DRM_MODE_OBJECT_CRTC | DRM_MODE_OBJECT_CONNECTOR | DRM_MODE_OBJECT_PLANE.

(** An object with its properties, ids and names; the kernel may have given neither. *)
Record object := Object { obj_id : option Z; props : option (list (Z * option string)) }.

(** What the program asks of the kernel. *)
Inductive dev_event :=
| SetProperty (obj : Z) (type : obj_type) (prop value : Z)
| AddProperty (obj prop value : Z)
| BoCreated (bo fourcc w h : Z) (pat : util_fill_pattern)
| BoDestroyed (bo : Z)
| FbAdded (fb bo : Z)
| FbRemoved (fb : Z)
| NewRequest
| Commit (ret : Z)
| SetCrtc (crtc fb x y : Z) (con_ids : list Z) (mode : drmModeModeInfo)
| DirtyFB (fb : Z)
| GammaBlob (lut : list drm_color_lut)
| ModeBlob (mode : drmModeModeInfo)
| SetGamma (crtc : Z) (lut : list drm_color_lut)
| SetPlane (plane crtc fb x y w h src_w src_h : Z)
| Flipped (flip : flip_event)
| DropMaster
| Dumped (part : string)
| FdClosed.

(** The member [mode] of [struct device]. *)
Record dev_mode := DevMode {
  width : Z; height : Z; mode_fb_id : Z; mode_bo : option Z; cursor_bo : option Z }.

(** [struct device]: the tables, with the properties of the objects beside them, the
    screen, and whether there is an atomic request; the globals of the program, which are the fill patterns and those of cursor.c; the
    buffers that exist, and the calls made, newest first. *)
Record device := Device {
  crtc_objs : list object; connector_objs : list object; plane_objs : list object;
  dev_res : resources; mode : dev_mode; use_atomic : bool; req : bool;
  primary_fill : util_fill_pattern; secondary_fill : util_fill_pattern; dev_cursors : globals;
  live : gset Z; calls : list dev_event }.

Definition set_tables (cs conns ps : list object) (r : resources) (d : device) : device :=
  Device cs conns ps r (mode d) (use_atomic d) (req d) (primary_fill d) (secondary_fill d) (dev_cursors d) (live d) (calls d).
Definition set_res (r : resources) (d : device) : device :=
  Device (crtc_objs d) (connector_objs d) (plane_objs d) r (mode d) (use_atomic d) (req d)
    (primary_fill d) (secondary_fill d) (dev_cursors d) (live d) (calls d).
Definition set_dev_mode (m : dev_mode) (d : device) : device :=
  Device (crtc_objs d) (connector_objs d) (plane_objs d) (dev_res d) m (use_atomic d) (req d)
    (primary_fill d) (secondary_fill d) (dev_cursors d) (live d) (calls d).
(** [dev->req = drmModeAtomicAlloc()]; a request that was there before is freed. *)
Definition new_request (d : device) : device :=
  Device (crtc_objs d) (connector_objs d) (plane_objs d) (dev_res d) (mode d) (use_atomic d) true
    (primary_fill d) (secondary_fill d) (dev_cursors d) (live d) (NewRequest :: calls d).
Definition set_dev_cursors (g : globals) (d : device) : device :=
  Device (crtc_objs d) (connector_objs d) (plane_objs d) (dev_res d) (mode d) (use_atomic d) (req d)
    (primary_fill d) (secondary_fill d) g (live d) (calls d).
Definition set_live (s : gset Z) (d : device) : device :=
  Device (crtc_objs d) (connector_objs d) (plane_objs d) (dev_res d) (mode d) (use_atomic d) (req d)
    (primary_fill d) (secondary_fill d) (dev_cursors d) s (calls d).
Definition call (e : dev_event) (d : device) : device :=
  Device (crtc_objs d) (connector_objs d) (plane_objs d) (dev_res d) (mode d) (use_atomic d) (req d)
    (primary_fill d) (secondary_fill d) (dev_cursors d) (live d) (e :: calls d).

(** Programs on the device. *)
Abbreviation dprog := (prog device).

(** The kernel: whether a buffer can be created (its pointer), whether a framebuffer can be
    added (its id), and the results of commits. *)
Class FbKernel := {
  k_bo_create : device -> Z -> Z -> Z -> util_fill_pattern -> option Z;
  k_add_fb : device -> option Z;
  k_commit : device -> Z }.

(** * Planes *)

(** [struct plane_arg]. *)
Record plane_arg := PlaneArg {
  pa_plane_id : Z; pa_crtc_id : Z; has_position : bool; pa_x : Z; pa_y : Z; pa_w : Z; pa_h : Z;
  scale : spec_float; fb_id : Z; old_fb_id : Z; bo : option Z; old_bo : option Z;
  pa_format_str : string; pa_fourcc : Z }.

Definition set_bos (b ob : option Z) (fb ofb : Z) (p : plane_arg) : plane_arg :=
  PlaneArg (pa_plane_id p) (pa_crtc_id p) (has_position p) (pa_x p) (pa_y p) (pa_w p) (pa_h p) (scale p)
    fb ofb b ob (pa_format_str p) (pa_fourcc p).

(** Conversion of a [double] to [int], towards zero. *)
Definition truncate (x : spec_float) : Z :=
  match x with
  | S754_finite s m e =>
      let a := if 0 <=? e then Z.pos m * 2 ^ e else Z.pos m / 2 ^ (- e) in
      if s then - a else a
  | _ => 0
  end.
Definition scaled (n : Z) (s : spec_float) : Z := truncate (SFmul 53 1024 (of_int n) s).

(** The position: given, or the middle of the CRTC's mode. *)
Definition plane_position (c : crtc) (p : plane_arg) (crtc_w crtc_h : Z) : outcome (Z * Z) :=
  if negb (has_position p) then
    mode ← deref (crtc_mode c);
    Ok (Z.quot (hdisplay mode - crtc_w) 2, Z.quot (vdisplay mode - crtc_h) 2)
  else Ok (pa_x p, pa_y p).

Section Device.
Context `{FbKernel}.

(** * Properties *)

(** The loop of [find_object]: the last object with the id. *)
Fixpoint find_object (id : Z) (l : list object) (found : option object) : outcome (option object) :=
  match l with
  | [] => Ok found
  | obj :: l =>
      id' ← deref (obj_id obj);
      find_object id l (if negb (id' =? id) then found else Some obj)
  end.

Definition find_any (d : device) (id : Z) : outcome (option (obj_type * object)) :=
  c ← find_object id (crtc_objs d) None;
  match c with
  | Some obj => Ok (Some (DRM_MODE_OBJECT_CRTC, obj))
  | None =>
      c ← find_object id (connector_objs d) None;
      match c with
      | Some obj => Ok (Some (DRM_MODE_OBJECT_CONNECTOR, obj))
      | None =>
          c ← find_object id (plane_objs d) None;
          Ok (match c with Some obj => Some (DRM_MODE_OBJECT_PLANE, obj) | None => None end)
      end
  end.

(** The first property with the name.  Without a request libdrm refuses to add to it. *)
Fixpoint find_prop (name : string) (l : list (Z * option string)) : option Z :=
  match l with
  | [] => None
  | (id, Some n) :: l => if String.eqb n name then Some id else find_prop name l
  | (_, None) :: l => find_prop name l
  end.

Definition set_property (id : Z) (name : string) (value : Z) : dprog bool :=
  d ← get;
  obj ← lift (find_any d id);
  match obj with
  | None => mret false
  | Some (type, obj) =>
      match props obj with
      | None => mret false
      | Some l =>
          match find_prop name l with
          | None => mret false
          | Some prop =>
              (if negb (use_atomic d) then modify (call (SetProperty id type prop value))
               else when (req d) (modify (call (AddProperty id prop value))));;
              mret true
          end
      end
  end.

Definition add_property (id : Z) (name : string) (value : Z) : dprog unit :=
  _ ← set_property id name value; mret tt.

(** The members of [struct property_arg] that a caller sets, but for [optional], which only
    silences a message. *)
Definition add_property_optional : Z -> string -> Z -> dprog bool := set_property.

Fixpoint add_properties (id : Z) (l : list (string * Z)) : dprog unit :=
  match l with
  | [] => mret tt
  | (name, value) :: l => add_property id name (u64 value);; add_properties id l
  end.

(** * Buffers and framebuffers *)

Definition bo_destroy (bo : Z) : dprog unit :=
  d ← get;
  if bool_decide (bo ∈ live d) then
    modify (set_live (live d ∖ {[bo]}));; modify (call (BoDestroyed bo))
  else stop OutOfBounds.

Definition drmModeRmFB (fb : Z) : dprog unit := modify (call (FbRemoved fb)).

(** [None]: the function returns -1. *)
Definition bo_fb_create (fourcc w h : Z) (pat : util_fill_pattern) : dprog (option (Z * Z)) :=
  d ← get;
  match k_bo_create d fourcc w h pat with
  | None => mret None
  | Some bo =>
      modify (set_live ({[bo]} ∪ live d));; modify (call (BoCreated bo fourcc w h pat));;
      d ← get;
      match k_add_fb d with
      | None => bo_destroy bo;; mret None
      | Some fb => modify (call (FbAdded fb bo));; mret (Some (bo, fb))
      end
  end.

Definition destroy (b : option Z) : dprog unit :=
  match b with Some b => bo_destroy b | None => mret tt end.
End Device.

(** * The buffers *)

(** What the kernel promises: a new buffer is none of those that exist. *)
Class FbLaws `(K : FbKernel) : Prop := {
  bo_fresh d fourcc w h pat b : k_bo_create d fourcc w h pat = Some b -> b ∉ live d }.

(** The buffers that exist are those of the list, each once. *)
Definition exactly (l : list Z) (d : device) : Prop := NoDup l /\ live d = list_to_set l.

#[global] Instance exactly_perm : Proper (Permutation ==> eq ==> iff) exactly.
Proof.
  intros l l' Hl d d' ->. unfold exactly.
  assert (list_to_set (C := gset Z) l = list_to_set l') as -> by (apply leibniz_equiv; by rewrite Hl).
  by rewrite Hl.
Qed.

Definition option_list {A} (x : option A) : list A := match x with Some a => [a] | None => [] end.
Definition bos1 (p : plane_arg) : list Z := option_list (bo p) ++ option_list (old_bo p).
Definition bos (ps : list plane_arg) : list Z := concat (bos1 <$> ps).

(** A program that leaves the buffers alone. *)
Definition same_live {A} (c : dprog A) : Prop := preserves (same live) c.

(** All of the device but the calls. *)
Definition frame (d : device) :=
  (crtc_objs d, connector_objs d, plane_objs d, dev_res d, mode d, use_atomic d, req d,
   (primary_fill d, secondary_fill d), dev_cursors d, live d).

(** Only calls of the one kind are made, and nothing else changes. *)
Definition adds (P : dev_event -> Prop) : relation device := fun d d' =>
  frame d' = frame d /\ exists evs, Forall P evs /\ calls d' = evs ++ calls d.

#[global] Instance adds_preorder P : PreOrder (adds P).
Proof.
  split.
  - intros d. split; [done|]. exists []. by split.
  - intros d1 d2 d3 [H12 (e1 & P1 & C1)] [H23 (e2 & P2 & C2)]. split; [congruence|].
    exists (e2 ++ e1). split; [by apply Forall_app|]. by rewrite C2, C1, app_assoc.
Qed.

Lemma adds_call (P : dev_event -> Prop) e : P e -> preserves (adds P) (modify (call e)).
Proof. intros He. apply preserves_modify. intros d. split; [done|]. exists [e]. split; [by constructor|done]. Qed.

Lemma adds_mono (P Q : dev_event -> Prop) {A} (c : dprog A) :
  (forall e, P e -> Q e) -> preserves (adds P) c -> preserves (adds Q) c.
Proof.
  intros HPQ Hc d. eapply wp_mono; [apply Hc|]. intros _ d' [Hf (evs & He & Hcalls)].
  split; [done|]. exists evs. split; [by eapply Forall_impl|done].
Qed.

(** What sets a property. *)
Definition property_event (e : dev_event) : Prop :=
  match e with SetProperty _ _ _ _ | AddProperty _ _ _ => True | _ => False end.

Lemma set_property_adds id name value : preserves (adds property_event) (set_property id name value).
Proof. unfold set_property. preserves_tac; by apply adds_call. Qed.
#[export] Hint Resolve set_property_adds : preserves.

Lemma add_properties_adds id l : preserves (adds property_event) (add_properties id l).
Proof.
  induction l as [|[name value] l IH]; cbn [add_properties]; unfold add_property; preserves_tac.
Qed.
#[export] Hint Resolve add_properties_adds : preserves.

Lemma adds_live P {A} (c : dprog A) : preserves (adds P) c -> same_live c.
Proof. intros Hc d. eapply wp_mono; [apply Hc|]. intros _ d' [Hf _]. unfold frame in Hf. unfold same. congruence. Qed.

Section Buffers.
Context `{HL : FbLaws}.

Lemma wp_same_live {A} (c : dprog A) l d Q :
  same_live c -> exactly l d -> (forall o d', exactly l d' -> Q o d') -> wp c d Q.
Proof.
  intros Hc [Hn Hl] HQ. eapply wp_mono; [apply Hc|]. intros o d' Hd. unfold same in Hd. apply HQ. split; [done|congruence].
Qed.

Lemma wp_bo_destroy b l d Q :
  exactly (b :: l) d -> (forall d', exactly l d' -> Q (Ok tt) d') -> wp (bo_destroy b) d Q.
Proof.
  intros [Hn Hl] HQ. apply NoDup_cons in Hn as [Hb Hn]. unfold bo_destroy. do 2 wstep.
  rewrite bool_decide_true by (rewrite Hl; set_solver). do 3 wstep. apply HQ. split; [done|].
  simpl. rewrite Hl. simpl. apply leibniz_equiv. set_solver.
Qed.

Lemma wp_destroy b l d Q :
  exactly (option_list b ++ l) d -> (forall d', exactly l d' -> Q (Ok tt) d') -> wp (destroy b) d Q.
Proof. destruct b; simpl; [apply wp_bo_destroy|]. intros Hd HQ. wstep. by apply HQ. Qed.

(** A new buffer is one more; none is left when the framebuffer could not be added. *)
Definition refusal : Prop := exists d fourcc w h pat, k_bo_create d fourcc w h pat = None \/ k_add_fb d = None.
Lemma wp_bo_fb_create fourcc w h pat l d Q :
  exactly l d -> (forall b fb d', exactly (b :: l) d' -> Q (Ok (Some (b, fb))) d') ->
  (refusal -> forall d', exactly l d' -> Q (Ok None) d') ->
  wp (bo_fb_create fourcc w h pat) d Q.
Proof.
  intros Hd HQ HN. unfold bo_fb_create. do 2 wstep. destruct (k_bo_create d _ _ _ _) as [b|] eqn:Hb.
  2:{ wstep. apply HN; [|done]. exists d, fourcc, w, h, pat. auto. }
  pose proof (bo_fresh d _ _ _ _ b Hb) as Hf. destruct Hd as [Hn Hl].
  do 6 wstep. set (d1 := call _ _).
  assert (Hd1 : exactly (b :: l) d1).
  { split; [|simpl; by rewrite Hl]. apply NoDup_cons. split; [|done]. rewrite Hl in Hf. set_solver. }
  clearbody d1. destruct (k_add_fb d1) as [fb|] eqn:Hfb.
  - do 3 wstep. by apply HQ.
  - wstep. eapply wp_bo_destroy; [done|]. intros d2 Hd2. cbn [next]. wstep. apply HN; [|done].
    exists d1, fourcc, w, h, pat. auto.
Qed.
End Buffers.
