(* ===== verification/Atomic.v ===== *)
(** drm/modetest/modetest.c: the planes of the atomic mode: the requests they add, their
    framebuffers and their buffers over a page-flip test. *)
From Stdlib Require Import ZArith Lia Ascii String Floats.SpecFloat.
From stdpp Require Import base list numbers gmap strings.
From S2P Require Import Cursor Prelude Libc Pattern Resources Device.

#[global] Open Scope Z_scope.

Section Atomic.
Context `{FbKernel}.

(** The result, and the argument as the function leaves it. *)
Definition atomic_set_plane (p : plane_arg) (pattern : util_fill_pattern) : dprog (Z * plane_arg) :=
  d ← get;
  match get_crtc_by_id (dev_res d) (pa_crtc_id p) with
  | None => mret (-1, p)
  | Some i =>
      c ← lift (deref (crtcs (dev_res d) !! i));
      let plane_bo := old_bo p in
      let p := set_bos (bo p) (bo p) (fb_id p) (old_fb_id p) p in
      created ← match plane_bo with
                | Some b => mret (Some (b, fb_id p))
                | None => bo_fb_create (pa_fourcc p) (pa_w p) (pa_h p) pattern
                end;
      match created with
      | None => mret (-1, p)
      | Some (b, fb) =>
          let p := set_bos (Some b) (old_bo p) fb fb p in
          let crtc_w := scaled (pa_w p) (scale p) in
          let crtc_h := scaled (pa_h p) (scale p) in
          '(crtc_x, crtc_y) ← lift (plane_position c p crtc_w crtc_h);
          add_properties (pa_plane_id p)
            [("FB_ID"%string, fb_id p); ("CRTC_ID"%string, pa_crtc_id p);
             ("SRC_X"%string, 0); ("SRC_Y"%string, 0);
             ("SRC_W"%string, u32 (pa_w p * 65536)); ("SRC_H"%string, u32 (pa_h p * 65536));
             ("CRTC_X"%string, crtc_x); ("CRTC_Y"%string, crtc_y);
             ("CRTC_W"%string, crtc_w); ("CRTC_H"%string, crtc_h)];;
          mret (0, p)
      end
  end.

(** Stops at the first plane that fails; all but the first get the second pattern. *)
Fixpoint atomic_planes_loop (ps : list plane_arg) (pattern secondary : util_fill_pattern)
    : dprog (list plane_arg) :=
  match ps with
  | [] => mret []
  | p :: ps =>
      '(ret, p) ← atomic_set_plane p pattern;
      if negb (ret =? 0) then mret (p :: ps)
      else ps ← atomic_planes_loop ps secondary secondary; mret (p :: ps)
  end.
Definition atomic_set_planes (ps : list plane_arg) : dprog (list plane_arg) :=
  d ← get; atomic_planes_loop ps (primary_fill d) (secondary_fill d).

(** [n] frames of the page-flip test, which only a failed commit ends: [false], it goes on. *)
Fixpoint atomic_test_page_flip (n : nat) (ps : list plane_arg) : dprog (bool * list plane_arg) :=
  match n with
  | O => mret (false, ps)
  | S n =>
      modify new_request;;
      ps ← atomic_set_planes ps;
      d ← get; let ret := k_commit d in modify (call (Commit ret));;
      if negb (ret =? 0) then mret (true, ps) else atomic_test_page_flip n ps
  end.

Fixpoint atomic_clear_planes (ps : list plane_arg) : dprog unit :=
  match ps with
  | [] => mret tt
  | p :: ps =>
      add_properties (pa_plane_id p)
        [("FB_ID"%string, 0); ("CRTC_ID"%string, 0); ("SRC_X"%string, 0); ("SRC_Y"%string, 0);
         ("SRC_W"%string, 0); ("SRC_H"%string, 0); ("CRTC_X"%string, 0); ("CRTC_Y"%string, 0);
         ("CRTC_W"%string, 0); ("CRTC_H"%string, 0)];;
      atomic_clear_planes ps
  end.

Fixpoint atomic_clear_FB (ps : list plane_arg) : dprog (list plane_arg) :=
  match ps with
  | [] => mret []
  | p :: ps =>
      when (negb (fb_id p =? 0)) (drmModeRmFB (fb_id p));;
      when (negb (old_fb_id p =? 0)) (drmModeRmFB (old_fb_id p));;
      destroy (bo p);;
      destroy (old_bo p);;
      ps ← atomic_clear_FB ps;
      mret (set_bos None None 0 0 p :: ps)
  end.

End Atomic.

(** * The buffers *)

Section Frames.
Context `{HL : FbLaws}.

(** Buffers and framebuffers can always be had. *)
Definition never_refuses : Prop := ~ refusal.

(** The buffers of a plane: when the second one could not be had, the first is in both places. *)
Definition distinct_bos (p : plane_arg) : Prop := forall b, bo p = Some b -> old_bo p <> Some b.
Definition held1 (p : plane_arg) : list Z :=
  match bo p, old_bo p with Some b, Some b' => if b =? b' then [b] else [b; b'] | _, _ => bos1 p end.
Definition held (ps : list plane_arg) : list Z := concat (held1 <$> ps).

Lemma held1_distinct p : distinct_bos p -> held1 p = bos1 p.
Proof.
  unfold distinct_bos, held1, bos1. destruct (bo p) as [b|], (old_bo p) as [b'|]; try done.
  intros Hp. by rewrite (proj2 (Z.eqb_neq b b')) by (intros ->; by apply (Hp b')).
Qed.

Lemma distinct_bos_or p : distinct_bos p \/ exists b, bo p = Some b /\ old_bo p = Some b.
Proof.
  unfold distinct_bos. destruct (bo p) as [b|]; [|by left]. destruct (decide (old_bo p = Some b)) as [Ho|Ho].
  - right. by exists b.
  - left. by intros ? [= <-].
Qed.

Lemma held_distinct ps : Forall distinct_bos ps -> held ps = bos ps.
Proof.
  unfold held, bos. induction 1 as [|p ps Hp _ IH]; [done|]. cbn [fmap list_fmap concat].
  by rewrite held1_distinct, IH.
Qed.

(** A program on one plane, or on a list of planes, keeps what is held by them; the second
    buffer of a plane is only missing when the kernel refuses. *)
Definition keeps {A} (held_of : A -> list Z) (distinct_of : A -> Prop) (rest : list Z) (distinct : Prop)
    (o : outcome A) (d : device) : Prop :=
  forall a, o = Ok a -> exactly (held_of a ++ rest) d /\ (never_refuses -> distinct -> distinct_of a).

(** The plane after a buffer was found for it: the one it had last, or a new one. *)
Lemma held_swap p b fb fb' :
  old_bo p = Some b ->
  let p' := set_bos (Some b) (bo p) fb fb' p in held1 p' ≡ₚ held1 p /\ (distinct_bos p -> distinct_bos p').
Proof.
  destruct p. cbn. intros ->. unfold held1, distinct_bos, bos1. cbn. destruct bo as [b1|]; cbn; [|done].
  rewrite (Z.eqb_sym b b1). split.
  - destruct (Z.eqb_spec b1 b) as [->|]; [done|constructor].
  - intros Hd ? [= <-] [= ->]. by apply (Hd b).
Qed.

Lemma held_new p b fb fb' :
  old_bo p = None -> b ∉ held1 p ->
  let p' := set_bos (Some b) (bo p) fb fb' p in held1 p' = b :: held1 p /\ distinct_bos p'.
Proof.
  destruct p. cbn. intros ->. unfold held1, distinct_bos, bos1. cbn. destruct bo as [b1|]; cbn; [|done].
  intros Hn%not_elem_of_cons. destruct Hn as [Hn _]. rewrite (proj2 (Z.eqb_neq b b1)) by done.
  split; [done|]. by intros ? [= <-] [= ->].
Qed.

Lemma held_same p : old_bo p = None -> held1 (set_bos (bo p) (bo p) (fb_id p) (old_fb_id p) p) = held1 p.
Proof. destruct p. cbn. intros ->. unfold held1, bos1. cbn. destruct bo as [b1|]; cbn; [|done]. by rewrite Z.eqb_refl. Qed.

Lemma set_plane_keeps p pat rest d :
  exactly (held1 p ++ rest) d ->
  wp (atomic_set_plane p pat) d (keeps (fun r => held1 r.2) (fun r => distinct_bos r.2) rest (distinct_bos p)).
Proof.
  intros Hd. unfold atomic_set_plane. do 2 wstep.
  destruct (get_crtc_by_id _ _) as [i|].
  2:{ wstep. by intros ? [= <-]. }
  do 2 wstep. destruct (deref _) as [c|]; cbn [next]; [|done].
  wstep.
  eapply wp_mono with (P := fun o d' =>
    (exists b fb, o = Ok (Some (b, fb)) /\ exactly (held1 (set_bos (Some b) (bo p) fb fb p) ++ rest) d' /\
       (distinct_bos p -> distinct_bos (set_bos (Some b) (bo p) fb fb p))) \/
    (o = Ok None /\ refusal /\ old_bo p = None /\ exactly (held1 p ++ rest) d')).
  { destruct (old_bo p) as [b|] eqn:Hb.
    - wstep. left. exists b, (fb_id p). split; [done|].
      destruct (held_swap p b (fb_id p) (fb_id p) Hb) as [Hperm Hdist]. by rewrite Hperm.
    - eapply wp_bo_fb_create; [exact Hd| |by auto]. intros b fb d' Hd'. left. exists b, fb. split; [done|].
      destruct (held_new p b fb fb Hb) as [-> Hdist]; [|done].
      destruct Hd' as [Hn _]. apply NoDup_cons in Hn as [Hn _]. set_solver. }
  intros o d' [(b & fb & -> & Hd' & Hdist)|(-> & Hr & Ho & Hd')]; cbn [next].
  - do 2 wstep.
    destruct (plane_position _ _ _ _) as [[crtc_x crtc_y]|]; cbn [next]; [|done].
    wstep. eapply wp_same_live; [eapply adds_live, add_properties_adds|exact Hd'|].
    intros [[]|f] d2 Hd2; cbn [next]; [|done]. wstep. intros ? [= <-]. split; [exact Hd2|]. intros _. exact Hdist.
  - wstep. intros ? [= <-]. split; [|by intros Hnr; destruct Hnr]. cbn [snd]. by rewrite held_same.
Qed.

Lemma set_planes_keep ps pat sec rest d :
  exactly (held ps ++ rest) d ->
  wp (atomic_planes_loop ps pat sec) d (keeps held (Forall distinct_bos) rest (Forall distinct_bos ps)).
Proof.
  revert pat rest d. induction ps as [|p ps IH]; intros pat rest d Hd; cbn [atomic_planes_loop].
  { wstep. by intros ? [= <-]. }
  unfold held in Hd. cbn [fmap list_fmap concat] in Hd. fold (held ps) in Hd. rewrite <- app_assoc in Hd.
  wstep. eapply wp_mono; [by apply set_plane_keeps|].
  intros [[r p']|f] d1 H1; cbn [next]; [|done]. destruct (H1 _ eq_refl) as [Hd1 Hp1]. cbn [snd] in Hd1, Hp1.
  assert (Hperm : forall qs, held1 p' ++ held qs ++ rest ≡ₚ held qs ++ held1 p' ++ rest)
    by (intros qs; by rewrite !app_assoc, (Permutation_app_comm (held1 p'))).
  assert (Hcons : forall qs, held (p' :: qs) ++ rest ≡ₚ held qs ++ held1 p' ++ rest).
  { intros qs. rewrite <- Hperm. unfold held. cbn [fmap list_fmap concat]. by rewrite <- app_assoc. }
  destruct (r =? 0); cbn [negb].
  - wstep. eapply wp_mono; [apply (IH sec (held1 p' ++ rest)); by rewrite <- Hperm|].
    intros [ps'|f] d2 H2; cbn [next]; [|done]. destruct (H2 _ eq_refl) as [Hd2 Hp2]. wstep. intros ? [= <-].
    rewrite Hcons. split; [done|]. intros Hnr Hps. apply Forall_cons in Hps as [Hp Hps]. constructor; auto.
  - wstep. intros ? [= <-]. rewrite Hcons, <- Hperm. split; [done|]. intros Hnr Hps.
    apply Forall_cons in Hps as [Hp Hps]. constructor; auto.
Qed.

Lemma page_flip_keeps n ps rest d :
  exactly (held ps ++ rest) d ->
  wp (atomic_test_page_flip n ps) d (keeps (fun r => held r.2) (fun r => Forall distinct_bos r.2) rest (Forall distinct_bos ps)).
Proof.
  revert ps d. induction n as [|n IH]; intros ps d Hd; cbn [atomic_test_page_flip].
  { wstep. by intros ? [= <-]. }
  do 3 wstep. unfold atomic_set_planes. do 2 wstep. eapply wp_mono; [by apply set_planes_keep|].
  intros [ps'|f] d1 H1; cbn [next]; [|done]. destruct (H1 _ eq_refl) as [Hd1 Hp1].
  do 4 wstep. destruct (k_commit d1 =? 0); cbn [negb].
  - eapply wp_mono; [by apply IH|]. intros o d2 H2 a Ho. destruct (H2 a Ho) as [Hd2 Hp2]. split; auto.
  - wstep. by intros ? [= <-].
Qed.

(** Removing framebuffers leaves the buffers alone. *)
Lemma wp_remove_fb b fb l d (Q : outcome unit -> device -> Prop) :
  exactly l d -> (forall d2, exactly l d2 -> Q (Ok tt) d2) -> wp (when b (drmModeRmFB fb)) d Q.
Proof. intros H1 HQ. destruct b; [exact (HQ (call (FbRemoved fb) d) H1)|exact (HQ d H1)]. Qed.

Lemma clear_FB_destroys ps rest d :
  exactly (bos ps ++ rest) d ->
  wp (atomic_clear_FB ps) d (fun o d' => exists ps', o = Ok ps' /\ bos ps' = [] /\ exactly rest d').
Proof.
  revert d. induction ps as [|p ps IH]; intros d Hd; cbn [atomic_clear_FB].
  { wstep. by exists []. }
  unfold bos in Hd. cbn [fmap list_fmap concat] in Hd. fold (bos ps) in Hd.
  unfold bos1 in Hd. rewrite <- !app_assoc in Hd.
  wstep. eapply wp_remove_fb; [exact Hd|]. intros d1 Hd1. cbn [next].
  wstep. eapply wp_remove_fb; [exact Hd1|]. intros d2 Hd2. cbn [next].
  wstep. eapply wp_destroy; [exact Hd2|]. intros d3 Hd3. cbn [next].
  wstep. eapply wp_destroy; [exact Hd3|]. intros d4 Hd4. cbn [next].
  wstep. eapply wp_mono; [by apply IH|]. intros o d5 (ps' & -> & Hps & Hd5). cbn [next]. wstep.
  exists (set_bos None None 0 0 p :: ps'). split; [done|]. split; [|done]. exact Hps.
Qed.

(** A plane with one buffer in both places has it destroyed twice. *)
Lemma clear_FB_twice ps rest d :
  exactly (held ps ++ rest) d -> ~ Forall distinct_bos ps ->
  wp (atomic_clear_FB ps) d (fun o _ => o = Fault OutOfBounds).
Proof.
  revert d. induction ps as [|p ps IH]; intros d Hd Hps; [by destruct Hps|]. cbn [atomic_clear_FB].
  unfold held in Hd. cbn [fmap list_fmap concat] in Hd. fold (held ps) in Hd.
  wstep. eapply wp_remove_fb; [exact Hd|]. intros d1 Hd1. cbn [next].
  wstep. eapply wp_remove_fb; [exact Hd1|]. intros d2 Hd2. cbn [next].
  destruct (distinct_bos_or p) as [Hp|(b & Hb & Ho)].
  - rewrite held1_distinct in Hd2 by done. unfold bos1 in Hd2. rewrite <- !app_assoc in Hd2.
    wstep. eapply wp_destroy; [exact Hd2|]. intros d3 Hd3. cbn [next].
    wstep. eapply wp_destroy; [exact Hd3|]. intros d4 Hd4. cbn [next].
    wstep. eapply wp_mono; [apply IH; [exact Hd4|]|]; [|by intros o d5 ->]. intros Hall. apply Hps. by constructor.
  - unfold held1 in Hd2. rewrite Hb, Ho, Z.eqb_refl, <- app_assoc in Hd2. wstep. rewrite Hb, Ho.
    pose proof (proj1 Hd2) as Hn. cbn [app] in Hn.
    apply (wp_destroy (Some b) _ _ _ Hd2). intros d3 [_ Hd3]. cbn [next]. wstep. cbn [destroy].
    unfold bo_destroy. do 2 wstep. rewrite bool_decide_false; [by wstep|].
    rewrite Hd3, elem_of_list_to_set. apply NoDup_cons in Hn as [Hn _]. exact Hn.
Qed.

Lemma distinct_bos_all ps : Forall distinct_bos ps \/ ~ Forall distinct_bos ps.
Proof.
  induction ps as [|p ps IH]; [by left|]. destruct (distinct_bos_or p) as [Hp|(b & Hb & Ho)].
  - destruct IH as [IH|IH]; [left; by constructor|right]. intros Hall. by apply Forall_cons in Hall as [_ Hall].
  - right. intros Hall. apply Forall_cons in Hall as [Hp _]. by apply (Hp b).
Qed.

(** Clearing the planes, if it returns, has destroyed what they held. *)
Lemma clear_FB_returns ps rest d :
  exactly (held ps ++ rest) d ->
  wp (atomic_clear_FB ps) d (fun o d' => forall ps', o = Ok ps' -> exactly rest d').
Proof.
  intros Hd. destruct (distinct_bos_all ps) as [Hps|Hps].
  - rewrite held_distinct in Hd by done. eapply wp_mono; [by apply clear_FB_destroys|].
    intros o d' (ps1 & -> & _ & Hd') ps' _. exact Hd'.
  - eapply wp_mono; [by eapply clear_FB_twice|]. by intros o d' ->.
Qed.
End Frames.

(** A plane argument fresh from the parser. *)
Definition fresh_plane (p : plane_arg) : Prop := bo p = None /\ old_bo p = None /\ fb_id p = 0 /\ old_fb_id p = 0.

Lemma fresh_planes_distinct ps : Forall fresh_plane ps -> Forall distinct_bos ps /\ held ps = [].
Proof.
  unfold held. induction 1 as [|p ps (Hb & Ho & _) _ [IH1 IH2]]; [done|]. cbn [fmap list_fmap concat]. split.
  - constructor; [|done]. intros b. by rewrite Hb.
  - unfold held1 at 1, bos1. by rewrite IH2, Hb, Ho.
Qed.

(** C34: after any number of frames of the page-flip test on planes fresh from the parser,
    every plane holds its buffers in two places.  When no plane has the same buffer in both, clearing the planes destroys every
    buffer the test created, once, and no other.  A plane has the same buffer in both only when
    the kernel has refused a buffer or a framebuffer; then clearing the planes destroys that
    buffer twice. *)
Theorem atomic_buffers_balanced `{FbLaws} n ps d ended ps' d' :
  Forall fresh_plane ps ->
  atomic_test_page_flip n ps d = (Ok (ended, ps'), d') ->
  (Forall distinct_bos ps' ->
     exists ps'' d'', atomic_clear_FB ps' d' = (Ok ps'', d'') /\ live d'' = live d) /\
  (~ Forall distinct_bos ps' -> exists d'', atomic_clear_FB ps' d' = (Fault OutOfBounds, d'')) /\
  (never_refuses -> Forall distinct_bos ps').
Proof.
  intros Hf Hrun. destruct (fresh_planes_distinct ps Hf) as [Hdist Hh].
  assert (Hd : exactly (held ps ++ elements (live d)) d).
  { rewrite Hh. cbn [app]. split; [apply NoDup_elements|]. by rewrite list_to_set_elements_L. }
  destruct (wp_run _ _ _ _ _ (page_flip_keeps n ps _ d Hd) Hrun _ eq_refl) as [Hd' Hp']. cbn [snd] in Hd', Hp'.
  split_and!; [| |intros Hnr; by apply Hp'].
  - intros Hall. rewrite held_distinct in Hd' by done.
    pose proof (clear_FB_destroys ps' _ d' Hd') as Hc. unfold wp in Hc.
    destruct (atomic_clear_FB ps' d') as [o d'']. destruct Hc as (ps'' & -> & _ & _ & Hl).
    exists ps'', d''. split; [done|]. by rewrite Hl, list_to_set_elements_L.
  - intros Hnot. pose proof (clear_FB_twice ps' _ d' Hd' Hnot) as Hc. unfold wp in Hc.
    destruct (atomic_clear_FB ps' d') as [o d'']. exists d''. by subst o.
Qed.

(** * The framebuffers *)

(** A plane that has both its buffers. *)
Definition double_buffered (p : plane_arg) : Prop := bo p <> None /\ old_bo p <> None.

Section Flips.
Context `{FbKernel}.

(** The buffers change places, the framebuffer stays. *)
Lemma set_plane_swaps p pat d :
  double_buffered p ->
  wp (atomic_set_plane p pat) d (fun o _ => forall r p', o = Ok (r, p') ->
    double_buffered p' /\ fb_id p' = fb_id p).
Proof.
  intros [Hb Ho]. unfold atomic_set_plane. do 2 wstep. destruct (get_crtc_by_id _ _) as [i|].
  2:{ wstep. by intros ? ? [= <- <-]. }
  do 2 wstep. destruct (deref _) as [c|]; cbn [next]; [|done].
  destruct (old_bo p) as [b|]; [|done]. do 4 wstep.
  destruct (plane_position _ _ _ _) as [[crtc_x crtc_y]|]; cbn [next]; [|done].
  wstep. apply wp_intro. intros [[]|f] d2 _; cbn [next]; [|done].
  wstep. intros ? ? [= <- <-]. done.
Qed.

Lemma set_planes_swap ps pat sec d :
  Forall double_buffered ps ->
  wp (atomic_planes_loop ps pat sec) d (fun o _ => forall ps', o = Ok ps' ->
    Forall double_buffered ps' /\ fb_id <$> ps' = fb_id <$> ps).
Proof.
  revert pat d. induction ps as [|p ps IH]; intros pat d Hps; cbn [atomic_planes_loop].
  { wstep. by intros ? [= <-]. }
  apply Forall_cons in Hps as [Hp Hps]. wstep. eapply wp_mono; [by apply set_plane_swaps|].
  intros [[r p']|f] d1 H1; cbn [next]; [|done]. destruct (H1 _ _ eq_refl) as [Hp' Hfb].
  destruct (r =? 0); cbn [negb].
  - wstep. eapply wp_mono; [by apply IH|]. intros [ps'|f] d2 H2; cbn [next]; [|done].
    destruct (H2 _ eq_refl) as [Hps' Hfbs]. wstep. intros ? [= <-]. split; [by constructor|].
    cbn [fmap list_fmap]. unfold fmap in *. congruence.
  - wstep. intros ? [= <-]. split; [by constructor|]. cbn [fmap list_fmap]. congruence.
Qed.
End Flips.

(** The page-flip test does not flip: once the planes have both their buffers, every
    further frame shows the framebuffer of the frame before, although the buffers change
    places. *)
Theorem atomic_flip_keeps_framebuffer `{FbKernel} n ps d ended ps' d' :
  Forall double_buffered ps ->
  atomic_test_page_flip n ps d = (Ok (ended, ps'), d') -> fb_id <$> ps' = fb_id <$> ps.
Proof.
  revert ps d. induction n as [|n IH]; intros ps d Hps; cbn [atomic_test_page_flip].
  { by intros [= _ -> _]. }
  unfold mbind, prog_bind, get, modify, mret, prog_ret.
  set (d0 := new_request d).
  pose proof (set_planes_swap ps (primary_fill d0) (secondary_fill d0) d0 Hps) as Hs. unfold wp in Hs.
  unfold atomic_set_planes at 1, mbind, prog_bind, get.
  destruct (atomic_planes_loop _ _ _ d0) as [[ps1|f] d1]; [|done]. destruct (Hs _ eq_refl) as [Hps1 Hfb].
  destruct (k_commit d1 =? 0); cbn [negb]; [|by intros [= _ <- _]].
  intros Hrun. by rewrite <- Hfb, (IH _ _ Hps1 Hrun).
Qed.

(** * A device *)

(** A kernel with [limit] buffers; buffer and framebuffer ids are counted from 1. *)
Definition created (d : device) : Z :=
  Z.of_nat (length (List.filter (fun e => match e with BoCreated _ _ _ _ _ => true | _ => false end) (calls d))).
Definition counting_kernel (limit : Z) : FbKernel := {|
  k_bo_create d _ _ _ _ := let b := created d + 1 in
    if (limit <? b) || bool_decide (b ∈ live d) then None else Some b;
  k_add_fb d := Some (created d);
  k_commit _ := 0 |}.

Lemma counting_laws limit : FbLaws (counting_kernel limit).
Proof.
  split. intros d fourcc w h pat b. cbn. case_match eqn:Hb; [done|]. intros [= <-].
  apply orb_false_iff in Hb as [_ Hb]. by apply bool_decide_eq_false in Hb.
Qed.

(** A device whose kernel always has a buffer to give: one above those that exist. *)
Definition generous_kernel : FbKernel := {|
  k_bo_create d _ _ _ _ := Some (fresh (live d)); k_add_fb d := Some (created d); k_commit _ := 0 |}.
Lemma generous_laws : FbLaws generous_kernel.
Proof. split. intros d fourcc w h pat b [= <-]. apply is_fresh. Qed.

Lemma generous_never_refuses : @never_refuses generous_kernel.
Proof. by intros (d & fourcc & w & h & pat & [Hx|Hx]). Qed.

Definition plane_names : list string :=
  ["FB_ID"; "CRTC_ID"; "SRC_X"; "SRC_Y"; "SRC_W"; "SRC_H"; "CRTC_X"; "CRTC_Y"; "CRTC_W"; "CRTC_H"]%string.
Definition one_plane : device :=
  Device [Object (Some 41) None] [] [Object (Some 71) (Some (zip (seqZ 100 10) (Some <$> plane_names)))]
    (Resources [Crtc (Some 41) (Some (ModeInfo "800x480" 30000 1000 500 800 480 true))] [] [] [])
    (DevMode 0 0 0 None None) true false UTIL_PATTERN_SMPTE UTIL_PATTERN_TILES initial ∅ [].
Definition a_plane : plane_arg :=
  PlaneArg 71 41 false 0 0 400 240 (of_int 1) 0 0 None None "RG16" 909199186.

Lemma a_planes_fresh : Forall fresh_plane [a_plane].
Proof. constructor; [by repeat split|constructor]. Qed.

(** The framebuffers shown, and those removed. *)
Definition shown_fbs (d : device) : list Z :=
  omap (fun e => match e with AddProperty 71 100 fb => Some fb | _ => None end) (rev (calls d)).
Definition removed_fbs (d : device) : list Z :=
  omap (fun e => match e with FbRemoved fb => Some fb | _ => None end) (rev (calls d)).

(** Five frames and the clean-up: framebuffer 1 is shown once and never removed. *)
Example five_frames :
  let '(o, d) := ('(_, ps) ← @atomic_test_page_flip (counting_kernel 9) 5 [a_plane]; atomic_clear_FB ps) one_plane in
  shown_fbs d = [1; 2; 2; 2; 2] /\ removed_fbs d = [2; 2] /\ live d = ∅.
Proof. vm_compute. auto. Qed.

(** When the second buffer cannot be had, the plane is left with its first buffer in both
    places, and clearing the planes destroys it twice. *)
Theorem atomic_failed_buffer_destroyed_twice :
  exists p d, @atomic_test_page_flip (counting_kernel 1) 2 [a_plane] one_plane = (Ok (false, [p]), d) /\
    bo p = Some 1 /\ old_bo p = Some 1 /\
    exists d', atomic_clear_FB [p] d = (Fault OutOfBounds, d').
Proof.
  eexists _, _. split; [vm_compute; reflexivity|]. split; [reflexivity|]. split; [reflexivity|].
  eexists. vm_compute. reflexivity.
Qed.

(** With a kernel that always has a buffer all are destroyed, with one that has a single buffer
    it is destroyed twice. *)
Lemma atomic_buffers_balanced_witness :
  (exists b ps' d' ps'' d'', @atomic_test_page_flip generous_kernel 3 [a_plane] one_plane = (Ok (b, ps'), d') /\
    atomic_clear_FB ps' d' = (Ok ps'', d'') /\ live d'' = live one_plane) /\
  (exists b ps' d' d'', @atomic_test_page_flip (counting_kernel 1) 2 [a_plane] one_plane = (Ok (b, ps'), d') /\
    atomic_clear_FB ps' d' = (Fault OutOfBounds, d'')).
Proof.
  split.
  - destruct (@atomic_test_page_flip generous_kernel 3 [a_plane] one_plane) as [[[b ps']|f] d'] eqn:Hrun.
    + destruct (@atomic_buffers_balanced generous_kernel generous_laws 3 [a_plane] one_plane b ps' d'
        a_planes_fresh Hrun) as (Hc & _ & Hd).
      destruct (Hc (Hd generous_never_refuses)) as (ps'' & d'' & Hcl & Hl).
      exists b, ps', d', ps'', d''. split_and!; [done|exact Hcl|exact Hl].
    + exfalso. assert (Hf : (@atomic_test_page_flip generous_kernel 3 [a_plane] one_plane).1 = Fault f) by (by rewrite Hrun).
      vm_compute in Hf. discriminate Hf.
  - destruct (@atomic_test_page_flip (counting_kernel 1) 2 [a_plane] one_plane) as [[[b ps']|f] d'] eqn:Hrun.
    + destruct (@atomic_buffers_balanced (counting_kernel 1) (counting_laws 1) 2 [a_plane] one_plane b ps' d'
        a_planes_fresh Hrun) as (_ & Hc & _).
      assert (Hps : match (@atomic_test_page_flip (counting_kernel 1) 2 [a_plane] one_plane).1 with
        Ok (_, [p]) => bo p = Some 1 /\ old_bo p = Some 1 | _ => False end) by (vm_compute; auto).
      rewrite Hrun in Hps. cbn [fst] in Hps. destruct ps' as [|p [|]]; try done. destruct Hps as [Hb Ho].
      destruct Hc as [d'' Hcl]; [|by exists b, [p], d', d''].
      intros Hall. apply Forall_cons in Hall as [Hx _]. by apply (Hx 1).
    + exfalso. assert (Hf : (@atomic_test_page_flip (counting_kernel 1) 2 [a_plane] one_plane).1 = Fault f) by (by rewrite Hrun).
      vm_compute in Hf. discriminate Hf.
Defined.

Lemma atomic_flip_keeps_framebuffer_witness :
  exists ps d b ps' d', (Forall double_buffered ps /\
    @atomic_test_page_flip generous_kernel 4 ps d = (Ok (b, ps'), d')) /\ fb_id <$> ps' = [2].
Proof.
  pose (p := PlaneArg 71 41 false 0 0 400 240 (of_int 1) 2 2 (Some 2) (Some 1) "RG16" 909199186).
  assert (Hp : Forall double_buffered [p]) by (by repeat constructor).
  destruct (@atomic_test_page_flip generous_kernel 4 [p] one_plane) as [[[b ps']|f] d'] eqn:Hrun.
  - exists [p], one_plane, b, ps', d'. split; [by split|].
    exact (@atomic_flip_keeps_framebuffer generous_kernel 4 [p] one_plane b ps' d' Hp Hrun).
  - exfalso. assert (Hf : (@atomic_test_page_flip generous_kernel 4 [p] one_plane).1 = Fault f) by (by rewrite Hrun).
    vm_compute in Hf. discriminate Hf.
Defined.
