(* ===== verification/ModetestArgs.v ===== *)
(** drm/modetest/modetest.c: the parsers of the option arguments: [parse_connector] (-s),
    [parse_plane] (-P), [parse_property] (-w) and [parse_fill_patterns] (-F).  A parser that
    returns a negative value, after which the program prints its usage and exits, gives
    [None]. *)
From Stdlib Require Import ZArith Lia Ascii String Floats.SpecFloat.
From stdpp Require Import base list numbers sets strings pretty.
From S2P Require Import Prelude Libc Strto Format Pattern Resources Pipes Device.

#[global] Open Scope Z_scope.

(** The first [n] characters of a string, as [strncpy] copies them before the terminator that
    the callers add. *)
Definition strncpy (n : nat) (l : list Z) : string := of_chars (take n l).

Section Parsers.
Context `{FourccCodes}.

(** * Connectors *)

Fixpoint count_commas (l : list Z) : nat :=
  match l with
  | [] => O
  | c :: l =>
      if (c =? code ":") || (c =? code "@") then O
      else if c =? code "," then S (count_commas l) else count_commas l
  end.

(** The loop over [n] connectors: their names, how many rounds are left where it breaks, that
    round among them, and [endp], where it is not NULL. *)
Fixpoint parse_connectors (n : nat) (p : list Z) : list string * nat * option (list Z) :=
  match n with
  | O => ([], O, Some p)
  | S n' =>
      match strpbrk (fun c => (c =? code ",") || (c =? code "@") || (c =? code ":")) p with
      | None => ([], n, None)
      | Some (name, endp) =>
          if negb (at_ptr endp =? code ",") then ([of_chars name], n, Some endp)
          else
            let '(names, rounds, endp') := parse_connectors n' (tail endp) in
            (of_chars name :: names, rounds, endp')
      end
  end.

(** The part after the colon: mode, refresh rate and format. *)
Definition parse_mode (pipe : pipe_arg) (arg : list Z) : option pipe_arg :=
  let '(head, p) := match strpbrk (fun c => (c =? code "-") || (c =? code "@")) arg with
                    | Some (head, p) => (head, p)
                    | None => (arg, [])
                    end in
  let mode_str := strncpy 63 head in
  let '(vrefresh, p) := if at_ptr p =? code "-" then strtof (tail p) else (vrefresh pipe, p) in
  let format_str := if at_ptr p =? code "@" then strncpy 4 (tail p) else format_str pipe in
  let fourcc := util_format_fourcc format_str in
  if fourcc =? 0 then None
  else Some (Pipe (cons_args pipe) (con_ids pipe) (pipe_crtc_id pipe) mode_str format_str vrefresh fourcc
    (pipe_mode pipe) (pipe_crtc pipe)).

Definition parse_connector (pipe : pipe_arg) (arg : string) : option pipe_arg :=
  let n := S (count_commas (chars arg)) in
  let '(names, rounds, endp) := parse_connectors n (chars arg) in
  if negb (Nat.eqb rounds 1) then None
  else
    match endp with
    | None => None
    | Some endp =>
        let '(crtc_id, endp) := if at_ptr endp =? code "@" then strtoul (tail endp) else (4294967295, endp) in
        if negb (at_ptr endp =? code ":") then None
        else
          parse_mode (Pipe names (repeat 0 n) crtc_id (mode_str pipe) "RG16" (S754_zero false) (fourcc pipe)
            (pipe_mode pipe) (pipe_crtc pipe)) (tail endp)
    end.

(** * Planes *)

(** The optional position; [None]: only one coordinate. *)
Definition parse_position (plane : plane_arg) (p : list Z) : option (bool * Z * Z * list Z) :=
  if (at_ptr p =? code "+") || (at_ptr p =? code "-") then
    let '(x, p) := strtol p in
    if negb (at_ptr p =? code "+") && negb (at_ptr p =? code "-") then None
    else let '(y, p) := strtol p in Some (true, x, y, p)
  else Some (has_position plane, pa_x plane, pa_y plane, p).

Definition one : spec_float := S754_finite false 4503599627370496 (-52).

Definition parse_scale (p : list Z) : option (spec_float * list Z) :=
  if at_ptr p =? code "*" then
    let '(scale, p) := strtod (tail p) in
    if SFleb scale (S754_zero false) then None else Some (scale, p)
  else Some (one, p).

Definition parse_plane (plane : plane_arg) (arg : string) : option plane_arg :=
  let '(plane_id, p) := strtoul (chars arg) in
  if negb (at_ptr p =? code "@") then None
  else
  let '(crtc_id, p) := strtoul (tail p) in
  if negb (at_ptr p =? code ":") then None
  else
  let '(w, p) := strtoul (tail p) in
  if negb (at_ptr p =? code "x") then None
  else
  let '(h, p) := strtoul (tail p) in
  '(has_position, x, y, p) ← parse_position plane p;
  '(scale, p) ← parse_scale p;
  let format_str := if at_ptr p =? code "@" then strncpy 4 (tail p) else "RG16"%string in
  let fourcc := util_format_fourcc format_str in
  if fourcc =? 0 then None
  else Some (PlaneArg plane_id crtc_id has_position x y w h scale (fb_id plane) (old_fb_id plane)
    (bo plane) (old_bo plane) format_str fourcc).
End Parsers.

(** * Properties *)

Record property_arg := Property { prop_obj_id : Z; prop_name : string; prop_value : Z }.

(** "%32[^:]": up to 32 characters before a colon. *)
Fixpoint scan_name (n : nat) (l : list Z) : list Z * list Z :=
  match n, l with
  | S n, c :: l => if c =? code ":" then ([], c :: l) else let '(a, r) := scan_name n l in (c :: a, r)
  | _, _ => ([], l)
  end.

(** [sscanf(arg, "%d:%32[^:]:%llu", ...) != 3] is [None]. *)
Definition parse_property (arg : string) : option property_arg :=
  if bool_decide (scan_number (chars arg) = None) then None
  else
  let '(obj_id, p) := strtol (chars arg) in
  if negb (at_ptr p =? code ":") then None
  else
  let '(name, p) := scan_name 32 (tail p) in
  if bool_decide (name = []) || negb (at_ptr p =? code ":") || bool_decide (scan_number (tail p) = None) then None
  else Some (Property (u32 obj_id) (of_chars name) (strtoull (tail p)).1).

(** * Fill patterns *)

(** [strtok(s, ",")]: the token, and where the next one is looked for. *)
Fixpoint skip_commas (l : list Z) : list Z :=
  match l with c :: l' => if c =? code "," then skip_commas l' else l | [] => [] end.
Definition strtok (l : list Z) : option (list Z * list Z) :=
  match skip_commas l with
  | [] => None
  | c :: l =>
      match strpbrk (fun c => c =? code ",") (c :: l) with
      | Some (token, rest) => Some (token, tail rest)
      | None => Some (c :: l, [])
      end
  end.

(** The two patterns, before and after. *)
Definition parse_fill_patterns (arg : string) (fills : util_fill_pattern * util_fill_pattern)
    : util_fill_pattern * util_fill_pattern :=
  let '(primary, secondary) := fills in
  match strtok (chars arg) with
  | None => (primary, secondary)
  | Some (fill, rest) =>
      let primary := util_pattern_enum (of_chars fill) in
      match strtok rest with
      | None => (primary, secondary)
      | Some (fill, _) => (primary, util_pattern_enum (of_chars fill))
      end
  end.

Example fill_patterns :
  parse_fill_patterns ",smpte,,plain,x" (UTIL_PATTERN_TILES, UTIL_PATTERN_TILES) =
    (UTIL_PATTERN_SMPTE, UTIL_PATTERN_PLAIN) /\
  parse_property "71:FB_ID:18446744073709551616" = Some (Property 71 "FB_ID" 18446744073709551615) /\
  parse_property "71::1" = None.
Proof. vm_compute. auto. Qed.

(** * Printed arguments are read back *)

Fixpoint join (names : list string) : string :=
  match names with
  | [] => ""
  | [name] => name
  | name :: names => name +:+ "," +:+ join names
  end.

(** A text with an optional part after its mark. *)
Definition marked (mark : string) (part : option string) : string :=
  match part with Some part => mark +:+ part | None => "" end.
Definition number (n : Z) : string := pretty (Z.to_N n).

(** The argument of -s, as the usage describes it. *)
Definition connector_text (names : list string) (crtc_id : option Z) (mode : string)
    (refresh : option Z) (format : option string) : string :=
  join names +:+ marked "@" (number <$> crtc_id) +:+ ":" +:+
  mode +:+ marked "-" (number <$> refresh) +:+ marked "@" format.

(** The argument of -P: plane and CRTC, size, position, scale and format. *)
Definition signed (n : Z) : string := if n <? 0 then "-" +:+ number (- n) else "+" +:+ number n.
Definition plane_text (plane_id crtc_id w h : Z) (position : option (Z * Z)) (scale : option Z)
    (format : option string) : string :=
  number plane_id +:+ "@" +:+ number crtc_id +:+ ":" +:+ number w +:+ "x" +:+ number h +:+
  (match position with Some (x, y) => signed x +:+ signed y | None => "" end) +:+
  marked "*" (number <$> scale) +:+ marked "@" format.

(** The argument of -w. *)
Definition property_text (p : property_arg) : string :=
  number (prop_obj_id p) +:+ ":" +:+ prop_name p +:+ ":" +:+ number (prop_value p).

(** No character of the text is one of those. *)
Definition without (marks : string) (s : string) : Prop := Forall (fun c => c ∉ chars marks) (chars s).

#[global] Instance without_dec marks s : Decision (without marks s) := _.

Lemma without_search marks s (p : Z -> bool) :
  without marks s -> (forall c, p c = true -> c ∈ chars marks) -> Forall (fun c => p c = false) (chars s).
Proof.
  intros Hs Hp. eapply Forall_impl; [exact Hs|]. cbn. intros c Hc.
  apply not_true_is_false. intros Ht. apply Hc, Hp, Ht.
Qed.

(** A connector ends at a comma, an at sign or a colon. *)
Definition connector_mark (c : Z) : bool := (c =? code ",") || (c =? code "@") || (c =? code ":").

Lemma connector_mark_in c : connector_mark c = true -> c ∈ chars ",@:".
Proof.
  unfold connector_mark. rewrite !orb_true_iff, !Z.eqb_eq.
  change (chars ",@:") with [code ","; code "@"; code ":"]. intros [[-> | ->] | ->]; set_solver.
Qed.

Lemma strpbrk_name name c r :
  without ",@:" name -> connector_mark c = true ->
  strpbrk connector_mark (chars name ++ c :: r) = Some (chars name, c :: r).
Proof.
  intros Hn Hc. apply strpbrk_found; [|done].
  eapply without_search; [exact Hn|exact connector_mark_in].
Qed.

Lemma count_commas_name name r :
  without ",@:" name -> count_commas (chars name ++ r) = count_commas r.
Proof.
  intros Hn. pose proof (without_search _ _ _ Hn connector_mark_in) as Hf.
  induction Hf as [|c l Hc _ IH]; [done|]. cbn [app count_commas].
  unfold connector_mark in Hc. rewrite !orb_false_iff in Hc. destruct Hc as [[-> ->] ->]. exact IH.
Qed.

(** What follows the connectors: the CRTC or the mode. *)
Definition ends_connectors (r : list Z) : Prop := exists c r', r = c :: r' /\ (c = code "@" \/ c = code ":").

Lemma join_cons name names : names <> [] -> chars (join (name :: names)) = chars name ++ code "," :: chars (join names).
Proof. intros Hn. destruct names as [|n ns]; [done|]. cbn [join]. by rewrite !chars_app. Qed.

Lemma count_commas_join names r :
  names <> [] -> Forall (without ",@:") names -> ends_connectors r ->
  S (count_commas (chars (join names) ++ r)) = length names.
Proof.
  intros Hne Hall (c & r' & -> & Hc). induction Hall as [|name names Hn Hall IH]; [done|].
  destruct (decide (names = [])) as [->|Hns].
  - cbn [join]. rewrite count_commas_name by done. by destruct Hc as [-> | ->].
  - rewrite join_cons, <- app_assoc, count_commas_name by done.
    change (S (S (count_commas (chars (join names) ++ c :: r'))) = S (length names)). by rewrite IH.
Qed.

Lemma parse_connectors_join names r :
  names <> [] -> Forall (without ",@:") names -> ends_connectors r ->
  parse_connectors (length names) (chars (join names) ++ r) = (names, 1%nat, Some r).
Proof.
  intros Hne Hall (c & r' & -> & Hc). induction Hall as [|name names Hn Hall IH]; [done|].
  cbn [length parse_connectors]. change (fun c => _) with connector_mark.
  destruct (decide (names = [])) as [->|Hns].
  - cbn [join]. rewrite strpbrk_name; [|done|by destruct Hc as [-> | ->]]. cbn [at_ptr].
    rewrite of_chars_chars. by destruct Hc as [-> | ->].
  - rewrite join_cons, <- app_assoc by done. cbn [app].
    rewrite strpbrk_name by done. cbn [at_ptr tail]. change (negb (code "," =? code ",")) with false. cbn iota.
    by rewrite IH, of_chars_chars.
Qed.

Definition mode_mark (c : Z) : bool := (c =? code "-") || (c =? code "@").

(** The search for the end of the mode, whatever follows it. *)
Lemma strpbrk_mode mode r :
  without "-@" mode -> r = [] \/ mode_mark (at_ptr r) = true ->
  match strpbrk mode_mark (chars mode ++ r) with
  | Some (head, p) => (head, p)
  | None => (chars mode ++ r, [])
  end = (chars mode, r).
Proof.
  intros Hm Hr.
  assert (Hf : Forall (fun c => mode_mark c = false) (chars mode)).
  { eapply without_search; [exact Hm|]. intros c. unfold mode_mark. rewrite orb_true_iff, !Z.eqb_eq.
    change (chars "-@") with [code "-"; code "@"]. set_solver. }
  destruct r as [|c r].
  - rewrite app_nil_r, strpbrk_none by done. done.
  - destruct Hr as [|Hc]; [done|]. by rewrite strpbrk_found.
Qed.

Lemma strncpy_all n s : (String.length s <= n)%nat -> strncpy n (chars s) = s.
Proof. intros Hs. unfold strncpy. rewrite take_ge by (by rewrite length_chars). apply of_chars_chars. Qed.

Section RoundTrips.
Context `{FourccCodes}.

Lemma parse_mode_text pipe mode refresh format :
  let fmt := default (format_str pipe) format in
  without "-@" mode -> (String.length mode <= 63)%nat ->
  (forall r, refresh = Some r -> 0 <= r) ->
  (String.length fmt <= 4)%nat -> util_format_fourcc fmt <> 0 ->
  parse_mode pipe (chars (mode +:+ marked "-" (number <$> refresh) +:+ marked "@" format)) =
    Some (Pipe (cons_args pipe) (con_ids pipe) (pipe_crtc_id pipe) mode fmt
      (match refresh with Some r => nearest 24 128 false r 10 0 | None => vrefresh pipe end)
      (util_format_fourcc fmt) (pipe_mode pipe) (pipe_crtc pipe)).
Proof.
  intros fmt Hm Hlen Hr Hf Hk. unfold parse_mode. change (fun c => _ || _) with mode_mark.
  rewrite !chars_app, strpbrk_mode; [|done|destruct refresh, format; auto].
  rewrite strncpy_all by done.
  set (tl := chars (marked "@" format)).
  assert (Htl : stops_float tl) by (unfold tl; destruct format; repeat split; done).
  assert (Hv : (if at_ptr (chars (marked "-" (number <$> refresh)) ++ tl) =? code "-"
                then strtof (tail (chars (marked "-" (number <$> refresh)) ++ tl))
                else (vrefresh pipe, chars (marked "-" (number <$> refresh)) ++ tl)) =
    (match refresh with Some r => nearest 24 128 false r 10 0 | None => vrefresh pipe end, tl)).
  { destruct refresh as [r|]; cbn [marked fmap option_fmap option_map].
    - rewrite chars_app. change (chars "-" ++ ?l) with (code "-" :: l). cbn [app at_ptr tail].
      rewrite Z.eqb_refl. apply strto_float_decimal; [by apply Hr|done].
    - change (chars "" ++ tl) with tl. unfold tl. by destruct format. }
  rewrite Hv. clear Hv Hr.
  assert (Hfmt : (if at_ptr tl =? code "@" then strncpy 4 (tail tl) else format_str pipe) = fmt).
  { unfold tl, fmt in *. destruct format as [f|]; cbn [marked default] in *; [|done].
    rewrite chars_app. change (chars "@" ++ ?l) with (code "@" :: l). cbn [at_ptr tail].
    rewrite Z.eqb_refl. by apply strncpy_all. }
  rewrite Hfmt. by rewrite (proj2 (Z.eqb_neq _ _) Hk).
Qed.

(** C35: [parse_connector] reads back what the usage describes: for every list of connector
    names, CRTC id, mode, whole refresh rate and format of the table, the parsed pipe holds
    exactly these, with the documented defaults for the parts left out. *)
Theorem parse_connector_text pipe names crtc_id mode refresh format :
  let fmt := default "RG16"%string format in
  names <> [] -> Forall (without ",@:") names ->
  (forall id, crtc_id = Some id -> 0 <= id < 2 ^ 32) ->
  without "-@" mode -> (String.length mode <= 63)%nat ->
  (forall r, refresh = Some r -> 0 <= r) ->
  (String.length fmt <= 4)%nat -> util_format_fourcc fmt <> 0 ->
  parse_connector pipe (connector_text names crtc_id mode refresh format) =
    Some (Pipe names (repeat 0 (length names)) (default 4294967295 crtc_id) mode fmt
      (match refresh with Some r => nearest 24 128 false r 10 0 | None => S754_zero false end)
      (util_format_fourcc fmt) (pipe_mode pipe) (pipe_crtc pipe)).
Proof.
  intros fmt Hne Hnames Hid Hmode Hlen Hr Hf Hk. unfold parse_connector, connector_text.
  rewrite chars_app.
  set (r := chars (marked "@" (number <$> crtc_id) +:+ _)).
  assert (Hend : ends_connectors r).
  { unfold r. rewrite chars_app. destruct crtc_id; eexists _, _; split; [done|auto|done|auto]. }
  rewrite count_commas_join, parse_connectors_join by done. cbn [Nat.eqb negb].
  set (rest := chars (mode +:+ marked "-" (number <$> refresh) +:+ marked "@" format)).
  assert (Hsplit : (if at_ptr r =? code "@" then strtoul (tail r) else (4294967295, r)) =
    (default 4294967295 crtc_id, code ":" :: rest)).
  { unfold r. rewrite !chars_app. change (chars ":" ++ ?l) with (code ":" :: l).
    rewrite <- !chars_app. fold rest.
    destruct crtc_id as [id|]; cbn [fmap option_fmap option_map marked default]; [|done].
    rewrite chars_app. change (chars "@" ++ ?l) with (code "@" :: l). cbn [app at_ptr tail].
    rewrite Z.eqb_refl. apply (strtou_decimal 32); [by apply Hid|done]. }
  rewrite Hsplit. cbn [at_ptr tail]. rewrite Z.eqb_refl. cbn [negb].
  unfold rest. rewrite parse_mode_text by done. done.
Qed.

(** One number and the mark after it. *)
Lemma strtoul_field n mark r :
  0 <= n < 2 ^ 32 -> isdigit (code mark) = false -> strtoul (decimal n ++ code mark :: r) = (n, code mark :: r).
Proof. intros Hn Hm. by apply (strtou_decimal 32). Qed.

Lemma chars_signed x : chars (signed x) = signed_decimal x.
Proof. unfold signed, signed_decimal. by destruct (x <? 0). Qed.

(** The tail of a plane argument: the scale and the format. *)
Definition plane_tail (scale : option Z) (format : option string) : list Z :=
  chars (marked "*" (number <$> scale) +:+ marked "@" format).

Lemma plane_tail_at scale format :
  stops (plane_tail scale format) /\ at_ptr (plane_tail scale format) <> code "+" /\
  at_ptr (plane_tail scale format) <> code "-".
Proof. destruct scale, format; split_and!; done. Qed.

Lemma parse_position_text plane position scale format :
  (forall x y, position = Some (x, y) -> s32 x = x /\ s32 y = y) ->
  parse_position plane (chars (match position with Some (x, y) => signed x +:+ signed y | None => "" end) ++
      plane_tail scale format) =
    Some (match position with Some (x, y) => (true, x, y) | None => (has_position plane, pa_x plane, pa_y plane) end,
      plane_tail scale format).
Proof.
  intros Hp. destruct (plane_tail_at scale format) as (Hs & Hplus & Hminus).
  unfold parse_position. destruct position as [[x y]|].
  - destruct (Hp x y eq_refl) as [Hx Hy]. pose proof (s32_range x). pose proof (s32_range y).
    rewrite chars_app, !chars_signed, <- app_assoc.
    assert (Hsign : forall z r, (at_ptr (signed_decimal z ++ r) =? code "+") || (at_ptr (signed_decimal z ++ r) =? code "-") = true
      /\ stops (signed_decimal z ++ r)).
    { intros z r. unfold signed_decimal. by destruct (z <? 0). }
    destruct (Hsign x (signed_decimal y ++ plane_tail scale format)) as [-> _].
    destruct (Hsign y (plane_tail scale format)) as [Hsy Hsty].
    rewrite strtol_signed by (done || lia). rewrite <- negb_orb, Hsy. cbn [negb].
    by rewrite strtol_signed by (done || lia).
  - change (chars "" ++ ?l) with l.
    by rewrite (proj2 (Z.eqb_neq _ _) Hplus), (proj2 (Z.eqb_neq _ _) Hminus).
Qed.

Lemma plane_text_chars plane_id crtc_id w h position scale format :
  chars (plane_text plane_id crtc_id w h position scale format) =
    decimal plane_id ++ code "@" :: decimal crtc_id ++ code ":" :: decimal w ++ code "x" :: decimal h ++
    chars (match position with Some (x, y) => signed x +:+ signed y | None => "" end) ++ plane_tail scale format.
Proof. unfold plane_text, plane_tail. by rewrite !chars_app. Qed.

(** A whole scale is positive as a float. *)
Definition whole_scale (n : Z) : spec_float := nearest 53 1024 false n 10 0.
Lemma whole_scale_positive n : 1 <= n <= 1000 -> SFleb (whole_scale n) (S754_zero false) = false.
Proof.
  intros Hn.
  assert (Hall : forallb (fun n => negb (SFleb (whole_scale n) (S754_zero false))) (seqZ 1 1000) = true)
    by (vm_compute; reflexivity).
  rewrite forallb_forall in Hall. specialize (Hall n). rewrite <- list_elem_of_In, elem_of_seqZ in Hall.
  apply negb_true_iff, Hall. lia.
Qed.

(** The last two parts of a plane argument. *)
Lemma parse_scale_text scale format :
  (forall n, scale = Some n -> 1 <= n <= 1000) ->
  parse_scale (plane_tail scale format) =
    Some (match scale with Some n => whole_scale n | None => one end, chars (marked "@" format)).
Proof.
  intros Hs. unfold parse_scale, plane_tail. rewrite chars_app.
  destruct scale as [n|]; cbn [marked fmap option_fmap option_map].
  - rewrite chars_app. change (chars "*" ++ ?l) with (code "*" :: l). cbn [app at_ptr tail].
    rewrite Z.eqb_refl. specialize (Hs n eq_refl). unfold strtod.
    rewrite (strto_float_decimal 53 1024 n) by (lia || by destruct format).
    fold (whole_scale n). by rewrite whole_scale_positive.
  - change (chars "" ++ ?l) with l. by destruct format.
Qed.

Lemma parse_format_text format :
  (String.length (default "RG16"%string format) <= 4)%nat ->
  (if at_ptr (chars (marked "@" format)) =? code "@" then strncpy 4 (tail (chars (marked "@" format)))
   else "RG16"%string) = default "RG16"%string format.
Proof.
  intros Hf. destruct format as [f|]; cbn [marked default] in *; [|done].
  rewrite chars_app. change (chars "@" ++ ?l) with (code "@" :: l). cbn [at_ptr tail].
  rewrite Z.eqb_refl. by apply strncpy_all.
Qed.

(** [parse_plane] reads back every plane argument of the documented form: ids and
    size, the position when one is given, a whole scale, and the format, with scale 1 and RG16
    as defaults. *)
Theorem parse_plane_text plane plane_id crtc_id w h position scale format :
  let fmt := default "RG16"%string format in
  0 <= plane_id < 2 ^ 32 -> 0 <= crtc_id < 2 ^ 32 -> 0 <= w < 2 ^ 32 -> 0 <= h < 2 ^ 32 ->
  (forall x y, position = Some (x, y) -> s32 x = x /\ s32 y = y) ->
  (forall n, scale = Some n -> 1 <= n <= 1000) ->
  (String.length fmt <= 4)%nat -> util_format_fourcc fmt <> 0 ->
  parse_plane plane (plane_text plane_id crtc_id w h position scale format) =
    Some (
      let '(has, x, y) := match position with
                          | Some (x, y) => (true, x, y)
                          | None => (has_position plane, pa_x plane, pa_y plane)
                          end in
      PlaneArg plane_id crtc_id has x y w h (match scale with Some n => whole_scale n | None => one end)
        (fb_id plane) (old_fb_id plane) (bo plane) (old_bo plane) fmt (util_format_fourcc fmt)).
Proof.
  intros fmt Hpid Hcid Hw Hh Hpos Hscale Hf Hk. unfold parse_plane.
  rewrite plane_text_chars.
  rewrite strtoul_field by done. cbn [at_ptr tail]. rewrite Z.eqb_refl. cbn [negb].
  rewrite strtoul_field by done. cbn [at_ptr tail]. rewrite Z.eqb_refl. cbn [negb].
  rewrite strtoul_field by done. cbn [at_ptr tail]. rewrite Z.eqb_refl. cbn [negb].
  destruct (plane_tail_at scale format) as (Hst & _ & _).
  unfold strtoul at 1. rewrite strtou_decimal; [|done|].
  2:{ destruct position as [[x y]|]; [|exact Hst]. rewrite chars_app, chars_signed, <- app_assoc.
      unfold signed_decimal. by destruct (x <? 0). }
  rewrite parse_position_text by done. cbn [mbind option_bind].
  destruct position as [[x y]|]; cbn [mbind option_bind]; rewrite parse_scale_text by done;
    cbn [mbind option_bind]; rewrite parse_format_text by done; fold fmt;
    by rewrite (proj2 (Z.eqb_neq _ _) Hk).
Qed.
End RoundTrips.

Lemma scan_name_all n name r :
  (length name <= n)%nat -> Forall (fun c => c <> code ":") name ->
  scan_name n (name ++ code ":" :: r) = (name, code ":" :: r).
Proof.
  intros Hl Hn. revert n Hl. induction Hn as [|c name Hc _ IH]; intros n Hl.
  { by destruct n. }
  destruct n as [|n]; cbn [length] in Hl; [lia|]. cbn [app scan_name].
  rewrite (proj2 (Z.eqb_neq _ _) Hc), IH by lia. done.
Qed.

(** [parse_property] reads back a property whose name has 1 to 32 characters and no
    colon, and every 64-bit value. *)
Theorem parse_property_text p :
  0 <= prop_obj_id p < 2 ^ 31 -> without ":" (prop_name p) ->
  (1 <= String.length (prop_name p) <= 32)%nat -> 0 <= prop_value p < 2 ^ 64 ->
  parse_property (property_text p) = Some p.
Proof.
  destruct p as [id name value]. cbn [prop_obj_id prop_name prop_value]. intros Hid Hname Hlen Hv.
  unfold parse_property, property_text. cbn [prop_obj_id prop_name prop_value]. rewrite !chars_app.
  change (chars (number id)) with (decimal id). change (chars (number value)) with (decimal value).
  change (chars ":" ++ chars name ++ ?l) with (code ":" :: chars name ++ l).
  change (chars ":" ++ decimal value) with (code ":" :: decimal value).
  assert (Hs : forall r, stops (code ":" :: r)) by done.
  unfold strtol. rewrite scan_decimal by (done || lia).
  rewrite bool_decide_false by done. cbn [at_ptr tail]. rewrite Z.eqb_refl. cbn [negb].
  rewrite scan_name_all; [|by rewrite length_chars; lia|].
  2:{ eapply Forall_impl; [exact Hname|]. cbn. intros c Hc ->. apply Hc. by left. }
  cbn [at_ptr tail]. rewrite Z.eqb_refl. cbn [negb].
  pose proof (scan_decimal value [] ltac:(lia) ltac:(done)) as Hvs.
  pose proof (strtou_decimal 64 value [] ltac:(lia) ltac:(done)) as Hvv.
  rewrite app_nil_r in Hvs, Hvv. rewrite Hvs. unfold strtoull. rewrite Hvv.
  rewrite !bool_decide_false by (try done; intros He; apply (f_equal length) in He;
    rewrite length_chars in He; cbn in He; lia).
  cbn [orb fst]. rewrite of_chars_chars, u32_id by lia. do 2 f_equal. lia.
Qed.

(** * The buffers of the parsed arguments *)

Lemma strncpy_length n l : (String.length (strncpy n l) <= n)%nat.
Proof. unfold strncpy. rewrite length_of_chars, length_take. lia. Qed.

Lemma scan_name_length n l : (length (scan_name n l).1 <= n)%nat.
Proof.
  revert l. induction n as [|n IH]; intros [|c l]; cbn [scan_name]; [cbn; lia..|].
  case_match; [cbn; lia|]. specialize (IH l). destruct (scan_name n l). cbn in *. lia.
Qed.

Section Fits.
Context `{FourccCodes}.

(** [mode_str] has 64 bytes, [format_str] five. *)
Definition pipe_fits (p : pipe_arg) : Prop :=
  (String.length (mode_str p) < 64 /\ String.length (format_str p) < 5 /\
   length (con_ids p) = length (cons_args p))%nat /\ fourcc p = util_format_fourcc (format_str p) /\ fourcc p <> 0.
Definition plane_fits (p : plane_arg) : Prop :=
  (String.length (pa_format_str p) < 5)%nat /\ pa_fourcc p = util_format_fourcc (pa_format_str p) /\ pa_fourcc p <> 0.

Lemma parse_connectors_length n l names rounds endp :
  parse_connectors n l = (names, rounds, Some endp) -> rounds = 1%nat -> length names = n.
Proof.
  revert l names. induction n as [|n IH]; intros l names; cbn [parse_connectors]; [by intros [= _ <- _]|].
  destruct (strpbrk _ l) as [[name e]|]; [|done].
  destruct (negb _).
  - by intros [= <- <- _] [= ->].
  - destruct (parse_connectors n (tail e)) as [[ns r] e'] eqn:Hp. intros [= <- <- ->] Hr.
    cbn [length]. f_equal. by eapply IH.
Qed.

(** Whatever the argument is, the texts a parser stores fit the arrays they are stored
    in, every connector of a pipe has its name and its place for an id, and the format is one
    of the table. *)
Theorem parsed_arguments_fit arg :
  (forall pipe p, parse_connector pipe arg = Some p -> pipe_fits p) /\
  (forall plane p, parse_plane plane arg = Some p -> plane_fits p) /\
  (forall p, parse_property arg = Some p -> (1 <= String.length (prop_name p) < 33)%nat).
Proof.
  split_and!.
  - intros pipe p. unfold parse_connector.
    destruct (parse_connectors _ _) as [[names rounds] [endp|]] eqn:Hc; [|by case_match].
    destruct (Nat.eqb_spec rounds 1) as [Hr|]; cbn [negb]; [|done].
    apply parse_connectors_length in Hc as Hl; [|done].
    destruct (if _ =? _ then _ else _) as [id endp']. case_match; [done|]. unfold parse_mode.
    destruct (match strpbrk _ _ with Some _ => _ | None => _ end) as [head q].
    destruct (if at_ptr q =? _ then _ else _) as [vr q'].
    case_match eqn:Hk; [done|]. apply Z.eqb_neq in Hk. intros [= <-].
    unfold pipe_fits. cbn [mode_str format_str con_ids cons_args fourcc].
    split_and!; [| |cbn [length]; by rewrite repeat_length, Hl|done|exact Hk].
    + pose proof (strncpy_length 63 head). lia.
    + case_match; [pose proof (strncpy_length 4 (tail q')); lia|cbn; lia].
  - intros plane p. unfold parse_plane.
    repeat (destruct (strtoul _) as [? ?]; case_match; [done|]).
    destruct (strtoul _) as [h q]. destruct (parse_position plane q) as [[[[has x] y] q1]|]; [|done].
    cbn [mbind option_bind]. destruct (parse_scale q1) as [[sc q2]|]; [|done]. cbn [mbind option_bind].
    case_match eqn:Hk; [done|]. apply Z.eqb_neq in Hk. intros [= <-].
    unfold plane_fits. cbn [pa_format_str pa_fourcc]. split_and!; [|done|done].
    case_match; [pose proof (strncpy_length 4 (tail q2)); lia|cbn; lia].
  - intros p. unfold parse_property. case_bool_decide; [done|]. destruct (strtol _) as [id q].
    case_match; [done|]. pose proof (scan_name_length 32 (tail q)) as Hl.
    destruct (scan_name 32 (tail q)) as [name q1]. cbn [fst] in Hl.
    case_bool_decide as Hn; [done|]. cbn [orb]. case_match; [done|]. intros [= <-].
    cbn [prop_name]. rewrite length_of_chars. destruct name; [done|]. cbn in *. lia.
Qed.
End Fits.

(** * Concrete arguments *)

Lemma rg16_known : @util_format_fourcc name_codes "RG16" <> 0.
Proof. vm_compute. discriminate. Qed.
Lemma nv12_known : @util_format_fourcc name_codes "NV12" <> 0.
Proof. vm_compute. discriminate. Qed.

Lemma parse_connector_text_witness :
  @parse_connector name_codes empty_pipe "35,HDMI-A-1@41:1024x768-60@NV12" =
    Some (Pipe ["35"; "HDMI-A-1"]%string [0; 0] 41 "1024x768" "NV12" (S754_finite false 15728640 (-18))
      (@util_format_fourcc name_codes "NV12") None None).
Proof.
  refine (@parse_connector_text name_codes empty_pipe ["35"; "HDMI-A-1"]%string (Some 41) "1024x768"
    (Some 60) (Some "NV12"%string) _ _ _ _ _ _ _ nv12_known).
  - discriminate.
  - by apply (bool_decide_unpack _).
  - intros id [= <-]. split; [discriminate|reflexivity].
  - by apply (bool_decide_unpack _).
  - cbn. lia.
  - intros r [= <-]. discriminate.
  - cbn. lia.
Defined.

Lemma parse_plane_text_witness :
  @parse_plane name_codes (PlaneArg 0 0 false 0 0 0 0 (S754_zero false) 0 0 None None "" 0)
      "71@41:400x240+16-8*2" =
    Some (PlaneArg 71 41 true 16 (-8) 400 240 (S754_finite false 4503599627370496 (-51)) 0 0 None None "RG16"
      (@util_format_fourcc name_codes "RG16")).
Proof.
  refine (@parse_plane_text name_codes _ 71 41 400 240 (Some (16, -8)) (Some 2) None _ _ _ _ _ _ _ rg16_known).
  1-4: split; [discriminate|reflexivity].
  - by intros x y [= <- <-].
  - intros n [= <-]. lia.
  - cbn. lia.
Defined.

Lemma parse_property_text_witness : parse_property "71:zpos:3" = Some (Property 71 "zpos" 3).
Proof.
  refine (parse_property_text (Property 71 "zpos" 3) _ _ _ _).
  - split; [discriminate|reflexivity].
  - by apply (bool_decide_unpack _).
  - cbn. lia.
  - split; [discriminate|reflexivity].
Defined.

Lemma parsed_arguments_fit_witness :
  exists p, @parse_connector name_codes empty_pipe "35:#0" = Some p /\ @pipe_fits name_codes p.
Proof.
  eexists. split; [vm_compute; reflexivity|].
  refine (proj1 (@parsed_arguments_fit name_codes "35:#0") empty_pipe _ _). vm_compute. reflexivity.
Defined.
