(* ===== verification/GetResources.v ===== *)
(** drm/modetest/modetest.c: [get_resources], which builds the tables of the device from what
    libdrm gives, and [free_resources].  The framebuffer table, which is only printed and
    freed, is left out, and allocations succeed. *)
From Stdlib Require Import ZArith Lia Ascii String.
From stdpp Require Import base list numbers gmap strings pretty.
From S2P Require Import Cursor Prelude Libc Format Kms Pattern Resources Pipes Device.

#[global] Open Scope Z_scope.

(** The kernel through libdrm: the ids of the objects; each object, if it can be had, a
    connector with its type and the number within the type; the property ids of an object;
    and the name of a property. *)
Class ResKernel := {
  k_resources : option (list Z * list Z * list Z);
  k_plane_resources : option (list Z);
  k_get_crtc : Z -> option (Z * drmModeModeInfo);
  k_get_encoder : Z -> option drmModeEncoder;
  k_get_connector : Z -> option (drmModeConnector * Z * Z);
  k_get_plane : Z -> option drmModePlane;
  k_get_properties : Z -> obj_type -> option (list Z);
  k_get_property : Z -> option string }.

Section Get.
Context `{ModeCodes} `{ResKernel}.

(** "%s-%u"; a NULL name prints as "(null)". *)
Definition set_name (c : option (drmModeConnector * Z * Z)) : outcome connector :=
  '(con, connector_type, connector_type_id) ← deref c;
  Ok (NamedConnector (Some con)
    (default "(null)" (util_lookup_connector_type_name connector_type) +:+ "-" +:+ pretty connector_type_id)).

(** The properties of one object; its id is read through the pointer to it. *)
Definition get_properties (type : obj_type) (id : option Z) : outcome object :=
  id ← deref id;
  Ok (Object (Some id)
    (match k_get_properties id type with
     | Some l => Some ((fun prop => (prop, k_get_property prop)) <$> l)
     | None => None
     end)).

(** The mode of a CRTC is the one it has; the table entry points to it. *)
Definition crtc_entry (c : option (Z * drmModeModeInfo)) : crtc := Crtc (fst <$> c) (snd <$> c).

(** [false]: the function returns NULL. *)
Definition get_resources : dprog bool :=
  match k_resources with
  | None => mret false
  | Some (crtc_ids, encoder_ids, connector_ids) =>
      let crtc_table := crtc_entry ∘ k_get_crtc <$> crtc_ids in
      let encoder_table := k_get_encoder <$> encoder_ids in
      connector_table ← lift (mapM set_name (k_get_connector <$> connector_ids));
      crtc_props ← lift (mapM (get_properties DRM_MODE_OBJECT_CRTC) (crtc_id <$> crtc_table));
      connector_props ← lift (mapM (get_properties DRM_MODE_OBJECT_CONNECTOR)
        ((fun c => connector_id <$> conn c) <$> connector_table));
      match k_plane_resources with
      | None =>
          modify (set_tables crtc_props connector_props [] (Resources crtc_table encoder_table connector_table []));;
          mret true
      | Some plane_ids =>
          let plane_table := k_get_plane <$> plane_ids in
          plane_props ← lift (mapM (get_properties DRM_MODE_OBJECT_PLANE) ((fun p => plane_id <$> p) <$> plane_table));
          modify (set_tables crtc_props connector_props plane_props
            (Resources crtc_table encoder_table connector_table plane_table));;
          mret true
      end
  end.

(** * Freeing *)

(** The properties of a table; the object's own properties are followed. *)
Definition free_properties (l : list object) : outcome (list (list (Z * option string))) :=
  mapM (fun obj => deref (props obj)) l.

(** The objects of a table up to the first that is not there. *)
Fixpoint free_resource {A} (l : list (option A)) : list A :=
  match l with
  | Some a :: l => a :: free_resource l
  | _ => []
  end.

(** What is freed: the planes, connectors, encoders and CRTCs. *)
Definition free_resources (d : device)
    : outcome (list drmModePlane * list drmModeConnector * list drmModeEncoder * list Z) :=
  let res := dev_res d in
  _ ← free_properties (plane_objs d);
  _ ← free_properties (connector_objs d);
  _ ← free_properties (crtc_objs d);
  Ok (free_resource (planes res), free_resource (conn <$> connectors res), free_resource (encoders res),
    free_resource (crtc_id <$> crtcs res)).

(** * The tables *)

(** Every CRTC, connector and plane of the tables is there, and the object tables name the
    same objects, in the same order. *)
Record tables_ok (d : device) : Prop := {
  ok_crtcs : Forall (fun c => crtc_id c <> None /\ crtc_mode c <> None) (crtcs (dev_res d));
  ok_connectors : Forall (fun c => conn c <> None) (connectors (dev_res d));
  ok_planes : Forall (fun p => p <> None) (planes (dev_res d));
  ok_crtc_objs : obj_id <$> crtc_objs d = crtc_id <$> crtcs (dev_res d);
  ok_connector_objs : obj_id <$> connector_objs d = (fun c => connector_id <$> conn c) <$> connectors (dev_res d);
  ok_plane_objs : obj_id <$> plane_objs d = (fun p => plane_id <$> p) <$> planes (dev_res d) }.

Lemma mapM_ok {A B} (f : A -> outcome B) l k : mapM f l = Ok k <-> Forall2 (fun a b => f a = Ok b) l k.
Proof.
  split.
  - revert k. induction l as [|a l IH]; intros k; cbn; [intros [= <-]; constructor|].
    destruct (f a) as [b|] eqn:Hb; cbn; [|done]. destruct (mapM f l) as [k'|]; cbn; [|done].
    intros [= <-]. constructor; [done|by apply IH].
  - intros Hk. induction Hk as [|a b l k Hb _ IH]; cbn; [done|]. rewrite Hb. cbn. by rewrite IH.
Qed.

Lemma get_properties_ids type ids objs :
  mapM (get_properties type) ids = Ok objs -> obj_id <$> objs = ids /\ Forall (fun id => id <> None) ids.
Proof.
  rewrite mapM_ok. intros Hk. induction Hk as [|id obj ids objs Ho _ [IH IH']]; [by split|].
  unfold get_properties in Ho. destruct id as [id|]; [|done]. cbn in Ho. injection Ho as <-.
  cbn. split; [f_equal; exact IH|by constructor].
Qed.

(** C39: the tables that [get_resources] returns have no NULL CRTC, connector or plane (it
    follows every pointer while it reads the properties), and the property tables match the
    object tables. *)
Theorem get_resources_tables d d' : get_resources d = (Ok true, d') -> tables_ok d'.
Proof.
  unfold get_resources. destruct k_resources as [[[cids eids] nids]|]; [|done].
  unfold mbind, prog_bind, lift, mret, prog_ret, modify.
  destruct (mapM set_name _) as [conns|] eqn:Hconns; [|done].
  destruct (mapM (get_properties DRM_MODE_OBJECT_CRTC) _) as [cprops|] eqn:Hc; [|done].
  destruct (mapM (get_properties DRM_MODE_OBJECT_CONNECTOR) _) as [nprops|] eqn:Hn; [|done].
  apply get_properties_ids in Hc as [Hc Hcids]. apply get_properties_ids in Hn as [Hn Hnids].
  rewrite !Forall_fmap in *.
  assert (Hcs : Forall (fun c => crtc_id c <> None /\ crtc_mode c <> None) (crtc_entry ∘ k_get_crtc <$> cids)).
  { rewrite Forall_fmap. eapply Forall_impl; [exact Hcids|]. intros id. cbn. by destruct (k_get_crtc id). }
  assert (Hns : Forall (fun c => conn c <> None) conns).
  { eapply Forall_impl; [exact Hnids|]. intros c. cbn. by destruct (conn c). }
  destruct k_plane_resources as [pids|].
  - destruct (mapM (get_properties DRM_MODE_OBJECT_PLANE) _) as [pprops|] eqn:Hp; [|done].
    apply get_properties_ids in Hp as [Hp Hpids]. intros [= <-]. split; try done.
    rewrite !Forall_fmap in *. cbn. rewrite Forall_fmap. eapply Forall_impl; [exact Hpids|].
    intros id. cbn. by destruct (k_get_plane id).
  - intros [= <-]. by split.
Qed.
End Get.

(** * A machine *)

(** One connector with one mode, an encoder, a CRTC and a plane, with their properties. *)
Module OneOfEach.
#[local] Existing Instance name_codes.
#[local] Existing Instance index_codes.

Definition a_mode : drmModeModeInfo := ModeInfo "800x480" 30000 1000 500 800 480 true.

#[local] Instance one_of_each : ResKernel := {|
  k_resources := Some ([41], [51], [35]); k_plane_resources := Some [71];
  k_get_crtc _ := Some (41, a_mode);
  k_get_encoder _ := Some (Encoder 51 41 1);
  k_get_connector _ := Some (Connector 35 true [a_mode] [51], mode_index DRM_MODE_CONNECTOR_HDMIA, 1);
  k_get_plane _ := Some (Plane 71 0 1 [util_format_fourcc "RG16"]);
  k_get_properties id _ := Some (seqZ (10 * id) 3);
  k_get_property p := nth_error ["CRTC_ID"; "FB_ID"; "MODE_ID"]%string (Z.to_nat (p mod 10)) |}.

Definition blank : device :=
  Device [] [] [] (Resources [] [] [] []) (DevMode 0 0 0 None None) false false UTIL_PATTERN_SMPTE UTIL_PATTERN_TILES
    initial ∅ [].

(** The tables of that machine. *)
Lemma get_resources_tables_witness : exists d', get_resources blank = (Ok true, d') /\ tables_ok d'.
Proof.
  destruct (get_resources blank) as [o d'] eqn:Hrun.
  assert (Ho : o = Ok true).
  { change o with (o, d').1. rewrite <- Hrun. vm_compute. reflexivity. }
  subst o. exists d'. split; [done|]. exact (get_resources_tables _ _ Hrun).
Defined.
End OneOfEach.
