(* ===== verification/Modeset.v ===== *)
(** drm/modetest/modetest.c: setting modes ([set_mode], [set_gamma]), planes ([set_planes]) and
    cursors ([set_cursors]), and undoing it. *)
From Stdlib Require Import ZArith Lia Ascii String Sorted Floats.SpecFloat.
From stdpp Require Import base list numbers gmap strings.
From S2P Require Import Cursor Prelude Libc Format Smpte Pattern Resources Pipes Flip Device Atomic.

#[global] Open Scope Z_scope.

(** The kernel: the results of the calls that the trace records, in the state after them; the
    id of a new property blob; the cursor sizes it reports, if it does. *)
Class ModeKernel := {
  k_set_crtc : device -> Z;
  k_blob : device -> Z;
  k_set_plane : device -> Z;
  k_cursor_width : device -> option Z;
  k_cursor_height : device -> option Z;
  k_page_flip : nat -> bool }.

Section Modeset.
Context `{FourccCodes} `{FbKernel} `{ModeKernel}.

(** * Gamma *)

Definition linear_gamma : list drm_color_lut :=
  (fun i => let v := u16 (Z.shiftl i 8) in ColorLut v v v) <$> seqZ 0 256.

Definition set_gamma (crtc_id fourcc : Z) : dprog unit :=
  let c8 := fourcc =? Format.fourcc DRM_FORMAT_C8 in
  let gamma_lut := if c8 then util_smpte_c8_gamma 256 (replicate 256 (ColorLut 0 0 0)) else linear_gamma in
  blob_id ← (if c8 then modify (call (GammaBlob gamma_lut));; d ← get; mret (k_blob d) else mret 0);
  _ ← add_property_optional crtc_id "DEGAMMA_LUT" 0;
  _ ← add_property_optional crtc_id "CTM" 0;
  set ← add_property_optional crtc_id "GAMMA_LUT" blob_id;
  when (negb set) (modify (call (SetGamma crtc_id gamma_lut))).

(** * Modes *)

(** The first loop: [false] when the function returns from it. *)
Fixpoint resolve_pipes (pipes : list pipe_arg) : dprog (bool * list pipe_arg) :=
  match pipes with
  | [] => mret (true, [])
  | pipe :: pipes =>
      d ← get;
      let '(ret, pipe) := pipe_resolve_connectors (dev_res d) pipe in
      if ret <? 0 then mret (false, pipe :: pipes)
      else
        '(_, pipe, res) ← lift (pipe_find_crtc_and_mode (dev_res d) pipe);
        modify (set_res res);;
        '(ok, pipes) ← resolve_pipes pipes; mret (ok, pipe :: pipes)
  end.

(** The size of the framebuffer: the pipes side by side, or all in the same place. *)
Definition grow (preferred : bool) (m : dev_mode) (pipe : pipe_arg) : dev_mode :=
  match pipe_mode pipe with
  | None => m
  | Some i =>
      let w := if negb preferred then u32 (width m + hdisplay i)
               else if width m <? hdisplay i then hdisplay i else width m in
      let h := if height m <? vdisplay i then vdisplay i else height m in
      DevMode w h (mode_fb_id m) (mode_bo m) (cursor_bo m)
  end.
Fixpoint grow_all (preferred : bool) (m : dev_mode) (pipes : list pipe_arg) : dev_mode :=
  match pipes with
  | [] => m
  | pipe :: pipes => grow_all preferred (grow preferred m pipe) pipes
  end.

Definition set_mode_bo (bo : option Z) (fb : Z) (m : dev_mode) : dev_mode :=
  DevMode (width m) (height m) fb bo (cursor_bo m).

(** One pipe of the other mode, at column [x]: the next column, or nothing on failure. *)
Definition set_pipe_crtc (preferred : bool) (x : Z) (pipe : pipe_arg) (m : drmModeModeInfo) : dprog (option Z) :=
  d ← get;
  let fb := mode_fb_id (mode d) in
  modify (call (SetCrtc (pipe_crtc_id pipe) fb (u32 x) 0 (con_ids pipe) m));;
  d ← get;
  let ret := k_set_crtc d in
  modify (call (DirtyFB fb));;
  if negb (ret =? 0) then mret None
  else
    set_gamma (pipe_crtc_id pipe) (fourcc pipe);;
    mret (Some (if preferred then x else s32 (x + hdisplay m))).

Fixpoint connect (con_ids : list Z) (crtc : Z) : dprog unit :=
  match con_ids with
  | [] => mret tt
  | id :: con_ids => add_property id "CRTC_ID" crtc;; connect con_ids crtc
  end.

(** The plane for a preferred mode; its argument is a local variable of the loop. *)
Definition preferred_plane (pipe : pipe_arg) (m : drmModeModeInfo) (id : Z) : plane_arg :=
  PlaneArg id (pipe_crtc_id pipe) false 0 0 (hdisplay m) (vdisplay m) (of_int 1) 0 0 None None "RG16"
    (util_format_fourcc (format_str pipe)).

(** One pipe of the atomic mode. *)
Definition request_pipe (preferred : bool) (pipe : pipe_arg) (m : drmModeModeInfo) : dprog unit :=
  connect (con_ids pipe) (pipe_crtc_id pipe);;
  modify (call (ModeBlob m));;
  d ← get;
  add_property (pipe_crtc_id pipe) "MODE_ID" (k_blob d);;
  add_property (pipe_crtc_id pipe) "ACTIVE" 1;;
  when preferred (
    d ← get;
    crtc ← lift (deref (pipe_crtc pipe));
    plane ← lift (get_primary_plane_by_crtc (dev_res d) crtc);
    i ← lift (deref plane);
    p ← lift (deref (planes (dev_res d) !! i));
    p ← lift (deref p);
    _ ← atomic_set_planes [preferred_plane pipe m (plane_id p)];
    mret tt).

Fixpoint set_pipes (preferred : bool) (x : Z) (pipes : list pipe_arg) : dprog unit :=
  match pipes with
  | [] => mret tt
  | pipe :: pipes =>
      match pipe_mode pipe with
      | None => set_pipes preferred x pipes
      | Some m =>
          d ← get;
          if negb (use_atomic d) then
            next ← set_pipe_crtc preferred x pipe m;
            match next with Some x => set_pipes preferred x pipes | None => mret tt end
          else request_pipe preferred pipe m;; set_pipes preferred x pipes
      end
  end.

(** The framebuffer of the screen, which the atomic mode does without. *)
Definition create_screen (preferred : bool) (pipes : list pipe_arg) : dprog bool :=
  d ← get;
  if use_atomic d then mret true
  else
    let m := grow_all preferred (mode d) pipes in
    modify (set_dev_mode m);;
    first ← lift (deref (pipes !! 0%nat));
    d ← get;
    created ← bo_fb_create (fourcc first) (width m) (height m) (primary_fill d);
    match created with
    | None => mret false
    | Some (bo, fb) => modify (fun d => set_dev_mode (set_mode_bo (Some bo) fb (mode d)) d);; mret true
    end.

(** The pipes of the caller, as the function leaves them. *)
Definition set_mode (pipes : list pipe_arg) : dprog (list pipe_arg) :=
  let preferred := bool_decide (pipes = []) in
  '(ok, pipes) ← resolve_pipes pipes;
  if negb ok then mret pipes
  else
    d ← get;
    used ← (if preferred then lift (pipe_find_preferred (dev_res d)) else mret pipes);
    if bool_decide (used = []) then mret pipes
    else
      ok ← create_screen preferred used;
      if negb ok then mret pipes
      else set_pipes preferred 0 used;; mret pipes.

Fixpoint atomic_clear_mode (pipes : list pipe_arg) : dprog unit :=
  match pipes with
  | [] => mret tt
  | pipe :: pipes =>
      (if bool_decide (pipe_mode pipe = None) then mret tt
       else
         connect (con_ids pipe) 0;;
         add_property (pipe_crtc_id pipe) "MODE_ID" 0;;
         add_property (pipe_crtc_id pipe) "ACTIVE" 0);;
      atomic_clear_mode pipes
  end.

Definition clear_mode : dprog unit :=
  d ← get;
  when (negb (mode_fb_id (mode d) =? 0)) (drmModeRmFB (mode_fb_id (mode d)));;
  destroy (mode_bo (mode d)).

(** * Planes *)

Definition set_plane_crtc (i : nat) (crtc : Z) (res : resources) : resources :=
  Resources (crtcs res) (encoders res) (connectors res)
    (alter (fmap (fun p => Plane (plane_id p) crtc (plane_possible_crtcs p) (formats p))) i (planes res)).

(** Whether the plane was set, and the argument as the function leaves it. *)
Definition set_plane (p : plane_arg) : dprog (bool * plane_arg) :=
  d ← get;
  chosen ← lift (choose_plane (dev_res d) (PlaneRequest (pa_plane_id p) (pa_crtc_id p) (pa_fourcc p)));
  match chosen with
  | None => mret (false, p)
  | Some i =>
      ovr ← lift (deref (planes (dev_res d) !! i));
      ovr ← lift (deref ovr);
      created ← bo_fb_create (pa_fourcc p) (pa_w p) (pa_h p) (secondary_fill d);
      match created with
      | None => mret (false, p)
      | Some (b, fb) =>
          let p := set_bos (Some b) (old_bo p) fb (old_fb_id p) p in
          crtc ← lift (deref (get_crtc_by_id (dev_res d) (pa_crtc_id p)));
          c ← lift (deref (crtcs (dev_res d) !! crtc));
          let crtc_w := scaled (pa_w p) (scale p) in
          let crtc_h := scaled (pa_h p) (scale p) in
          '(crtc_x, crtc_y) ← lift (plane_position c p crtc_w crtc_h);
          modify (call (SetPlane (plane_id ovr) (pa_crtc_id p) fb crtc_x crtc_y crtc_w crtc_h
            (u32 (Z.shiftl (pa_w p) 16)) (u32 (Z.shiftl (pa_h p) 16))));;
          d ← get;
          if negb (k_set_plane d =? 0) then mret (false, p)
          else
            modify (fun d => set_res (set_plane_crtc i (pa_crtc_id p) (dev_res d)) d);;
            mret (true, p)
      end
  end.

(** Stops at the first plane that fails. *)
Fixpoint set_planes (ps : list plane_arg) : dprog (list plane_arg) :=
  match ps with
  | [] => mret []
  | p :: ps =>
      '(ok, p) ← set_plane p;
      if negb ok then mret (p :: ps) else ps ← set_planes ps; mret (p :: ps)
  end.

Fixpoint clear_planes (ps : list plane_arg) : dprog unit :=
  match ps with
  | [] => mret tt
  | p :: ps =>
      when (negb (fb_id p =? 0)) (drmModeRmFB (fb_id p));; destroy (bo p);; clear_planes ps
  end.

(** * Cursors *)

Definition set_cursor_bo (bo : option Z) (m : dev_mode) : dev_mode :=
  DevMode (width m) (height m) (mode_fb_id m) (mode_bo m) bo.

(** A cursor for each pipe; [dev_fd] is the descriptor of the device. *)
Fixpoint init_cursors (dev_fd bo cw ch : Z) (pipes : list pipe_arg) : dprog unit :=
  match pipes with
  | [] => mret tt
  | pipe :: pipes =>
      m ← lift (deref (pipe_mode pipe));
      d ← get;
      g ← lift (cursor_init (dev_cursors d) dev_fd bo (pipe_crtc_id pipe) (hdisplay m) (vdisplay m) cw ch);
      modify (set_dev_cursors g);;
      init_cursors dev_fd bo cw ch pipes
  end.

(** The size of the cursors: the driver's, or 64. *)
Definition cursor_width (d : device) : Z := match k_cursor_width d with Some value => u32 value | None => 64 end.
Definition cursor_height (d : device) : Z := match k_cursor_height d with Some value => u32 value | None => 64 end.

Definition set_cursors (dev_fd : Z) (pipes : list pipe_arg) : dprog unit :=
  d ← get;
  let cw := cursor_width d in
  let ch := cursor_height d in
  match k_bo_create d (Format.fourcc DRM_FORMAT_ARGB8888) cw ch UTIL_PATTERN_PLAIN with
  | None => mret tt
  | Some bo =>
      modify (set_live ({[bo]} ∪ live d));;
      modify (call (BoCreated bo (Format.fourcc DRM_FORMAT_ARGB8888) cw ch UTIL_PATTERN_PLAIN));;
      modify (fun d => set_dev_mode (set_cursor_bo (Some bo) (mode d)) d);;
      init_cursors dev_fd bo cw ch pipes;;
      modify (fun d => set_dev_cursors (cursor_start (dev_cursors d)) d)
  end.

(** The thread has made [rounds] rounds when it ends. *)
Definition clear_cursors (rounds : nat) : dprog unit :=
  modify (fun d => set_dev_cursors (cursor_stop (cursor_thread_func rounds (dev_cursors d))) d);;
  d ← get; destroy (cursor_bo (mode d)).

(** * Page flips *)

(** What Flip.v needs of the pipes. *)
Definition flip_of (pipe : pipe_arg) : flip_pipe :=
  FlipPipe (pipe_crtc_id pipe) (bool_decide (pipe_mode pipe <> None)) 0 0 0 0.

Fixpoint record_flips (evs : list flip_event) : dprog unit :=
  match evs with
  | [] => mret tt
  | PageFlip crtc fb :: evs => modify (call (Flipped (PageFlip crtc fb)));; record_flips evs
  | _ :: evs => record_flips evs
  end.

(** [test_page_flip]; [sel]: what [select] comes back with.  While no key comes the loop of
    the function runs on, and what follows is not reached. *)
Definition test_page_flips (sel : list selected) (pipes : list pipe_arg) : dprog unit :=
  first ← lift (deref (pipes !! 0%nat));
  d ← get;
  created ← bo_fb_create (fourcc first) (width (mode d)) (height (mode d)) UTIL_PATTERN_PLAIN;
  match created with
  | None => mret tt
  | Some (other_bo, other_fb_id) =>
      let '(ended, evs) := test_page_flip (Some other_fb_id) k_page_flip (mode_fb_id (mode d)) sel (flip_of <$> pipes) in
      record_flips evs;;
      if bool_decide (ended = None) then stop NoFuel
      else drmModeRmFB other_fb_id;; bo_destroy other_bo
  end.
End Modeset.

(** * The pipes on the screen *)

(** The calls that show the framebuffer on the pipes, from column [x] on. *)
Fixpoint layout (fb x : Z) (pipes : list pipe_arg) : list dev_event :=
  match pipes with
  | [] => []
  | pipe :: pipes =>
      match pipe_mode pipe with
      | None => layout fb x pipes
      | Some m => SetCrtc (pipe_crtc_id pipe) fb x 0 (con_ids pipe) m :: layout fb (x + hdisplay m) pipes
      end
  end.

Definition is_set_crtc (e : dev_event) : bool := match e with SetCrtc _ _ _ _ _ _ => true | _ => false end.
Definition crtc_calls (d : device) : list dev_event := List.filter is_set_crtc (calls d).

(** The sizes are those of libdrm's [uint16_t]. *)
Definition sized (m : drmModeModeInfo) : Prop := 0 <= hdisplay m < 65536 /\ 0 <= vdisplay m < 65536.
Definition pipe_sized (p : pipe_arg) : Prop := forall m, pipe_mode p = Some m -> sized m.

Lemma adds_crtc_calls (P : dev_event -> Prop) d d' :
  (forall e, P e -> is_set_crtc e = false) -> adds P d d' -> crtc_calls d' = crtc_calls d.
Proof.
  intros HP [_ (evs & He & Hc)]. unfold crtc_calls. rewrite Hc, List.filter_app.
  assert (Hn : List.filter is_set_crtc evs = []); [|by rewrite Hn].
  clear Hc. induction He as [|e evs Hev _ IH]; [done|]. cbn. by rewrite (HP e).
Qed.

Section Layout.
Context `{FourccCodes} `{FbKernel} `{ModeKernel}.

Definition gamma_event (e : dev_event) : Prop :=
  property_event e \/ match e with GammaBlob _ | SetGamma _ _ => True | _ => False end.

Lemma set_gamma_adds crtc fourcc : preserves (adds gamma_event) (set_gamma crtc fourcc).
Proof.
  assert (Hp : forall id name value, preserves (adds gamma_event) (add_property_optional id name value)).
  { intros id name value. eapply adds_mono; [|apply set_property_adds]. by left. }
  unfold set_gamma. preserves_tac; apply adds_call; by right.
Qed.

Lemma gamma_event_quiet e : gamma_event e -> is_set_crtc e = false.
Proof. intros [He|He]; by destruct e. Qed.

(** The kernel has just refused a mode: the last one that was asked for. *)
Definition mode_refused (d' : device) : Prop :=
  exists d e log, calls d = e :: log /\ is_set_crtc e = true /\ crtc_calls d = crtc_calls d' /\ k_set_crtc d <> 0.

Lemma set_pipe_crtc_shows x pipe m d :
  0 <= x < 2147418112 -> sized m ->
  wp (set_pipe_crtc false x pipe m) d (fun o d' =>
    frame d' = frame d /\
    crtc_calls d' = SetCrtc (pipe_crtc_id pipe) (mode_fb_id (mode d)) x 0 (con_ids pipe) m :: crtc_calls d /\
    forall r, o = Ok r -> r = Some (x + hdisplay m) \/ r = None /\ mode_refused d').
Proof.
  intros Hx [Hw _]. unfold set_pipe_crtc. do 8 wstep. rewrite u32_id by lia.
  set (d1 := call (SetCrtc _ _ _ _ _ _) d). destruct (Z.eqb_spec (k_set_crtc d1) 0) as [Hr|Hr]; cbn [negb].
  - wstep. eapply wp_mono; [apply set_gamma_adds|]. intros o d' Ha.
    pose proof (adds_crtc_calls _ _ _ gamma_event_quiet Ha) as Hc. destruct Ha as [Hf _].
    destruct o as [[]|f]; cbn [next]; [wstep|]; (split_and!; [exact Hf|exact Hc|]); [|done].
    intros r [= <-]. left. f_equal. apply s32_id. lia.
  - wstep. split_and!; [done|done|]. intros r [= <-]. right. split; [done|]. exists d1. by do 2 eexists.
Qed.

Lemma set_pipes_layout x pipes d :
  use_atomic d = false -> 0 <= x -> x + 65536 * Z.of_nat (length pipes) <= 2147418112 ->
  Forall pipe_sized pipes ->
  wp (set_pipes false x pipes) d (fun o d' =>
    frame d' = frame d /\
    exists n, crtc_calls d' = rev (take n (layout (mode_fb_id (mode d)) x pipes)) ++ crtc_calls d /\
      (o = Ok tt -> n = length (layout (mode_fb_id (mode d)) x pipes) \/ mode_refused d')).
Proof.
  revert x d. induction pipes as [|pipe pipes IH]; intros x d Hd Hx Hlen Hs; cbn [set_pipes layout].
  { wstep. split; [done|]. exists 0%nat. auto. }
  apply Forall_cons in Hs as [Hp Hs]. rewrite length_cons in Hlen.
  destruct (pipe_mode pipe) as [m|] eqn:Hm.
  2:{ apply IH; [done|done|lia|done]. }
  do 2 wstep. rewrite Hd. cbn [negb]. pose proof (Hp m Hm) as Hsm. wstep.
  eapply wp_mono; [apply set_pipe_crtc_shows; [lia|done]|].
  intros [r|f] d1 (Hf1 & Hc1 & Hr1); cbn [next].
  2:{ split; [done|]. exists 1%nat. split; [exact Hc1|done]. }
  assert (use_atomic d1 = false /\ mode d1 = mode d) as [Hd1 Hm1] by (unfold frame in Hf1; split; congruence).
  destruct (Hr1 _ eq_refl) as [-> |[-> Href]].
  - destruct Hsm as [Hw _].
    eapply wp_mono; [apply IH; [done|lia|lia|done]|]. intros o d' (Hf & n & Hc & Ho).
    split; [congruence|]. exists (S n). rewrite Hm1 in Hc, Ho. cbn [take rev]. rewrite <- app_assoc. cbn [app].
    split; [by rewrite Hc, Hc1|]. intros Hok. destruct (Ho Hok) as [Hn|Hn]; [left|by right]. cbn. by rewrite Hn.
  - wstep. split; [done|]. exists 1%nat. split; [exact Hc1|]. by right.
Qed.

(** ** The modes of the pipes *)

Definition modes_sized (res : resources) : Prop :=
  forall c con m, c ∈ connectors res -> conn c = Some con -> m ∈ modes con -> sized m.

Lemma connector_by_id_in id l con : connector_by_id id l = Some con -> exists c, c ∈ l /\ conn c = Some con.
Proof.
  induction l as [|c l IH]; cbn; [done|].
  assert (Hl : connector_by_id id l = Some con -> exists c', c' ∈ c :: l /\ conn c' = Some con).
  { intros (c' & Hc & He)%IH. exists c'. split; [by right|done]. }
  destruct (conn c) as [con'|] eqn:Hc; [|exact Hl]. destruct (connector_id con' =? id); [|exact Hl].
  intros [= <-]. exists c. split; [left|done].
Qed.

Lemma find_mode_by_name_in s r l m : find_mode_by_name s r l = Some m -> m ∈ l.
Proof.
  induction l as [|m' l IH]; cbn; [done|]. destruct (_ && _).
  - intros [= <-]. left.
  - intros Hm. right. by apply IH.
Qed.

Lemma connector_find_mode_sized res id s r m :
  modes_sized res -> connector_find_mode res id s r = Some m -> sized m.
Proof.
  intros Hres. unfold connector_find_mode, get_connector_by_id.
  destruct (connector_by_id id (connectors res)) as [con|] eqn:Hcon; [|done].
  apply connector_by_id_in in Hcon as (c & Hc & He). intros Hm. apply (Hres c con m Hc He).
  destruct (modes con) as [|m0 ms] eqn:Hms; [done|]. rewrite <- Hms in *. clear Hms.
  destruct s as [|a rest]; [by eapply find_mode_by_name_in|].
  destruct (Ascii.eqb a "#"); [|by eapply find_mode_by_name_in].
  destruct (_ || _); [done|]. by eapply list_elem_of_lookup_2.
Qed.

Lemma find_modes_sized res ids s r mode0 mode :
  modes_sized res -> find_modes res ids s r mode0 = Some mode ->
  (forall m, mode0 = Some m -> sized m) -> forall m, mode = Some m -> sized m.
Proof.
  intros Hres. revert mode0. induction ids as [|id ids IH]; intros mode0; cbn; [by intros [= <-]|].
  destruct (connector_find_mode res id s r) as [m'|] eqn:Hm'; [|done]. intros Hf _.
  apply (IH _ Hf). intros m [= <-]. by eapply connector_find_mode_sized.
Qed.

Lemma pipe_find_sized res pipe ret pipe' res' :
  modes_sized res -> pipe_find_crtc_and_mode res pipe = Ok (ret, pipe', res') ->
  pipe_sized pipe' /\ modes_sized res'.
Proof.
  intros Hres. unfold pipe_find_crtc_and_mode.
  destruct (find_modes res _ _ _ None) as [mode|] eqn:Hm.
  2:{ intros [= _ <- <-]. by split. }
  assert (Hmode : forall m, mode = Some m -> sized m) by (by eapply find_modes_sized).
  match goal with |- (?c ≫= _) = _ -> _ =>
    assert (Hp : forall p, c = Ok p -> pipe_mode p = None); [|destruct c as [p|]; cbn; [|done]] end.
  { intros p. case_match; [by intros [= <-]|].
    destruct (pipe_find_crtc res _) as [found|]; cbn; [|done].
    destruct found as [i|]; cbn; [|done]. destruct (crtcs res !! i) as [c|]; cbn; [|done].
    destruct (crtc_id c) as [id|]; cbn; [|done]. by intros [= <-]. }
  specialize (Hp p eq_refl). destruct (pipe_crtc p) as [i|].
  - intros [= _ <- <-]. split; [exact Hmode|exact Hres].
  - intros [= _ <- <-]. split; [|done]. intros m. by rewrite Hp.
Qed.

(** A pipe with a connector that the card has not got. *)
Definition unresolved (res : resources) (pipe : pipe_arg) : Prop := (pipe_resolve_connectors res pipe).1 < 0.

Lemma unresolved_connectors res res' pipe : connectors res' = connectors res -> unresolved res' pipe -> unresolved res pipe.
Proof.
  intros Hc. unfold unresolved, pipe_resolve_connectors.
  assert (resolve_connectors res' (cons_args pipe) = resolve_connectors res (cons_args pipe)) as ->; [|done].
  induction (cons_args pipe) as [|s l IH]; cbn [resolve_connectors]; [done|].
  rewrite IH. unfold get_connector_by_name. by rewrite Hc.
Qed.

Lemma pipe_find_connectors res pipe ret pipe' res' :
  pipe_find_crtc_and_mode res pipe = Ok (ret, pipe', res') -> connectors res' = connectors res.
Proof.
  unfold pipe_find_crtc_and_mode. destruct (find_modes _ _ _ _ _) as [mode|]; [|by intros [= _ _ <-]].
  match goal with |- (?c ≫= _) = _ -> _ => destruct c as [p|]; cbn; [|done] end.
  destruct (pipe_crtc p); by intros [= _ _ <-].
Qed.

Lemma resolve_pipes_sized pipes d :
  modes_sized (dev_res d) ->
  wp (resolve_pipes pipes) d (fun o d' =>
    mode d' = mode d /\ use_atomic d' = use_atomic d /\ primary_fill d' = primary_fill d /\ calls d' = calls d /\
    forall ok ps, o = Ok (ok, ps) -> length ps = length pipes /\
      if ok : bool then Forall pipe_sized ps else Exists (unresolved (dev_res d)) pipes).
Proof.
  revert d. induction pipes as [|pipe pipes IH]; intros d Hres; cbn [resolve_pipes].
  { wstep. split_and!; try done. intros ok ps [= <- <-]. split; [done|constructor]. }
  do 2 wstep. destruct (pipe_resolve_connectors (dev_res d) pipe) as [ret pipe1] eqn:Hpr.
  destruct (Z.ltb_spec ret 0) as [Hret|Hret].
  { wstep. split_and!; try done. intros ok ps [= <- <-]. split; [done|]. constructor. unfold unresolved. by rewrite Hpr. }
  do 2 wstep. destruct (pipe_find_crtc_and_mode (dev_res d) pipe1) as [[[r pipe2] res]|] eqn:Hf; cbn [next].
  2:{ by split_and!. }
  pose proof (pipe_find_connectors _ _ _ _ _ Hf) as Hcon. apply pipe_find_sized in Hf as [Hp Hres']; [|done].
  do 3 wstep. eapply wp_mono; [by apply IH|]. intros o d' (Hm & Hu & Hpf & Hc & Ho).
  destruct o as [[ok ps]|f]; cbn [next]; [wstep|].
  - split_and!; try done. intros ok' ps' [= <- <-]. destruct (Ho _ _ eq_refl) as [Hl Hall]. cbn [length].
    split; [by f_equal|]. destruct ok; [by constructor|]. right.
    eapply Exists_impl; [exact Hall|]. intros p. by apply unresolved_connectors.
  - by split_and!.
Qed.

(** ** The framebuffer *)

(** A call that shows a part of a framebuffer of that size. *)
Definition fits (w h : Z) (e : dev_event) : Prop :=
  match e with
  | SetCrtc _ _ x y _ m => 0 <= x /\ 0 <= y /\ x + hdisplay m <= w /\ y + vdisplay m <= h
  | _ => False
  end.

(** The one ends where the other begins, or before. *)
Definition beside (a b : dev_event) : Prop :=
  match a, b with SetCrtc _ _ x _ _ m, SetCrtc _ _ x' _ _ _ => x + hdisplay m <= x' | _, _ => False end.

Lemma layout_from fb x pipes :
  Forall pipe_sized pipes -> Forall (fun e => exists c x' ids m, e = SetCrtc c fb x' 0 ids m /\ x <= x') (layout fb x pipes).
Proof.
  intros Hs. revert x. induction Hs as [|pipe pipes Hp _ IH]; intros x; cbn; [constructor|].
  destruct (pipe_mode pipe) as [m|] eqn:Hm; [|apply IH]. constructor; [by repeat eexists|].
  destruct (Hp m Hm) as [Hw _]. eapply Forall_impl; [apply IH|]. cbn.
  intros e (c & x' & ids & m' & -> & Hx). do 4 eexists. split; [done|lia].
Qed.

Lemma layout_beside fb x pipes : Forall pipe_sized pipes -> StronglySorted beside (layout fb x pipes).
Proof.
  intros Hs. revert x. induction Hs as [|pipe pipes Hp Hs IH]; intros x; cbn; [constructor|].
  destruct (pipe_mode pipe) as [m|] eqn:Hm; [|apply IH]. constructor; [apply IH|].
  eapply Forall_impl; [by apply layout_from|]. cbn. by intros e (c & x' & ids & m' & -> & Hx).
Qed.

Lemma grow_all_fits fb m pipes :
  Forall pipe_sized pipes -> 0 <= width m -> width m + 65536 * Z.of_nat (length pipes) < 4294967296 ->
  let m' := grow_all false m pipes in
  width m <= width m' /\ height m <= height m' /\ Forall (fits (width m') (height m')) (layout fb (width m) pipes).
Proof.
  intros Hs. revert m. induction Hs as [|pipe pipes Hp Hs IH]; intros m Hw Hb; cbn; [by split_and!|].
  rewrite length_cons in Hb. unfold grow. destruct (pipe_mode pipe) as [i|] eqn:Hi.
  2:{ apply IH; lia. }
  destruct (Hp i Hi) as [Hiw Hih]. cbn [negb].
  rewrite (u32_id (width m + hdisplay i)) by lia.
  set (m1 := DevMode _ _ _ _ _). destruct (IH m1) as (Hg1 & Hg2 & Hg3); [cbn; lia|cbn; lia|].
  cbn [width height m1] in Hg1, Hg2, Hg3.
  assert (vdisplay i <= height (grow_all false m1 pipes) /\ height m <= height (grow_all false m1 pipes)) as [Hh1 Hh2].
  { destruct (Z.ltb_spec (height m) (vdisplay i)); lia. }
  split_and!; [lia|done|]. constructor; [|exact Hg3]. cbn. lia.
Qed.

Lemma bo_fb_create_records fourcc w h pat d :
  wp (bo_fb_create fourcc w h pat) d (fun o d' =>
    mode d' = mode d /\ use_atomic d' = use_atomic d /\ crtc_calls d' = crtc_calls d /\
    (o = Ok None -> refusal) /\
    forall b fb, o = Ok (Some (b, fb)) -> BoCreated b fourcc w h pat ∈ calls d' /\ FbAdded fb b ∈ calls d').
Proof.
  unfold bo_fb_create. do 2 wstep. destruct (k_bo_create _ _ _ _ _) as [b|] eqn:Hb.
  2:{ wstep. split_and!; try done. intros _. exists d, fourcc, w, h, pat. by left. }
  do 6 wstep. match goal with |- context [k_add_fb ?d0] => destruct (k_add_fb d0) as [fb|] eqn:Hfb; [|set (d1 := d0) in *] end.
  - do 3 wstep. split_and!; try done. intros b' fb' [= <- <-]. split; [right; left|left].
  - assert (Hr : refusal) by (exists d1, fourcc, w, h, pat; by right).
    wstep. unfold bo_destroy. do 2 wstep. case_bool_decide.
    + do 4 wstep. by split_and!.
    + wstep. by split_and!.
Qed.

(** The framebuffer of the screen is one that was added, of the screen's size. *)
Definition screen_added (pattern : util_fill_pattern) (pipes : list pipe_arg) (d : device) : Prop :=
  exists b first, mode_bo (mode d) = Some b /\ pipes !! 0%nat = Some first /\
    BoCreated b (fourcc first) (width (mode d)) (height (mode d)) pattern ∈ calls d /\
    FbAdded (mode_fb_id (mode d)) b ∈ calls d.

Lemma create_screen_shows pipes d :
  use_atomic d = false ->
  wp (create_screen false pipes) d (fun o d' =>
    use_atomic d' = false /\ crtc_calls d' = crtc_calls d /\ (o = Ok false -> refusal) /\
    (o = Ok true -> screen_added (primary_fill d) pipes d' /\
      width (mode d') = width (grow_all false (mode d) pipes) /\
      height (mode d') = height (grow_all false (mode d) pipes))).
Proof.
  intros Hd. unfold create_screen. do 2 wstep. rewrite Hd. do 4 wstep.
  destruct (pipes !! 0%nat) as [first|] eqn:Hfirst; cbn [deref next]; [|by split_and!].
  do 3 wstep. eapply wp_mono; [apply bo_fb_create_records|].
  intros [[[b fb]|]|f] d1 (Hm & Hu & Hc & Hr & Ho); cbn [next].
  - destruct (Ho b fb eq_refl) as [Hb Hf]. do 3 wstep. cbn in Hu. split_and!; [cbn; congruence|exact Hc|done|].
    intros _. unfold screen_added. cbn in Hm |- *. rewrite Hm. split; [|done].
    exists b, first. by split_and!.
  - wstep. split_and!; [cbn in Hu; congruence|exact Hc|by auto|done].
  - split_and!; [cbn in Hu; congruence|exact Hc|done|done].
Qed.

(** Calls are only added. *)
Definition grows : relation device := fun d d' => calls d `suffix_of` calls d'.
#[global] Instance grows_preorder : PreOrder grows.
Proof. unfold grows. split; [intros d; reflexivity|intros d1 d2 d3 H12 H23; by etrans]. Qed.

Lemma adds_grows P {A} (c : dprog A) : preserves (adds P) c -> preserves grows c.
Proof. intros Hc d. eapply wp_mono; [apply Hc|]. intros _ d' [_ (evs & _ & He)]. by exists evs. Qed.

Hint Extern 1 (grows _ _) => first [exists []; reflexivity | eexists [_]; reflexivity] : preserves.

Lemma set_property_grows id name value : preserves grows (set_property id name value).
Proof. eapply adds_grows, set_property_adds. Qed.
Lemma add_properties_grows id l : preserves grows (add_properties id l).
Proof. eapply adds_grows, add_properties_adds. Qed.
Lemma set_gamma_grows crtc fourcc : preserves grows (set_gamma crtc fourcc).
Proof. eapply adds_grows, set_gamma_adds. Qed.
Hint Resolve set_property_grows add_properties_grows set_gamma_grows : preserves.

Lemma bo_fb_create_grows fourcc w h pat : preserves grows (bo_fb_create fourcc w h pat).
Proof. unfold bo_fb_create, bo_destroy. preserves_tac. Qed.
Hint Resolve bo_fb_create_grows : preserves.

Lemma atomic_set_planes_grows ps : preserves grows (atomic_set_planes ps).
Proof.
  unfold atomic_set_planes. preserves_tac. rename a into d. generalize (primary_fill d) (secondary_fill d).
  induction ps as [|p ps IH]; intros pat sec; cbn [atomic_planes_loop]; unfold atomic_set_plane; preserves_tac.
Qed.
Hint Resolve atomic_set_planes_grows : preserves.

Lemma set_pipes_grows preferred x pipes : preserves grows (set_pipes preferred x pipes).
Proof.
  revert x. induction pipes as [|pipe pipes IH]; intros x; cbn [set_pipes]; [preserves_tac|].
  unfold set_pipe_crtc, request_pipe, add_property.
  assert (Hc : forall ids crtc, preserves grows (connect ids crtc)).
  { intros ids crtc. induction ids as [|id ids IHi]; cbn [connect]; unfold add_property; preserves_tac. }
  preserves_tac.
Qed.

End Layout.

(** * The cursors on the screen *)

Section Cursors.
Context `{FbKernel} `{ModeKernel}.

(** Every pipe has a mode, of a size that a cursor of [cw] by [ch] fits twice over. *)
Definition cursor_pipes (cw ch : Z) (pipes : list pipe_arg) : Prop :=
  Forall (fun p => exists m, pipe_mode p = Some m /\ 0 < hdisplay m < 65536 /\ 0 < vdisplay m < 65536 /\
    cw <= 2 * hdisplay m /\ ch <= 2 * vdisplay m) pipes.

Lemma init_cursors_ok dev_fd bo cw ch pipes d :
  0 <= cw -> 0 <= ch -> cursor_pipes cw ch pipes -> cursors_ok (dev_cursors d) ->
  wp (init_cursors dev_fd bo cw ch pipes) d (fun _ d' => cursors_ok (dev_cursors d')).
Proof.
  intros Hcw Hch Hp. revert d. induction Hp as [|p pipes (m & Hm & Hw & Hh & Hmw & Hmh) _ IH]; intros d Hd;
    cbn [init_cursors]; [by wstep|].
  do 2 wstep. rewrite Hm. cbn [deref next]. do 4 wstep.
  destruct (cursor_init _ _ _ _ _ _ _ _) as [g|] eqn:Hi; cbn [next]; [|done].
  do 2 wstep. apply IH. eapply world_cursors_ok; [|exact Hd]. eapply world_init; [..|exact Hi]; lia.
Qed.

(** The cursors that modetest sets up stay on their screens for as long as their thread
    runs, when every pipe has got a mode no smaller than half a cursor. *)
Theorem set_cursors_stay_on_screen `{FourccCodes} dev_fd pipes d d' rounds :
  dev_cursors d = initial -> cursor_pipes (cursor_width d) (cursor_height d) pipes ->
  set_cursors dev_fd pipes d = (Ok tt, d') ->
  cursors_ok (cursor_thread_func rounds (dev_cursors d')).
Proof.
  intros Hi Hp Hrun.
  assert (Hcw : 0 <= cursor_width d) by (unfold cursor_width; case_match; [apply u32_range|done]).
  assert (Hch : 0 <= cursor_height d) by (unfold cursor_height; case_match; [apply u32_range|done]).
  cut (wp (set_cursors dev_fd pipes) d (fun _ d' => cursors_ok (dev_cursors d'))).
  { intros Hw. apply thread_func_cursors_ok. exact (wp_run _ _ _ _ _ Hw Hrun). }
  assert (Hd : cursors_ok (dev_cursors d)) by (rewrite Hi; split; [cbn; lia|constructor]).
  unfold set_cursors. do 2 wstep. destruct (k_bo_create _ _ _ _ _) as [b|]; [|by wstep].
  do 7 wstep. eapply wp_mono; [by apply init_cursors_ok|].
  intros [[]|f] d1 Hd1; cbn [next]; [wstep|done]. eapply world_cursors_ok; [apply world_start|exact Hd1].
Qed.
End Cursors.

(** * Two screens *)

Module Screens.
#[local] Existing Instance name_codes.
#[local] Existing Instance generous_kernel.

#[local] Instance willing_kernel : ModeKernel := {|
  k_set_crtc _ := 0; k_blob d := 900 + Z.of_nat (length (calls d)); k_set_plane _ := 0;
  k_cursor_width _ := None; k_cursor_height _ := None; k_page_flip _ := true |}.

Definition a_mode : drmModeModeInfo := ModeInfo "800x480" 30000 1000 500 800 480 true.
(** Two pipes, one 800 and one 640 wide, on a CRTC each. *)
Definition two_pipes : list pipe_arg :=
  [Pipe ["35"%string] [0] 41 "800x480" "RG16" (S754_zero false) (util_format_fourcc "RG16") None None;
   Pipe ["36"%string] [0] 42 "640x512" "RG16" (S754_zero false) (util_format_fourcc "RG16") None None].
Definition b_mode : drmModeModeInfo := ModeInfo "640x512" 30000 1000 600 640 512 true.
Definition two_screens : device :=
  Device [Object (Some 41) None; Object (Some 42) None] [] []
    (Resources [Crtc (Some 41) None; Crtc (Some 42) None] [Some (Encoder 51 41 3)]
      [NamedConnector (Some (Connector 35 true [a_mode] [51])) "HDMI-A-1";
       NamedConnector (Some (Connector 36 true [b_mode] [51])) "HDMI-A-2"] [])
    (DevMode 0 0 0 None None) false false UTIL_PATTERN_SMPTE UTIL_PATTERN_TILES initial ∅ [].

Lemma two_screens_sized : modes_sized (dev_res two_screens).
Proof.
  intros c con m Hc Hcon Hm. cbn in Hc. rewrite !elem_of_cons, elem_of_nil in Hc.
  destruct Hc as [-> |[-> |[]]]; injection Hcon as <-; cbn in Hm; apply list_elem_of_singleton in Hm as ->;
    split; cbn; lia.
Qed.


(** The cursors of the two pipes. *)
Lemma set_cursors_stay_on_screen_witness :
  let pipes := [Pipe [] [] 41 "" "" (S754_zero false) 0 (Some a_mode) None;
                Pipe [] [] 42 "" "" (S754_zero false) 0 (Some b_mode) None] in
  exists d', set_cursors 3 pipes two_screens = (Ok tt, d') /\ cursors_ok (cursor_thread_func 663 (dev_cursors d')).
Proof.
  intros pipes. destruct (set_cursors 3 pipes two_screens) as [o d'] eqn:Hrun.
  assert (Ho : o = Ok tt).
  { change o with (o, d').1. rewrite <- Hrun. vm_compute. reflexivity. }
  subst o. exists d'. split; [done|].
  refine (set_cursors_stay_on_screen 3 pipes two_screens d' 663 _ _ Hrun); [reflexivity|].
  repeat constructor; eexists; (split; [reflexivity|]); vm_compute; intuition discriminate.
Defined.
End Screens.
