(* ===== verification/Modetest.v ===== *)
(** drm/modetest/modetest.c: [main], from the options to the clean-up. *)
From Stdlib Require Import ZArith Lia Ascii String Floats.SpecFloat.
From stdpp Require Import base list numbers gmap strings.
From S2P Require Import Cursor Prelude Libc Strto Format Kms Smpte Pattern Resources Pipes Flip Device Atomic.
From S2P Require Import ModetestArgs GetResources Modeset.

#[global] Open Scope Z_scope.

(** * Options *)

(** What [getopt] gives; [Opt_other]: an option without a case, among them -D and -M. *)
Inductive opt :=
| Opt_a | Opt_c | Opt_d | Opt_e | Opt_f | Opt_F (arg : string) | Opt_P (arg : string) | Opt_p
| Opt_s (arg : string) | Opt_C | Opt_v | Opt_r | Opt_w (arg : string) | Opt_other.

Record settings := Settings {
  opt_atomic : bool; dump_encoders : bool; dump_connectors : bool; dump_crtcs : bool; dump_planes : bool;
  dump_framebuffers : bool; drop_master : bool; test_vsync : bool; test_cursor : bool; set_preferred : bool;
  pipe_args : list pipe_arg; plane_args : list plane_arg; prop_args : list property_arg;
  fills : util_fill_pattern * util_fill_pattern; args : Z }.

Definition no_settings : settings :=
  Settings false false false false false false false false false false [] [] []
    (UTIL_PATTERN_SMPTE, UTIL_PATTERN_TILES) 0.

(** The fields that an option writes; [count] is what it adds to [args]. *)
Definition with_flags (s : settings) (a e c cr p f d v cu r : bool) (count : Z) : settings :=
  Settings (opt_atomic s || a) (dump_encoders s || e) (dump_connectors s || c) (dump_crtcs s || cr)
    (dump_planes s || p) (dump_framebuffers s || f) (drop_master s || d) (test_vsync s || v)
    (test_cursor s || cu) (set_preferred s || r) (pipe_args s) (plane_args s) (prop_args s) (fills s)
    (u32 (args s + count)).
Definition with_args (s : settings) (pipes : list pipe_arg) (planes : list plane_arg) (props : list property_arg)
    (fills : util_fill_pattern * util_fill_pattern) : settings :=
  Settings (opt_atomic s) (dump_encoders s) (dump_connectors s) (dump_crtcs s) (dump_planes s)
    (dump_framebuffers s) (drop_master s) (test_vsync s) (test_cursor s) (set_preferred s)
    pipes planes props fills (u32 (args s + 1)).

(** An argument from [memset]. *)
Definition empty_plane : plane_arg := PlaneArg 0 0 false 0 0 0 0 (S754_zero false) 0 0 None None "" 0.

Definition usage {A} : outcome A := Fault (Exited 0).

Section Main.
Context `{FourccCodes}.

Definition apply_opt (o : opt) (s : settings) : outcome settings :=
  let on := true in
  let no := false in
  match o with
  | Opt_a => Ok (with_flags s on no no no no no no no no no 0)
  | Opt_c => Ok (with_flags s no no on no no no no no no no 1)
  | Opt_d => Ok (with_flags s no no no no no no on no no no 1)
  | Opt_e => Ok (with_flags s no on no no no no no no no no 1)
  | Opt_f => Ok (with_flags s no no no no no on no no no no 1)
  | Opt_p => Ok (with_flags s no no no on on no no no no no 1)
  | Opt_C => Ok (with_flags s no no no no no no no no on no 1)
  | Opt_v => Ok (with_flags s no no no no no no no on no no 1)
  | Opt_r => Ok (with_flags s no no no no no no no no no on 1)
  | Opt_F arg => Ok (with_args s (pipe_args s) (plane_args s) (prop_args s) (parse_fill_patterns arg (fills s)))
  | Opt_P arg =>
      match parse_plane empty_plane arg with
      | Some p => Ok (with_args s (pipe_args s) (plane_args s ++ [p]) (prop_args s) (fills s))
      | None => usage
      end
  | Opt_s arg =>
      match parse_connector empty_pipe arg with
      | Some p => Ok (with_args s (pipe_args s ++ [p]) (plane_args s) (prop_args s) (fills s))
      | None => usage
      end
  | Opt_w arg =>
      match parse_property arg with
      | Some p => Ok (with_args s (pipe_args s) (plane_args s) (prop_args s ++ [p]) (fills s))
      | None => usage
      end
  | Opt_other => usage
  end.

Fixpoint parse_opts (opts : list opt) (s : settings) : outcome settings :=
  match opts with
  | [] => Ok s
  | o :: opts => s ← apply_opt o s; parse_opts opts s
  end.

(** Everything is dumped when no arguments are given. *)
Definition default_dumps (s : settings) : settings :=
  if args s =? 0 then with_flags s false true true true true true false false false false 0 else s.

(** The combinations of options that end the program at once. *)
Definition refused_settings (s : settings) : bool :=
  (test_vsync s && bool_decide (pipe_args s = [])) ||
  (set_preferred s && negb (bool_decide (pipe_args s = []))) ||
  (set_preferred s && negb (bool_decide (plane_args s = []))).

(** * The run *)

(** The device file, the atomic capability and the dumb-buffer capability, which [drmGetCap]
    gives and reports as present. *)
Class MainKernel := { k_open : Z; k_atomic_cap : bool; k_dumb_cap : bool }.

Context `{ModeCodes} `{FbKernel} `{ModeKernel} `{ResKernel} `{MainKernel}.

Definition dump_resource (b : bool) (part : string) : dprog unit := when b (modify (call (Dumped part))).

Fixpoint set_properties (l : list property_arg) : dprog unit :=
  match l with
  | [] => mret tt
  | p :: l => _ ← set_property (prop_obj_id p) (prop_name p) (prop_value p); set_properties l
  end.

Definition commit : dprog Z := d ← get; let ret := k_commit d in modify (call (Commit ret));; mret ret.

(** The atomic run.  The page-flip test is followed for [frames] frames; while no commit fails
    it goes on, and what follows is not reached. *)
Definition flip_frames (frames : nat) (planes : list plane_arg) : dprog (list plane_arg) :=
  '(ended, planes) ← atomic_test_page_flip frames planes;
  if ended : bool then mret planes else stop NoFuel.
Definition run_atomic (frames : nat) (s : settings) : dprog Z :=
  let count := negb (bool_decide (pipe_args s = [])) in
  let plane_count := negb (bool_decide (plane_args s = [])) in
  modify new_request;;
  if negb (set_preferred s || (count && plane_count)) then mret 0
  else if negb k_dumb_cap then mret 1
  else
    pipes ← (if set_preferred s || count then set_mode (pipe_args s) else mret (pipe_args s));
    planes ← (if plane_count then atomic_set_planes (plane_args s) else mret (plane_args s));
    ret ← commit;
    if negb (ret =? 0) then mret 1
    else
      planes ← (if test_vsync s then flip_frames frames planes else mret planes);
      when (drop_master s) (modify (call DropMaster));;
      modify new_request;;
      when plane_count (atomic_clear_planes planes);;
      when count (atomic_clear_mode pipes);;
      _ ← commit;
      (if plane_count then _ ← atomic_clear_FB planes; mret tt else mret tt);;
      mret 0.

(** The other run; [sel] and [rounds]: the events of the page-flip test and the rounds of the
    cursor thread until the program goes on. *)
Definition run_legacy (sel : list selected) (rounds : nat) (s : settings) : dprog Z :=
  let count := negb (bool_decide (pipe_args s = [])) in
  let plane_count := negb (bool_decide (plane_args s = [])) in
  if negb (set_preferred s || count || plane_count) then mret 0
  else if negb k_dumb_cap then mret 1
  else
    pipes ← (if set_preferred s || count then set_mode (pipe_args s) else mret (pipe_args s));
    planes ← (if plane_count then set_planes (plane_args s) else mret (plane_args s));
    when (test_cursor s) (set_cursors k_open pipes);;
    when (test_vsync s) (test_page_flips sel pipes);;
    when (drop_master s) (modify (call DropMaster));;
    when (test_cursor s) (clear_cursors rounds);;
    when plane_count (clear_planes planes);;
    when (set_preferred s || count) clear_mode;;
    mret 0.

(** The device as [main] finds it: nothing is known of it, no buffer exists. *)
Definition new_device (s : settings) : device :=
  Device [] [] [] (Resources [] [] [] []) (DevMode 0 0 0 None None) (opt_atomic s) false s.(fills).1 s.(fills).2
    initial ∅ [].

(** The part of [main] with the device open. *)
Definition run_device (frames : nat) (sel : list selected) (rounds : nat) (s : settings) : dprog Z :=
  if opt_atomic s && negb k_atomic_cap then modify (call FdClosed);; mret (-1)
  else
    ok ← get_resources;
    if negb ok then modify (call FdClosed);; mret 1
    else
      dump_resource (dump_encoders s) "encoders";;
      dump_resource (dump_connectors s) "connectors";;
      dump_resource (dump_crtcs s) "crtcs";;
      dump_resource (dump_planes s) "planes";;
      dump_resource (dump_framebuffers s) "framebuffers";;
      set_properties (prop_args s);;
      ret ← (if opt_atomic s then run_atomic frames s else run_legacy sel rounds s);
      if negb (ret =? 0) then mret ret
      else
        d ← get; _ ← lift (free_resources d);
        modify (call FdClosed);; mret 0.

Definition main (opts : list opt) (frames : nat) (sel : list selected) (rounds : nat) : outcome Z * device :=
  match parse_opts opts no_settings with
  | Fault f => (Fault f, new_device no_settings)
  | Ok s =>
      let s := default_dumps s in
      if refused_settings s then (Ok (-1), new_device s)
      else if k_open <? 0 then (Ok (-1), new_device s)
      else run_device frames sel rounds s (new_device s)
  end.
End Main.

(** * Every buffer is destroyed *)

Section Balance.
Context `{FourccCodes} `{HL : FbLaws} `{ModeKernel}.

(** The buffers of the device: those of the planes, of the screen and of the cursors. *)
Definition screen_bos (d : device) : list Z := option_list (mode_bo (mode d)) ++ option_list (cursor_bo (mode d)).

Lemma set_pipe_crtc_frame preferred x pipe m : preserves (same frame) (set_pipe_crtc preferred x pipe m).
Proof.
  assert (Hg : forall crtc fourcc, preserves (same frame) (set_gamma crtc fourcc)).
  { intros crtc fourcc d. eapply wp_mono; [apply set_gamma_adds|]. by intros o d' [Hf _]. }
  unfold set_pipe_crtc. preserves_tac.
Qed.

Lemma set_pipes_frame preferred x pipes d :
  use_atomic d = false -> wp (set_pipes preferred x pipes) d (fun _ d' => frame d' = frame d).
Proof.
  revert x d. induction pipes as [|pipe pipes IH]; intros x d Hd; cbn [set_pipes]; [by wstep|].
  destruct (pipe_mode pipe) as [m|]; [|by apply IH]. do 2 wstep. rewrite Hd. cbn [negb]. wstep.
  eapply wp_mono; [apply set_pipe_crtc_frame|]. intros [[x'|]|f] d1 Hd1; cbn [next]; unfold same in Hd1.
  - eapply wp_mono; [apply IH; unfold frame in Hd1; congruence|]. cbn. intros _ d2 Hd2. congruence.
  - by wstep.
  - done.
Qed.

Lemma resolve_pipes_frame pipes d :
  wp (resolve_pipes pipes) d (fun _ d' => mode d' = mode d /\ use_atomic d' = use_atomic d /\ live d' = live d).
Proof.
  revert d. induction pipes as [|pipe pipes IH]; intros d; cbn [resolve_pipes]; [by wstep|].
  do 2 wstep. destruct (pipe_resolve_connectors _ _) as [ret pipe1]. destruct (ret <? 0); [by wstep|].
  do 2 wstep. destruct (pipe_find_crtc_and_mode _ _) as [[[r pipe2] res]|]; cbn [next]; [|done].
  do 3 wstep. eapply wp_mono; [apply IH|]. intros [[ok ps]|f] d1 Hd1; cbn [next]; [wstep|]; exact Hd1.
Qed.

(** A framebuffer brings one buffer, if any; the rest of the device stays. *)
Lemma bo_fb_create_owned fourcc w h pat rest d :
  exactly rest d ->
  wp (bo_fb_create fourcc w h pat) d (fun o d' =>
    mode d' = mode d /\ use_atomic d' = use_atomic d /\
    exists r, o = Ok r /\ exactly (match r with Some (b, _) => b :: rest | None => rest end) d').
Proof.
  intros Hex. eapply wp_mono; [apply wp_and; [apply bo_fb_create_records|]|].
  - eapply (wp_bo_fb_create _ _ _ _ rest d (fun o d' =>
      exists r, o = Ok r /\ exactly (match r with Some (b, _) => b :: rest | None => rest end) d') Hex); eauto.
  - intros o d' ((Hm & Hu & _) & Hr). by split_and!.
Qed.

Lemma destroy_owned b rest d :
  exactly (option_list b ++ rest) d ->
  wp (destroy b) d (fun o d' => o = Ok tt /\ mode d' = mode d /\ exactly rest d').
Proof.
  intros Hex. destruct b as [b|]; cbn [destroy option_list app] in *; [|by wstep].
  eapply wp_mono; [apply wp_and|].
  - refine (wp_bo_destroy b rest d (fun o d' => o = Ok tt /\ exactly rest d') Hex _). by intros d2 Hd2.
  - instantiate (1 := fun _ d' => mode d' = mode d). unfold bo_destroy. do 2 wstep.
    case_bool_decide; [by do 3 wstep|by wstep].
  - by intros o d' [[-> Hd'] Hm].
Qed.

Lemma create_screen_leaves preferred pipes rest d :
  use_atomic d = false -> mode_bo (mode d) = None -> exactly rest d ->
  wp (create_screen preferred pipes) d (fun _ d' =>
    exactly (option_list (mode_bo (mode d')) ++ rest) d' /\
    cursor_bo (mode d') = cursor_bo (mode d) /\ use_atomic d' = false).
Proof.
  intros Hd Hm Hex. unfold create_screen. do 2 wstep. rewrite Hd.
  assert (Hgrow : forall m pipes, mode_bo (grow_all preferred m pipes) = mode_bo m /\
    cursor_bo (grow_all preferred m pipes) = cursor_bo m).
  { clear. intros m pipes. revert m. induction pipes as [|p pipes IH]; intros m; [done|]. cbn [grow_all].
    destruct (IH (grow preferred m p)) as [-> ->]. unfold grow. by destruct (pipe_mode p). }
  destruct (Hgrow (mode d) pipes) as [Hgm Hgc]. set (m := grow_all _ _ _) in *.
  set (d1 := set_dev_mode m d). assert (Hd1 : exactly rest d1) by exact Hex.
  do 4 wstep. destruct (pipes !! 0%nat) as [first|]; cbn [deref next].
  2:{ cbn. rewrite Hgm, Hm. by split_and!. }
  do 3 wstep. fold d1.
  eapply wp_mono; [by apply (bo_fb_create_owned _ _ _ _ rest)|].
  intros o d2 (Hm2 & Hu2 & r & -> & Hs). cbn in Hm2, Hu2. rewrite Hd in Hu2. cbn [next]. destruct r as [[b fb]|].
  - do 3 wstep. cbn. rewrite Hm2, Hgc. split_and!; [exact Hs|done|exact Hu2].
  - wstep. rewrite Hm2, Hgm, Hgc, Hm. split_and!; [exact Hs|done|exact Hu2].
Qed.

Lemma set_mode_leaves pipes rest d :
  use_atomic d = false -> mode_bo (mode d) = None -> exactly rest d ->
  wp (set_mode pipes) d (fun _ d' =>
    exactly (option_list (mode_bo (mode d')) ++ rest) d' /\
    cursor_bo (mode d') = cursor_bo (mode d) /\ use_atomic d' = false).
Proof.
  intros Hd Hm Hex. unfold set_mode. wstep. eapply wp_mono; [apply resolve_pipes_frame|].
  intros o d1 (Hm1 & Hu1 & Hl1).
  assert (Hex1 : exactly rest d1) by (destruct Hex as [Hn Hl]; split; congruence).
  assert (Hkeep : exactly (option_list (mode_bo (mode d1)) ++ rest) d1 /\
    cursor_bo (mode d1) = cursor_bo (mode d) /\ use_atomic d1 = false)
    by (rewrite Hm1, Hm; split_and!; [exact Hex1|done|congruence]).
  destruct o as [[ok ps]|f]; cbn [next]; [|exact Hkeep]. destruct ok; cbn [negb]; [|wstep; exact Hkeep].
  do 3 wstep. apply wp_intro. intros o d2 Hrun.
  assert (d2 = d1) as -> by (revert Hrun; destruct (bool_decide _); by intros [= _ <-]).
  destruct o as [used|f]; cbn [next]; [|exact Hkeep].
  destruct (bool_decide (used = [])); [wstep; exact Hkeep|].
  wstep. eapply wp_mono; [apply create_screen_leaves; [congruence|congruence|exact Hex1]|].
  intros o d2 (Hex2 & Hc2 & Hu2). rewrite Hm1 in Hc2.
  destruct o as [ok|f]; cbn [next]; [|by split_and!]. destruct ok; cbn [negb]; [|wstep; by split_and!].
  wstep. eapply wp_mono; [by apply set_pipes_frame|].
  intros o d3 Hf3. unfold frame in Hf3. assert (mode d3 = mode d2 /\ use_atomic d3 = use_atomic d2 /\ live d3 = live d2)
    as (Hm3 & Hu3 & Hl3) by (split_and!; congruence).
  assert (Hend : exactly (option_list (mode_bo (mode d3)) ++ rest) d3 /\
    cursor_bo (mode d3) = cursor_bo (mode d) /\ use_atomic d3 = false).
  { rewrite Hm3, Hu3. split_and!; [|done|done]. destruct Hex2 as [Hn Hl]. split; congruence. }
  destruct o as [[]|f]; cbn [next]; [wstep|]; exact Hend.
Qed.

(** A plane argument after [set_planes]: it has no second buffer. *)
Definition single (p : plane_arg) : Prop := old_bo p = None.

Lemma set_plane_leaves_one p rest d :
  fresh_plane p -> exactly rest d ->
  wp (set_plane p) d (fun o d' => mode d' = mode d /\
    forall ok p', o = Ok (ok, p') -> exactly (bos1 p' ++ rest) d' /\ single p').
Proof.
  intros (Hb & Ho & _) Hex.
  assert (Hsame : bos1 p = []) by (unfold bos1; by rewrite Hb, Ho).
  unfold set_plane. do 4 wstep. destruct (choose_plane _ _) as [chosen|]; cbn [next]; [|by split].
  destruct chosen as [i|].
  2:{ wstep. split; [done|]. intros ok p' [= <- <-]. by rewrite Hsame. }
  do 2 wstep. destruct (deref _) as [ovr|]; cbn [next]; [|by split].
  do 2 wstep. destruct (deref ovr) as [ovr'|]; cbn [next]; [|by split].
  wstep. eapply wp_mono; [by apply (bo_fb_create_owned _ _ _ _ rest)|].
  intros o d2 (Hm2 & _ & r & -> & Hs). cbn [next]. destruct r as [[b fb]|].
  2:{ wstep. split; [done|]. intros ok p' [= <- <-]. by rewrite Hsame. }
  do 2 wstep. destruct (deref (get_crtc_by_id _ _)) as [crtc|]; cbn [next]; [|by split].
  do 2 wstep. destruct (deref _) as [c|]; cbn [next]; [|by split].
  do 2 wstep. destruct (plane_position _ _ _ _) as [[x y]|]; cbn [next]; [|by split].
  do 4 wstep. destruct (negb _).
  - wstep. split; [exact Hm2|]. intros ok p' [= <- <-]. unfold bos1, single. cbn. by rewrite Ho.
  - do 3 wstep. split; [exact Hm2|]. intros ok p' [= <- <-]. unfold bos1, single. cbn. by rewrite Ho.
Qed.

Lemma set_planes_leave_singles ps rest d :
  Forall fresh_plane ps -> exactly rest d ->
  wp (set_planes ps) d (fun o d' => mode d' = mode d /\
    forall ps', o = Ok ps' -> exactly (bos ps' ++ rest) d' /\ Forall single ps').
Proof.
  intros Hps. revert rest d. induction Hps as [|p ps Hp Hps IH]; intros rest d Hex; cbn [set_planes].
  { wstep. split; [done|]. intros ps' [= <-]. by split. }
  wstep. eapply wp_mono; [by apply set_plane_leaves_one|].
  intros [[ok p']|f] d1 [Hm1 H1]; cbn [next]; [|by split]. destruct (H1 _ _ eq_refl) as [Hex1 Hp'].
  assert (Hperm : forall qs, bos1 p' ++ bos qs ++ rest ≡ₚ bos qs ++ bos1 p' ++ rest)
    by (intros qs; by rewrite !app_assoc, (Permutation_app_comm (bos1 p'))).
  destruct ok; cbn [negb].
  - wstep. eapply wp_mono; [by apply (IH (bos1 p' ++ rest))|].
    intros [qs|f] d2 [Hm2 H2]; cbn [next]; [|split; [congruence|done]].
    destruct (H2 _ eq_refl) as [Hex2 Hqs]. wstep. split; [congruence|]. intros ps' [= <-].
    unfold bos. cbn [fmap list_fmap concat]. fold (bos qs). rewrite <- app_assoc, Hperm. split; [done|by constructor].
  - wstep. split; [done|]. intros ps' [= <-].
    assert (Hnone : bos ps = [] /\ Forall single ps).
    { clear - Hps. induction Hps as [|q qs (Hb & Ho & _) _ [IH1 IH2]]; [by split|].
      split; [|by constructor]. unfold bos in *. cbn [fmap list_fmap concat]. unfold bos1 at 1. by rewrite Hb, Ho, IH1. }
    destruct Hnone as [Hn Hsi]. unfold bos in *. cbn [fmap list_fmap concat]. rewrite Hn, app_nil_r.
    split; [done|by constructor].
Qed.

Lemma clear_planes_destroys ps rest d :
  Forall single ps -> exactly (bos ps ++ rest) d ->
  wp (clear_planes ps) d (fun o d' => mode d' = mode d /\ (o = Ok tt -> exactly rest d')).
Proof.
  intros Hps. revert d. induction Hps as [|p ps Hp _ IH]; intros d Hex; cbn [clear_planes].
  { wstep. by split. }
  unfold bos in Hex. cbn [fmap list_fmap concat] in Hex. fold (bos ps) in Hex.
  unfold bos1 in Hex. rewrite Hp in Hex. cbn [option_list] in Hex. rewrite app_nil_r, <- app_assoc in Hex.
  wstep. set (d1 := if negb (fb_id p =? 0) then call (FbRemoved (fb_id p)) d else d).
  assert (Hw : wp (when (negb (fb_id p =? 0)) (drmModeRmFB (fb_id p))) d (fun o d' => o = Ok tt /\ d' = d1))
    by (unfold d1; by destruct (fb_id p =? 0)).
  eapply wp_mono; [exact Hw|]. intros o d' [-> ->]. cbn [next]. clear Hw.
  assert (Hex1 : exactly (option_list (bo p) ++ bos ps ++ rest) d1) by (unfold d1; by destruct (fb_id p =? 0)).
  assert (Hm1 : mode d1 = mode d) by (unfold d1; by destruct (fb_id p =? 0)). clearbody d1.
  wstep. eapply wp_mono; [by apply destroy_owned|].
  intros o d2 (-> & Hm2 & Hex2). cbn [next]. eapply wp_mono; [by apply IH|].
  intros o' d3 [Hm3 H3]. split; [congruence|done].
Qed.

(** What of the device the buffers depend on. *)
Definition bos_view (d : device) := (mode_bo (mode d), cursor_bo (mode d), use_atomic d, live d).

Lemma exactly_view rest d d' : exactly rest d -> same bos_view d d' -> exactly rest d'.
Proof. intros [Hn Hl] Hs. unfold same, bos_view in Hs. split; congruence. Qed.

Lemma init_cursors_view dev_fd bo cw ch pipes : preserves (same bos_view) (init_cursors dev_fd bo cw ch pipes).
Proof. induction pipes as [|pipe pipes IH]; cbn [init_cursors]; preserves_tac. Qed.

Lemma set_cursors_owned dev_fd pipes rest d :
  cursor_bo (mode d) = None -> exactly rest d ->
  wp (set_cursors dev_fd pipes) d (fun _ d' =>
    mode_bo (mode d') = mode_bo (mode d) /\ exactly (option_list (cursor_bo (mode d')) ++ rest) d').
Proof.
  intros Hc Hex. unfold set_cursors. do 2 wstep.
  destruct (k_bo_create d _ _ _ _) as [b|] eqn:Hb; [|wstep; by rewrite Hc].
  do 6 wstep. set (d1 := set_dev_mode _ _).
  assert (Hd1 : exactly (b :: rest) d1).
  { pose proof (bo_fresh d _ _ _ _ b Hb) as Hf. destruct Hex as [Hn Hl]. split; [|cbn; by rewrite Hl].
    apply NoDup_cons. split; [|done]. rewrite Hl in Hf. set_solver. }
  assert (Hm1 : mode_bo (mode d1) = mode_bo (mode d) /\ cursor_bo (mode d1) = Some b) by done. clearbody d1.
  wstep. eapply wp_mono; [apply init_cursors_view|]. intros o d2 Hs.
  pose proof (exactly_view _ _ _ Hd1 Hs) as Hd2. unfold same, bos_view in Hs.
  destruct o as [[]|f]; cbn [next]; [wstep|].
  all: assert (cursor_bo (mode d2) = Some b /\ mode_bo (mode d2) = mode_bo (mode d)) as [Hc2 Hm2]
    by (destruct Hm1; split; congruence).
  - cbn. rewrite Hc2, Hm2. split; [done|exact Hd2].
  - rewrite Hc2, Hm2. split; [done|exact Hd2].
Qed.

Lemma record_flips_view evs : preserves (same bos_view) (record_flips evs).
Proof. induction evs as [|[] evs IH]; cbn [record_flips]; preserves_tac. Qed.

Lemma test_page_flips_owned sel pipes rest d :
  exactly rest d ->
  wp (test_page_flips sel pipes) d (fun o d' => o = Ok tt -> mode_bo (mode d') = mode_bo (mode d) /\
    cursor_bo (mode d') = cursor_bo (mode d) /\ exactly rest d').
Proof.
  intros Hex. unfold test_page_flips. do 2 wstep. destruct (deref _) as [first|]; cbn [next]; [|done].
  do 3 wstep. eapply wp_mono; [by apply (bo_fb_create_owned _ _ _ _ rest)|].
  intros o d1 (Hm1 & _ & r & -> & Hs). cbn [next]. destruct r as [[b fb]|].
  2:{ wstep. intros _. by rewrite Hm1. }
  destruct (test_page_flip _ _ _ _ _) as [ended evs]. wstep.
  eapply wp_mono; [apply record_flips_view|]. intros o d2 Hs2. pose proof (exactly_view _ _ _ Hs Hs2) as Hd2.
  unfold same, bos_view in Hs2. destruct o as [[]|f]; cbn [next]; [|done].
  destruct (bool_decide _); [by wstep|]. unfold drmModeRmFB. do 2 wstep.
  eapply wp_mono; [apply (destroy_owned (Some b) rest); exact Hd2|].
  intros o d3 (-> & Hm3 & Hd3) _. cbn in Hm3. split_and!; [congruence|congruence|done].
Qed.

Lemma clear_cursors_owned rounds rest d :
  exactly (option_list (cursor_bo (mode d)) ++ rest) d ->
  wp (clear_cursors rounds) d (fun o d' => o = Ok tt /\ mode d' = mode d /\ exactly rest d').
Proof. intros Hex. unfold clear_cursors. do 4 wstep. eapply wp_mono; [apply destroy_owned; exact Hex|done]. Qed.

Lemma clear_mode_owned rest d :
  exactly (option_list (mode_bo (mode d)) ++ rest) d ->
  wp clear_mode d (fun o d' => o = Ok tt /\ exactly rest d').
Proof.
  intros Hex. unfold clear_mode. do 3 wstep. apply wp_when; intros Hb; unfold drmModeRmFB; [wstep|]; cbn [next].
  all: eapply wp_mono; [apply destroy_owned; exact Hex|]; by intros o d' (-> & _ & Hd').
Qed.
End Balance.

Section Runs.
Context `{FourccCodes} `{ModeCodes} `{HL : FbLaws} `{ModeKernel} `{ResKernel} `{MainKernel}.

(** The plane arguments come from the parser. *)
Definition fresh_settings (s : settings) : Prop := Forall fresh_plane (plane_args s).

Lemma fresh_bos ps : Forall fresh_plane ps -> bos ps = [].
Proof.
  intros Hps. induction Hps as [|p ps (Hb & Ho & _) _ IH]; [done|].
  unfold bos in *. cbn [fmap list_fmap concat]. unfold bos1 at 1. by rewrite Hb, Ho, IH.
Qed.

(** The buffers between two phases of the run: a screen only with modes, cursors only with -C. *)
Definition phase (modes cursors : bool) (ps : list plane_arg) (rest : list Z) (d : device) : Prop :=
  exactly (option_list (cursor_bo (mode d)) ++ bos ps ++ option_list (mode_bo (mode d)) ++ rest) d /\
  (modes = false -> mode_bo (mode d) = None) /\ (cursors = false -> cursor_bo (mode d) = None).

Lemma phase_view modes cursors ps rest d d' :
  phase modes cursors ps rest d -> same bos_view d d' -> phase modes cursors ps rest d'.
Proof.
  intros (Hex & Hm & Hc) Hs. pose proof (exactly_view _ _ _ Hex Hs) as Hex'. unfold same, bos_view in Hs.
  unfold phase. assert (mode_bo (mode d') = mode_bo (mode d) /\ cursor_bo (mode d') = cursor_bo (mode d)) as [-> ->]
    by (split; congruence). by split_and!.
Qed.

Lemma modes_phase (modes : bool) pipes rest d :
  use_atomic d = false -> phase false false [] rest d ->
  wp (if modes then set_mode pipes else mret pipes) d (fun _ d' => phase modes false [] rest d').
Proof.
  intros Hd (Hex & Hm & Hc). specialize (Hm eq_refl). specialize (Hc eq_refl). rewrite Hm, Hc in Hex.
  destruct modes; [|wstep; unfold phase; by rewrite Hm, Hc].
  eapply wp_mono; [by apply (set_mode_leaves _ rest)|]. intros o d1 (Hd1 & Hc1 & _).
  unfold phase. rewrite Hc1, Hc. by split_and!.
Qed.

Lemma planes_phase (planes : bool) modes ps rest d :
  Forall fresh_plane ps -> phase modes false [] rest d ->
  wp (if planes then set_planes ps else mret ps) d (fun o d' => forall ps', o = Ok ps' ->
    phase modes false ps' rest d' /\ Forall single ps' /\ (planes = false -> bos ps' = [])).
Proof.
  intros Hps (Hex & Hm & Hc). rewrite Hc in Hex by done. cbn [option_list app bos fmap list_fmap concat] in Hex.
  unfold phase. destruct planes.
  - eapply wp_mono; [by apply set_planes_leave_singles|]. intros o d2 [Hm2 Hp2] ps' Ho.
    destruct (Hp2 ps' Ho) as [Hd2 Hs2]. rewrite Hm2, Hc by done. by split_and!.
  - wstep. intros ps' [= <-]. rewrite (fresh_bos _ Hps), Hc by done. split_and!; try done.
    eapply Forall_impl; [exact Hps|]. by intros p (_ & Ho & _).
Qed.

Lemma cursors_phase (cursors : bool) modes pipes ps rest d :
  phase modes false ps rest d ->
  wp (when cursors (set_cursors k_open pipes)) d (fun _ d' => phase modes cursors ps rest d').
Proof.
  intros (Hex & Hm & Hc). rewrite Hc in Hex by done. unfold phase. apply wp_when; intros ->.
  - eapply wp_mono; [by apply set_cursors_owned; [apply Hc|]|]. intros o d1 [Hm1 Hd1].
    rewrite Hm1 in *. by split_and!.
  - rewrite Hc by done. by split_and!.
Qed.

Lemma flips_phase (vsync : bool) sel modes cursors pipes ps rest d :
  phase modes cursors ps rest d ->
  wp (when vsync (test_page_flips sel pipes)) d (fun o d' => o = Ok tt -> phase modes cursors ps rest d').
Proof.
  intros (Hex & Hm & Hc). apply wp_when; intros _; [|done].
  eapply wp_mono; [by apply test_page_flips_owned|]. intros o d1 H1' Ho.
  destruct (H1' Ho) as (Hm1 & Hc1 & Hd1). unfold phase. rewrite Hm1, Hc1. by split_and!.
Qed.

Lemma uncursor_phase (cursors : bool) rounds modes ps rest d :
  phase modes cursors ps rest d ->
  wp (when cursors (clear_cursors rounds)) d (fun o d' => o = Ok tt /\ mode d' = mode d /\
    exactly (bos ps ++ option_list (mode_bo (mode d)) ++ rest) d').
Proof.
  intros (Hex & _ & Hc). apply wp_when; intros Hb; [by apply clear_cursors_owned|].
  rewrite Hc in Hex by done. done.
Qed.

Lemma run_legacy_balanced sel rounds s rest d :
  fresh_settings s -> use_atomic d = false -> phase false false [] rest d ->
  wp (run_legacy sel rounds s) d (fun o d' => o = Ok 0 -> exactly rest d').
Proof.
  intros Hfresh Hd Hph. unfold run_legacy.
  destruct (negb (_ || _)).
  { destruct Hph as (Hex & Hm & Hc). rewrite Hm, Hc in Hex by done. by wstep. }
  destruct (negb k_dumb_cap); [by wstep|]. cbn zeta.
  set (modes := set_preferred s || _). set (planes := negb (bool_decide (plane_args s = []))).
  wstep. eapply wp_mono; [by apply modes_phase|]. intros [pipes|f] d1 Hph1; cbn [next]; [|done].
  wstep. eapply wp_mono; [by apply planes_phase|]. intros [ps|f] d2 Hph2; cbn [next]; [|done].
  destruct (Hph2 ps eq_refl) as (Hph2' & Hsingle & Hnone).
  wstep. eapply wp_mono; [by apply cursors_phase|]. intros [[]|f] d3 Hph3; cbn [next]; [|done].
  wstep. eapply wp_mono; [by apply flips_phase|]. intros [[]|f] d4 Hph4; cbn [next]; [|done].
  specialize (Hph4 eq_refl). wstep. apply (wp_mono _ _ (fun o d' => o = Ok tt /\ same bos_view d4 d')).
  { by destruct (drop_master s). }
  intros o d5 [-> Hv]. cbn [next]. pose proof (phase_view _ _ _ _ _ _ Hph4 Hv) as Hph5.
  wstep. eapply wp_mono; [by eapply uncursor_phase|]. intros o d6 (-> & Hm6 & Hex6). cbn [next]. rewrite <- Hm6 in Hex6.
  destruct Hph5 as (_ & Hno & _). rewrite <- Hm6 in Hno. clear Hm6.
  wstep. apply (wp_mono _ _ (fun o d' => mode d' = mode d6 /\
    (o = Ok tt -> exactly (option_list (mode_bo (mode d')) ++ rest) d'))).
  { apply wp_when; intros Hb; [|rewrite Hnone in Hex6 by done; by split].
    eapply wp_mono; [by apply clear_planes_destroys|]. by intros o d7 [-> Hp7]. }
  intros [[]|f] d7 [Hm7 Hex7]; cbn [next]; [|done]. specialize (Hex7 eq_refl).
  wstep. apply (wp_mono _ _ (fun o d' => o = Ok tt /\ exactly rest d')).
  { apply wp_when; intros Hb; [by apply clear_mode_owned|]. rewrite Hm7, Hno in Hex7 by done. done. }
  intros o d8 [-> Hd8]. cbn [next]. by wstep.
Qed.

(** ** The atomic run *)

Lemma adds_view P {A} (c : dprog A) : preserves (adds P) c -> preserves (same bos_view) c.
Proof.
  intros Hc d. eapply wp_mono; [apply Hc|]. intros _ d' [Hf _]. unfold frame in Hf. unfold same, bos_view.
  congruence.
Qed.

Lemma set_property_view id name value : preserves (same bos_view) (set_property id name value).
Proof. eapply adds_view, set_property_adds. Qed.
Hint Resolve set_property_view : preserves.

Lemma connect_view ids crtc : preserves (same bos_view) (connect ids crtc).
Proof. induction ids as [|id ids IH]; cbn [connect]; unfold add_property; preserves_tac. Qed.
Hint Resolve connect_view : preserves.

Lemma set_pipes_view x pipes : preserves (same bos_view) (set_pipes false x pipes).
Proof.
  revert x. induction pipes as [|pipe pipes IH]; intros x; cbn [set_pipes]; [preserves_tac|].
  assert (Hf : forall m, preserves (same bos_view) (set_pipe_crtc false x pipe m)).
  { intros m d. eapply wp_mono; [apply set_pipe_crtc_frame|]. intros o d' Hs. unfold same, frame in Hs.
    unfold same, bos_view. congruence. }
  unfold request_pipe, add_property, when. preserves_tac.
Qed.

Lemma set_mode_atomic_view pipes d :
  use_atomic d = true -> pipes <> [] -> wp (set_mode pipes) d (fun _ d' => bos_view d' = bos_view d).
Proof.
  intros Hd Hne. unfold set_mode. rewrite bool_decide_false by done. wstep.
  eapply wp_mono; [apply resolve_pipes_frame|]. intros o d1 (Hm1 & Hu1 & Hl1).
  assert (Hv : bos_view d1 = bos_view d) by (unfold bos_view; congruence).
  destruct o as [[ok ps]|f]; cbn [next]; [|done]. destruct ok; cbn [negb]; [|by wstep].
  do 4 wstep. destruct (bool_decide _); [by wstep|]. unfold create_screen. do 3 wstep.
  rewrite Hu1, Hd. wstep. cbn [negb]. wstep. eapply wp_mono; [apply set_pipes_view|].
  intros o d2 Hs. unfold same in Hs. destruct o as [[]|f]; cbn [next]; [wstep|]; congruence.
Qed.

Lemma atomic_clear_mode_view pipes : preserves (same bos_view) (atomic_clear_mode pipes).
Proof. induction pipes as [|pipe pipes IH]; cbn [atomic_clear_mode]; unfold add_property; preserves_tac. Qed.
Lemma atomic_clear_planes_view ps : preserves (same bos_view) (atomic_clear_planes ps).
Proof.
  induction ps as [|p ps IH]; cbn [atomic_clear_planes]; preserves_tac. eapply adds_view, add_properties_adds.
Qed.
Hint Resolve atomic_clear_mode_view atomic_clear_planes_view : preserves.

(** The end of the atomic run: the requests that undo the modes, then the buffers. *)
Lemma atomic_teardown (count : bool) pipes planes (dm : bool) rest d :
  exactly (held planes ++ rest) d ->
  wp (when dm (modify (call DropMaster));; modify new_request;; when true (atomic_clear_planes planes);;
      when count (atomic_clear_mode pipes);; _ ← commit;
      (_ ← atomic_clear_FB planes; mret tt);; mret 0) d (fun o d' => o = Ok 0 -> exactly rest d').
Proof.
  intros Hex.
  assert (Hpre : preserves (same bos_view) (when dm (modify (call DropMaster));; modify new_request;;
    when true (atomic_clear_planes planes);; when count (atomic_clear_mode pipes);; _ ← commit; mret tt)).
  { unfold commit. preserves_tac. }
  specialize (Hpre d). unfold wp, mbind, prog_bind in Hpre |- *.
  repeat match goal with
  | H : let '(_, _) := (let '(o, w) := ?c in _) in _ |- _ => destruct c as [[?|?] ?]; [|done]
  end.
  cbn [mret prog_ret] in Hpre. pose proof (exactly_view _ _ _ Hex Hpre) as Hex'.
  pose proof (clear_FB_returns planes rest _ Hex') as Hc. unfold wp in Hc.
  destruct (atomic_clear_FB planes _) as [[ps'|f] d']; [|done]. intros _. by apply (Hc ps').
Qed.

Lemma run_atomic_balanced frames s rest d :
  fresh_settings s -> set_preferred s = false -> use_atomic d = true -> exactly rest d ->
  wp (run_atomic frames s) d (fun o d' => o = Ok 0 -> exactly rest d').
Proof.
  intros Hfresh Hpref Hd Hex. unfold run_atomic. rewrite Hpref. cbn zeta. cbn [orb]. do 2 wstep.
  destruct (bool_decide (pipe_args s = [])) eqn:Hpipes; cbn [negb andb]; [by wstep|].
  destruct (bool_decide (plane_args s = [])) eqn:Hplanes; cbn [negb]; [by wstep|].
  apply bool_decide_eq_false in Hpipes. destruct (negb k_dumb_cap); [by wstep|].
  wstep. eapply wp_mono; [by apply set_mode_atomic_view|]. intros o d1 Hv.
  destruct o as [pipes|f]; cbn [next]; [|done].
  assert (Hex1 : exactly (held (plane_args s) ++ rest) d1).
  { rewrite (proj2 (fresh_planes_distinct _ Hfresh)). exact (exactly_view _ _ _ (Hex : exactly rest (new_request d)) Hv). }
  wstep. unfold atomic_set_planes. do 2 wstep. eapply wp_mono; [by apply set_planes_keep|].
  intros [planes|f] d2 Hex2; cbn [next]; [|done]. destruct (Hex2 _ eq_refl) as [Hex2' _]. clear Hex2.
  wstep. unfold commit at 1. do 5 wstep. set (ret := k_commit d2). destruct (ret =? 0); cbn [negb]; [|by wstep].
  set (d3 := call _ d2). assert (Hex3 : exactly (held planes ++ rest) d3) by exact Hex2'. clearbody d3.
  wstep. apply (wp_mono _ _ (fun o d' => forall ps, o = Ok ps -> exactly (held ps ++ rest) d')).
  { destruct (test_vsync s); [|by wstep; intros ps [= <-]]. unfold flip_frames. wstep.
    eapply wp_mono; [by apply page_flip_keeps|]. intros [[ended ps]|f] d4 H4; cbn [next]; [|done].
    destruct ended; wstep; [|done]. intros ps' [= <-]. exact (proj1 (H4 _ eq_refl)). }
  intros [ps|f] d4 Hex4; cbn [next]; [|done]. apply (atomic_teardown true pipes). exact (Hex4 ps eq_refl).
Qed.

(** ** The whole program *)

Lemma apply_opt_fresh o s s' : fresh_settings s -> apply_opt o s = Ok s' -> fresh_settings s'.
Proof.
  intros Hs. destruct o as [| | | | |arg|arg| |arg| | | |arg|]; cbn [apply_opt].
  all: try (intros [= <-]; exact Hs); try done.
  - destruct (parse_plane empty_plane arg) as [p|] eqn:Hp; [|done]. intros [= <-]. apply Forall_app. split; [done|].
    constructor; [|constructor]. revert Hp. unfold parse_plane.
    repeat (destruct (strtoul _) as [? ?]; case_match; [done|]).
    destruct (strtoul _) as [h q]. destruct (parse_position empty_plane q) as [[[[has x] y] q1]|]; [|done].
    cbn [mbind option_bind]. destruct (parse_scale q1) as [[sc q2]|]; [|done]. cbn [mbind option_bind].
    case_match; [done|]. by intros [= <-].
  - destruct (parse_connector _ _); [|done]. intros [= <-]. exact Hs.
  - destruct (parse_property _); [|done]. intros [= <-]. exact Hs.
Qed.

Lemma parse_opts_fresh opts s s' : fresh_settings s -> parse_opts opts s = Ok s' -> fresh_settings s'.
Proof.
  revert s. induction opts as [|o opts IH]; intros s Hs; cbn [parse_opts]; [by intros [= <-]|].
  destruct (apply_opt o s) as [s1|] eqn:Ho; cbn; [|done]. apply IH. by eapply apply_opt_fresh.
Qed.

Lemma get_resources_view : preserves (same bos_view) get_resources.
Proof. unfold get_resources. preserves_tac. Qed.
Lemma set_properties_view l : preserves (same bos_view) (set_properties l).
Proof. induction l as [|p l IH]; cbn [set_properties]; preserves_tac. Qed.

(** A command that leaves the buffers alone, before the rest of the program. *)
Lemma wp_view {A B} (c : dprog A) (k : A -> dprog B) d0 d (P : outcome B -> device -> Prop) b :
  preserves (same bos_view) c -> same bos_view d0 d ->
  (forall a d', same bos_view d0 d' -> wp (k a) d' (fun o d' => o = Ok b -> P o d')) ->
  wp (c ≫= k) d (fun o d' => o = Ok b -> P o d').
Proof.
  intros Hc Hd Hk. wstep. eapply wp_mono; [apply Hc|]. intros [a|f] d1 Hv; cbn [next]; [|done].
  apply Hk. by etrans.
Qed.

Lemma run_device_balanced frames sel rounds s :
  fresh_settings s -> opt_atomic s = false \/ set_preferred s = false ->
  wp (run_device frames sel rounds s) (new_device s) (fun o d' => o = Ok 0 -> exactly [] d').
Proof.
  intros Hfresh Hmode. unfold run_device. destruct (opt_atomic s && _); [by do 3 wstep|].
  eapply wp_view; [apply get_resources_view|reflexivity|]. intros ok d1 Hv.
  destruct ok; cbn [negb]; [|by do 3 wstep]. unfold dump_resource.
  do 5 (eapply wp_view; [preserves_tac|exact Hv|clear Hv d1; intros _ d1 Hv]).
  eapply wp_view; [apply set_properties_view|exact Hv|clear Hv d1; intros _ d1 Hv].
  assert (Hex : exactly [] d1 /\ use_atomic d1 = opt_atomic s /\ mode_bo (mode d1) = None /\ cursor_bo (mode d1) = None).
  { unfold same, bos_view in Hv. cbn in Hv. injection Hv as -> -> -> Hl. split_and!; try done.
    split; [constructor|by rewrite Hl]. }
  destruct Hex as (Hex & Hu & Hm & Hc). wstep.
  apply (wp_mono _ _ (fun o d' => o = Ok 0 -> exactly [] d')).
  - destruct Hmode as [Ha|Hp].
    + rewrite Ha in *. apply run_legacy_balanced; [done|done|]. unfold phase. rewrite Hm, Hc. by split_and!.
    + destruct (opt_atomic s); [by apply run_atomic_balanced|].
      apply run_legacy_balanced; [done|done|]. unfold phase. rewrite Hm, Hc. by split_and!.
  - intros [ret|f] d2 Hd2; cbn [next]; [|done]. destruct (Z.eqb_spec ret 0) as [->|Hr]; cbn [negb].
    + do 4 wstep. destruct (free_resources d2); cbn [next]; [|done]. do 3 wstep. intros _. by apply Hd2.
    + wstep. congruence.
Qed.

(** C4: a run of modetest that returns 0 has destroyed every buffer it created,
    whatever the kernel answers, unless -a and -r are both given: then the framebuffers are those
    of planes that [set_mode] keeps in a local variable, and their buffers are never destroyed
    ([modetest_atomic_preferred_leaks]). *)
Theorem modetest_destroys_its_buffers opts s frames sel rounds d' :
  parse_opts opts no_settings = Ok s ->
  opt_atomic s = false \/ set_preferred s = false ->
  main opts frames sel rounds = (Ok 0, d') -> live d' = ∅.
Proof.
  intros Hs Hmode. unfold main. rewrite Hs.
  assert (Hfresh : fresh_settings (default_dumps s)).
  { assert (Hn : fresh_settings no_settings) by constructor. pose proof (parse_opts_fresh _ _ _ Hn Hs).
    unfold default_dumps. by case_match. }
  assert (Ha : opt_atomic (default_dumps s) = opt_atomic s /\ set_preferred (default_dumps s) = set_preferred s).
  { unfold default_dumps, with_flags. destruct (args s =? 0); [|done]. cbn. by rewrite !orb_false_r. }
  destruct Ha as [Hao Har]. rewrite <- Hao, <- Har in Hmode. clear Hs Hao Har.
  generalize dependent (default_dumps s). clear s. intros s Hmode Hfresh.
  case_match; [done|]. case_match; [done|]. intros Hrun.
  pose proof (run_device_balanced frames sel rounds s Hfresh Hmode) as Hw.
  by destruct (wp_run _ _ _ _ _ Hw Hrun eq_refl).
Qed.
End Runs.

(** * The atomic mode without a plane *)

Section AtomicOnly.
Context `{FourccCodes} `{ModeCodes} `{FbKernel} `{ModeKernel} `{ResKernel} `{MainKernel}.

(** What asks nothing of the kernel. *)
Definition idle_event (e : dev_event) : Prop :=
  match e with Dumped _ | NewRequest | FdClosed => True | _ => False end.
Definition idle (d : device) : Prop := Forall idle_event (calls d).

(** Without a request a property is set nowhere. *)
Lemma set_properties_unrequested l d :
  use_atomic d = true -> req d = false -> wp (set_properties l) d (fun _ d' => d' = d).
Proof.
  intros Ha Hr. induction l as [|p l IH]; cbn [set_properties]; [by wstep|]. wstep.
  eapply wp_mono with (P := fun _ d' => d' = d).
  - unfold set_property. do 4 wstep. destruct (find_any d _) as [[[type obj]|]|]; cbn [next]; try done.
    destruct (props obj) as [l'|]; [|done]. destruct (find_prop _ l'); [|done].
    rewrite Ha, Hr. unfold when. cbn [negb]. by do 3 wstep.
  - intros [b|f] d' ->; cbn [next]; [exact IH|done].
Qed.

(** The steps up to the run add nothing but dumps. *)
Definition request_view (d : device) := (use_atomic d, req d, calls d).
Lemma get_resources_requests : preserves (same request_view) get_resources.
Proof. unfold get_resources. preserves_tac. Qed.

Lemma dump_resource_idle b part : preserves (adds idle_event) (dump_resource b part).
Proof. unfold dump_resource. apply preserves_when; [apply _|]. by apply adds_call. Qed.

(** Ready for the atomic run: it has no request, and nothing was asked. *)
Definition unasked (d : device) : Prop := use_atomic d = true /\ req d = false /\ idle d.

Lemma dump_resource_unasked {B} b part (k : unit -> dprog B) d :
  unasked d -> (forall d', unasked d' -> wp (k tt) d' (fun _ d' => idle d')) ->
  wp (dump_resource b part ≫= k) d (fun _ d' => idle d').
Proof.
  intros (Ha & Hr & Hi) Hk. wstep. eapply wp_mono; [apply dump_resource_idle|].
  intros o d1 [Hf (evs & He & Hc)].
  assert (Hd : unasked d1).
  { unfold frame in Hf. split_and!; [congruence|congruence|]. unfold idle. rewrite Hc. by apply Forall_app. }
  destruct o as [[]|f]; cbn [next]; [by apply Hk|apply Hd].
Qed.

(** With -a, but not both -s and -P, and without -r, modetest parses its arguments and
    asks the kernel for nothing: no property is set, no mode, no plane, and no request is
    committed. *)
Theorem modetest_atomic_asks_nothing opts s frames sel rounds o d' :
  parse_opts opts no_settings = Ok s ->
  opt_atomic s = true -> set_preferred s = false -> pipe_args s = [] \/ plane_args s = [] ->
  main opts frames sel rounds = (o, d') -> idle d'.
Proof.
  intros Hs Ha Hp Hnone. unfold main. rewrite Hs.
  assert (Hdef : opt_atomic (default_dumps s) = true /\ set_preferred (default_dumps s) = false /\
    (pipe_args (default_dumps s) = [] \/ plane_args (default_dumps s) = [])).
  { unfold default_dumps, with_flags. destruct (args s =? 0); [|done]. cbn. by rewrite Ha, Hp. }
  destruct Hdef as (Ha' & Hp' & Hn'). clear Hs Ha Hp Hnone.
  generalize dependent (default_dumps s). clear s. intros s Ha Hp Hnone.
  case_match; [by intros [= _ <-]; constructor|]. case_match; [by intros [= _ <-]; constructor|].
  intros Hrun. refine (wp_run _ _ (fun _ d' => idle d') _ _ _ Hrun). clear Hrun o d'. unfold run_device. rewrite Ha. cbn [andb].
  destruct (negb k_atomic_cap); [by do 3 wstep; repeat constructor|]. wstep.
  eapply wp_mono; [apply get_resources_requests|].
  intros o d1 Hv. unfold same, request_view in Hv. cbn in Hv. rewrite Ha in Hv. injection Hv as Hu Hr Hc.
  assert (Hd1 : unasked d1) by (split_and!; [done|done|]; unfold idle; rewrite Hc; constructor).
  destruct o as [ok|f]; cbn [next]; [|apply Hd1]. clear Hu Hr Hc.
  destruct ok; cbn [negb]; [|do 3 wstep; constructor; [done|apply Hd1]].
  do 5 (apply dump_resource_unasked; [done|clear dependent d1; intros d1 Hd1]).
  destruct Hd1 as (Hu & Hr & Hi). wstep. eapply wp_mono; [by apply set_properties_unrequested|].
  intros [[]|f] d2 ->; cbn [next]; [|done]. wstep.
  apply (wp_mono _ _ (fun o d' => o = Ok 0 /\ idle d')).
  { unfold run_atomic. rewrite Hp. do 2 wstep.
    assert (negb (bool_decide (pipe_args s = [])) && negb (bool_decide (plane_args s = [])) = false) as ->.
    { destruct Hnone as [-> | ->]; [done|]. by rewrite andb_false_r. }
    cbn [negb orb]. wstep. split; [done|]. by constructor. }
  intros o d2 [-> Hd2]. cbn [next negb]. rewrite Z.eqb_refl. cbn [negb].
  do 4 wstep. destruct (free_resources d2); cbn [next]; [|done]. do 3 wstep. by constructor.
Qed.
End AtomicOnly.

(** * A machine *)

(** One connector with one mode, an encoder, a CRTC and a plane, with their properties. *)
Module Machine.
#[local] Existing Instance name_codes.
#[local] Existing Instance index_codes.
#[local] Existing Instance generous_kernel.
#[local] Existing Instance generous_laws.
#[local] Existing Instance OneOfEach.one_of_each.
#[local] Existing Instance Screens.willing_kernel.
Import OneOfEach.

#[local] Instance main_kernel : MainKernel := {| k_open := 3; k_atomic_cap := true; k_dumb_cap := true |}.

(** A mode, a plane, cursors and page flips, ended by a key. *)
Definition full_opts : list opt := [Opt_s "35:800x480"; Opt_P "71@41:400x240"; Opt_C; Opt_v].
Definition flips_then_key : list selected := [FlipDone 0; TimedOut; FlipDone 0; Key].

Example full_run :
  let '(o, d) := main full_opts 0 flips_then_key 5 in
  o = Ok 0 /\ live d = ∅ /\
  crtc_calls d = [SetCrtc 41 1 0 0 [35] a_mode] /\
  omap (fun e => match e with Flipped (PageFlip _ fb) => Some fb | _ => None end) (rev (calls d)) = [4; 1; 4].
Proof. vm_compute. auto 8. Qed.

(** With -a and -r the plane and its buffer are only known to [set_mode]. *)
Example modetest_atomic_preferred_leaks :
  let '(o, d) := main [Opt_a; Opt_r] 0 [] 0 in
  o = Ok 0 /\ live d = {[0]} /\ FbAdded 1 0 ∈ calls d /\ BoCreated 0 909199186 800 480 UTIL_PATTERN_SMPTE ∈ calls d.
Proof. vm_compute. split_and!; [done|done|..]; by repeat (apply elem_of_cons; (left; reflexivity) || right). Qed.

Lemma modetest_destroys_its_buffers_witness :
  exists s d', (parse_opts full_opts no_settings = Ok s /\ main full_opts 0 flips_then_key 5 = (Ok 0, d')) /\
    live d' = ∅.
Proof.
  destruct (main full_opts 0 flips_then_key 5) as [o d'] eqn:Hrun.
  destruct (parse_opts full_opts no_settings) as [s|] eqn:Hs; [|vm_compute in Hs; discriminate Hs].
  assert (Ho : o = Ok 0).
  { change o with (o, d').1. rewrite <- Hrun. vm_compute. reflexivity. }
  subst o. exists s, d'. split; [by split|].
  refine (modetest_destroys_its_buffers full_opts s 0 flips_then_key 5 d' Hs _ Hrun). left.
  vm_compute in Hs. by injection Hs as <-.
Defined.

Lemma modetest_atomic_asks_nothing_witness :
  let opts := [Opt_a; Opt_s "35:800x480"; Opt_w "35:CRTC_ID:41"] in
  exists o d', main opts 0 [] 0 = (o, d') /\ idle d'.
Proof.
  intros opts. destruct (main opts 0 [] 0) as [o d'] eqn:Hrun. exists o, d'. split; [done|].
  destruct (parse_opts opts no_settings) as [s|] eqn:Hs; [|vm_compute in Hs; discriminate Hs].
  refine (modetest_atomic_asks_nothing opts s 0 [] 0 o d' Hs _ _ _ Hrun); vm_compute in Hs; injection Hs as <-; auto.
Defined.

End Machine.
