(* ===== verification/KmsLib.v ===== *)
(** drm/kms/libkms-test-*.c: the library of the DRM test tools: screens, CRTCs, planes and
    framebuffers on top of libdrm. *)
From Stdlib Require Import ZArith Lia Ascii String.
From stdpp Require Import base list numbers strings pretty.
From S2P Require Import Prelude Mem Format Libc.

#[global] Open Scope Z_scope.

(** * libdrm *)

(** What libdrm tells of a connector and of a plane; a mode is its size. *)
Record drm_connector := DrmConnector { connector_type : Z; connection : Z; modes : list (Z * Z) }.
Record drm_plane := DrmPlane { p_crtc_id : Z; possible_crtcs : Z; p_formats : list Z }.

Definition DRM_MODE_CONNECTED : Z := 1.

(** What is asked of the driver, with its answers. *)
Inductive kms_event :=
| CreateDumb (w h bpp : Z) (got : option (Z * Z * Z))
| AddFB (w h handle pitch : Z) (got : option Z)
| RmFB (id : Z)
| DestroyDumb (handle : Z)
| Painted (handle : Z) (pixels : mem)
| SetCrtc (crtc fb screen ret : Z)
| SetPlane (plane crtc fb x y w h ret : Z)
| CloseFd (was_open : bool).

(** The dumb buffers and framebuffers there are, whether the device's descriptor is open, and
    what has happened, newest first. *)
Record kms_world := KmsWorld { handles : list Z; fbs : list Z; fd_open : bool; events : list kms_event }.

(** The driver, whose answers may depend on all that has happened; what can fail gives [None], or
    the negated error code. *)
Class KmsDriver := {
  drv_resources : kms_world -> option (list Z * list Z);
  drv_connector : kms_world -> Z -> option drm_connector;
  drv_plane_resources : kms_world -> option (list Z);
  drv_plane : kms_world -> Z -> option drm_plane;
  drv_properties : kms_world -> Z -> option (list (Z * Z));
  drv_property : kms_world -> Z -> option string;
  drv_create_dumb : kms_world -> Z -> Z -> Z -> option (Z * Z * Z);
  drv_add_fb : kms_world -> Z -> option Z;
  drv_map : kms_world -> Z -> option mem;
  drv_set_crtc : kms_world -> Z -> Z -> Z -> Z;
  drv_set_plane : kms_world -> Z -> Z -> Z -> Z }.

Definition logged (e : kms_event) (w : kms_world) : kms_world := KmsWorld (handles w) (fbs w) (fd_open w) (e :: events w).

(** * Data *)

Record kms_screen := Screen {
  connected : bool; screen_type : Z; screen_id : Z; screen_width : Z; screen_height : Z; screen_name : string }.

Record kms_plane := Plane { plane_crtc : option Z; plane_type : Z; plane_id : Z; plane_formats : list Z }.

(** The framebuffer's pixels when it is mapped. *)
Record kms_framebuffer := Framebuffer {
  fb_width : Z; fb_height : Z; fb_pitch : Z; fb_format : Z; fb_size : Z; fb_handle : Z; fb_id : Z; fb_ptr : option mem }.

(** The CRTCs by their ids; every entry of the tables is there. *)
Record kms_device := Device { screens : list kms_screen; crtcs : list Z; planes : list kms_plane }.

Definition connector_names : list string := ["Unknown"; "VGA"; "DVI-I"; "DVI-D"; "DVI-A"; "Composite"; "SVIDEO"; "LVDS";
  "Component"; "9PinDIN"; "DisplayPort"; "HDMI-A"; "HDMI-B"; "TV"; "eDP"; "Virtual"; "DSI"]%string.

Section Kms.
Context `{FourccCodes} `{KmsDriver}.

Abbreviation kprog := (prog kms_world).

(** * Screens *)

(** [kms_screen_create] and [kms_screen_probe]; the name is given later. *)
Definition kms_screen_create (id : Z) : kprog kms_screen :=
  w ← get;
  match drv_connector w id with
  | None => mret (Screen false 0 id 0 0 "")
  | Some con =>
      let '(width, height) := default (0, 0) (hd_error (modes con)) in
      mret (Screen (connection con =? DRM_MODE_CONNECTED) (connector_type con) id width height "")
  end.

(** "%s-%u" *)
Definition numbered (type : string) (n : Z) : string := type +:+ "-" +:+ pretty (Z.to_N n).

(** The loop of [kms_device_probe_screens] over the connectors. *)
Fixpoint name_screens (ids : list Z) (counts : list Z) (acc : list kms_screen) : kprog (list kms_screen) :=
  match ids with
  | [] => mret acc
  | id :: ids =>
      screen ← kms_screen_create id;
      type ← lift (array_get connector_names (screen_type screen));
      count ← lift (array_get counts (screen_type screen));
      let screen := Screen (connected screen) (screen_type screen) (screen_id screen) (screen_width screen)
        (screen_height screen) (numbered type count) in
      name_screens ids (<[Z.to_nat (screen_type screen) := u32 (count + 1)]> counts) (acc ++ [screen])
  end.

Definition kms_device_probe_screens : kprog (list kms_screen) :=
  w ← get;
  match drv_resources w with
  | None => mret []
  | Some (connectors, _) => name_screens connectors (replicate (length connector_names) 0) []
  end.

Definition kms_device_probe_crtcs : kprog (list Z) :=
  w ← get; mret (match drv_resources w with None => [] | Some (_, crtcs) => crtcs end).

(** * Planes *)

(** The first CRTC, from number [i] on, that is possible. *)
Fixpoint first_possible (possible i : Z) (crtcs : list Z) : option Z :=
  match crtcs with
  | [] => None
  | crtc :: crtcs =>
      if negb (Z.land possible (u32 (Z.shiftl 1 i)) =? 0) then Some crtc else first_possible possible (i + 1) crtcs
  end.

(** The value of the last property called "type", or [type]. *)
Fixpoint type_property (w : kms_world) (props : list (Z * Z)) (type : Z) : Z :=
  match props with
  | [] => type
  | (id, value) :: props =>
      type_property w props (if bool_decide (drv_property w id = Some "type"%string) then u32 value else type)
  end.

(** [kms_plane_create] and [kms_plane_probe], whose errors are not looked at. *)
Definition kms_plane_create (crtcs : list Z) (id : Z) : kprog kms_plane :=
  w ← get;
  match drv_plane w id with
  | None => mret (Plane None 0 id [])
  | Some p =>
      let crtc_id := if p_crtc_id p =? 0 then default 0 (first_possible (possible_crtcs p) 0 crtcs) else p_crtc_id p in
      let crtc := if bool_decide (crtc_id ∈ crtcs) then Some crtc_id else None in
      match drv_properties w id with
      | None => mret (Plane crtc 0 id (p_formats p))
      | Some props => mret (Plane crtc (type_property w props 0) id (p_formats p))
      end
  end.

Fixpoint create_planes (crtcs : list Z) (ids : list Z) : kprog (list kms_plane) :=
  match ids with
  | [] => mret []
  | id :: ids => plane ← kms_plane_create crtcs id; planes ← create_planes crtcs ids; mret (plane :: planes)
  end.

Definition kms_device_probe_planes (crtcs : list Z) : kprog (list kms_plane) :=
  w ← get;
  match drv_plane_resources w with None => mret [] | Some ids => create_planes crtcs ids end.

Definition kms_plane_supports_format (plane : kms_plane) (format : Z) : bool :=
  existsb (fun f => f =? format) (plane_formats plane).

(** * The device *)

Definition kms_device_open : kprog kms_device :=
  screens ← kms_device_probe_screens;
  crtcs ← kms_device_probe_crtcs;
  planes ← kms_device_probe_planes crtcs;
  mret (Device screens crtcs planes).

(** [close], which is an error on a descriptor that is not open. *)
Definition close_fd : kprog unit :=
  w ← get; modify (logged (CloseFd (fd_open w)));;
  modify (fun w => KmsWorld (handles w) (fbs w) false (events w)).

(** The structures are freed; the descriptor is closed. *)
Definition kms_device_close : kprog unit := close_fd.

Fixpoint find_plane (type : Z) (index : nat) (planes : list kms_plane) : option kms_plane :=
  match planes with
  | [] => None
  | plane :: planes =>
      if plane_type plane =? type then
        match index with O => Some plane | S index => find_plane type index planes end
      else find_plane type index planes
  end.
Definition kms_device_find_plane_by_type (device : kms_device) (type : Z) (index : nat) : option kms_plane :=
  find_plane type index (planes device).

(** * Framebuffers *)

Definition destroy_dumb (handle : Z) : kprog unit :=
  modify (logged (DestroyDumb handle));;
  modify (fun w => KmsWorld (remove Z.eq_dec handle (handles w)) (fbs w) (fd_open w) (events w)).

Definition kms_framebuffer_free (fb : kms_framebuffer) : kprog unit :=
  when (negb (fb_id fb =? 0))
    (modify (logged (RmFB (fb_id fb)));;
     modify (fun w => KmsWorld (handles w) (remove Z.eq_dec (fb_id fb) (fbs w)) (fd_open w) (events w)));;
  destroy_dumb (fb_handle fb).

Definition kms_framebuffer_create (width height format : Z) : kprog (option kms_framebuffer) :=
  if negb (format =? fourcc DRM_FORMAT_ARGB8888) then mret None
  else
    w ← get;
    let got := drv_create_dumb w width height 32 in
    modify (logged (CreateDumb width height 32 got));;
    match got with
    | None => mret None
    | Some (handle, pitch, size) =>
        modify (fun w => KmsWorld (handle :: handles w) (fbs w) (fd_open w) (events w));;
        w ← get;
        let id := drv_add_fb w handle in
        modify (logged (AddFB width height handle pitch id));;
        match id with
        | None =>
            kms_framebuffer_free (Framebuffer width height pitch format size handle 0 None);; mret None
        | Some id =>
            modify (fun w => KmsWorld (handles w) (id :: fbs w) (fd_open w) (events w));;
            mret (Some (Framebuffer width height pitch format size handle id None))
        end
    end.

(** The pixels and the mapped framebuffer, or nothing when mapping fails. *)
Definition kms_framebuffer_map (fb : kms_framebuffer) : kprog (option (mem * kms_framebuffer)) :=
  match fb_ptr fb with
  | Some m => mret (Some (m, fb))
  | None =>
      w ← get;
      match drv_map w (fb_handle fb) with
      | None => mret None
      | Some m =>
          mret (Some (m, Framebuffer (fb_width fb) (fb_height fb) (fb_pitch fb) (fb_format fb) (fb_size fb)
            (fb_handle fb) (fb_id fb) (Some m)))
      end
  end.

Definition kms_framebuffer_unmap (fb : kms_framebuffer) : kms_framebuffer :=
  Framebuffer (fb_width fb) (fb_height fb) (fb_pitch fb) (fb_format fb) (fb_size fb) (fb_handle fb) (fb_id fb) None.

(** * Showing *)

(** A plane without a CRTC, or no framebuffer, is a NULL pointer that is followed.  The result
    is only that of the call. *)
Definition kms_plane_set (plane : kms_plane) (fb : kms_framebuffer) (x y : Z) : kprog Z :=
  match plane_crtc plane with
  | None => stop OutOfBounds
  | Some crtc =>
      w ← get;
      let ret := drv_set_plane w (plane_id plane) crtc (fb_id fb) in
      modify (logged (SetPlane (plane_id plane) crtc (fb_id fb) x y (fb_width fb) (fb_height fb) ret));;
      mret (if ret <? 0 then ret else 0)
  end.

Definition kms_screen_set (screen : kms_screen) (crtc : Z) (fb : option kms_framebuffer) : kprog Z :=
  match fb with
  | None => stop OutOfBounds
  | Some fb =>
      w ← get;
      let ret := drv_set_crtc w crtc (fb_id fb) (screen_id screen) in
      modify (logged (SetCrtc crtc (fb_id fb) (screen_id screen) ret));;
      mret (if ret <? 0 then ret else 0)
  end.
End Kms.

(** * The names of the screens *)

Lemma pretty_app_inj (a : string) n n' : a +:+ pretty n = a +:+ pretty (A := N) n' -> n = n'.
Proof.
  induction a as [|c a IH]; [apply (inj pretty)|]. intros [= Heq]. by apply IH.
Qed.

(** No name of a type followed by a dash begins another one. *)
Lemma numbered_inj t t' n n' :
  t ∈ connector_names -> t' ∈ connector_names -> 0 <= n -> 0 <= n' ->
  numbered t n = numbered t' n' -> t = t' /\ n = n'.
Proof.
  intros Ht Ht' Hn Hn' Heq. assert (t = t') as ->.
  { unfold connector_names in Ht, Ht'. rewrite !elem_of_cons, elem_of_nil in Ht, Ht'. unfold numbered in Heq.
    destruct_or?; subst; (reflexivity || discriminate Heq || done). }
  split; [done|]. unfold numbered in Heq.
  assert (Hp : forall (a : string) x y, a +:+ x = a +:+ y -> x = y).
  { intros a x y. induction a as [|c a IH]; [done|]. intros [= H]. by apply IH. }
  apply Hp in Heq. apply (pretty_app_inj "-") in Heq. lia.
Qed.

Section Names.
Context `{FourccCodes} `{KmsDriver}.

(** The names given so far, each from its type and a number below the type's counter. *)
Record named (counts : list Z) (acc : list kms_screen) : Prop := Named {
  named_counts : length counts = length connector_names;
  named_bound : forall t c, counts !! t = Some c -> 0 <= c <= Z.of_nat (length acc);
  named_from : forall s, s ∈ acc -> exists t type c n, connector_names !! t = Some type /\ counts !! t = Some c /\
    screen_name s = numbered type n /\ 0 <= n < c;
  named_once : NoDup (screen_name <$> acc) }.

Lemma connector_names_inj t t' type : connector_names !! t = Some type -> connector_names !! t' = Some type -> t = t'.
Proof.
  intros Ht Ht'. assert (Hnd : NoDup connector_names) by (apply (bool_decide_unpack _); vm_compute; exact I).
  by eapply NoDup_lookup.
Qed.

Lemma named_step counts acc s t type count :
  named counts acc -> connector_names !! t = Some type -> counts !! t = Some count ->
  Z.of_nat (length acc) + 1 < 2 ^ 32 -> screen_name s = numbered type count ->
  named (<[t := u32 (count + 1)]> counts) (acc ++ [s]).
Proof.
  intros [H1 H2 H3 H4] Ht Hc Hl Hs. pose proof (H2 _ _ Hc) as Hb. rewrite u32_id by lia.
  assert (Htl : (t < length counts)%nat) by (by eapply lookup_lt_Some). split.
  - by rewrite length_insert.
  - intros t' c Hc'. rewrite length_app. cbn [length]. apply list_lookup_insert_Some in Hc' as [(<- & <- & _)|[_ Hc']]; [lia|].
    specialize (H2 _ _ Hc'). lia.
  - intros x Hx. apply elem_of_app in Hx as [Hx| ->%list_elem_of_singleton].
    + destruct (H3 x Hx) as (t' & type' & c & n & G1 & G2 & G3 & G4). destruct (decide (t' = t)) as [->|Hne].
      * exists t, type', (count + 1), n. rewrite list_lookup_insert_eq by done. split_and!; try done; [lia|]. 
        assert (c = count) by congruence. lia.
      * exists t', type', c, n. by rewrite list_lookup_insert_ne.
    + exists t, type, (count + 1), count. rewrite list_lookup_insert_eq by done. split_and!; (done || lia).
  - rewrite fmap_app. apply NoDup_app. split; [done|]. split; [|apply NoDup_singleton].
    intros name Hname Hin. cbn in Hin. apply list_elem_of_singleton in Hin. subst name.
    apply list_elem_of_fmap in Hname as (x & Hxn & Hx). destruct (H3 x Hx) as (t' & type' & c & n & G1 & G2 & G3 & G4).
    rewrite Hs, G3 in Hxn. apply numbered_inj in Hxn as [-> ->]; try (lia || by eapply list_elem_of_lookup_2).
    assert (t' = t) as -> by (by eapply connector_names_inj). assert (c = n) by congruence. lia.
Qed.

Lemma name_screens_ok ids counts acc w :
  named counts acc -> Z.of_nat (length acc + length ids) < 2 ^ 32 ->
  wp (name_screens ids counts acc) w (fun o w' => w' = w /\
    match o with
    | Ok screens => NoDup (screen_name <$> screens) /\ screen_id <$> screens = (screen_id <$> acc) ++ ids
    | Fault e => e = OutOfBounds /\ exists id con, id ∈ ids /\ drv_connector w id = Some con /\
        ~ 0 <= connector_type con < 17
    end).
Proof.
  revert counts acc. induction ids as [|id ids IH]; intros counts acc Hn Hl; cbn [name_screens].
  { wstep. split; [done|]. split; [apply Hn|by rewrite app_nil_r]. }
  wstep. unfold kms_screen_create. do 2 wstep.
  set (con := drv_connector w id). 
  assert (Hwp : forall (screen : kms_screen),
    screen_id screen = id -> (0 <= screen_type screen < 17 \/
      exists c, con = Some c /\ connector_type c = screen_type screen) ->
    wp (type ← lift (array_get connector_names (screen_type screen));
        count ← lift (array_get counts (screen_type screen));
        let screen := Screen (connected screen) (screen_type screen) (screen_id screen) (screen_width screen)
          (screen_height screen) (numbered type count) in
        name_screens ids (<[Z.to_nat (screen_type screen) := u32 (count + 1)]> counts) (acc ++ [screen])) w
      (fun o w' => w' = w /\
        match o with
        | Ok screens => NoDup (screen_name <$> screens) /\ screen_id <$> screens = (screen_id <$> acc) ++ id :: ids
        | Fault e => e = OutOfBounds /\ exists id' con, id' ∈ id :: ids /\ drv_connector w id' = Some con /\
            ~ 0 <= connector_type con < 17
        end)).
  { intros screen Hid Htype. destruct (decide (0 <= screen_type screen < 17)) as [Hr|Hr].
    - destruct (array_get_ok connector_names (screen_type screen)) as (type & Hget & Hlk); [cbn; lia|].
      destruct (array_get_ok counts (screen_type screen)) as (count & Hget2 & Hlk2);
        [rewrite (named_counts _ _ Hn); cbn; lia|].
      wstep. rewrite Hget. wstep. cbn [next]. wstep. rewrite Hget2. wstep. cbn [next].
      eapply wp_mono; [apply IH|].
      + eapply named_step; try done. cbn [length] in Hl. lia.
      + rewrite length_app. cbn [length] in *. lia.
      + intros o w' [-> Ho]. split; [done|]. destruct o as [scr|e].
        * destruct Ho as [Ho1 Ho2]. split; [done|]. rewrite Ho2, fmap_app, <- app_assoc. cbn. by rewrite Hid.
        * destruct Ho as (-> & id' & c & Hin & Hc). split; [done|]. exists id', c. split; [by right|done].
    - destruct Htype as [|(c & Hc & Hct)]; [done|].
      assert (Hg : array_get connector_names (screen_type screen) = Fault OutOfBounds).
      { unfold array_get. destruct (Z.ltb_spec (screen_type screen) 0); [done|].
        rewrite (proj2 (lookup_ge_None _ _)) by (cbn; lia). done. }
      wstep. rewrite Hg. wstep. cbn [next]. split; [done|]. split; [done|]. exists id, c. split; [by left|].
      rewrite Hct. by split. }
  destruct con as [c|] eqn:Hcon; [destruct (default _ _) as [wd ht]|]; wstep; cbn [next].
  - apply Hwp; [done|]. right. by exists c.
  - apply Hwp; [done|]. left. cbn. lia.
Qed.

(** The screens get names of their own, one for each connector in order, such as HDMI-A-0
    and HDMI-A-1; a connector of a type that the table of names does not have makes the probe
    read out of bounds, and nothing else goes wrong. *)
Theorem screens_have_own_names w connectors crtcs :
  drv_resources w = Some (connectors, crtcs) -> Z.of_nat (length connectors) < 2 ^ 32 ->
  wp kms_device_probe_screens w (fun o w' => w' = w /\
    match o with
    | Ok screens => NoDup (screen_name <$> screens) /\ screen_id <$> screens = connectors
    | Fault e => e = OutOfBounds /\ exists id con, id ∈ connectors /\ drv_connector w id = Some con /\
        ~ 0 <= connector_type con < 17
    end).
Proof.
  intros Hres Hl. unfold kms_device_probe_screens. do 2 wstep. rewrite Hres. apply name_screens_ok; [|cbn; lia].
  split; [by rewrite length_replicate| | |constructor].
  - intros t c Hc. apply lookup_replicate in Hc as [-> _]. cbn. lia.
  - intros s Hs. by apply elem_of_nil in Hs.
Qed.
End Names.

(** * Two displays of one type *)

Module TwoDisplays.
#[local] Existing Instance name_codes.
#[local] Instance driver : KmsDriver := {|
  drv_resources _ := Some ([31; 32; 33], [51]);
  drv_connector _ id := Some (DrmConnector (if id =? 32 then 16 else 11) DRM_MODE_CONNECTED [(64, 48)]);
  drv_plane_resources _ := None;
  drv_plane _ _ := None;
  drv_properties _ _ := None;
  drv_property _ _ := None;
  drv_create_dumb _ _ _ _ := None;
  drv_add_fb _ _ := None;
  drv_map _ _ := None;
  drv_set_crtc _ _ _ _ := 0;
  drv_set_plane _ _ _ _ := 0 |}.

Definition at_start : kms_world := KmsWorld [] [] true [].

Lemma screens_have_own_names_witness :
  (exists l, fst (kms_device_probe_screens at_start) = Ok l /\
    screen_name <$> l = ["HDMI-A-0"; "DSI-0"; "HDMI-A-1"]%string) /\
  wp kms_device_probe_screens at_start (fun o w' => w' = at_start /\
    match o with
    | Ok screens => NoDup (screen_name <$> screens) /\ screen_id <$> screens = [31; 32; 33]
    | Fault e => e = OutOfBounds /\ exists id con, id ∈ [31; 32; 33] /\ drv_connector at_start id = Some con /\
        ~ 0 <= connector_type con < 17
    end).
Proof.
  split; [eexists; split; vm_compute; reflexivity|].
  apply (screens_have_own_names at_start [31; 32; 33] [51]); [reflexivity|cbn; lia].
Defined.
End TwoDisplays.
