(* ===== verification/KmsTools.v ===== *)
(** drm/kms/kms-universal-planes.c and drm/kms/kms-steal-crtc.c, the tools on the library of
    KmsLib.v. *)
From Stdlib Require Import ZArith Lia Ascii String.
From stdpp Require Import base list numbers strings.
From S2P Require Import Prelude Mem Raster Format Pattern Libc KmsLib.

#[global] Open Scope Z_scope.

Definition DRM_PLANE_TYPE_OVERLAY : Z := 0.
Definition DRM_PLANE_TYPE_PRIMARY : Z := 1.
Definition DRM_PLANE_TYPE_CURSOR : Z := 2.

(** The system: [open], [drmSetClientCap], and [select] on the standard input, whose answers
    may depend on how often it was asked. *)
Class KmsSystem := { sys_open : Z; sys_set_cap : Z; sys_select : nat -> Z }.

Section Tools.
Context `{FourccCodes} `{KmsDriver} `{KmsSystem}.

Abbreviation kprog := (prog kms_world).

(** * kms-universal-planes.c *)

Definition formats : list Z := [fourcc DRM_FORMAT_ARGB8888].

Definition choose_format (plane : kms_plane) : Z :=
  default 0 (List.find (kms_plane_supports_format plane) formats).

(** Blocks of 16 pixels; [color ^= color] clears the number of the block. *)
Definition block_color (invert : bool) (i j : Z) : Z :=
  let color := Z.lxor (j / 16) (i / 16) in
  let color := if invert then Z.lxor color color else color in
  Z.land color 1.

Definition colors (format : Z) : list Z :=
  if format =? fourcc DRM_FORMAT_ARGB8888 then [0xffff0000; 0xff0000ff] else [0xffffffff; 0xffffffff].

(** The two loops; [buf] runs over the words of the buffer, whatever its pitch. *)
Definition paint_blocks (fb : kms_framebuffer) (invert : bool) (m : mem) : outcome mem :=
  '(_, (_, m)) ← for_lt (fb_height fb) 1 (fun j '(buf, m) =>
    '(_, s) ← for_lt (fb_width fb) 1 (fun i '(buf, m) =>
      color ← array_get (colors (fb_format fb)) (block_color invert i j);
      m ← store_le 4 m buf color;
      Ok (buf + 4, m)) 0 (buf, m);
    Ok s) 0 (0, m);
  Ok m.

Definition prepare_framebuffer (fb : kms_framebuffer) (invert : bool) : kprog kms_framebuffer :=
  mapped ← kms_framebuffer_map fb;
  match mapped with
  | None => mret fb
  | Some (m, fb) =>
      m ← lift (paint_blocks fb invert m);
      modify (logged (Painted (fb_handle fb) m));;
      mret (kms_framebuffer_unmap fb)
  end.

Record plane_options := PlaneOptions { use_cursor : bool; use_overlay : bool; use_primary : bool; verbose : bool }.

Inductive opt := Opt_c | Opt_h | Opt_o | Opt_p | Opt_v | Opt_other.

(** [None]: an unknown option. *)
Fixpoint parse_opts (opts : list opt) (s : plane_options) : option plane_options :=
  match opts with
  | [] => Some s
  | o :: opts =>
      match o with
      | Opt_c => parse_opts opts (PlaneOptions true (use_overlay s) (use_primary s) (verbose s))
      | Opt_h => parse_opts opts s
      | Opt_o => parse_opts opts (PlaneOptions (use_cursor s) true (use_primary s) (verbose s))
      | Opt_p => parse_opts opts (PlaneOptions (use_cursor s) (use_overlay s) true (verbose s))
      | Opt_v => parse_opts opts (PlaneOptions (use_cursor s) (use_overlay s) (use_primary s) true)
      | Opt_other => None
      end
  end.

(** The first plane of a type and its format; [None]: there is none, the program returns 1. *)
Definition plane_and_format (device : kms_device) (type : Z) : option (kms_plane * Z) :=
  match kms_device_find_plane_by_type device type 0 with
  | None => None
  | Some plane => let format := choose_format plane in if format =? 0 then None else Some (plane, format)
  end.

(** The listing follows the CRTC of every plane. *)
Definition list_planes (device : kms_device) : kprog unit :=
  if forallb (fun plane => bool_decide (is_Some (plane_crtc plane))) (planes device) then mret tt else stop OutOfBounds.

(** The middle of the first screen, computed in 32 bits. *)
Definition centred (device : kms_device) (fb : kms_framebuffer) : outcome (Z * Z) :=
  screen ← array_get (screens device) 0;
  Ok (u32 (screen_width screen - fb_width fb) / 2, u32 (screen_height screen - fb_height fb) / 2).

(** The three parts of [main]; [None]: the program returns 1. *)
Definition show_cursor (device : kms_device) : kprog (option kms_framebuffer) :=
  match plane_and_format device DRM_PLANE_TYPE_CURSOR with
  | None => mret None
  | Some (plane, format) =>
      cursor ← kms_framebuffer_create 32 32 format;
      match cursor with
      | None => mret None
      | Some cursor =>
          cursor ← prepare_framebuffer cursor false;
          '(x, y) ← lift (centred device cursor);
          _ ← kms_plane_set plane cursor x y;
          mret (Some cursor)
      end
  end.

(** [root] is what it is before the primary plane is set up. *)
Definition show_overlay (device : kms_device) (root : option kms_framebuffer) : kprog (option kms_framebuffer) :=
  match plane_and_format device DRM_PLANE_TYPE_OVERLAY with
  | None => mret None
  | Some (plane, format) =>
      fb ← kms_framebuffer_create 320 240 format;
      match fb with
      | None => mret None
      | Some fb =>
          fb ← prepare_framebuffer fb false;
          screen ← lift (array_get (screens device) 0);
          crtc ← lift (array_get (crtcs device) 0);
          err ← kms_screen_set screen crtc root;
          if err <? 0 then mret None
          else _ ← kms_plane_set plane fb 0 0; mret (Some fb)
      end
  end.

Definition show_primary (device : kms_device) : kprog (option kms_framebuffer) :=
  match plane_and_format device DRM_PLANE_TYPE_PRIMARY with
  | None => mret None
  | Some (plane, format) =>
      root ← kms_framebuffer_create 480 800 format;
      match root with
      | None => mret None
      | Some root =>
          root ← prepare_framebuffer root true;
          screen ← lift (array_get (screens device) 0);
          crtc ← lift (array_get (crtcs device) 0);
          err ← kms_screen_set screen crtc (Some root);
          if err <? 0 then mret None
          else '(x, y) ← lift (centred device root); _ ← kms_plane_set plane root x y; mret (Some root)
      end
  end.

(** The wait for the standard input, [rounds] times. *)
Fixpoint wait_input (rounds : nat) (n : nat) : kprog unit :=
  match rounds with
  | O => stop NoFuel
  | S rounds => if sys_select n =? 0 then wait_input rounds (S n) else mret tt
  end.

Definition free_some (fb : option kms_framebuffer) : kprog unit :=
  match fb with Some fb => kms_framebuffer_free fb | None => mret tt end.

(** A part is run when it is asked for: its buffer, or the end of the program. *)
Definition part (use : bool) (c : kprog (option kms_framebuffer)) (k : option kms_framebuffer -> kprog Z) : kprog Z :=
  if use then fb ← c; match fb with None => mret 1 | Some fb => k (Some fb) end else k None.

(** [named]: a device is named. *)
Definition universal_planes (rounds : nat) (opts : list opt) (named : bool) : kprog Z :=
  match parse_opts opts (PlaneOptions false false false false) with
  | None => mret 1
  | Some s =>
      if negb named then mret 1
      else if sys_open <? 0 then mret 1
      else
        modify (fun w => KmsWorld (handles w) (fbs w) true (events w));;
        if sys_set_cap <? 0 then mret 1
        else
          device ← kms_device_open;
          when (verbose s) (list_planes device);;
          part (use_cursor s) (show_cursor device) (fun cursor =>
          part (use_overlay s) (show_overlay device None) (fun fb =>
          part (use_primary s) (show_primary device) (fun root =>
            wait_input rounds 0;;
            free_some cursor;; free_some root;; free_some fb;;
            kms_device_close;; close_fd;;
            mret 0)))
  end.

(** * kms-steal-crtc.c *)

(** The loop, [rounds] times; [crtcs[index]] takes its turn on the screen. *)
Fixpoint steal_loop (rounds : nat) (n : nat) (device : kms_device) (screen : kms_screen) (fb : kms_framebuffer)
    (index : Z) : kprog unit :=
  match rounds with
  | O => stop NoFuel
  | S rounds =>
      if negb (sys_select n =? 0) then mret tt
      else
        let index := if Z.of_nat (length (crtcs device)) <=? index then 0 else index in
        crtc ← lift (array_get (crtcs device) index);
        err ← kms_screen_set screen crtc (Some fb);
        if err <? 0 then mret tt else steal_loop rounds (S n) device screen fb (u32 (index + 1))
  end.

(** [named]: a device is named; [action]: [sigaction] succeeds. *)
Definition steal_crtc (rounds : nat) (named action : bool) : kprog Z :=
  if negb named || negb action then mret 1
  else if sys_open <? 0 then mret 1
  else
    modify (fun w => KmsWorld (handles w) (fbs w) true (events w));;
    device ← kms_device_open;
    match screens device with
    | [] => kms_device_close;; close_fd;; mret 1
    | screen :: _ =>
        fb ← kms_framebuffer_create (screen_width screen) (screen_height screen) (fourcc DRM_FORMAT_XRGB8888);
        match fb with
        | None => mret 1
        | Some fb =>
            mapped ← kms_framebuffer_map fb;
            match mapped with
            | None => mret 1
            | Some (m, fb) =>
                m ← lift (util_fill_pattern_run (fb_format fb) UTIL_PATTERN_SMPTE m [Some 0] (fb_width fb) (fb_height fb)
                  (fb_pitch fb));
                modify (logged (Painted (fb_handle fb) m));;
                let fb := kms_framebuffer_unmap fb in
                crtc ← lift (array_get (crtcs device) 0);
                err ← kms_screen_set screen crtc (Some fb);
                if err <? 0 then mret 1
                else
                  steal_loop rounds 0 device screen fb 1;;
                  kms_framebuffer_free fb;;
                  kms_device_close;; close_fd;;
                  mret 0
            end
        end
    end.
End Tools.

(** * The chessboard *)

Section Blocks.
Context `{FourccCodes}.

(** The colour of column [x] of line [y]: red and blue blocks of 16 pixels, or all red. *)
Definition board (invert : bool) (y x : Z) : Z :=
  if invert then 0xffff0000 else if Z.even (y / 16 + x / 16) then 0xffff0000 else 0xff0000ff.

Lemma block_color_board fb invert i j :
  fb_format fb = fourcc DRM_FORMAT_ARGB8888 -> 0 <= i -> 0 <= j ->
  array_get (colors (fb_format fb)) (block_color invert i j) = Ok (board invert j i).
Proof.
  intros Hf Hi Hj. unfold colors. rewrite Hf, Z.eqb_refl. unfold block_color, board. destruct invert.
  { rewrite Z.lxor_nilpotent. reflexivity. }
  assert (Hl : Z.land (Z.lxor (j / 16) (i / 16)) 1 = if Z.even (j / 16 + i / 16) then 0 else 1).
  { rewrite (Z.land_ones _ 1) by lia. change (2 ^ 1) with 2. rewrite <- Z.bit0_mod, Z.lxor_spec, !Z.bit0_odd.
    rewrite Z.even_add, <- !Z.negb_odd. by destruct (Z.odd (j / 16)), (Z.odd (i / 16)). }
  rewrite Hl. by destruct (Z.even _).
Qed.

(** On a mapping without padding the test picture is a chessboard of red and blue blocks of
    16 pixels, inverted all red; the painting returns and stays in the mapping. *)
Theorem paint_blocks_board fb invert m :
  fb_format fb = fourcc DRM_FORMAT_ARGB8888 -> 0 <= fb_width fb < 2147483648 -> 0 <= fb_height fb < 2147483648 ->
  4 * (fb_width fb * fb_height fb) <= msize m ->
  returns (paint_blocks fb invert m)
    (painted 0 (4 * fb_width fb) 4 (fb_width fb) (fb_height fb) (board invert) m).
Proof.
  intros Hf Hw Hh Hm. unfold paint_blocks. set (w := fb_width fb) in *. set (h := fb_height fb) in *.
  apply returns_bind. eapply returns_mono.
  - eapply (for_lt_returns1 (fun j '(buf, m') => buf = j * (4 * w) /\
      raster 0 (4 * w) 4 4 (board invert) m (scanned w j 0) m')); [lia|lia| |].
    + split; [lia|]. apply raster_start.
    + intros j [buf m1] Hj [-> Hr]. apply returns_bind. eapply returns_mono.
      * eapply (for_lt_returns1 (fun i '(buf, m') => buf = j * (4 * w) + 4 * i /\
          raster 0 (4 * w) 4 4 (board invert) m (scanned w j i) m')); [lia|lia| |].
        -- split; [lia|done].
        -- intros i [buf m2] Hi [-> Hr2]. rewrite block_color_board by (done || lia). cbn [mbind outcome_bind].
           replace (j * (4 * w) + 4 * i) with (pixel_addr 0 (4 * w) 4 j i) at 1 by (unfold pixel_addr; lia).
           rstep (raster_scan 0 (4 * w) 4 4 w (board invert) m); try lia; [unfold pixel_addr; nia|exact Hr2|].
           intros m3 Hr3. cbn. split; [lia|exact Hr3].
      * intros [i [buf m2]] (-> & -> & Hr2). cbn. split; [lia|]. eapply raster_next_line; [|lia|exact Hr2]. lia.
  - intros [j [buf m1]] (-> & -> & Hr). cbn. rewrite Z.max_r in Hr by lia. by apply raster_painted.
Qed.
End Blocks.

(** * What the tools leave behind *)

(** New buffers have handles that are not in use, and new framebuffers ids that are not in use
    and not 0. *)
Class KmsLaws `(D : KmsDriver) : Prop := {
  dumb_fresh w a b c handle pitch size : drv_create_dumb w a b c = Some (handle, pitch, size) -> (handle ∉ handles w);
  fb_fresh w handle id : drv_add_fb w handle = Some id -> (id ∉ fbs w) /\ id <> 0 }.

(** Since [w0] the program has created, and not freed, these framebuffers, newest first. *)
Record holds (l : list kms_framebuffer) (w0 w : kms_world) : Prop := Holds {
  holds_handles : handles w = (fb_handle <$> l) ++ handles w0;
  holds_fbs : fbs w = (fb_id <$> l) ++ fbs w0;
  holds_ids : Forall (fun fb => fb_id fb <> 0) l;
  holds_handles_new : NoDup (fb_handle <$> l) /\ forall fb, fb ∈ l -> fb_handle fb ∉ handles w0;
  holds_fbs_new : NoDup (fb_id <$> l) /\ forall fb, fb ∈ l -> fb_id fb ∉ fbs w0 }.

Lemma holds_start w : holds [] w w.
Proof. repeat split; try constructor; intros fb Hfb; by apply elem_of_nil in Hfb. Qed.

(** The same buffers are there. *)
Definition same_buffers (w w' : kms_world) : Prop := handles w' = handles w /\ fbs w' = fbs w.
#[global] Instance same_buffers_preorder : PreOrder same_buffers.
Proof. split; [by split|]. intros w1 w2 w3 [H1 H2] [H3 H4]. split; congruence. Qed.

Lemma same_buffers_logged e w : same_buffers w (logged e w).
Proof. by split. Qed.
#[export] Hint Resolve same_buffers_logged : preserves.

Lemma holds_same l w0 w w' : same_buffers w w' -> holds l w0 w -> holds l w0 w'.
Proof. intros [H1 H2] [G1 G2 G3 G4 G5]. by split; rewrite ?H1, ?H2. Qed.

(** A framebuffer with other pixels. *)
Definition same_fb (fb fb' : kms_framebuffer) : Prop := fb_handle fb' = fb_handle fb /\ fb_id fb' = fb_id fb.

Lemma holds_fb l w0 w fb fb' : same_fb fb fb' -> holds (fb :: l) w0 w -> holds (fb' :: l) w0 w.
Proof.
  intros [H1 H2] [G1 G2 G3 [G4 G4'] [G5 G5']]. split; cbn in *; rewrite ?H1, ?H2; try done.
  - inversion G3; subst. constructor; [by rewrite H2|done].
  - split; [done|]. intros x [->|Hx]%elem_of_cons; [rewrite H1; apply G4'; by left|apply G4'; by right].
  - split; [done|]. intros x [->|Hx]%elem_of_cons; [rewrite H2; apply G5'; by left|apply G5'; by right].
Qed.

Lemma remove_notin (x : Z) l : x ∉ l -> remove Z.eq_dec x l = l.
Proof. intros Hx. apply notin_remove. by rewrite <- list_elem_of_In. Qed.

Lemma remove_middle (x : Z) l1 l2 : x ∉ l1 -> x ∉ l2 -> remove Z.eq_dec x (l1 ++ x :: l2) = l1 ++ l2.
Proof.
  intros H1 H2. rewrite remove_app, remove_cons, !remove_notin by done. done.
Qed.

Section Rules.
Context `{FourccCodes} `{HL : KmsLaws}.

Lemma wp_framebuffer_free l1 fb l2 w0 w (Q : outcome unit -> kms_world -> Prop) :
  holds (l1 ++ fb :: l2) w0 w -> (forall w', holds (l1 ++ l2) w0 w' -> Q (Ok tt) w') ->
  wp (kms_framebuffer_free fb) w Q.
Proof.
  intros [H1 H2 H3 [H4 H4'] [H5 H5']] HQ. unfold kms_framebuffer_free, destroy_dumb.
  rewrite fmap_app, fmap_cons in *. 
  apply NoDup_app in H4 as (Ha & Hb & Hc). apply NoDup_cons in Hc as [Hd He].
  apply NoDup_app in H5 as (Ia & Ib & Ic). apply NoDup_cons in Ic as [Id Ie].
  apply Forall_app in H3 as [Ja Jb]. inversion Jb as [|? ? Jc Jd]; subst.
  rewrite (proj2 (Z.eqb_neq _ _)) by done. cbn [negb when]. repeat wstep. apply HQ.
  assert (Hin : fb ∈ l1 ++ fb :: l2) by (apply elem_of_app; right; by left).
  split; cbn [handles fbs logged].
  - rewrite H1, <- app_assoc. cbn. rewrite remove_middle, fmap_app, app_assoc; [done| |].
    + intros Hx. by apply (Hb _ Hx); left.
    + rewrite elem_of_app. intros [Hx|Hx]; [done|]. by apply (H4' fb Hin).
  - rewrite H2, <- app_assoc. cbn. rewrite remove_middle, fmap_app, app_assoc; [done| |].
    + intros Hx. by apply (Ib _ Hx); left.
    + rewrite elem_of_app. intros [Hx|Hx]; [done|]. by apply (H5' fb Hin).
  - by apply Forall_app.
  - split.
    + rewrite fmap_app. apply NoDup_app. split; [done|]. split; [|done]. intros x Hx Hy. apply (Hb x Hx). by right.
    + intros x Hx. apply H4'. rewrite elem_of_app, elem_of_cons. rewrite elem_of_app in Hx. tauto.
  - split.
    + rewrite fmap_app. apply NoDup_app. split; [done|]. split; [|done]. intros x Hx Hy. apply (Ib x Hx). by right.
    + intros x Hx. apply H5'. rewrite elem_of_app, elem_of_cons. rewrite elem_of_app in Hx. tauto.
Qed.

Lemma wp_create a b format l w0 w (Q : outcome (option kms_framebuffer) -> kms_world -> Prop) :
  holds l w0 w -> (forall w', holds l w0 w' -> Q (Ok None) w') ->
  (forall fb w', holds (fb :: l) w0 w' -> Q (Ok (Some fb)) w') ->
  wp (kms_framebuffer_create a b format) w Q.
Proof.
  intros Hw Hnone Hsome. unfold kms_framebuffer_create. destruct (negb _); [wstep; by apply Hnone|].
  do 4 wstep. destruct (drv_create_dumb w a b 32) as [[[handle pitch] size]|] eqn:Hc; [|wstep; apply Hnone; (eapply holds_same; [|exact Hw]); by split].
  pose proof (dumb_fresh _ _ _ _ _ _ _ Hc) as Hf. do 4 wstep.
  destruct (drv_add_fb _ handle) as [id|] eqn:Hid; repeat wstep.
  - destruct (fb_fresh _ _ _ Hid) as [Hif Hi0]. cbn in Hif. apply Hsome.
    destruct Hw as [H1 H2 H3 [H4 H4'] [H5 H5']]. rewrite H1 in Hf. rewrite H2 in Hif.
    rewrite elem_of_app in Hf, Hif. split; cbn.
    + by rewrite H1.
    + by rewrite H2.
    + by constructor.
    + split; [constructor; [tauto|done]|]. intros x [->|Hx]%elem_of_cons; [cbn; tauto|by apply H4'].
    + split; [constructor; [tauto|done]|]. intros x [->|Hx]%elem_of_cons; [cbn; tauto|by apply H5'].
  - cbn [next]. unfold kms_framebuffer_free, destroy_dumb. cbn [fb_id fb_handle negb Z.eqb when]. repeat wstep.
    apply Hnone. eapply holds_same; [|exact Hw]. split; cbn; [|done].
    destruct (Z.eq_dec handle handle); [|done]. by apply remove_notin.
Qed.
End Rules.

Section Runs.
Context `{FourccCodes} `{HL : KmsLaws} `{KmsSystem}.

Lemma preserves_plane_set plane fb x y : preserves same_buffers (kms_plane_set plane fb x y).
Proof. unfold kms_plane_set. preserves_tac. Qed.
Lemma preserves_screen_set screen crtc fb : preserves same_buffers (kms_screen_set screen crtc fb).
Proof. unfold kms_screen_set. preserves_tac. Qed.
Lemma preserves_list_planes device : preserves same_buffers (list_planes device).
Proof. unfold list_planes. preserves_tac. Qed.
Lemma preserves_wait_input rounds n : preserves same_buffers (wait_input rounds n).
Proof. revert n. induction rounds as [|rounds IH]; intros n; cbn [wait_input]; preserves_tac. Qed.
Lemma preserves_name_screens ids counts acc : preserves eq (name_screens ids counts acc).
Proof.
  revert counts acc. induction ids as [|id ids IH]; intros counts acc; cbn [name_screens]; [preserves_tac|].
  unfold kms_screen_create. preserves_tac.
Qed.
Lemma preserves_create_planes crtcs ids : preserves eq (create_planes crtcs ids).
Proof.
  induction ids as [|id ids IH]; cbn [create_planes]; [preserves_tac|].
  unfold kms_plane_create. preserves_tac.
Qed.
Lemma preserves_device_open : preserves eq kms_device_open.
Proof.
  unfold kms_device_open, kms_device_probe_screens, kms_device_probe_crtcs, kms_device_probe_planes.
  preserves_tac; auto using preserves_name_screens, preserves_create_planes.
Qed.

Lemma wp_same {A} (c : prog kms_world A) l w0 w (Q : outcome A -> kms_world -> Prop) :
  preserves same_buffers c -> holds l w0 w -> (forall o w', holds l w0 w' -> Q o w') -> wp c w Q.
Proof. intros Hc Hw HQ. eapply wp_mono; [apply Hc|]. intros o w' Hs. apply HQ. exact (holds_same _ _ _ _ Hs Hw). Qed.

Lemma prepare_same fb invert w :
  wp (prepare_framebuffer fb invert) w (fun o w' => same_buffers w w' /\ forall fb', o = Ok fb' -> same_fb fb fb').
Proof.
  unfold prepare_framebuffer, kms_framebuffer_map. wstep.
  assert (Hrest : forall m fb1, same_fb fb fb1 ->
    wp (m ← lift (paint_blocks fb1 invert m);
        modify (logged (Painted (fb_handle fb1) m));; mret (kms_framebuffer_unmap fb1)) w
      (fun o w' => same_buffers w w' /\ forall fb', o = Ok fb' -> same_fb fb fb')).
  { intros m fb1 Hfb. wstep. wstep. destruct (paint_blocks _ _ _); cbn [next]; [|done].
    repeat wstep. split; [apply same_buffers_logged|]. by intros fb' [= <-]. }
  destruct (fb_ptr fb) as [m|]; [wstep; by apply Hrest|]. do 2 wstep.
  destruct (drv_map _ _); wstep; [by apply Hrest|]. repeat wstep. split; [done|]. by intros fb' [= <-].
Qed.

(** A part that comes back with a buffer has created it. *)
Definition shows (c : prog kms_world (option kms_framebuffer)) : Prop := forall l w0 w,
  holds l w0 w -> wp c w (fun o w' => forall fb, o = Ok (Some fb) -> holds (fb :: l) w0 w').

Lemma wp_prepare fb invert l w0 w (Q : outcome kms_framebuffer -> kms_world -> Prop) :
  holds (fb :: l) w0 w -> (forall fb' w', holds (fb' :: l) w0 w' -> Q (Ok fb') w') -> (forall e w', Q (Fault e) w') ->
  wp (prepare_framebuffer fb invert) w Q.
Proof.
  intros Hw HQ He. eapply wp_mono; [apply prepare_same|]. intros [fb'|e] w' [Hs Hfb]; [|apply He].
  apply HQ. eapply holds_fb; [by apply Hfb|]. exact (holds_same _ _ _ _ Hs Hw).
Qed.

Lemma show_cursor_shows device : shows (show_cursor device).
Proof.
  intros l w0 w Hw. unfold show_cursor. destruct (plane_and_format _ _) as [[plane format]|]; [|by wstep].
  wstep. eapply wp_create; [exact Hw| |]; clear w Hw; [intros w _; cbn [next]; by wstep|].
  intros fb w Hw. cbn [next]. wstep. eapply wp_prepare; [exact Hw| |done]. clear w Hw. intros fb' w Hw. cbn [next].
  wstep. wstep. destruct (centred device fb') as [[x y]|]; cbn [next]; [|done].
  wstep. eapply wp_same; [apply preserves_plane_set|exact Hw|]. clear w Hw. intros [o|e] w Hw; cbn [next]; [|done].
  wstep. by intros fb2 [= <-].
Qed.

Lemma show_primary_shows device : shows (show_primary device).
Proof.
  intros l w0 w Hw. unfold show_primary. destruct (plane_and_format _ _) as [[plane format]|]; [|by wstep].
  wstep. eapply wp_create; [exact Hw| |]; clear w Hw; [intros w _; cbn [next]; by wstep|].
  intros fb w Hw. cbn [next]. wstep. eapply wp_prepare; [exact Hw| |done]. clear w Hw. intros fb' w Hw. cbn [next].
  wstep. wstep. destruct (array_get (screens device) 0) as [screen|]; cbn [next]; [|done].
  wstep. wstep. destruct (array_get (crtcs device) 0) as [crtc|]; cbn [next]; [|done].
  wstep. eapply wp_same; [apply preserves_screen_set|exact Hw|]. clear w Hw. intros [err|e] w Hw; cbn [next]; [|done].
  destruct (err <? 0); [by wstep|]. wstep. wstep. destruct (centred device fb') as [[x y]|]; cbn [next]; [|done].
  wstep. eapply wp_same; [apply preserves_plane_set|exact Hw|]. clear w Hw. intros [o|e] w Hw; cbn [next]; [|done].
  wstep. by intros fb2 [= <-].
Qed.

(** The overlay part sets a screen to the primary framebuffer, which is still NULL. *)
Lemma show_overlay_never device w :
  wp (show_overlay device None) w (fun o _ => forall fb, o <> Ok (Some fb)).
Proof.
  unfold show_overlay. destruct (plane_and_format _ _) as [[plane format]|]; [|by wstep].
  wstep. apply wp_intro. intros [[fb|]|e] w1 _; cbn [next]; [|by wstep|done].
  wstep. apply wp_intro. intros [fb'|e] w2 _; cbn [next]; [|done]. wstep. wstep.
  destruct (array_get (screens device) 0) as [screen|]; cbn [next]; [|done]. wstep. wstep.
  destruct (array_get (crtcs device) 0) as [crtc|]; cbn [next]; [|done]. wstep. unfold kms_screen_set. by wstep.
Qed.

Lemma wp_close_fd w (Q : outcome unit -> kms_world -> Prop) :
  Q (Ok tt) (KmsWorld (handles w) (fbs w) false (CloseFd (fd_open w) :: events w)) -> wp close_fd w Q.
Proof. intros HQ. unfold close_fd. repeat wstep. exact HQ. Qed.

(** What a run comes to when it comes back with 0. *)
Definition closed_up (w0 : kms_world) (o : outcome Z) (w : kms_world) : Prop :=
  o = Ok 0 -> handles w = handles w0 /\ fbs w = fbs w0 /\ exists open_ evs, events w = CloseFd false :: CloseFd open_ :: evs.

(** Freeing what is there, the older one first, and closing. *)
Lemma wp_finish (cursor root : option kms_framebuffer) l w0 w :
  l = option_list root ++ option_list cursor -> holds l w0 w ->
  wp (free_some cursor;; free_some root;; free_some None;; kms_device_close;; close_fd;; mret 0) w (closed_up w0).
Proof.
  intros -> Hw. wstep.
  assert (Hroot : forall w, holds (option_list root) w0 w ->
    wp (free_some root;; free_some None;; kms_device_close;; close_fd;; mret 0) w (closed_up w0)).
  { clear w Hw. intros w Hw. wstep.
    assert (Hend : forall w, holds [] w0 w -> wp (free_some None;; kms_device_close;; close_fd;; mret 0) w (closed_up w0)).
    { clear w Hw. intros w [Hh Hf _ _ _]. wstep. cbn [free_some]. wstep. wstep. apply wp_close_fd. cbn [next]. wstep.
      apply wp_close_fd. cbn [next]. wstep. intros _. cbn. split_and!; [done|done|]. by eexists _, _. }
    destruct root as [fb|]; cbn [free_some option_list] in *; [|wstep; by apply Hend].
    eapply (wp_framebuffer_free [] fb []); [exact Hw|]. intros w' Hw'. by apply Hend. }
  destruct cursor as [fb|]; cbn [free_some option_list] in *; [|rewrite app_nil_r in Hw; wstep; by apply Hroot].
  eapply (wp_framebuffer_free (option_list root) fb []); [exact Hw|]. intros w' Hw'. rewrite app_nil_r in Hw'. by apply Hroot.
Qed.

(** C24: the planes tool comes back with 0 only when no overlay is asked for, and then it has
    destroyed every buffer and framebuffer it created, and closed the device twice; asked for an
    overlay it sets the screen to the primary framebuffer before there is one. *)
Theorem universal_planes_ends rounds opts s device_named w :
  parse_opts opts (PlaneOptions false false false false) = Some s ->
  wp (universal_planes rounds opts device_named) w (fun o w' => o = Ok 0 ->
    use_overlay s = false /\ handles w' = handles w /\ fbs w' = fbs w /\
    exists open_ evs, events w' = CloseFd false :: CloseFd open_ :: evs).
Proof.
  intros Hs. unfold universal_planes. rewrite Hs.
  destruct (negb device_named); [by wstep|]. destruct (sys_open <? 0); [by wstep|]. do 2 wstep.
  destruct (sys_set_cap <? 0); [by wstep|]. wstep.
  eapply wp_mono; [apply preserves_device_open|]. intros [device|e] w1 <-; cbn [next]; [|done].
  pose proof (holds_start w) as Hw. eapply (holds_same _ _ _ (KmsWorld (handles w) (fbs w) true (events w))) in Hw; [|done].
  wstep. eapply wp_same; [apply preserves_when; [apply _|apply preserves_list_planes]|exact Hw|].
  clear Hw. intros [[]|e] w1 Hw; cbn [next]; [|done].
  assert (Hoverlay : forall cursor l w1, (l = option_list cursor) -> holds l w w1 ->
    wp (part (use_overlay s) (show_overlay device None) (fun fb =>
          part (use_primary s) (show_primary device) (fun root =>
            wait_input rounds 0;; free_some cursor;; free_some root;; free_some fb;;
            kms_device_close;; close_fd;; mret 0))) w1
      (fun o w' => o = Ok 0 -> use_overlay s = false /\ handles w' = handles w /\ fbs w' = fbs w /\
        exists open_ evs, events w' = CloseFd false :: CloseFd open_ :: evs)).
  { clear w1 Hw. intros cursor l w1 Hl Hw. unfold part at 1. destruct (use_overlay s).
    { wstep. eapply wp_mono; [apply show_overlay_never|]. intros [[fb|]|e] w2 Hno; cbn [next]; [by destruct (Hno fb)|by wstep|done]. }
    assert (Hwait : forall root w1, holds (option_list root ++ option_list cursor) w w1 ->
      wp (wait_input rounds 0;; free_some cursor;; free_some root;; free_some None;; kms_device_close;; close_fd;; mret 0) w1
        (fun o w' => o = Ok 0 -> false = false /\ handles w' = handles w /\ fbs w' = fbs w /\
          exists open_ evs, events w' = CloseFd false :: CloseFd open_ :: evs)).
    { clear w1 Hw. intros root w1 Hw. wstep. eapply wp_same; [apply preserves_wait_input|exact Hw|].
      clear w1 Hw. intros [[]|e] w1 Hw; cbn [next]; [|done].
      eapply wp_mono; [eapply wp_finish; [reflexivity|exact Hw]|]. intros o w2 Hc Ho. split; [done|]. by apply Hc. }
    unfold part. destruct (use_primary s); [|by apply (Hwait None); subst l].
    wstep. eapply wp_mono; [by eapply show_primary_shows|]. intros [[root|]|e] w2 Hr; cbn [next]; [|by wstep|done].
    apply (Hwait (Some root)). subst l. by apply Hr. }
  unfold part at 1. destruct (use_cursor s); [|by eapply (Hoverlay None)].
  wstep. eapply wp_mono; [by eapply show_cursor_shows|]. intros [[cursor|]|e] w2 Hc; cbn [next]; [|by wstep|done].
  eapply (Hoverlay (Some cursor)); [reflexivity|]. by apply Hc.
Qed.

(** A program that goes wrong only by an access out of bounds. *)
Definition only_bounds {A} (c : prog kms_world A) : Prop :=
  forall w, wp c w (fun o _ => forall e, o = Fault e -> e = OutOfBounds).

Lemma only_bounds_bind {A B} (c : prog kms_world A) (k : A -> prog kms_world B) :
  only_bounds c -> (forall a, only_bounds (k a)) -> only_bounds (c ≫= k).
Proof.
  intros Hc Hk w. wstep. eapply wp_mono; [apply Hc|]. intros [a|e] w' He; cbn [next]; [apply Hk|intros e2 [= <-]; by apply He].
Qed.
Lemma only_bounds_ret {A} (a : A) : only_bounds (mret a).
Proof. intros w. by wstep. Qed.
Lemma only_bounds_get : only_bounds get.
Proof. intros w. by wstep. Qed.
Lemma only_bounds_array {A} (l : list A) i : only_bounds (lift (array_get l i)).
Proof. intros w. wstep. intros e. unfold array_get. repeat case_match; congruence. Qed.

Lemma device_open_bounds : only_bounds kms_device_open.
Proof.
  assert (Hs : forall ids counts acc, only_bounds (name_screens ids counts acc)).
  { induction ids as [|id ids IH]; intros counts acc; cbn [name_screens]; [apply only_bounds_ret|].
    apply only_bounds_bind.
    - unfold kms_screen_create. apply only_bounds_bind; [apply only_bounds_get|]. intros w.
      destruct (drv_connector w id) as [con|]; [destruct (default _ _)|]; apply only_bounds_ret.
    - intros screen. do 2 (apply only_bounds_bind; [apply only_bounds_array|intros ?]). apply IH. }
  assert (Hp : forall crtcs ids, only_bounds (create_planes crtcs ids)).
  { intros crtcs. induction ids as [|id ids IH]; cbn [create_planes]; [apply only_bounds_ret|]. apply only_bounds_bind.
    - unfold kms_plane_create. apply only_bounds_bind; [apply only_bounds_get|]. intros w.
      destruct (drv_plane w id); [destruct (drv_properties w id)|]; apply only_bounds_ret.
    - intros plane. apply only_bounds_bind; [done|]. intros. apply only_bounds_ret. }
  unfold kms_device_open. apply only_bounds_bind; [|intros screens; apply only_bounds_bind; [|intros crtcs; apply only_bounds_bind]].
  - apply only_bounds_bind; [apply only_bounds_get|]. intros w. destruct (drv_resources w) as [[]|]; [apply Hs|apply only_bounds_ret].
  - apply only_bounds_bind; [apply only_bounds_get|]. intros w. apply only_bounds_ret.
  - apply only_bounds_bind; [apply only_bounds_get|]. intros w. destruct (drv_plane_resources w); [apply Hp|apply only_bounds_ret].
  - intros planes. apply only_bounds_ret.
Qed.

(** The CRTC tool never gets to show anything: the library does not make framebuffers of
    the format it asks for, so that it comes back with 1, whatever the driver answers, without
    a buffer and without having set a CRTC. *)
Theorem steal_crtc_never_starts rounds device_named action w :
  wp (steal_crtc rounds device_named action) w (fun o w' =>
    (o = Ok 1 \/ o = Fault OutOfBounds) /\ handles w' = handles w /\ fbs w' = fbs w /\
    forall crtc fb screen ret, SetCrtc crtc fb screen ret ∈ events w' -> SetCrtc crtc fb screen ret ∈ events w).
Proof.
  unfold steal_crtc. destruct (negb _ || negb _); [wstep; by auto|]. destruct (sys_open <? 0); [wstep; by auto|].
  do 3 wstep. eapply wp_mono; [apply wp_and; [apply preserves_device_open|apply device_open_bounds]|].
  intros [device|e] w1 [<- He]; cbn [next].
  2:{ split; [right; by rewrite (He e eq_refl)|]. split_and!; by auto. }
  destruct (screens device) as [|screen screens].
  - wstep. unfold kms_device_close. apply wp_close_fd. cbn [next]. wstep. apply wp_close_fd. cbn [next]. wstep. cbn.
    split_and!; [by left|done|done|]. intros crtc fb screen ret. rewrite !elem_of_cons. intros [|[|]]; done.
  - wstep. unfold kms_framebuffer_create. assert (Hne : fourcc DRM_FORMAT_XRGB8888 <> fourcc DRM_FORMAT_ARGB8888).
    { intros Heq. by apply fourcc_inj in Heq. }
    rewrite (proj2 (Z.eqb_neq _ _) Hne). cbn [negb]. wstep. wstep. cbn. split_and!; by auto.
Qed.
End Runs.

(** * A driver and a system *)

Module OneScreen.
#[local] Existing Instance name_codes.

(** A driver with an HDMI connector of 64 x 48 and a primary and a cursor plane. *)
Definition next_free (l : list Z) : Z := 1 + foldr Z.max 0 l.

#[local] Instance driver : KmsDriver := {|
  drv_resources _ := Some ([31], [51]);
  drv_connector _ _ := Some (DrmConnector 11 DRM_MODE_CONNECTED [(64, 48)]);
  drv_plane_resources _ := Some [71; 72];
  drv_plane _ id := Some (DrmPlane 0 1 [fourcc DRM_FORMAT_ARGB8888]);
  drv_properties _ id := Some [(1, if id =? 71 then 1 else 2)];
  drv_property _ _ := Some "type"%string;
  drv_create_dumb w a b _ := Some (next_free (handles w), 4 * a, 4 * a * b);
  drv_add_fb w _ := Some (next_free (fbs w));
  drv_map _ _ := None;
  drv_set_crtc _ _ _ _ := 0;
  drv_set_plane _ _ _ _ := 0 |}.

Lemma next_number_fresh l : (next_free l ∉ l) /\ next_free l <> 0.
Proof.
  unfold next_free.
  assert (Hmax : 0 <= foldr Z.max 0 l /\ forall x, x ∈ l -> x <= foldr Z.max 0 l).
  { induction l as [|y l [IH1 IH2]]; cbn; [split; [lia|intros x Hx; by apply elem_of_nil in Hx]|].
    split; [lia|]. intros x [->|Hx]%elem_of_cons; [lia|]. specialize (IH2 x Hx). lia. }
  split; [|lia]. intros Hin. pose proof (proj2 Hmax _ Hin). lia.
Qed.

#[local] Instance driver_laws : KmsLaws driver.
Proof.
  split; [intros w a b c handle pitch size [= <- <- <-]; apply next_number_fresh|].
  intros w handle id [= <-]. apply next_number_fresh.
Qed.

#[local] Instance system : KmsSystem := {| sys_open := 3; sys_set_cap := 0; sys_select _ := 1 |}.

Definition at_start : kms_world := KmsWorld [] [] false [].

Lemma screens_of_driver :
  wp kms_device_probe_screens at_start (fun o _ => o = Ok [Screen true 11 31 64 48 "HDMI-A-0"]).
Proof. vm_compute. reflexivity. Qed.

Lemma universal_planes_ends_witness :
  fst (universal_planes 1 [Opt_c; Opt_p; Opt_v] true at_start) = Ok 0 /\
  wp (universal_planes 1 [Opt_c; Opt_p; Opt_v] true) at_start (fun o w' => o = Ok 0 ->
    false = false /\ handles w' = [] /\ fbs w' = [] /\
    exists open_ evs, events w' = CloseFd false :: CloseFd open_ :: evs).
Proof.
  split; [vm_compute; reflexivity|].
  apply (universal_planes_ends 1 [Opt_c; Opt_p; Opt_v] (PlaneOptions true false true true) true at_start). reflexivity.
Defined.

(** Four by two pixels on a mapping of 32 bytes. *)
Definition small_fb : kms_framebuffer := Framebuffer 4 2 16 (fourcc DRM_FORMAT_ARGB8888) 32 1 1 None.
Lemma paint_blocks_board_witness :
  returns (paint_blocks small_fb true (replicate 32 0))
    (painted 0 (4 * 4) 4 4 2 (board true) (replicate 32 0)).
Proof.
  apply (paint_blocks_board small_fb true (replicate 32 0)); [reflexivity|cbn; lia|cbn; lia|].
  unfold msize. rewrite length_replicate. cbn. lia.
Defined.
End OneScreen.
