(* ===== verification/VblTest.v ===== *)
(** drm/vbltest/vbltest.c: a red picture, and the frequency of the vertical blanks, reported
    once in 60 of them. *)
From Stdlib Require Import ZArith Lia.
From stdpp Require Import base list numbers.
From S2P Require Import Prelude Mem Raster Libc.

#[global] Open Scope Z_scope.

(** Seconds and microseconds. *)
Record timeval := Timeval { tv_sec : Z; tv_usec : Z }.

Record vbl_info := VblInfo { vbl_count : Z; start : timeval }.

Record buffer_object := BufferObject {
  bo_width : Z; bo_height : Z; bo_pitch : Z; bo_handle : Z; bo_size : Z; bo_map : option mem; fb_handle : Z }.

(** What is asked of the driver; a report is of a number of blanks between two times. *)
Inductive vbl_event :=
| CreateDumb (w h : Z) (got : option (Z * Z * Z))
| MapDumb (handle : Z) (got : option mem)
| AddFB (w h handle pitch : Z) (got : option Z)
| SetCrtc (crtc fb connector : Z) (mode : Z * Z)
| WaitVBlank (event secondary : bool) (sequence ret : Z)
| Freq (count : Z) (from to : timeval).

(** The statistics, and what has happened, newest first. *)
Record vbl_world := VblWorld { info : vbl_info; events : list vbl_event }.

(** The system and libdrm: [drmModeGetResources] gives connectors and CRTCs, a connector its
    modes; a wait for input gives its result and whether the standard input is ready; handling
    an event gives its result and the number of blanks in it. *)
Class VblSystem := {
  sys_open : Z; sys_set_cap : Z;
  drv_resources : option (list Z * list Z);
  drv_connector : Z -> option (list (Z * Z));
  drv_create_dumb : list vbl_event -> Z -> Z -> option (Z * Z * Z);
  drv_map : list vbl_event -> Z -> option mem;
  drv_add_fb : list vbl_event -> Z -> option Z;
  drv_wait : list vbl_event -> Z;
  sys_time : list vbl_event -> timeval;
  sys_select : nat -> Z * bool;
  drv_handle : nat -> Z * nat }.

Definition happened (e : vbl_event) (w : vbl_world) : vbl_world := VblWorld (info w) (e :: events w).
Definition set_info (i : vbl_info) (w : vbl_world) : vbl_world := VblWorld i (events w).

Section Vbl.
Context `{VblSystem}.

Abbreviation vprog := (prog vbl_world).

(** The loop that clears the framebuffer. *)
Definition fill_red (width height : Z) (m : mem) : outcome mem :=
  '(_, m) ← for_lt (u32 (width * height)) 1 (fun i m => store_le 4 m (4 * i) 0xffff0000) 0 m; Ok m.

(** Its result is not looked at; the handle of the framebuffer stays 0 when it fails. *)
Definition modeset_create_fb (width height : Z) : vprog (Z * Z) :=
  w ← get;
  let got := drv_create_dumb (events w) width height in
  modify (happened (CreateDumb width height got));;
  match got with
  | None => mret (-1, 0)
  | Some (handle, pitch, size) =>
      w ← get;
      let got := drv_map (events w) handle in
      modify (happened (MapDumb handle got));;
      match got with
      | None => mret (-1, 0)
      | Some m =>
          _ ← lift (fill_red width height m);
          w ← get;
          let got := drv_add_fb (events w) handle in
          modify (happened (AddFB width height handle pitch got));;
          match got with None => mret (-1, 0) | Some id => mret (0, id) end
      end
  end.

Definition wait_vblank (event secondary : bool) (sequence : Z) : vprog Z :=
  w ← get; let ret := drv_wait (events w) in
  modify (happened (WaitVBlank event secondary sequence ret));; mret ret.

Definition gettimeofday : vprog timeval := w ← get; mret (sys_time (events w)).

Definition vblank_handler (secondary : bool) : vprog unit :=
  _ ← wait_vblank true secondary 1;
  w ← get;
  let count := u32 (vbl_count (info w) + 1) in
  modify (set_info (VblInfo count (start (info w))));;
  when (count =? 60)
    (end_ ← gettimeofday;
     modify (happened (Freq count (start (info w)) end_));;
     modify (set_info (VblInfo 0 end_))).

Fixpoint handle_blanks (n : nat) (secondary : bool) : vprog unit :=
  match n with O => mret tt | S n => vblank_handler secondary;; handle_blanks n secondary end.

(** The loop of [main], for [rounds] rounds. *)
Fixpoint poll_events (rounds : nat) (n : nat) (secondary : bool) : vprog Z :=
  match rounds with
  | O => stop NoFuel
  | S rounds =>
      let '(ret, stdin) := sys_select n in
      if ret <=? 0 then poll_events rounds (S n) secondary
      else if stdin : bool then mret 0
      else
        let '(ret, blanks) := drv_handle n in
        handle_blanks blanks secondary;;
        if negb (ret =? 0) then mret (-1) else poll_events rounds (S n) secondary
  end.

(** [usage]: an option that is not known, after which the usage is printed and the program left.
    The device and the module of -D and -M are not used. *)
Definition main (rounds : nat) (usage secondary : bool) : vprog Z :=
  if usage then stop (Exited 0)
  else if sys_open <? 0 then mret 1
  else if negb (sys_set_cap =? 0) then mret (-1)
  else
    match drv_resources with
    | None => mret (-1)
    | Some (connectors, crtcs) =>
        connector ← lift (array_get connectors 0);
        match drv_connector connector with
        | None => mret (-1)
        | Some modes =>
            mode ← lift (array_get modes 0);
            '(_, fb) ← modeset_create_fb mode.1 mode.2;
            crtc ← lift (array_get crtcs 0);
            modify (happened (SetCrtc crtc fb connector mode));;
            ret ← wait_vblank false secondary 0;
            if negb (ret =? 0) then mret (-1)
            else
              time ← gettimeofday;
              modify (set_info (VblInfo 0 time));;
              ret ← wait_vblank true secondary 1;
              if negb (ret =? 0) then mret (-1) else poll_events rounds 0 secondary
        end
    end.
End Vbl.

(** * The picture *)

(** On a buffer of at least four bytes a pixel the clearing returns, and every pixel of
    lines without padding is red. *)
Theorem fill_red_paints width height m :
  0 <= width -> 0 <= height -> width * height < 2147483648 -> 4 * (width * height) <= msize m ->
  returns (fill_red width height m)
    (painted 0 (4 * (width * height)) 4 (width * height) 1 (fun _ _ => 0xffff0000) m).
Proof.
  intros Hw Hh Hn Hm. unfold fill_red. set (n := width * height) in *. assert (0 <= n) by (unfold n; nia).
  rewrite u32_id by lia. apply returns_bind. eapply returns_mono.
  - eapply (for_lt_returns1 (fun i m' => raster 0 (4 * n) 4 4 (fun _ _ => 0xffff0000) m (scanned n 0 i) m')); [lia|lia| |].
    + apply raster_start.
    + intros i m1 Hi Hr. replace (4 * i) with (pixel_addr 0 (4 * n) 4 0 i) by (unfold pixel_addr; lia).
      eapply returns_mono; [apply (raster_scan 0 (4 * n) 4 4 n (fun _ _ => 0xffff0000) m); try lia;
        [unfold pixel_addr; lia|exact Hr]|]. done.
  - intros [i m1] [-> Hr]. cbn. rewrite Z.max_r in Hr by lia. apply raster_painted.
    replace 1 with (0 + 1) by lia. eapply raster_next_line; [|lia|exact Hr]. lia.
Qed.

(** * The reports *)

Section Reports.
Context `{VblSystem}.

Definition is_report (e : vbl_event) : bool := match e with Freq _ _ _ => true | _ => false end.
Definition reports (w : vbl_world) : list vbl_event := List.filter is_report (events w).
Definition is_request (e : vbl_event) : bool := match e with WaitVBlank true _ 1 _ => true | _ => false end.
Definition requests (w : vbl_world) : nat := length (List.filter is_request (events w)).

(** One report after another: each begins where the one before has ended. *)
Fixpoint chained (from : timeval) (l : list vbl_event) (to : timeval) : Prop :=
  match l with
  | [] => from = to
  | Freq 60 a b :: l => a = from /\ chained b l to
  | _ => False
  end.

Lemma chained_snoc from l a b : chained from l a -> chained from (l ++ [Freq 60 a b]) b.
Proof.
  revert from. induction l as [|e l IH]; intros from; cbn [chained app]; [by intros ->|].
  destruct e; try done. destruct count; try done. repeat (destruct p; try done). intros [-> Hc]. split; [done|]. by apply IH.
Qed.

Lemma handler_step secondary w :
  0 <= vbl_count (info w) < 60 ->
  wp (vblank_handler secondary) w (fun o w' => o = Ok tt /\ requests w' = S (requests w) /\
    if vbl_count (info w) =? 59 then
      exists end_, info w' = VblInfo 0 end_ /\ reports w' = Freq 60 (start (info w)) end_ :: reports w
    else info w' = VblInfo (vbl_count (info w) + 1) (start (info w)) /\ reports w' = reports w).
Proof.
  intros Hc. unfold vblank_handler, wait_vblank. repeat wstep. cbn [info happened].
  rewrite u32_id by lia. apply wp_when; intros Hb; unfold gettimeofday; repeat wstep; (split; [done|]); (split; [done|]).
  - apply Z.eqb_eq in Hb. rewrite (proj2 (Z.eqb_eq _ _)) by lia. eexists. split; [reflexivity|]. by rewrite Hb.
  - apply Z.eqb_neq in Hb. rewrite (proj2 (Z.eqb_neq _ _)) by lia. done.
Qed.

(** C25: after [n] blanks there are n / 60 more reports, each of 60 blanks and each from the
    time the one before ended, and every blank has asked for the next one. *)
Theorem blanks_reported secondary n w :
  0 <= vbl_count (info w) < 60 ->
  wp (handle_blanks n secondary) w (fun o w' => o = Ok tt /\ exists l,
    reports w' = rev l ++ reports w /\ chained (start (info w)) l (start (info w')) /\
    Z.of_nat (length l) = (vbl_count (info w) + Z.of_nat n) / 60 /\
    vbl_count (info w') = (vbl_count (info w) + Z.of_nat n) mod 60 /\
    requests w' = (n + requests w)%nat).
Proof.
  revert w. induction n as [|n IH]; intros w Hc; cbn [handle_blanks].
  { wstep. split; [done|]. exists []. rewrite Z.add_0_r, Z.div_small, Z.mod_small by done. done. }
  wstep. eapply wp_mono; [by apply handler_step|]. intros o w1 (-> & Hreq & Hw1). cbn [next].
  destruct (Z.eqb_spec (vbl_count (info w)) 59) as [H59|H59].
  - destruct Hw1 as (end_ & Hi & Hr). eapply wp_mono; [apply IH; rewrite Hi; cbn; lia|].
    intros o w2 (-> & l & H1 & H2 & H3 & H4 & H5). split; [done|]. exists (Freq 60 (start (info w)) end_ :: l).
    rewrite Hi in H2, H3, H4. cbn in H2, H3, H4. rewrite Z.add_0_l in H3, H4. split_and!.
    + rewrite H1, Hr. cbn. by rewrite <- app_assoc.
    + done.
    + cbn [length]. rewrite H59. replace (59 + Z.of_nat (S n)) with (Z.of_nat n + 1 * 60) by lia.
      rewrite Z.div_add by lia. lia.
    + rewrite H59, H4. replace (59 + Z.of_nat (S n)) with (Z.of_nat n + 1 * 60) by lia. by rewrite Z.mod_add by lia.
    + lia.
  - destruct Hw1 as [Hi Hr]. eapply wp_mono; [apply IH; rewrite Hi; cbn; lia|].
    intros o w2 (-> & l & H1 & H2 & H3 & H4 & H5). split; [done|]. exists l.
    rewrite Hi in H2, H3, H4. cbn in H2, H3, H4.
    replace (vbl_count (info w) + Z.of_nat (S n)) with (vbl_count (info w) + 1 + Z.of_nat n) by lia.
    split_and!; try done; [by rewrite H1, Hr|lia].
Qed.
End Reports.

(** * A display of 60 Hz *)

Module Display.
#[global] Instance system : VblSystem := {|
  sys_open := 3; sys_set_cap := 0;
  drv_resources := Some ([31], [51]);
  drv_connector _ := Some [(2, 2)];
  drv_create_dumb _ w h := Some (1, 4 * w, 4 * w * h);
  drv_map _ _ := Some (replicate 16 0);
  drv_add_fb _ _ := Some 7;
  drv_wait _ := 0;
  sys_time l := Timeval (Z.of_nat (length l) / 60) 0;
  sys_select n := if Nat.eqb n 2 then (1, true) else (1, false);
  drv_handle _ := (0, 70%nat) |}.

Definition at_start : vbl_world := VblWorld (VblInfo 0 (Timeval 0 0)) [].

(** Two rounds of 70 blanks, then the standard input. *)
Lemma two_reports : fst (main 5 false false at_start) = Ok 0 /\ length (reports (snd (main 5 false false at_start))) = 2%nat.
Proof. vm_compute. done. Qed.

Lemma fill_red_paints_witness :
  returns (fill_red 2 2 (replicate 16 0)) (painted 0 (4 * (2 * 2)) 4 (2 * 2) 1 (fun _ _ => 0xffff0000) (replicate 16 0)).
Proof. apply (fill_red_paints 2 2 (replicate 16 0)); unfold msize; rewrite ?length_replicate; lia. Defined.

Lemma blanks_reported_witness :
  wp (handle_blanks 130 false) at_start (fun o w' => o = Ok tt /\ exists l,
    reports w' = rev l ++ [] /\ chained (Timeval 0 0) l (start (info w')) /\
    Z.of_nat (length l) = 2 /\ vbl_count (info w') = 10 /\ requests w' = 130%nat).
Proof. apply (blanks_reported false 130 at_start). cbn. lia. Defined.
End Display.
