(* ===== verification/Script.v ===== *)
(** Sessions on named files: what a program does to the system, with the name of the file in
    place of its descriptor, and the rules to follow a program through such a session. *)
From Stdlib Require Import ZArith Lia Ascii String.
From stdpp Require Import base list numbers gmap strings.
From S2P Require Import Prelude Libc Posix.

#[global] Open Scope Z_scope.

(** * Arrays of characters *)

(** A C string in an array: it must have a terminator. *)
Fixpoint c_string (buf : list Z) : outcome (list Z) :=
  match buf with
  | [] => Fault OutOfBounds
  | c :: buf => if c =? 0 then Ok [] else text ← c_string buf; Ok (c :: text)
  end.

(** [read] and [memset] put their data at the start of the array. *)
Definition overwrite (data buf : list Z) : list Z := take (length buf) (data ++ drop (length data) buf).

Definition array_set (buf : list Z) (i c : Z) : outcome (list Z) :=
  if (0 <=? i) && (i <? Z.of_nat (length buf)) then Ok (<[Z.to_nat i := c]> buf) else Fault OutOfBounds.

Lemma c_string_app data rest text :
  0 ∉ data -> c_string (data ++ rest) = Ok text -> data `prefix_of` text.
Proof.
  revert text. induction data as [|c data IH]; intros text H0 Hc; [apply prefix_nil|].
  apply not_elem_of_cons in H0 as [Hc0 H0]. cbn in Hc. rewrite (proj2 (Z.eqb_neq _ _)) in Hc by done.
  destruct (c_string (data ++ rest)) as [t|e] eqn:Ht; [|done]. cbn in Hc. injection Hc as <-.
  apply prefix_cons. by apply IH.
Qed.

Lemma c_string_fault buf e : c_string buf = Fault e -> e = OutOfBounds.
Proof.
  induction buf as [|c buf IH]; cbn; [by intros [= <-]|]. destruct (c =? 0); [done|].
  destruct (c_string buf); cbn; [done|exact IH].
Qed.

(** A text and its terminator. *)
Lemma c_string_terminated data rest : 0 ∉ data -> c_string (data ++ 0 :: rest) = Ok data.
Proof.
  induction data as [|c data IH]; intros H0; [done|]. apply not_elem_of_cons in H0 as [Hc0 H0].
  cbn. rewrite (proj2 (Z.eqb_neq _ _)) by done. by rewrite IH.
Qed.

Lemma c_string_has l : 0 ∈ l -> exists text, c_string l = Ok text.
Proof.
  induction l as [|c l IH]; intros Hin; [by apply elem_of_nil in Hin|]. cbn. destruct (Z.eqb_spec c 0); [by eexists|].
  apply elem_of_cons in Hin as [|Hin]; [congruence|]. destruct (IH Hin) as [text ->]. by eexists.
Qed.

Lemma length_overwrite data buf : length (overwrite data buf) = length buf.
Proof. unfold overwrite. rewrite length_take, length_app, length_drop. lia. Qed.

Lemma overwrite_fits data buf : (length data <= length buf)%nat -> overwrite data buf = data ++ drop (length data) buf.
Proof. intros Hl. unfold overwrite. apply take_ge. rewrite length_app, length_drop. lia. Qed.

(** * Acts *)

(** What was tried, in the order it was tried. *)
Inductive act :=
| Opens (path : string)
| Closes (path : string)
| Writes (path : string) (text : list Z)
| Reads (path : string) (count : Z)
| Asks (path : string) (req : string) (args : list Z)
| Seeks (path : string)
| Sleeps (seconds : Z)
| Runs (command : string).

(** The name under which a descriptor was opened last. *)
Fixpoint path_of (t : list io) (fd : Z) : string :=
  match t with
  | [] => ""
  | Open path fd' :: t => if fd' =? fd then path else path_of t fd
  | _ :: t => path_of t fd
  end.

Definition act_of (name : Z -> string) (e : io) : list act :=
  match e with
  | Open path _ => [Opens path]
  | Close fd => [Closes (name fd)]
  | Write fd data _ => [Writes (name fd) data]
  | Read fd count _ _ => [Reads (name fd) count]
  | Ioctl fd req args _ _ => [Asks (name fd) req args]
  | Seek fd _ => [Seeks (name fd)]
  | Sleep seconds => [Sleeps seconds]
  | System command => [Runs command]
  | BadClose _ | Poll _ _ _ | Access _ _ => []
  end.

Fixpoint story (t : list io) : list act :=
  match t with [] => [] | e :: t => story t ++ act_of (path_of t) e end.

(** Since [f0] the program has done [acts]; it holds the descriptors of [l], each with the name
    of its file. *)
Record playing (l : list (Z * string)) (acts : list act) (f0 f : files) : Prop := Playing {
  playing_holding : holding l.*1 f0 f;
  playing_names : forall fd path, (fd, path) ∈ l -> 0 <= fd /\ path_of (trace f) fd = path;
  playing_story : story (trace f) = story (trace f0) ++ acts }.

Lemma playing_start f : playing [] [] f f.
Proof. split; [apply holding_start|intros fd path Hin; by apply elem_of_nil in Hin|by rewrite app_nil_r]. Qed.

(** An event that opens and closes nothing. *)
Definition is_plain (e : io) : bool := match e with Open _ _ | BadClose _ => false | _ => true end.

Lemma playing_did e l acts f0 f :
  is_plain e = true -> playing l acts f0 f -> playing l (acts ++ act_of (path_of (trace f)) e) f0 (did e f).
Proof.
  intros He [H1 H2 H3]. split.
  - apply holding_did; [by destruct e|done].
  - intros fd path Hin. destruct (H2 _ _ Hin) as [Hfd Hp]. split; [done|]. by destruct e.
  - cbn [did trace story]. by rewrite H3, app_assoc.
Qed.

Section Rules.
Context `{HL : PosixLaws}.

Lemma play_open path l acts f0 f Q :
  playing l acts f0 f ->
  (forall fd f', os_open f path = fd -> fd < 0 -> playing l (acts ++ [Opens path]) f0 f' -> Q (Ok fd) f') ->
  (forall fd f', os_open f path = fd -> 0 <= fd -> playing ((fd, path) :: l) (acts ++ [Opens path]) f0 f' -> Q (Ok fd) f') ->
  wp (sys_open path) f Q.
Proof.
  intros [H1 H2 H3] Hneg Hpos.
  assert (Hst : forall fd, story (Open path fd :: trace f) = story (trace f0) ++ acts ++ [Opens path]).
  { intros fd. cbn [story act_of]. by rewrite H3, app_assoc. }
  unfold sys_open. do 4 wstep. destruct (Z.ltb_spec (os_open f path) 0) as [Hlt|Hge]; cbn [negb when].
  - do 3 wstep. apply Hneg; [done|done|]. split; [by apply holding_did| |apply Hst].
    intros fd p Hin. destruct (H2 _ _ Hin) as [Hfd Hp]. split; [done|]. cbn. by rewrite (proj2 (Z.eqb_neq _ _)) by lia.
  - do 3 wstep. apply Hpos; [done|done|]. pose proof (open_fresh f path Hge) as Hfr.
    destruct H1 as [G1 G2 G3 G4]. rewrite G1 in Hfr. split; [split; cbn| |apply Hst].
    + rewrite G1. set_solver.
    + intros fd Hfd. apply elem_of_cons in Hfd as [->|Hfd]; [set_solver|by apply G2].
    + constructor; [|done]. set_solver.
    + exact G4.
    + intros fd p [Heq|Hin]%elem_of_cons; cbn.
      * injection Heq as -> ->. by rewrite Z.eqb_refl.
      * destruct (H2 _ _ Hin) as [Hfd Hp]. split; [done|]. rewrite (proj2 (Z.eqb_neq _ _)); [done|].
        intros Heq. apply Hfr. rewrite Heq. apply elem_of_union. left. apply elem_of_list_to_set.
        change fd with ((fd, p).1). by apply list_elem_of_fmap_2.
Qed.

Lemma play_close fd path l1 l2 acts f0 f Q :
  playing (l1 ++ (fd, path) :: l2) acts f0 f ->
  (forall f', playing (l1 ++ l2) (acts ++ [Closes path]) f0 f' -> Q (Ok 0) f') ->
  wp (sys_close fd) f Q.
Proof.
  intros [H1 H2 H3] HQ. destruct (H2 fd path) as [_ Hp]; [set_solver|].
  rewrite fmap_app in H1. cbn in H1. destruct H1 as [G1 G2 G3 G4].
  apply wp_sys_close_open; [rewrite G1, list_to_set_app_L; set_solver|]. apply HQ.
  assert (Hperm : l1.*1 ++ fd :: l2.*1 ≡ₚ fd :: l1.*1 ++ l2.*1) by (symmetry; apply Permutation_middle).
  rewrite Hperm in G3. apply NoDup_cons in G3 as [Hn Hnd]. split; [split; cbn| |].
  - rewrite fmap_app, G1, !list_to_set_app_L. assert (Hf : fd ∉ fds f0) by (apply G2; set_solver). set_solver.
  - intros fd' Hfd. apply G2. rewrite fmap_app in Hfd. set_solver.
  - by rewrite fmap_app.
  - exact G4.
  - intros fd' p Hin. apply H2. set_solver.
  - cbn. by rewrite Hp, H3, app_assoc.
Qed.
End Rules.

Section Plain.
Context `{PosixOS}.

Lemma play_name fd path l acts f0 f : playing l acts f0 f -> (fd, path) ∈ l -> path_of (trace f) fd = path.
Proof. intros [_ H2 _] Hin. by apply H2. Qed.

Lemma play_read fd path count l acts f0 f Q :
  playing l acts f0 f -> (fd, path) ∈ l ->
  (forall r data f', os_read f fd count = (r, data) -> playing l (acts ++ [Reads path count]) f0 f' -> Q (Ok (r, data)) f') ->
  wp (sys_read fd count) f Q.
Proof.
  intros Hf Hin HQ. apply wp_read_did. intros r data Hos. apply (HQ _ _ _ Hos).
  rewrite <- (play_name _ _ _ _ _ _ Hf Hin). by apply (playing_did (Read fd count r data)).
Qed.
Lemma play_write fd path data l acts f0 f Q :
  playing l acts f0 f -> (fd, path) ∈ l ->
  (forall r f', os_write f fd data = r -> playing l (acts ++ [Writes path data]) f0 f' -> Q (Ok r) f') ->
  wp (sys_write fd data) f Q.
Proof.
  intros Hf Hin HQ. unfold sys_write. do 5 wstep. apply HQ; [done|].
  rewrite <- (play_name _ _ _ _ _ _ Hf Hin). by apply (playing_did (Write fd data (os_write f fd data))).
Qed.
Lemma play_ioctl fd path req args l acts f0 f Q :
  playing l acts f0 f -> (fd, path) ∈ l ->
  (forall r out f', os_ioctl f fd req args = (r, out) -> playing l (acts ++ [Asks path req args]) f0 f' -> Q (Ok (r, out)) f') ->
  wp (sys_ioctl fd req args) f Q.
Proof.
  intros Hf Hin HQ. apply wp_ioctl_did. intros r out Hos. apply (HQ _ _ _ Hos).
  rewrite <- (play_name _ _ _ _ _ _ Hf Hin). by apply (playing_did (Ioctl fd req args r out)).
Qed.
Lemma play_lseek fd path l acts f0 f Q :
  playing l acts f0 f -> (fd, path) ∈ l ->
  (forall r f', os_lseek f fd = r -> playing l (acts ++ [Seeks path]) f0 f' -> Q (Ok r) f') -> wp (sys_lseek fd) f Q.
Proof.
  intros Hf Hin HQ. unfold sys_lseek. do 5 wstep. apply HQ; [done|].
  rewrite <- (play_name _ _ _ _ _ _ Hf Hin). by apply (playing_did (Seek fd (os_lseek f fd))).
Qed.
Lemma play_sleep seconds l acts f0 f Q :
  playing l acts f0 f ->
  (forall f', playing l (acts ++ [Sleeps seconds]) f0 f' -> Q (Ok tt) f') -> wp (sys_sleep seconds) f Q.
Proof. intros Hf HQ. unfold sys_sleep. wstep. apply HQ. by apply (playing_did (Sleep seconds)). Qed.
Lemma play_system command l acts f0 f Q :
  playing l acts f0 f ->
  (forall f', playing l (acts ++ [Runs command]) f0 f' -> Q (Ok tt) f') -> wp (sys_system command) f Q.
Proof. intros Hf HQ. unfold sys_system. wstep. apply HQ. by apply (playing_did (System command)). Qed.
End Plain.

(** A step of a program in a session: the call's rule, a goal for each kind of answer. *)
Ltac in_list := solve [repeat (apply elem_of_cons; (left; reflexivity) || right)].
Ltac play :=
  lazymatch goal with
  | P : playing _ _ _ ?f |- wp (sys_open _) ?f _ =>
      let f' := fresh f in
      eapply play_open; [exact P|intros ? f' ? ? P'; clear P; rename P' into P|intros ? f' ? ? P'; clear P; rename P' into P]
  | P : playing _ _ _ ?f |- wp (sys_read _ _) ?f _ =>
      eapply play_read; [exact P|in_list|let f' := fresh f in intros ? ? f' ? P'; clear P; rename P' into P]
  | P : playing _ _ _ ?f |- wp (sys_write _ _) ?f _ =>
      eapply play_write; [exact P|in_list|let f' := fresh f in intros ? f' ? P'; clear P; rename P' into P]
  | P : playing _ _ _ ?f |- wp (sys_ioctl _ _ _) ?f _ =>
      eapply play_ioctl; [exact P|in_list|let f' := fresh f in intros ? ? f' ? P'; clear P; rename P' into P]
  | P : playing _ _ _ ?f |- wp (sys_lseek _) ?f _ => 
      eapply play_lseek; [exact P|in_list|let f' := fresh f in intros ? f' ? P'; clear P; rename P' into P]
  | P : playing _ _ _ ?f |- wp (sys_sleep _) ?f _ => eapply play_sleep; [exact P|clear f P; intros f P]
  | P : playing _ _ _ ?f |- wp (sys_system _) ?f _ => eapply play_system; [exact P|clear f P; intros f P]
  | P : playing ((?a, _) :: ?l) _ _ ?f |- wp (sys_close ?a) ?f _ =>
      eapply (play_close a _ [] l); [exact P|clear f P; intros f P; cbn [app] in P]
  | P : playing (?b :: (?a, _) :: ?l) _ _ ?f |- wp (sys_close ?a) ?f _ =>
      eapply (play_close a _ [b] l); [exact P|clear f P; intros f P; cbn [app] in P]
  | P : playing (?c :: ?b :: (?a, _) :: ?l) _ _ ?f |- wp (sys_close ?a) ?f _ =>
      eapply (play_close a _ [c; b] l); [exact P|clear f P; intros f P; cbn [app] in P]
  | P : playing (?d :: ?c :: ?b :: (?a, _) :: ?l) _ _ ?f |- wp (sys_close ?a) ?f _ =>
      eapply (play_close a _ [d; c; b] l); [exact P|clear f P; intros f P; cbn [app] in P]
  | |- wp (if ?b then _ else _) _ _ => destruct b eqn:?; try (exfalso; lia)
  | |- _ => wstep
  end; cbn [next].

(** ** Whole sessions *)

(** [c] does all of [l] when it gives [ok], and a first part of it when it gives another
    result; then it holds the descriptors of [left]. *)
Definition plays {A} (ok : A -> Prop) (l : list act) (left : nat) (c : fprog A) : Prop := forall f, wp c f (fun o f' =>
  exists held acts, playing held acts f f' /\
    match o with
    | Ok a => acts `prefix_of` l /\ (ok a -> acts = l /\ length held = left)
    | Fault _ => False
    end).

Definition played {A} (ok : A -> Prop) (l : list act) (left : nat) (f0 : files) (o : outcome A) (f' : files) : Prop :=
  exists held acts, playing held acts f0 f' /\
    match o with
    | Ok a => acts `prefix_of` l /\ (ok a -> acts = l /\ length held = left)
    | Fault _ => False
    end.

Lemma play_start {A} (c : fprog A) f (Q : files -> outcome A -> files -> Prop) :
  (forall f0, playing [] [] f0 f -> wp c f (Q f0)) -> wp c f (Q f).
Proof. intros Hc. apply Hc, playing_start. Qed.

Lemma plays_intro {A} (ok : A -> Prop) l left (c : fprog A) :
  (forall f0 f, playing [] [] f0 f -> wp c f (played ok l left f0)) -> plays ok l left c.
Proof. intros Hc f. apply (Hc f f), playing_start. Qed.

(** The end of a session, whose acts are written out. *)
Ltac played :=
  lazymatch goal with
  | P : playing _ _ _ ?f |- played _ _ _ _ (Ok _) ?f =>
      eexists _, _; split; [exact P|]; split; [eexists; cbn; reflexivity|]; cbn; try done; try lia
  end.

(** * Calls that open and close nothing *)

Section SameFds.
Context `{PosixOS}.
Lemma fds_read fd count : preserves (same fds) (sys_read fd count).
Proof. unfold sys_read. preserves_tac. Qed.
Lemma fds_write fd data : preserves (same fds) (sys_write fd data).
Proof. unfold sys_write. preserves_tac. Qed.
Lemma fds_ioctl fd req args : preserves (same fds) (sys_ioctl fd req args).
Proof. unfold sys_ioctl. preserves_tac. Qed.
Lemma fds_sleep seconds : preserves (same fds) (sys_sleep seconds).
Proof. unfold sys_sleep. preserves_tac. Qed.
Lemma fds_system command : preserves (same fds) (sys_system command).
Proof. unfold sys_system. preserves_tac. Qed.
End SameFds.
#[export] Hint Resolve fds_read fds_write fds_ioctl fds_sleep fds_system : preserves.

(** A descriptor that has just been opened. *)
Lemma wp_open_fds `{PosixOS} path f Q :
  (forall fd, fd < 0 -> Q (Ok fd) (did (Open path fd) f)) ->
  (forall fd, 0 <= fd -> Q (Ok fd) (opened fd (did (Open path fd) f))) ->
  wp (sys_open path) f Q.
Proof.
  intros Hneg Hpos. unfold sys_open. do 4 wstep. destruct (Z.ltb_spec (os_open f path) 0) as [Hlt|Hge]; cbn [negb when].
  - do 3 wstep. by apply Hneg.
  - do 3 wstep. by apply Hpos.
Qed.

(** * A system that refuses nothing *)

Module Willing.
#[export] Instance machine : PosixOS := {|
  os_open f _ := next_free f;
  os_read _ _ count := (Z.min count 3, take (Z.to_nat count) [49; 50; 10]);
  os_write _ _ data := Z.of_nat (length data);
  os_ioctl _ _ _ _ := (0, []);
  os_ioctl_fd f _ _ _ := (0, next_free f);
  os_poll _ _ := (1, true);
  os_lseek _ _ := 0;
  os_access _ _ := 0 |}.

#[export] Instance machine_laws : PosixLaws machine.
Proof. split; [intros f path _; apply next_free_fresh|]. intros f fd req args r h [= <- <-] _. apply next_free_fresh. Qed.

Definition at_start : files := Files ∅ [].
End Willing.
