(* ===== verification/Sysfs.v ===== *)
(** pwm/pwm.c, pm_wakelock/pm_wakelock.c and pm_wakeup_count/pm_wakeup_count.c: tests that
    write to the files of sysfs. *)
From Stdlib Require Import ZArith Lia Ascii String.
From stdpp Require Import base list numbers gmap strings pretty.
From S2P Require Import Prelude Libc Posix Script.

#[global] Open Scope Z_scope.

(** "%d" *)
Definition decimal (z : Z) : string := pretty z.

(** * pwm.c *)

Module Pwm.
Section Pwm.
Context `{PosixOS}.

Definition node (ch : Z) (name : string) : string := "/sys/class/pwm/pwmchip0/pwm" +:+ decimal ch +:+ "/" +:+ name.

(** [args]: the arguments after the name of the program. *)
Definition main (args : list string) : fprog Z :=
  match args with
  | a1 :: a2 :: a3 :: _ =>
      let ch := atoi a1 in let period_in_ns := atoi a2 in let duty_cycle_in_ns := atoi a3 in
      fd ← sys_open "/sys/class/pwm/pwmchip0/export";
      if fd <? 0 then mret (-1) else
      ret ← sys_write fd (chars (decimal ch));
      if ret <? 0 then mret (-1) else
      fd_period ← sys_open (node ch "period");
      if fd_period <? 0 then mret (-1) else
      fd_duty ← sys_open (node ch "duty_cycle");
      if fd_duty <? 0 then mret (-1) else
      fd_enable ← sys_open (node ch "enable");
      if fd_enable <? 0 then mret (-1) else
      ret ← sys_write fd_period (chars (decimal period_in_ns));
      if ret <? 0 then mret (-1) else
      ret ← sys_write fd_duty (chars (decimal duty_cycle_in_ns));
      if ret <? 0 then mret (-1) else
      ret ← sys_write fd_enable (chars "1");
      if ret <? 0 then mret (-1) else
      sys_sleep 10;;
      ret ← sys_write fd_enable (chars "0");
      if ret <? 0 then mret (-1) else
      fd ← sys_open "/sys/class/pwm/pwmchip0/unexport";
      if fd <? 0 then mret (-1) else
      ret ← sys_write fd (chars (decimal ch));
      if ret <? 0 then mret (-1) else
      _ ← sys_close fd_enable; _ ← sys_close fd_duty; _ ← sys_close fd_period; _ ← sys_close fd;
      mret 0
  | _ => stop (Exited 1)
  end.
End Pwm.

(** The period and the duty cycle are set before the output is enabled, and the output is
    stopped before the channel is given back. *)
Definition session (ch period duty : Z) : list act :=
  let period_node := node ch "period" in let duty_node := node ch "duty_cycle" in let enable_node := node ch "enable" in
  [Opens "/sys/class/pwm/pwmchip0/export"; Writes "/sys/class/pwm/pwmchip0/export" (chars (decimal ch));
   Opens period_node; Opens duty_node; Opens enable_node;
   Writes period_node (chars (decimal period)); Writes duty_node (chars (decimal duty));
   Writes enable_node (chars "1"); Sleeps 10; Writes enable_node (chars "0");
   Opens "/sys/class/pwm/pwmchip0/unexport"; Writes "/sys/class/pwm/pwmchip0/unexport" (chars (decimal ch));
   Closes enable_node; Closes duty_node; Closes period_node; Closes "/sys/class/pwm/pwmchip0/unexport"].

(** Whatever the system answers, the PWM test does its session in order, on the files it
    names; it returns 0 only after all of it, and then it still holds one descriptor, that of the
    export file; any failure makes it return -1 at once, after a first part of the session. *)
Theorem pwm_session `{PosixLaws} a1 a2 a3 rest :
  plays (fun r => r <> -1) (session (atoi a1) (atoi a2) (atoi a3)) 1 (main (a1 :: a2 :: a3 :: rest)).
Proof.
  apply plays_intro. intros f0 f P. unfold main. repeat play. all: played.
Qed.
End Pwm.

(** * pm_wakelock.c *)

Module WakeLock.
Section WakeLock.
Context `{PosixOS}.

Definition main : fprog Z :=
  fd_wake_lock ← sys_open "/sys/power/wake_lock";
  if fd_wake_lock <? 0 then mret (-1) else
  fd_wake_unlock ← sys_open "/sys/power/wake_unlock";
  if fd_wake_unlock <? 0 then mret (-1) else
  fd_autosleep ← sys_open "/sys/power/autosleep";
  if fd_autosleep <? 0 then mret (-1) else
  ret ← sys_write fd_wake_lock (chars "wakelock1");
  if ret <? 0 then mret (-1) else
  sys_sleep 1;;
  ret ← sys_write fd_wake_lock (chars "wakelock2");
  if ret <? 0 then mret (-1) else
  sys_sleep 1;;
  ret ← sys_write fd_autosleep (chars "mem");
  if ret <? 0 then mret (-1) else
  sys_sleep 1;;
  ret ← sys_write fd_wake_unlock (chars "wakelock1");
  if ret <? 0 then mret (-1) else
  sys_sleep 1;;
  ret ← sys_write fd_wake_unlock (chars "wakelock2");
  if ret <? 0 then mret (-1) else
  _ ← sys_close fd_wake_unlock; _ ← sys_close fd_autosleep; _ ← sys_close fd_wake_lock;
  mret 0.
End WakeLock.

(** The locks that are held, and whether the system may go to sleep, after some acts. *)
Definition apply_act (s : list (list Z) * bool) (a : act) : list (list Z) * bool :=
  let '(locks, autosleep) := s in
  match a with
  | Writes path text =>
      if String.eqb path "/sys/power/wake_lock" then (text :: locks, autosleep)
      else if String.eqb path "/sys/power/wake_unlock" then (List.filter (fun t => negb (bool_decide (t = text))) locks, autosleep)
      else if String.eqb path "/sys/power/autosleep" then (locks, true)
      else s
  | _ => s
  end.
Definition power_state (acts : list act) : list (list Z) * bool := foldl apply_act ([], false) acts.
Definition may_sleep (acts : list act) : bool :=
  let '(locks, autosleep) := power_state acts in autosleep && bool_decide (locks = []).

Definition session : list act :=
  [Opens "/sys/power/wake_lock"; Opens "/sys/power/wake_unlock"; Opens "/sys/power/autosleep";
   Writes "/sys/power/wake_lock" (chars "wakelock1"); Sleeps 1; Writes "/sys/power/wake_lock" (chars "wakelock2"); Sleeps 1;
   Writes "/sys/power/autosleep" (chars "mem"); Sleeps 1; Writes "/sys/power/wake_unlock" (chars "wakelock1"); Sleeps 1;
   Writes "/sys/power/wake_unlock" (chars "wakelock2");
   Closes "/sys/power/wake_unlock"; Closes "/sys/power/autosleep"; Closes "/sys/power/wake_lock"].

Lemma session_played `{PosixLaws} : plays (fun r => r <> -1) session 0 main.
Proof. apply plays_intro. intros f0 f P. unfold main. repeat play. all: played. Qed.

Lemma may_sleep_late acts :
  acts `prefix_of` session -> may_sleep acts = true -> take 12 session `prefix_of` acts.
Proof.
  intros [post Hpost] Hs.
  assert (Hn : acts = take (length acts) session) by (rewrite Hpost, take_app_length; done).
  assert (Hl : (length acts <= 15)%nat) by (apply (f_equal length) in Hpost; rewrite length_app in Hpost; cbn in Hpost; lia).
  revert Hs Hn. generalize (length acts) Hl. intros n Hle Hs ->.
  do 12 (destruct n as [|n]; [by vm_compute in Hs|]). by exists (take n (drop 12 session)).
Qed.

(** C32: whatever the system answers, the wake lock test does its session in order, returns 0
    only after all of it and with nothing left open, and the system is allowed to sleep at no
    point before both locks are released again. *)
Theorem wakelock_session `{PosixLaws} f :
  wp main f (fun o f' => exists code held acts, o = Ok code /\ playing held acts f f' /\ acts `prefix_of` session /\
    (code <> -1 -> acts = session /\ held = []) /\
    (may_sleep acts = true -> take 12 session `prefix_of` acts)).
Proof.
  eapply wp_mono; [apply (session_played f)|]. intros [code|e] f' (held & acts & P & Hd); [|done].
  destruct Hd as [Hp Hd]. exists code, held, acts. split_and!; try done.
  - intros Hc. destruct (Hd Hc) as [? Hh]. split; [done|]. by destruct held.
  - by apply may_sleep_late.
Qed.
End WakeLock.

(** * pm_wakeup_count.c *)

Module WakeupCount.
Section WakeupCount.
Context `{PosixOS}.

(** The loop, [rounds] times; [continue] goes to its condition, which looks at the last result
    of [write]. *)
Fixpoint write_back (rounds : nat) (fd : Z) (buf : list Z) (ret : Z) : fprog unit :=
  match rounds with
  | O => stop NoFuel
  | S rounds =>
      '(n_read, data) ← sys_read fd 64;
      let buf := if 0 <? n_read then overwrite data buf else buf in
      text ← lift (c_string buf);
      if 0 <? n_read then
        ret ← sys_write fd text;
        if ret <? 0 then write_back rounds fd buf ret else mret tt
      else if ret <? 0 then write_back rounds fd buf ret else mret tt
  end.

(** [buf] and [ret] are what the variables hold at first, which the program does not set. *)
Definition main (rounds : nat) (buf : list Z) (ret : Z) : fprog Z :=
  fd_wakeup_count ← sys_open "/sys/power/wakeup_count";
  if fd_wakeup_count <? 0 then mret (-1) else
  fd_state ← sys_open "/sys/power/state";
  if fd_state <? 0 then mret (-1) else
  write_back rounds fd_wakeup_count buf ret;;
  _ ← sys_write fd_state (chars "mem");
  _ ← sys_close fd_state; _ ← sys_close fd_wakeup_count;
  mret 0.
End WakeupCount.

Section Proof.
Context `{PosixOS}.

(** The kernel gives a count as text that fits the array. *)
Context (count_fits : forall f fd n data, os_read f fd 64 = (n, data) -> 0 < n -> (0 ∉ data) /\ (length data <= 64)%nat).

Lemma write_back_ok rounds fd buf ret f :
  length buf = 64%nat -> ret < 0 ->
  wp (write_back rounds fd buf ret) f (fun o f' => o = Ok tt -> exists n data text r older,
    trace f' = Write fd text r :: Read fd 64 n data :: older /\ 0 < n /\ 0 <= r /\ data `prefix_of` text).
Proof.
  revert buf ret f. induction rounds as [|rounds IH]; intros buf ret f Hb Hr; cbn [write_back]; [by wstep|].
  wstep. apply wp_read_did. intros n data Hos. cbn [next]. do 2 wstep. destruct (Z.ltb_spec 0 n) as [Hn|Hn].
  - destruct (count_fits _ _ _ _ Hos Hn) as [H0 Hl].
    assert (Hb' : length (overwrite data buf) = 64%nat).
    { by rewrite length_overwrite. }
    destruct (c_string (overwrite data buf)) as [text|e] eqn:Ht; cbn [next]; [|done]. wstep.
    unfold sys_write. do 5 wstep. destruct (Z.ltb_spec (os_write (did (Read fd 64 n data) f) fd text) 0) as [Hw|Hw]; [by apply IH|].
    wstep. intros _. eexists n, data, text, _, _. split; [reflexivity|]. split_and!; try lia.
    rewrite overwrite_fits in Ht by lia. by eapply c_string_app.
  - destruct (c_string buf) as [text|e]; cbn [next]; [|done]. rewrite (proj2 (Z.ltb_lt ret 0)) by lia. by apply IH.
Qed.
End Proof.

Lemma write_back_fds `{PosixOS} rounds fd buf ret : preserves (same fds) (write_back rounds fd buf ret).
Proof. revert buf ret. induction rounds as [|rounds IH]; intros buf ret; cbn [write_back]; preserves_tac. Qed.

(** The system is put to sleep only after the wakeup count that was read last has been
    written back, and accepted: the text written begins with what was read.  This needs that
    [ret], to which nothing is assigned before the loop, happens to be negative. *)
Theorem wakeup_count_written `{HL : PosixLaws} rounds buf ret f :
  (forall f fd n data, os_read f fd 64 = (n, data) -> 0 < n -> (0 ∉ data) /\ (length data <= 64)%nat) ->
  length buf = 64%nat -> ret < 0 ->
  wp (main rounds buf ret) f (fun o f' => o = Ok 0 -> exists fd fd_state n data text r slept older,
    trace f' = Close fd :: Close fd_state :: Write fd_state (chars "mem") slept ::
      Write fd text r :: Read fd 64 n data :: older /\
    0 < n /\ 0 <= r /\ data `prefix_of` text).
Proof.
  intros Hfits Hb Hr. unfold main. wstep. apply wp_open_fds; intros fd Hfd; cbn [next].
  { rewrite (proj2 (Z.ltb_lt _ _)) by lia. by wstep. }
  rewrite (proj2 (Z.ltb_ge _ _)) by lia. set (f1 := opened fd _). wstep.
  assert (Hfd1 : fd ∈ fds f1) by (unfold f1; cbn; set_solver).
  unfold sys_open. do 4 wstep. set (fd' := os_open f1 _).
  destruct (Z.ltb_spec fd' 0) as [Hfd'|Hfd']; cbn [negb when].
  { do 3 wstep. rewrite (proj2 (Z.ltb_lt _ _)) by lia. by wstep. }
  pose proof (open_fresh f1 _ Hfd') as Hfr. fold fd' in Hfr.
  do 3 wstep. rewrite (proj2 (Z.ltb_ge _ _)) by lia. set (f2 := opened fd' _). wstep.
  eapply wp_mono; [apply wp_and; [apply write_back_fds|by apply (write_back_ok Hfits)]|].
  intros [[]|e] f3 [Hsame Hw]; cbn [next]; [|done].
  destruct (Hw eq_refl) as (n & data & text & r & older & Ht & Hn & Hr' & Hp).
  wstep. unfold sys_write. do 5 wstep. set (slept := os_write _ _ _). set (f4 := did _ f3).
  assert (Hf4 : fds f4 = {[fd']} ∪ fds f1) by (unfold f4; cbn; by rewrite Hsame).
  wstep. apply wp_sys_close_open; [set_solver|]. cbn [next]. wstep.
  apply wp_sys_close_open; [change (fd ∈ fds f4 ∖ {[fd']}); set_solver|]. cbn [next]. wstep. intros _.
  exists fd, fd', n, data, text, r, slept, older. split; [|done]. cbn. by rewrite Ht.
Qed.
End WakeupCount.

(** * On a system that refuses nothing *)

Module OnWilling.
Import Willing.

Lemma pwm_session_witness :
  fst (Pwm.main ["0"; "20000000"; "8000000"]%string at_start) = Ok 0 /\
  plays (fun r => r <> -1) (Pwm.session 0 20000000 8000000) 1 (Pwm.main ["0"; "20000000"; "8000000"]%string).
Proof.
  split; [vm_compute; reflexivity|]. exact (Pwm.pwm_session "0" "20000000" "8000000" []).
Defined.

Lemma wakelock_session_witness :
  fst (WakeLock.main at_start) = Ok 0 /\
  wp WakeLock.main at_start (fun o f' => exists code held acts, o = Ok code /\ playing held acts at_start f' /\
    acts `prefix_of` WakeLock.session /\ (code <> -1 -> acts = WakeLock.session /\ held = []) /\
    (WakeLock.may_sleep acts = true -> take 12 WakeLock.session `prefix_of` acts)).
Proof. split; [vm_compute; reflexivity|]. exact (WakeLock.wakelock_session at_start). Defined.

(** The count is "12" and a line feed. *)
Lemma wakeup_count_written_witness :
  fst (WakeupCount.main 1 (replicate 64 0) (-1) at_start) = Ok 0 /\
  wp (WakeupCount.main 1 (replicate 64 0) (-1)) at_start (fun o f' => o = Ok 0 -> exists fd fd_state n data text r slept older,
    trace f' = Close fd :: Close fd_state :: Write fd_state (chars "mem") slept ::
      Write fd text r :: Read fd 64 n data :: older /\
    0 < n /\ 0 <= r /\ data `prefix_of` text).
Proof.
  split; [vm_compute; reflexivity|]. apply (WakeupCount.wakeup_count_written 1 (replicate 64 0) (-1) at_start); [|reflexivity|lia].
  intros f fd n data [= _ <-] _. split; [|cbn; lia]. intros Hin. repeat (apply elem_of_cons in Hin as [Hin|Hin]; [discriminate Hin|]).
  by apply elem_of_nil in Hin.
Defined.
End OnWilling.
