(* ===== verification/Voltage.v ===== *)
(** pm_voltage/voltage.c: switching the voltage of the system between its two values over a
    suspend. *)
From Stdlib Require Import ZArith Lia Ascii String.
From stdpp Require Import base list numbers gmap strings.
From S2P Require Import Prelude Libc Posix Script.

#[global] Open Scope Z_scope.

(** The values of realtek-misc.h. *)
Class Voltages := { VOL_09 : Z; VOL_10 : Z }.

(** The first line of the output of a command: [None] when the command cannot be run, [Some None]
    when it prints nothing. *)
Class Shell := { sh_line : files -> string -> option (option string) }.

Definition TARGET_FREQ : Z := 660000.

Section Voltage.
Context `{PosixOS} `{Voltages} `{Shell}.

(** [result] is left alone when there is no output. *)
Definition run_command_and_get_output (command result : string) : fprog string :=
  f ← get;
  modify (did (System command));;
  match sh_line f command with
  | None => stop (Exited 1)
  | Some None => mret result
  | Some (Some line) => mret line
  end.

(** An [ioctl] that fills a variable, which is left alone when it fails. *)
Definition ioctl_get (fd : Z) (var : Z) : fprog (Z * Z) :=
  '(ret, out) ← sys_ioctl fd "RTK_MISC_IOC_VOLTAGE_GET" [];
  mret (ret, if ret <? 0 then var else u32 (default var (hd_error out))).

Definition other (v : Z) : Z := if v =? VOL_10 then VOL_09 else VOL_10.

(** From [try_again] on, at most [rounds] times; [val] and [vol_before] are variables. *)
Fixpoint try_again (rounds : nat) (fd : Z) (vol_before val : Z) : fprog Z :=
  match rounds with
  | O => stop NoFuel
  | S rounds =>
      '(ret, vol_before) ← ioctl_get fd vol_before;
      if ret <? 0 then mret 1
      else if vol_before =? 0 then mret 1
      else
        '(ret, _) ← sys_ioctl fd "RTK_MISC_IOC_VOLTAGE_SET" [other vol_before];
        if ret <? 0 then mret 1
        else
          sys_system "echo 5000 > /sys/devices/platform/ocp/4200b600.timer/time_ms";;
          sys_system "echo 1 > /sys/devices/platform/ocp/4200b600.timer/enable";;
          sys_system "echo cg > /sys/power/state";;
          sys_sleep 1;;
          '(ret, val) ← ioctl_get fd val;
          if ret <? 0 then mret 1
          else if negb (val =? vol_before) then _ ← sys_close fd; mret 0
          else try_again rounds fd vol_before val
  end.

(** [val] is what the variable holds at first. *)
Definition main (rounds : nat) (val : Z) : fprog Z :=
  sys_system "echo userspace > /sys/devices/system/cpu/cpu0/cpufreq/scaling_governor";;
  sys_system "echo 660000 > /sys/devices/system/cpu/cpu0/cpufreq/scaling_setspeed";;
  sys_system "echo 660000 > /sys/devices/system/cpu/cpu1/cpufreq/scaling_setspeed";;
  freq_str ← run_command_and_get_output "cat /sys/devices/system/cpu/cpu0/cpufreq/cpuinfo_cur_freq" "";
  if negb (atoi freq_str =? TARGET_FREQ) then mret 1
  else
    freq_str ← run_command_and_get_output "cat /sys/devices/system/cpu/cpu1/cpufreq/cpuinfo_cur_freq" freq_str;
    if negb (atoi freq_str =? TARGET_FREQ) then mret 1
    else
      fd ← sys_open "/dev/misc-ioctl";
      if fd <? 0 then mret 1 else try_again rounds fd 0 val.
End Voltage.

(** * A passed test *)

(** The last round of a test that passes, newest first: before it the voltage was [v0], the other
    one was asked for, the system has slept, and the voltage is [v1]. *)
Definition last_round `{Voltages} (fd v0 v1 r0 r1 r2 : Z) (o1 rest0 rest2 : list Z) : list io :=
  [Close fd; Ioctl fd "RTK_MISC_IOC_VOLTAGE_GET" [] r2 (v1 :: rest2); Sleep 1;
   System "echo cg > /sys/power/state"; System "echo 1 > /sys/devices/platform/ocp/4200b600.timer/enable";
   System "echo 5000 > /sys/devices/platform/ocp/4200b600.timer/time_ms";
   Ioctl fd "RTK_MISC_IOC_VOLTAGE_SET" [other v0] r1 o1; Ioctl fd "RTK_MISC_IOC_VOLTAGE_GET" [] r0 (v0 :: rest0)].

Section Proof.
Context `{PosixOS} `{Voltages} `{Shell}.

(** A voltage that is read is a 32-bit number. *)
Context (answers : forall f fd r out, os_ioctl f fd "RTK_MISC_IOC_VOLTAGE_GET" [] = (r, out) -> 0 <= r ->
  exists v rest, out = v :: rest /\ 0 <= v < 2 ^ 32).

Definition passed (fd : Z) (f' : files) : Prop :=
  exists v0 v1 r0 r1 r2 o1 rest0 rest2 older, trace f' = last_round fd v0 v1 r0 r1 r2 o1 rest0 rest2 ++ older /\
    v0 <> 0 /\ v1 <> v0 /\ 0 <= r0 /\ 0 <= r1 /\ 0 <= r2.

Lemma wp_ioctl_get fd var f Q :
  (forall r out, r < 0 -> Q (Ok (r, var)) (did (Ioctl fd "RTK_MISC_IOC_VOLTAGE_GET" [] r out) f)) ->
  (forall r v rest, 0 <= r -> Q (Ok (r, v)) (did (Ioctl fd "RTK_MISC_IOC_VOLTAGE_GET" [] r (v :: rest)) f)) ->
  wp (ioctl_get fd var) f Q.
Proof.
  intros Hneg Hpos. unfold ioctl_get. wstep. apply wp_ioctl_did. intros r out Hos. cbn [next]. wstep.
  destruct (Z.ltb_spec r 0); [by apply Hneg|]. destruct (answers _ _ _ _ Hos) as (v & rest & -> & Hv); [done|].
  cbn [hd_error default]. change (default var (Some v)) with v. rewrite u32_id by done. by apply Hpos.
Qed.

Lemma try_again_ok rounds fd vol_before val f :
  fd ∈ fds f ->
  wp (try_again rounds fd vol_before val) f (fun o f' =>
    (o = Ok 0 /\ passed fd f') \/ o = Ok 1 \/ o = Fault NoFuel).
Proof.
  revert vol_before val f. induction rounds as [|rounds IH]; intros vol_before val f Hfd; cbn [try_again]; [wstep; by auto|].
  wstep. apply wp_ioctl_get; intros r0 v0; [intros Hr0|intros rest0 Hr0]; cbn [next].
  { rewrite (proj2 (Z.ltb_lt _ _)) by lia. wstep. by auto. }
  rewrite (proj2 (Z.ltb_ge _ _)) by lia. destruct (Z.eqb_spec v0 0) as [Hv0|Hv0]; [wstep; by auto|].
  wstep. apply wp_ioctl_did. intros r1 o1 _. cbn [next]. destruct (Z.ltb_spec r1 0) as [Hr1|Hr1]; [wstep; by auto|].
  unfold sys_system, sys_sleep. do 8 wstep. wstep. apply wp_ioctl_get; intros r2 v1; [intros Hr2|intros rest2 Hr2]; cbn [next].
  { rewrite (proj2 (Z.ltb_lt _ _)) by lia. wstep. by auto. }
  rewrite (proj2 (Z.ltb_ge r2 0)) by lia. destruct (Z.eqb_spec v1 v0) as [Hv1|Hv1]; cbn [negb]; [by apply IH|].
  wstep. apply wp_sys_close_open; [done|]. cbn [next]. wstep. left. split; [done|].
  exists v0, v1, r0, r1, r2, o1, rest0, rest2, (trace f). by split_and!.
Qed.
End Proof.

Lemma wp_line `{PosixOS} `{Shell} command result f (Q : outcome string -> files -> Prop) :
  Q (Fault (Exited 1)) (did (System command) f) ->
  (forall line, Q (Ok line) (did (System command) f)) ->
  wp (run_command_and_get_output command result) f Q.
Proof.
  intros Hexit Hline. unfold run_command_and_get_output. do 4 wstep. destruct (sh_line f command) as [[line|]|]; wstep; auto.
Qed.

(** The voltage test passes only when, in its last round, a voltage was read, the other
    of the two values was asked for, the system was sent to sleep, and the voltage then read is
    another one than before; otherwise it returns 1, or exits when a command cannot be run.  That
    the new voltage is the one that was asked for is not tested. *)
Theorem voltage_passed `{PosixOS} `{Voltages} `{Shell} rounds val f :
  (forall f fd r out, os_ioctl f fd "RTK_MISC_IOC_VOLTAGE_GET" [] = (r, out) -> 0 <= r ->
    exists v rest, out = v :: rest /\ 0 <= v < 2 ^ 32) ->
  wp (main rounds val) f (fun o f' =>
    (o = Ok 0 /\ exists fd, passed fd f') \/ o = Ok 1 \/ o = Fault (Exited 1) \/ o = Fault NoFuel).
Proof.
  intros Hans. unfold main, sys_system.
  do 7 wstep. apply wp_line; [cbn [next]; by auto|intros line1]. cbn [next].
  destruct (negb _); [wstep; by auto|]. wstep. apply wp_line; [cbn [next]; by auto|intros line2]. cbn [next].
  destruct (negb _); [wstep; by auto|]. wstep. apply wp_open_fds; intros fd Hfd; cbn [next].
  - rewrite (proj2 (Z.ltb_lt _ _)) by lia. wstep. by auto.
  - rewrite (proj2 (Z.ltb_ge _ _)) by lia. eapply wp_mono; [apply (try_again_ok Hans); cbn; set_solver|].
    intros o f3 [[-> Hp]|[->| ->]]; eauto.
Qed.

(** * A machine whose voltage changes *)

Module Switching.
#[export] Instance voltages : Voltages := {| VOL_09 := 1; VOL_10 := 2 |}.

(** The voltage that was asked for last, after a suspend. *)
Fixpoint voltage (t : list io) (slept : bool) : Z :=
  match t with
  | [] => 2
  | Ioctl _ _ [v] _ _ :: t => if slept then (if v =? 1 then 1 else 2) else voltage t false
  | Sleep _ :: t => voltage t true
  | _ :: t => voltage t slept
  end.

#[export] Instance machine : PosixOS := {|
  os_open f _ := next_free f;
  os_read _ _ _ := (0, []);
  os_write _ _ data := Z.of_nat (length data);
  os_ioctl f _ req _ := (0, if bool_decide (req = "RTK_MISC_IOC_VOLTAGE_GET"%string) then [voltage (trace f) false] else []);
  os_ioctl_fd f _ _ _ := (0, next_free f);
  os_poll _ _ := (1, true);
  os_lseek _ _ := 0;
  os_access _ _ := 0 |}.

#[export] Instance shell : Shell := {| sh_line _ _ := Some (Some "660000"%string) |}.
Lemma voltage_range t slept : 0 <= voltage t slept < 2 ^ 32.
Proof.
  revert slept. induction t as [|e t IH]; intros slept; [done|]. destruct e; cbn [voltage]; try apply IH.
  destruct args as [|v [|]]; [apply IH| |apply IH]. destruct slept; [by destruct (v =? 1)|apply IH].
Qed.

Definition at_start : files := Files ∅ [].

Lemma voltage_passed_witness :
  fst (main 1 0 at_start) = Ok 0 /\
  wp (main 1 0) at_start (fun o f' =>
    (o = Ok 0 /\ exists fd, passed fd f') \/ o = Ok 1 \/ o = Fault (Exited 1) \/ o = Fault NoFuel).
Proof.
  split; [vm_compute; reflexivity|]. apply (voltage_passed 1 0 at_start).
  intros f fd r out [= <- <-] _. eexists _, _. split; [reflexivity|apply voltage_range].
Defined.
End Switching.
