(* ===== verification/Serial.v ===== *)
(** uart/uart.c and usbh_cdc_acm/usbh_cdc_acm.c: the serial line tests.  The first sends back what
    it receives; the second sends a numbered line and waits for an answer, again and again. *)
From Stdlib Require Import ZArith Lia Ascii String.
From stdpp Require Import base list numbers gmap strings pretty.
From S2P Require Import Prelude Libc Posix Script.

#[global] Open Scope Z_scope.

(** The flags of termios.h. *)
Class Termios := { CLOCAL : Z; CREAD : Z; CSIZE : Z; CS8 : Z; PARENB : Z; CSTOPB : Z; B9600 : Z; IGNPAR : Z }.

Section Serial.
Context `{PosixOS} `{Termios}.

Definition c_cflag : Z :=
  Z.ldiff (Z.lor (Z.ldiff (Z.lor (Z.ldiff (Z.lor CLOCAL CREAD) CSIZE) CS8) PARENB) B9600) CSTOPB.

(** The members of [newtio] that are set: c_iflag, c_cflag, VTIME, VMIN. *)
Definition newtio : list Z := [IGNPAR; c_cflag; 0; 0].

(** The line set up; a result is that of a failure. *)
Definition setup (fd : Z) : fprog (option Z) :=
  '(ret, _) ← sys_ioctl fd "tcgetattr" [];
  if negb (ret =? 0) then mret (Some ret) else
  _ ← sys_ioctl fd "tcflush" [];
  '(ret, _) ← sys_ioctl fd "tcsetattr" newtio;
  if negb (ret =? 0) then mret (Some (-1)) else mret None.
End Serial.

(** * What went over the line *)

Definition received_in (e : io) : list Z := match e with Read _ _ n data => if 0 <? n then data else [] | _ => [] end.
Definition sent_in (e : io) : list Z := match e with Write _ data _ => data | _ => [] end.
Definition received (l : list io) : list Z := concat (rev (received_in <$> l)).
Definition sent (l : list io) : list Z := concat (rev (sent_in <$> l)).

Lemma received_app l1 l2 : received (l1 ++ l2) = received l2 ++ received l1.
Proof. unfold received. by rewrite fmap_app, rev_app_distr, concat_app. Qed.
Lemma sent_app l1 l2 : sent (l1 ++ l2) = sent l2 ++ sent l1.
Proof. unfold sent. by rewrite fmap_app, rev_app_distr, concat_app. Qed.

(** A read of so many characters that the terminator does not fit behind them. *)
Definition is_long (e : io) : bool := match e with Read _ _ n _ => 511 <=? n | _ => false end.

(** Nothing is sent or received. *)
Definition silent (f f' : files) : Prop :=
  exists l, trace f' = l ++ trace f /\ received l = [] /\ sent l = [] /\ Forall (fun e => is_long e = false) l.
#[global] Instance silent_preorder : PreOrder silent.
Proof.
  split; [by exists []|]. intros f1 f2 f3 (l & H1 & H2 & H3 & H4) (l' & H1' & H2' & H3' & H4').
  exists (l' ++ l). rewrite H1', H1, app_assoc, received_app, sent_app, H2, H3, H2', H3', Forall_app. auto.
Qed.

Lemma silent_did e f : received_in e = [] -> sent_in e = [] -> is_long e = false -> silent f (did e f).
Proof. intros Hr Hs Hl. exists [e]. unfold received, sent. cbn. rewrite Hr, Hs. auto. Qed.

(** Opening the line and setting it up, as far as it concerns [R]. *)
Section Silent.
Context `{PosixOS} (R : relation files) `{!PreOrder R}.
Context (R_open : forall path fd f, R f (did (Open path fd) f) /\ R f (opened fd (did (Open path fd) f))).
Context (R_ioctl : forall fd req args r out f, R f (did (Ioctl fd req args r out) f)).

Lemma wp_silent_open path f Q : (forall fd f', R f f' -> Q (Ok fd) f') -> wp (sys_open path) f Q.
Proof. intros HQ. apply wp_open_fds; intros fd _; apply HQ; apply R_open. Qed.

Lemma wp_setup `{Termios} fd f Q : (forall r f', R f f' -> Q (Ok r) f') -> wp (setup fd) f Q.
Proof.
  intros HQ. unfold setup.
  wstep. apply wp_ioctl_did. intros r1 o1 _. cbn [next]. destruct (negb _); [wstep; by apply HQ|].
  wstep. apply wp_ioctl_did. intros r2 o2 _. cbn [next]. wstep. apply wp_ioctl_did. intros r3 o3 _. cbn [next].
  destruct (negb _); wstep; apply HQ; (etrans; [apply R_ioctl|]); (etrans; apply R_ioctl).
Qed.
End Silent.

Lemma silent_open path fd f : silent f (did (Open path fd) f) /\ silent f (opened fd (did (Open path fd) f)).
Proof. split; exact (silent_did (Open path fd) f eq_refl eq_refl eq_refl). Qed.
Lemma silent_ioctl fd req args r out f : silent f (did (Ioctl fd req args r out) f).
Proof. exact (silent_did (Ioctl fd req args r out) f eq_refl eq_refl eq_refl). Qed.

(** * uart.c *)

Module Uart.
Section Uart.
Context `{PosixOS} `{Termios}.

Inductive opt := Opt_P (arg : string) | Opt_other.

(** [None]: the usage is printed. *)
Fixpoint parse_opts (opts : list opt) (port : Z) : option Z :=
  match opts with [] => Some port | Opt_P arg :: opts => parse_opts opts (atoi arg) | Opt_other :: _ => None end.

(** [sprintf] into 13 bytes. *)
Definition device (port : Z) : outcome string :=
  let uart := "/dev/ttyRTK" +:+ pretty port in
  if (String.length uart <? 13)%nat then Ok uart else Fault OutOfBounds.

Definition uart_out : list Z := chars "loopback mode..." ++ [10].

(** The two loops, for [rounds] reads; [buffer] has 512 bytes. *)
Fixpoint loopback (rounds : nat) (fd : Z) (buffer : list Z) : fprog Z :=
  match rounds with
  | O => stop NoFuel
  | S rounds =>
      '(nByte, data) ← sys_read fd 512;
      if nByte <=? 0 then loopback rounds fd buffer
      else
        let buffer := overwrite data buffer in
        buffer ← lift (array_set buffer (nByte + 1) 0);
        text ← lift (c_string buffer);
        ret ← sys_write fd text;
        if negb (ret =? Z.of_nat (length text)) then mret ret
        else loopback rounds fd (overwrite (replicate (length text) 0) buffer)
  end.

(** [None]: the variable [ret] is returned, to which nothing was assigned. *)
Definition main (rounds : nat) (opts : list opt) : fprog (option Z) :=
  match parse_opts opts 2 with
  | None => mret (Some 0)
  | Some port =>
      uart ← lift (device port);
      fd ← sys_open uart;
      if fd <? 0 then mret None
      else
        failed ← setup fd;
        match failed with
        | Some ret => mret (Some ret)
        | None =>
            ret ← sys_write fd uart_out;
            if negb (ret =? Z.of_nat (length uart_out)) then mret (Some ret)
            else ret ← loopback rounds fd (replicate 512 0); mret (Some ret)
        end
  end.
End Uart.

(** What is received fits when the buffer stays empty behind it. *)
Lemma buffer_text data :
  0 ∉ data -> (length data <= 510)%nat ->
  array_set (overwrite data (replicate 512 0)) (Z.of_nat (length data) + 1) 0 = Ok (data ++ replicate (512 - length data) 0) /\
  c_string (data ++ replicate (512 - length data) 0) = Ok data /\
  overwrite (replicate (length data) 0) (data ++ replicate (512 - length data) 0) = replicate 512 0.
Proof.
  intros H0 Hl. assert (Ho : overwrite data (replicate 512 0) = data ++ replicate (512 - length data) 0).
  { rewrite overwrite_fits by (rewrite length_replicate; lia). by rewrite drop_replicate. }
  assert (Hlen : length (data ++ replicate (512 - length data) 0) = 512%nat) by (rewrite length_app, length_replicate; lia).
  split_and!.
  - unfold array_set. rewrite Ho, Hlen, (proj2 (Z.leb_le 0 _)), (proj2 (Z.ltb_lt _ _)) by lia. cbn [andb]. f_equal.
    rewrite insert_app_r_alt by lia. f_equal. apply list_eq. intros i.
    destruct (decide (i = Z.to_nat (Z.of_nat (length data) + 1) - length data)%nat) as [->|Hne].
    + rewrite list_lookup_insert_eq by (rewrite length_replicate; lia). symmetry. apply lookup_replicate. split; [done|lia].
    + by rewrite list_lookup_insert_ne.
  - replace (512 - length data)%nat with (S (511 - length data)) by lia. by apply c_string_terminated.
  - rewrite overwrite_fits by (rewrite length_replicate; lia). rewrite length_replicate, drop_app_length, <- replicate_add.
    f_equal. lia.
Qed.

(** Behind a text of up to 510 characters there is room for the terminator, and the string
    ends there at the latest. *)
Lemma buffer_ends data buf :
  length buf = 512%nat -> (length data <= 510)%nat ->
  exists buf' text, array_set (overwrite data buf) (Z.of_nat (length data) + 1) 0 = Ok buf' /\
    length buf' = 512%nat /\ c_string buf' = Ok text.
Proof.
  intros Hb Hl. set (buf' := <[S (length data) := 0]> (overwrite data buf)).
  assert (Hlen : length buf' = 512%nat) by (unfold buf'; by rewrite length_insert, length_overwrite).
  destruct (c_string_has buf') as [text Ht].
  { apply list_elem_of_lookup. exists (S (length data)). apply list_lookup_insert_eq. rewrite length_overwrite. lia. }
  exists buf', text. split_and!; [|done|done].
  unfold array_set. rewrite length_overwrite, Hb, (proj2 (Z.leb_le 0 _)), (proj2 (Z.ltb_lt _ _)) by lia. cbn [andb].
  unfold buf'. do 2 f_equal. lia.
Qed.

Lemma buffer_overrun data buf n :
  length buf = 512%nat -> 511 <= n -> array_set (overwrite data buf) (n + 1) 0 = Fault OutOfBounds.
Proof.
  intros Hb Hn. unfold array_set. rewrite length_overwrite, Hb, (proj2 (Z.ltb_ge (n + 1) _)) by lia.
  by rewrite andb_false_r.
Qed.

Lemma new_events l1 l (f f1 : files) : trace f1 = l1 ++ trace f -> trace f1 = l ++ trace f -> l = l1.
Proof. intros ->. intros Ht. by apply app_inv_tail in Ht. Qed.

(** Events are only added. *)
Definition extends : relation files := fun f f' => exists l, trace f' = l ++ trace f.
#[export] Instance extends_preorder : PreOrder extends.
Proof.
  split; [by exists []|]. intros f1 f2 f3 [l1 H1] [l2 H2]. exists (l2 ++ l1). by rewrite H2, H1, app_assoc.
Qed.
#[export] Hint Extern 1 (extends _ _) => eexists [_]; reflexivity : preserves.

(** How the buffer fared in [l]: it was left exactly when the last thing was a long read. *)
Definition kept_to_buffer {A} (o : outcome A) (l : list io) : Prop :=
  match o with
  | Ok _ | Fault NoFuel => Forall (fun e => is_long e = false) l
  | Fault OutOfBounds => exists e l', l = e :: l' /\ is_long e = true /\ Forall (fun e => is_long e = false) l'
  | Fault _ => False
  end.

Lemma kept_to_buffer_app {A} (o : outcome A) l l' :
  kept_to_buffer o l -> Forall (fun e => is_long e = false) l' -> kept_to_buffer o (l ++ l').
Proof.
  intros Hl Hl'. destruct o as [a|[]]; cbn in *; try done; try (by apply Forall_app).
  destruct Hl as (e & l1 & -> & He & H1). exists e, (l1 ++ l'). split_and!; try done. by apply Forall_app.
Qed.

(** What was sent in [l], behind [greeting]: all of what was received as long as it goes on,
    a first part of it in any case. *)
Definition echoed {A} (greeting : list Z) (o : outcome A) (l : list io) : Prop :=
  sent l `prefix_of` greeting ++ received l /\
  (o = Fault NoFuel -> sent l = greeting ++ received l).

Section Proof.
Context `{PosixOS}.

(** [read] returns the number of characters that it gives, no more than was asked for. *)
Context (reads : forall f fd n data, os_read f fd 512 = (n, data) -> 0 < n ->
  n = Z.of_nat (length data) /\ n <= 512).

Lemma loopback_bounds rounds fd buf f :
  length buf = 512%nat ->
  wp (loopback rounds fd buf) f (fun o f' => exists l, trace f' = l ++ trace f /\ kept_to_buffer o l).
Proof.
  revert buf f. induction rounds as [|rounds IH]; intros buf f Hb; cbn [loopback].
  { wstep. exists []. by split; [|constructor]. }
  wstep. apply wp_read_did. intros n data Hos. cbn [next].
  assert (Hstep : forall (c : fprog Z) e1 f1, trace f1 = e1 ++ trace f -> Forall (fun e => is_long e = false) e1 ->
    wp c f1 (fun o f' => exists l, trace f' = l ++ trace f1 /\ kept_to_buffer o l) ->
    wp c f1 (fun o f' => exists l, trace f' = l ++ trace f /\ kept_to_buffer o l)).
  { intros c e1 f1 H1 He Hc. eapply wp_mono; [exact Hc|]. intros o f2 (l & H2 & Ho). exists (l ++ e1).
    rewrite H2, H1, app_assoc. split; [done|]. by apply kept_to_buffer_app. }
  destruct (Z.leb_spec n 0) as [Hn|Hn].
  { apply (Hstep _ [Read fd 512 n data]); [done| |by apply IH]. constructor; [|constructor]. cbn. apply Z.leb_gt. lia. }
  destruct (reads _ _ _ _ Hos Hn) as [Hlen Hmax]. destruct (decide (511 <= n)) as [Hl|Hl].
  { do 2 wstep. rewrite buffer_overrun by done. cbn [next]. exists [Read fd 512 n data]. split; [done|].
    exists (Read fd 512 n data), []. split_and!; [done|cbn; lia|constructor]. }
  assert (Hs : Forall (fun e => is_long e = false) [Read fd 512 n data]).
  { constructor; [|constructor]. cbn. lia. }
  destruct (buffer_ends data buf Hb ltac:(lia)) as (buf' & text & H1 & H2 & H3). rewrite <- Hlen in H1.
  do 2 wstep. rewrite H1. cbn [next]. do 2 wstep. rewrite H3. cbn [next].
  wstep. unfold sys_write. do 5 wstep.
  assert (Hs' : forall r, Forall (fun e => is_long e = false) [Write fd text r; Read fd 512 n data]).
  { intros r. by constructor. }
  destruct (negb _).
  - wstep. eexists. split; [|apply Hs']. reflexivity.
  - eapply (Hstep _ [Write fd text _; Read fd 512 n data]); [reflexivity|apply Hs'|]. apply IH. by rewrite length_overwrite.
Qed.

Lemma loopback_extends rounds fd buf : preserves extends (loopback rounds fd buf).
Proof.
  revert buf. induction rounds as [|rounds IH]; intros buf; cbn [loopback]; unfold sys_read, sys_write; preserves_tac.
Qed.

Hint Resolve loopback_extends : preserves.

(** What the events since [f] say about an echo, when they hold no NUL. *)
Definition echoes (f : files) (o : outcome Z) (f' : files) : Prop :=
  forall l, trace f' = l ++ trace f -> 0 ∉ received l -> echoed [] o l.

Lemma echoes_nul l f f1 o f' : trace f1 = l ++ trace f -> 0 ∈ received l -> extends f1 f' -> echoes f o f'.
Proof.
  intros H1 H0 [l' H2] l2 H3 Hl2. rewrite H2, H1, app_assoc in H3. apply app_inv_tail in H3 as <-.
  destruct Hl2. rewrite received_app. set_solver.
Qed.

Lemma echoes_stop l f f1 o :
  trace f1 = l ++ trace f -> sent l `prefix_of` received l -> (o = Fault NoFuel -> sent l = received l) -> echoes f o f1.
Proof. intros Ht Hp Ho l' Ht' _. apply (new_events l) in Ht' as ->; [|done]. by split. Qed.

(** After events that are an echo. *)
Lemma echoes_after l f f1 o f' :
  trace f1 = l ++ trace f -> sent l = received l -> extends f1 f' -> echoes f1 o f' -> echoes f o f'.
Proof.
  intros H1 He [l' H2] Ho l2 H3 H0. rewrite H2, H1, app_assoc in H3. apply app_inv_tail in H3 as <-.
  rewrite received_app, not_elem_of_app in H0. destruct (Ho l' H2 (proj2 H0)) as [Hp Hn]. unfold echoed in *.
  cbn [app] in *. rewrite sent_app, received_app, He. split; [by apply prefix_app|]. intros Hf. by rewrite (Hn Hf).
Qed.

Lemma wp_echoes_after l rounds fd buf f f1 :
  trace f1 = l ++ trace f -> sent l = received l ->
  wp (loopback rounds fd buf) f1 (echoes f1) -> wp (loopback rounds fd buf) f1 (echoes f).
Proof.
  intros H1 He Hw. eapply wp_mono; [apply wp_and; [exact Hw|apply loopback_extends]|].
  intros o f' [Ho Hx]. by eapply echoes_after.
Qed.

Lemma loopback_echoes rounds fd f : wp (loopback rounds fd (replicate 512 0)) f (echoes f).
Proof.
  revert f. induction rounds as [|rounds IH]; intros f; cbn [loopback].
  { wstep. by apply (echoes_stop []). }
  wstep. apply wp_read_did. intros n data Hos. cbn [next].
  assert (Hr : received [Read fd 512 n data] = if 0 <? n then data else []) by (unfold received; cbn; by rewrite app_nil_r).
  assert (IH' : forall l f1, trace f1 = l ++ trace f -> sent l = received l ->
    wp (loopback rounds fd (replicate 512 0)) f1 (echoes f)).
  { intros l f1 Hl He. by apply (wp_echoes_after l). }
  destruct (Z.leb_spec n 0) as [Hn|Hn].
  { apply (IH' [Read fd 512 n data]); [done|]. by rewrite Hr, (proj2 (Z.ltb_ge _ _)) by lia. }
  rewrite (proj2 (Z.ltb_lt _ _)) in Hr by lia. destruct (reads _ _ _ _ Hos Hn) as [Hlen Hmax].
  destruct (decide (0 ∈ data)) as [H0|H0].
  { match goal with |- wp ?c ?f1 _ => assert (Hx : preserves extends c) by (unfold sys_write; preserves_tac);
      eapply wp_mono; [apply Hx|] end.
    intros o f' Hf'. apply (echoes_nul [Read fd 512 n data] f (did (Read fd 512 n data) f)); [done|by rewrite Hr|exact Hf']. }
  destruct (decide (511 <= n)) as [Hl|Hl].
  { do 2 wstep. rewrite buffer_overrun by done. apply (echoes_stop [Read fd 512 n data]); [done|apply prefix_nil|done]. }
  destruct (buffer_text data H0 ltac:(lia)) as (Hset & Htext & Hclear). rewrite Hlen.
  do 2 wstep. rewrite Hset. cbn [next]. do 2 wstep. rewrite Htext. cbn [next]. wstep. unfold sys_write. do 5 wstep.
  rewrite <- Hlen. set (r := os_write _ fd data).
  assert (He : sent [Write fd data r; Read fd 512 n data] = received [Write fd data r; Read fd 512 n data]).
  { change [Write fd data r; Read fd 512 n data] with ([Write fd data r] ++ [Read fd 512 n data]).
    rewrite received_app, Hr. unfold sent, received. cbn. by rewrite !app_nil_r. }
  destruct (negb _).
  - wstep. apply (echoes_stop [Write fd data r; Read fd 512 n data]); [done|by rewrite He|done].
  - rewrite Hclear. by apply (IH' [Write fd data r; Read fd 512 n data]).
Qed.
End Proof.

(** C19: for received text without NUL characters, what the UART test has sent is its
    greeting and then a first part of what it has received, in order, and as long as it goes on
    all of it.  (With a NUL the string ends there: the characters behind it are lost, or sent
    later, [uart_nul_lost].)  Whatever is received, the test leaves an array exactly when the name
    of the port does not fit or when 511 or more characters come at once, which it has then just
    read; of the system only is asked that [read] gives as many characters as it says. *)
Theorem uart_echoes `{PosixOS} `{Termios} rounds opts f :
  (forall f fd n data, os_read f fd 512 = (n, data) -> 0 < n -> n = Z.of_nat (length data) /\ n <= 512) ->
  wp (main rounds opts) f (fun o f' =>
    match device <$> parse_opts opts 2 with
    | Some (Fault e) => o = Fault OutOfBounds /\ f' = f
    | _ => exists l, trace f' = l ++ trace f /\ kept_to_buffer o l /\ (0 ∉ received l -> echoed uart_out o l)
    end).
Proof.
  intros Hreads. unfold main. destruct (parse_opts opts 2) as [port|] eqn:Hport; cbn [fmap option_fmap option_map].
  2:{ wstep. exists []. split_and!; [done|by constructor|]. intros _. split; [apply prefix_nil|done]. }
  do 2 wstep. destruct (device port) as [uart|e] eqn:Hdev; cbn [next].
  2:{ by assert (e = OutOfBounds) as -> by (unfold device in Hdev; destruct (_ <? _)%nat; congruence). }
  assert (Hsil : forall (a : option Z) f', silent f f' -> exists l, trace f' = l ++ trace f /\
    kept_to_buffer (Ok a) l /\ (0 ∉ received l -> echoed uart_out (Ok a) l)).
  { intros a f' (l & H1 & H2 & H3 & H4). exists l. split_and!; try done. intros _. unfold echoed. rewrite H3.
    split; [apply prefix_nil|done]. }
  wstep. apply (wp_silent_open silent silent_open). intros fd f1 H1. cbn [next]. destruct (fd <? 0); [wstep; by apply Hsil|].
  wstep. apply (wp_setup silent silent_ioctl). intros failed f2 H2. cbn [next]. assert (Hs2 : silent f f2) by (by etrans).
  destruct failed as [r|]; [wstep; by apply Hsil|]. wstep. unfold sys_write. do 5 wstep. set (r := os_write _ _ _).
  destruct Hs2 as (l2 & G1 & G2 & G3 & G4).
  set (f3 := did _ f2). set (l3 := Write fd uart_out r :: l2).
  assert (K1 : trace f3 = l3 ++ trace f) by (unfold f3, l3; cbn; by rewrite G1).
  assert (K2 : received l3 = []) by (unfold l3; change (Write fd uart_out r :: l2) with ([Write fd uart_out r] ++ l2); by rewrite received_app, G2).
  assert (K3 : sent l3 = uart_out).
  { unfold l3. change (Write fd uart_out r :: l2) with ([Write fd uart_out r] ++ l2). rewrite sent_app, G3. reflexivity. }
  assert (K4 : Forall (fun e => is_long e = false) l3) by by constructor.
  destruct (negb _).
  { wstep. exists l3. split_and!; [done|done|]. intros _. unfold echoed. by rewrite K2, K3, app_nil_r. }
  wstep. eapply wp_mono; [apply wp_and; [by apply loopback_bounds|by apply loopback_echoes]|].
  intros o f4 [(l & H4 & Hk) He]. specialize (He l H4).
  assert (Hend : forall o' : outcome (option Z), kept_to_buffer o' l -> (o' = Fault NoFuel -> o = Fault NoFuel) ->
    exists l, trace f4 = l ++ trace f /\ kept_to_buffer o' l /\ (0 ∉ received l -> echoed uart_out o' l)).
  { intros o' Hk' Ho. exists (l ++ l3). rewrite H4, K1, app_assoc. split; [done|]. split; [by apply kept_to_buffer_app|].
    rewrite received_app, K2. cbn [app]. rewrite ?app_nil_l. intros Hnul. destruct (He Hnul) as [Hp Hn]. unfold echoed.
    rewrite sent_app, received_app, K2, K3. cbn [app]. split; [by apply prefix_app|]. intros Hf. by rewrite (Hn (Ho Hf)). }
  destruct o as [r'|e]; cbn [next]; [wstep|]; apply Hend; try done. congruence.
Qed.
End Uart.

(** * usbh_cdc_acm.c *)

Module CdcAcm.
Section CdcAcm.
Context `{PosixOS} `{Termios}.

Definition line (cycle : Z) : list Z := chars ("loopback cycle " +:+ pretty cycle) ++ [10].

(** The loops: [waiting] when an answer is still to come, for [rounds] turns.  [read_buffer] is
    printed as a string, and then cleared. *)
Fixpoint cycles (rounds : nat) (fd cycle_num : Z) (waiting : bool) (read_buffer : list Z) : fprog unit :=
  match rounds with
  | O => stop NoFuel
  | S rounds =>
      if waiting then
        '(nByte, data) ← sys_read fd 512;
        if 0 <? nByte then
          _ ← lift (c_string (overwrite data read_buffer));
          cycles rounds fd cycle_num false (replicate 512 0)
        else cycles rounds fd cycle_num true read_buffer
      else
        _ ← sys_write fd (line cycle_num);
        cycles rounds fd (s32 (cycle_num + 1)) true read_buffer
  end.

(** [cycle_num] and [read_buffer] are what the variables hold at first.  [None]: the variable
    [ret] is returned, to which nothing was assigned. *)
Definition main (rounds : nat) (cycle_num : Z) (read_buffer : list Z) : fprog (option Z) :=
  fd ← sys_open "/dev/ttyACM0";
  if fd <? 0 then mret None
  else
    failed ← setup fd;
    match failed with
    | Some ret => mret (Some ret)
    | None => cycles rounds fd cycle_num false read_buffer;; mret None
    end.
End CdcAcm.

(** ** The dialogue *)

Inductive turn := Says (text : list Z) | Hears (text : list Z).
Definition turn_of (e : io) : option turn :=
  match e with
  | Write _ data _ => Some (Says data)
  | Read _ _ n data => if 0 <? n then Some (Hears data) else None
  | _ => None
  end.
Definition turns (f : files) : list turn := rev (omap turn_of (trace f)).

Lemma turns_did e f : turns (did e f) = turns f ++ option_list (turn_of e).
Proof. unfold turns. cbn [did trace omap list_omap]. by destruct (turn_of e); rewrite ?app_nil_r. Qed.

(** Lines with numbers that count up, each but the last with an answer; [waiting] when an answer is
    to come first. *)
Fixpoint dialogue (cycle : Z) (waiting : bool) (l : list turn) : Prop :=
  match l with
  | [] => True
  | Says text :: l => waiting = false /\ text = line cycle /\ dialogue (s32 (cycle + 1)) true l
  | Hears _ :: l => waiting = true /\ dialogue cycle false l
  end.

Lemma quiet_open path fd f : same turns f (did (Open path fd) f) /\ same turns f (opened fd (did (Open path fd) f)).
Proof. assert (same turns f (did (Open path fd) f)) by (unfold same; rewrite turns_did; apply app_nil_r). by split. Qed.
Lemma quiet_ioctl fd req args r out f : same turns f (did (Ioctl fd req args r out) f).
Proof. unfold same. rewrite turns_did. apply app_nil_r. Qed.

Section Proof.
Context `{PosixOS} `{Termios}.

Lemma cycles_dialogue rounds fd cycle waiting buf f :
  wp (cycles rounds fd cycle waiting buf) f (fun o f' =>
    exists l, turns f' = turns f ++ l /\ dialogue cycle waiting l /\ (o = Fault NoFuel \/ o = Fault OutOfBounds)).
Proof.
  revert cycle waiting buf f. induction rounds as [|rounds IH]; intros cycle waiting buf f; cbn [cycles].
  { wstep. exists []. rewrite app_nil_r. split_and!; [done|exact I|by left]. }
  destruct waiting.
  - wstep. apply wp_read_did. intros n data _. cbn [next]. set (f1 := did _ f).
    assert (Hf1 : turns f1 = turns f ++ option_list (if 0 <? n then Some (Hears data) else None)) by (unfold f1; apply turns_did).
    destruct (0 <? n).
    + do 2 wstep. destruct (c_string _) as [text|e] eqn:Hc; cbn [next].
      * eapply wp_mono; [apply IH|]. intros o f2 (l & H2 & Hd & Ho). exists (Hears data :: l).
        by rewrite H2, Hf1, <- app_assoc.
      * apply c_string_fault in Hc as ->.
        exists [Hears data]. rewrite Hf1. split_and!; [done|done|by right].
    + eapply wp_mono; [apply IH|]. intros o f2 (l & H2 & Hd & Ho). exists l.
      by rewrite H2, Hf1, app_nil_r.
  - wstep. unfold sys_write. do 5 wstep. set (f1 := did _ f).
    assert (Hf1 : turns f1 = turns f ++ [Says (line cycle)]) by (unfold f1; apply turns_did).
    eapply wp_mono; [apply IH|]. intros o f2 (l & H2 & Hd & Ho). exists (Says (line cycle) :: l).
    by rewrite H2, Hf1, <- app_assoc.
Qed.

(** The lines that the CDC test sends are numbered one after the other, from the number
    that the variable happens to hold, and each is sent only after an answer to the one before;
    the test never comes to an end, except that it reads past its buffer when an answer of 512
    characters, or the first one, leaves it without a terminator. *)
Theorem cdc_dialogue rounds cycle buf f :
  wp (main rounds cycle buf) f (fun o f' =>
    exists l, turns f' = turns f ++ l /\ dialogue cycle false l /\
      match o with Ok _ => l = [] | Fault e => e = NoFuel \/ e = OutOfBounds end).
Proof.
  unfold main. wstep. apply (wp_silent_open (same turns) quiet_open). intros fd f1 H1. cbn [next].
  destruct (fd <? 0); [wstep; exists []; by rewrite H1, app_nil_r|].
  wstep. apply (wp_setup (same turns) quiet_ioctl). intros failed f2 H2. cbn [next].
  assert (Hf2 : turns f2 = turns f) by (by rewrite H2, H1).
  destruct failed as [r|]; [wstep; exists []; by rewrite Hf2, app_nil_r|].
  wstep. eapply wp_mono; [apply cycles_dialogue|]. intros o f3 (l & H3 & Hd & [-> | ->]); cbn [next];
    exists l; rewrite H3, Hf2; auto.
Qed.
End Proof.
End CdcAcm.

(** * A line *)

Module Hello.
(** A line that always has the same to read. *)
#[export] Instance machine (answer : list Z) : PosixOS := {|
  os_open f _ := next_free f;
  os_read _ _ _ := (Z.of_nat (length answer), answer);
  os_write _ _ data := Z.of_nat (length data);
  os_ioctl _ _ _ _ := (0, []);
  os_ioctl_fd f _ _ _ := (0, next_free f);
  os_poll _ _ := (1, true);
  os_lseek _ _ := 0;
  os_access _ _ := 0 |}.
#[export] Instance flags : Termios :=
  {| CLOCAL := 2048; CREAD := 128; CSIZE := 48; CS8 := 48; PARENB := 256; CSTOPB := 64; B9600 := 13; IGNPAR := 4 |}.

Definition at_start : files := Files ∅ [].

(** Three times "hello". *)
Lemma uart_echoes_witness :
  let f := snd (@Uart.main (machine (chars "hello")) _ 3 [] at_start) in
  sent (trace f) = Uart.uart_out ++ chars "hellohellohello".
Proof.
  intros f.
  assert (Hreads : forall f fd n data, @os_read (machine (chars "hello")) f fd 512 = (n, data) -> 0 < n ->
    n = Z.of_nat (length data) /\ n <= 512) by (intros ? ? n data [= <- <-] _; split; [reflexivity|discriminate]).
  pose proof (@Uart.uart_echoes (machine (chars "hello")) _ 3 [] at_start Hreads) as Hw.
  unfold wp in Hw. change (snd (@Uart.main (machine (chars "hello")) _ 3 [] at_start)) with f in Hw.
  assert (Ho : fst (@Uart.main (machine (chars "hello")) _ 3 [] at_start) = Fault NoFuel) by (vm_compute; reflexivity).
  assert (Ht : received (trace f) = chars "hellohellohello") by (vm_compute; reflexivity).
  revert Ho Ht. unfold f. destruct (@Uart.main (machine (chars "hello")) _ 3 [] at_start) as [o f'].
  cbn [fst snd]. intros -> Ht. destruct Hw as (l & Hl & _ & He). cbn [trace at_start] in Hl. rewrite app_nil_r in Hl.
  rewrite Hl in Ht |- *. rewrite <- Ht. apply He; [|reflexivity]. rewrite Ht. vm_compute.
  intros Hin. repeat (apply elem_of_cons in Hin as [Hin|Hin]; [discriminate Hin|]). by apply elem_of_nil in Hin.
Defined.

(** The overrun happens. *)
Lemma uart_overruns : fst (@Uart.main (machine (replicate 511 65)) _ 1 [] at_start) = Fault OutOfBounds.
Proof. vm_compute. reflexivity. Qed.

(** Of "A", NUL, "B", received twice, only the two "A" are sent back. *)
Lemma uart_nul_lost :
  let f := snd (@Uart.main (machine [65; 0; 66]) _ 2 [] at_start) in
  sent (trace f) = Uart.uart_out ++ [65; 65] /\ received (trace f) = [65; 0; 66; 65; 0; 66].
Proof. vm_compute. split; reflexivity. Qed.
End Hello.
