(* ===== verification/Sensors.v ===== *)
(** adc/rtk_adc_test.c and thermal/rtk_thermal_test.c: tests that read numbers from sysfs. *)
From Stdlib Require Import ZArith Lia Ascii String Floats.SpecFloat.
From stdpp Require Import base list numbers gmap strings pretty.
From S2P Require Import Prelude Libc Print Posix Script Strto.

#[global] Open Scope Z_scope.

(** * Numbers in arrays *)

(** [atoi] on an array; it must come to a character that is no digit before the end. *)
Definition atoi_in (buf : list Z) : outcome Z :=
  let '(neg, l) := scan_sign (skip_spaces buf) in
  match read_digits 0 l with
  | (v, _ :: _) => Ok (s32 (if neg : bool then - v else v))
  | (_, []) => Fault OutOfBounds
  end.

(** [strtod] likewise. *)
Definition strtod_in (buf : list Z) : outcome spec_float :=
  match strtod buf with (x, _ :: _) => Ok x | (_, []) => Fault OutOfBounds end.

(** An integer as the kernel prints it. *)
Definition printed (z : Z) : list Z := if z <? 0 then code "-" :: decimal (- z) else decimal z.

Lemma atoi_printed z c rest :
  - 2 ^ 31 <= z < 2 ^ 31 -> isdigit c = false -> atoi_in (printed z ++ c :: rest) = Ok z.
Proof.
  intros Hz Hc. assert (Hst : stops (c :: rest)) by done. unfold atoi_in, printed. destruct (Z.ltb_spec z 0).
  - change (skip_spaces ((code "-" :: decimal (- z)) ++ c :: rest)) with (code "-" :: decimal (- z) ++ c :: rest).
    change (scan_sign (code "-" :: decimal (- z) ++ c :: rest)) with (true, decimal (- z) ++ c :: rest). cbv iota beta.
    rewrite read_decimal by (lia || done). f_equal. rewrite s32_id; lia.
  - destruct (decimal_scan z (c :: rest)) as (-> & -> & _). rewrite read_decimal by (lia || done).
    f_equal. rewrite s32_id; lia.
Qed.

Lemma length_decimal k n : 0 <= n < 10 ^ Z.of_nat k -> (1 <= k)%nat -> (length (decimal n) <= k)%nat.
Proof.
  intros Hn Hk. unfold decimal. rewrite length_chars. unfold pretty, pretty_N. case_decide; [done|].
  etrans; [apply (length_pretty_go k)|cbn; lia].
  assert (Z.of_N (10 ^ N.of_nat k) = 10 ^ Z.of_nat k) as Hpow by (rewrite N2Z.inj_pow, nat_N_Z; done). lia.
Qed.

(** The files are there, and a read from the start gives as much of the content as is asked for. *)
Record has_files `(O : PosixOS) (contents : string -> list Z) : Prop := HasFiles {
  files_open f path : 0 <= os_open f path;
  files_read f fd count : os_read f fd count =
    (Z.of_nat (length (take (Z.to_nat count) (contents (path_of (trace f) fd)))),
     take (Z.to_nat count) (contents (path_of (trace f) fd))) }.

(** * rtk_thermal_test.c *)

Module Thermal.
Section Thermal.
Context `{PosixOS}.

(** The temperature that is reported, in thousandths of a degree.  [type] (20 bytes) and
    [buffer] (9 bytes) are what the arrays hold at first. *)
Definition main (type buffer : list Z) : fprog Z :=
  fd ← sys_open "/sys/class/thermal/thermal_zone0/type";
  if fd <? 0 then stop (Exited 1) else
  '(ret, data) ← sys_read fd 20;
  if ret <? 0 then stop (Exited 1) else
  type ← lift (array_set (overwrite data type) ret 0);
  _ ← lift (c_string type);
  _ ← sys_close fd;
  fd ← sys_open "/sys/class/thermal/thermal_zone0/temp";
  if fd <? 0 then stop (Exited 1) else
  '(ret, data) ← sys_read fd 9;
  if ret <? 0 then stop (Exited 1) else
  temp ← lift (atoi_in (overwrite data buffer));
  _ ← sys_close fd;
  mret temp.
End Thermal.

(** The thermal test reports the number in the file of the temperature, and leaves
    nothing open, when the type of the zone has fewer than 20 characters; with 20 or more it
    writes its terminator behind the array. *)
Theorem thermal_reports `{HL : PosixLaws} contents type buffer t f :
  has_files _ contents -> length type = 20%nat -> length buffer = 9%nat ->
  - 256000 <= t <= 256000 -> contents "/sys/class/thermal/thermal_zone0/temp" = printed t ++ [10] ->
  wp (main type buffer) f (fun o f' =>
    if (length (contents "/sys/class/thermal/thermal_zone0/type") <? 20)%nat then o = Ok t /\ holding [] f f'
    else o = Fault OutOfBounds).
Proof.
  intros [Hopen Hread] Hty Hbuf Ht Htemp.
  apply (play_start _ _ (fun f o f' => if (length (contents _) <? 20)%nat then o = Ok t /\ holding [] f f' else o = Fault OutOfBounds)).
  intros f0 P. set (ty := contents "/sys/class/thermal/thermal_zone0/type") in *. unfold main. wstep. play.
  { specialize (Hopen f "/sys/class/thermal/thermal_zone0/type"). lia. }
  assert (Hp1 : path_of (trace f1) fd = "/sys/class/thermal/thermal_zone0/type"%string) by (apply (playing_names _ _ _ _ P); by left).
  play; wstep. play. rewrite Hread, Hp1 in H1. fold ty in H1. injection H1 as <- <-.
  rewrite (proj2 (Z.ltb_ge _ _)) by lia. do 2 wstep. change (Z.to_nat 20) with 20%nat.
  destruct (Nat.ltb_spec (length ty) 20) as [Hl|Hl].
  2:{ unfold array_set. rewrite length_overwrite, Hty, length_take, (proj2 (Z.ltb_ge _ _)), andb_false_r by lia. done. }
  rewrite take_ge by lia. unfold array_set.
  rewrite length_overwrite, Hty, (proj2 (Z.leb_le 0 _)), (proj2 (Z.ltb_lt _ _)) by lia. cbn [andb next].
  destruct (c_string_has (<[Z.to_nat (Z.of_nat (length ty)) := 0]> (overwrite ty type))) as [text Htext].
  { apply list_elem_of_lookup_2 with (length ty). rewrite Nat2Z.id. apply list_lookup_insert_eq. rewrite length_overwrite. lia. }
  do 2 wstep. rewrite Htext. cbn [next]. wstep. play. wstep. play.
  { match goal with Ho : os_open ?g ?path = _ |- _ => specialize (Hopen g path) end. lia. }
  destruct (playing_names _ _ _ _ P fd0 "/sys/class/thermal/thermal_zone0/temp") as [_ Hp2]; [by left|].
  play; wstep. play. match goal with Hr : os_read _ _ 9 = _ |- _ => rename Hr into Hr9 end.
  rewrite Hread, Hp2, Htemp in Hr9. change (Z.to_nat 9) with 9%nat in Hr9.
  assert (Hlt : (length (printed t ++ [10%Z]) <= 9)%nat).
  { rewrite length_app. unfold printed. destruct (Z.ltb_spec t 0); cbn [length];
      [pose proof (length_decimal 6 (- t))|pose proof (length_decimal 6 t)]; lia. }
  rewrite take_ge in Hr9 by done. injection Hr9 as <- <-.
  rewrite (proj2 (Z.ltb_ge _ _)) by lia. do 2 wstep. rewrite overwrite_fits, <- app_assoc by lia. cbn [app].
  rewrite atoi_printed by (lia || done). cbn [next]. wstep. play. wstep. split; [done|]. apply P.
Qed.
End Thermal.

(** * rtk_adc_test.c *)

Module Adc.
Section Adc.
Context `{PosixOS}.

Inductive mode := Single (ch : Z) | Diff (vinp_ch vinn_ch : Z).

Definition pair_ok (vinp_ch vinn_ch : Z) : bool :=
  ((vinp_ch =? 0) && (vinn_ch =? 1)) || ((vinp_ch =? 1) && (vinn_ch =? 0)) ||
  ((vinp_ch =? 2) && (vinn_ch =? 3)) || ((vinp_ch =? 3) && (vinn_ch =? 2)) ||
  ((vinp_ch =? 4) && (vinn_ch =? 5)) || ((vinp_ch =? 5) && (vinn_ch =? 4)).

(** The arguments after the name of the program; [None]: [exit(1)]. *)
Definition parse_args (args : list string) : option mode :=
  match args with
  | [a] => let adc_ch := atoi a in if (adc_ch <? 0) || (6 <? adc_ch) then None else Some (Single adc_ch)
  | [d; p; n] =>
      if String.eqb d "diff" then
        if pair_ok (atoi p) (atoi n) then Some (Diff (atoi p) (atoi n)) else None
      else None
  | _ => None
  end.

(** The name that [sprintf] writes into [dev_name]. *)
Definition attribute (m : mode) (suffix : string) : string :=
  "/sys/bus/iio/devices/iio:device0/in_voltage" +:+
  match m with
  | Single ch => pretty ch
  | Diff p n => pretty p +:+ "-voltage" +:+ pretty n
  end +:+ suffix.

(** How many bytes, the terminator among them, [sprintf] writes behind the 50 bytes of
    [dev_name].  What lies there the language does not say; these bytes are counted, and taken
    not to disturb the rest of the run, which reaches its result in the transcripts of
    adc/readme.txt. *)
Definition excess (m : mode) (suffix : string) : Z :=
  Z.max 0 (Z.of_nat (String.length (attribute m suffix)) + 1 - 50).

(** An attribute read into the buffer, of which [count] bytes are asked for. *)
Definition read_attribute (m : mode) (suffix : string) (count : Z) (buffer : list Z) : fprog (Z * list Z) :=
  fd ← sys_open (attribute m suffix);
  if fd <? 0 then stop (Exited 1) else
  '(ret, data) ← sys_read fd count;
  if ret <? 0 then stop (Exited 1) else mret (fd, overwrite data buffer).

(** [float] arithmetic. *)
Definition float_of_int (n : Z) : spec_float := binary_normalize 24 128 n 0 false.
Definition float_of_double (x : spec_float) : spec_float :=
  match x with
  | S754_finite s m e => binary_normalize 24 128 (if s then Zneg m else Zpos m) e s
  | _ => x
  end.
Definition calibrated (raw_cnt offset : Z) (scale : spec_float) : spec_float :=
  SFmul 24 128 (SFadd 24 128 (float_of_int raw_cnt) (float_of_int offset)) scale.

(** The voltage that is reported, and the bytes written behind [dev_name] for each of the three
    names; [buffer] (15 bytes) is what the array holds at first. *)
Definition main (args : list string) (buffer : list Z) : fprog (spec_float * list Z) :=
  match parse_args args with
  | None => stop (Exited 1)
  | Some m =>
      '(fd, buffer) ← read_attribute m "_raw" 5 buffer;
      raw_cnt ← lift (atoi_in buffer);
      _ ← sys_close fd;
      '(fd, buffer) ← read_attribute m "_offset" 5 buffer;
      value ← lift (atoi_in buffer);
      _ ← sys_close fd;
      '(fd, buffer) ← read_attribute m "_scale" 11 buffer;
      scale ← lift (strtod_in buffer);
      _ ← sys_close fd;
      mret (calibrated raw_cnt value (float_of_double scale), excess m <$> ["_raw"; "_offset"; "_scale"])
  end.
End Adc.

(** The pairs are the channels that differ in the last bit. *)
Lemma pair_ok_spec p n : pair_ok p n = true <-> 0 <= p < 6 /\ n = Z.lxor p 1.
Proof.
  unfold pair_ok. rewrite !orb_true_iff, !andb_true_iff, !Z.eqb_eq. split.
  - intros [[[[[[-> ->]|[-> ->]]|[-> ->]]|[-> ->]]|[-> ->]]|[-> ->]]; by split.
  - intros [Hp ->]. assert (p = 0 \/ p = 1 \/ p = 2 \/ p = 3 \/ p = 4 \/ p = 5) as Hc by lia.
    destruct Hc as [->|[->|[->|[->|[->| ->]]]]]; vm_compute; tauto.
Qed.

(** The channels have one digit. *)
Lemma excess_parsed args m :
  parse_args args = Some m ->
  excess m <$> ["_raw"; "_offset"; "_scale"] = match m with Single _ => [0; 2; 1] | Diff _ _ => [8; 11; 10] end.
Proof.
  assert (H1 : forall z, 0 <= z < 10 -> String.length (pretty z) = 1%nat).
  { intros z Hz. assert (z = 0 \/ z = 1 \/ z = 2 \/ z = 3 \/ z = 4 \/ z = 5 \/ z = 6 \/ z = 7 \/ z = 8 \/ z = 9) as Hc by lia.
    repeat (destruct Hc as [->|Hc]; [vm_compute; reflexivity|]). by subst. }
  assert (Hx : forall m suffix, excess m suffix =
    Z.max 0 (Z.of_nat (String.length suffix) - 6 + match m with
      | Single ch => Z.of_nat (String.length (pretty ch))
      | Diff p n => Z.of_nat (String.length (pretty p)) + 8 + Z.of_nat (String.length (pretty n)) end)).
  { intros m' suffix. unfold excess, attribute. rewrite !string_length_app.
    change (String.length "/sys/bus/iio/devices/iio:device0/in_voltage") with 43%nat.
    destruct m'; [|rewrite !string_length_app; change (String.length "-voltage") with 8%nat]; f_equal; lia. }
  intros Hp. assert (Hm : match m with Single ch => 0 <= ch < 10 | Diff p n => 0 <= p < 10 /\ 0 <= n < 10 end).
  { destruct args as [|a [|p [|n [|]]]]; try done; cbn in Hp.
    - destruct (Z.ltb_spec (atoi a) 0), (Z.ltb_spec 6 (atoi a)); try done. injection Hp as <-. lia.
    - destruct (String.eqb a "diff"); [|done]. destruct (pair_ok (atoi p) (atoi n)) eqn:Hok; [|done].
      injection Hp as <-. apply pair_ok_spec in Hok as [Hr ->]. split; [lia|].
      assert (atoi p = 0 \/ atoi p = 1 \/ atoi p = 2 \/ atoi p = 3 \/ atoi p = 4 \/ atoi p = 5) as Hc by lia.
      repeat (destruct Hc as [->|Hc]; [by vm_compute|]). rewrite Hc. by vm_compute. }
  cbn. rewrite !Hx. destruct m; destruct_and?; rewrite !H1 by done; reflexivity.
Qed.

(** A number of up to five characters, read into the array before a character that is no digit. *)
Lemma number_read z buffer c rest :
  - 9999 <= z <= 99999 -> isdigit c = false -> drop 5 buffer = c :: rest ->
  let buffer' := overwrite (take 5 (printed z ++ [10])) buffer in
  atoi_in buffer' = Ok z /\ drop 5 buffer' = c :: rest /\ length buffer' = length buffer.
Proof.
  intros Hz Hc Hd buffer'.
  assert (Hlen : (6 <= length buffer)%nat) by (apply (f_equal length) in Hd; rewrite length_drop in Hd; cbn in Hd; lia).
  assert (Hl : (length (printed z) <= 5)%nat).
  { unfold printed. destruct (Z.ltb_spec z 0); cbn [length]; [pose proof (length_decimal 4 (- z))|pose proof (length_decimal 5 z)]; lia. }
  assert (Hb : buffer' = take 5 (printed z ++ [10]) ++ drop (length (take 5 (printed z ++ [10]))) buffer).
  { apply overwrite_fits. rewrite length_take. lia. }
  split_and!; [| |apply length_overwrite]; rewrite Hb; clear Hb.
  - destruct (decide (length (printed z) = 5%nat)) as [H5|H5].
    + rewrite take_app_le, (take_ge (printed z)), H5, Hd by lia. apply atoi_printed; [lia|done].
    + rewrite take_ge by (rewrite length_app; cbn; lia). rewrite <- app_assoc. apply atoi_printed; [lia|done].
  - rewrite drop_app, length_take. rewrite (drop_ge (take _ _)) by (rewrite length_take; lia). cbn [app].
    rewrite drop_drop, <- Hd. f_equal. lia.
Qed.

(** Reading an attribute of a system that has it. *)
Lemma wp_read_attribute `{HL : PosixLaws} contents m suffix count buffer l acts f0 f (Q : outcome (Z * list Z) -> files -> Prop) :
  has_files _ contents -> playing l acts f0 f ->
  (forall fd acts' f', playing ((fd, attribute m suffix) :: l) acts' f0 f' ->
     Q (Ok (fd, overwrite (take (Z.to_nat count) (contents (attribute m suffix))) buffer)) f') ->
  wp (read_attribute m suffix count buffer) f Q.
Proof.
  intros [Hopen Hread] P HQ. unfold read_attribute. wstep. play.
  { match goal with Ho : os_open ?g ?path = _ |- _ => specialize (Hopen g path) end. lia. }
  assert (Hp : path_of (trace f1) fd = attribute m suffix) by (apply (playing_names _ _ _ _ P); by left).
  rewrite (proj2 (Z.ltb_ge _ _)) by done. wstep. play.
  match goal with Hr : os_read _ _ _ = _ |- _ => rewrite Hread, Hp in Hr; injection Hr as <- <- end.
  rewrite (proj2 (Z.ltb_ge _ _)) by lia. wstep. by eapply HQ.
Qed.

End Adc.

(** * A zone *)

Module Zone.
Definition contents (path : string) : list Z :=
  if bool_decide (path = "/sys/class/thermal/thermal_zone0/temp"%string) then printed (-4500) ++ [10]
  else chars "cpu-thermal" ++ [10].
#[export] Instance machine : PosixOS := {|
  os_open f _ := next_free f;
  os_read f fd count :=
    let data := take (Z.to_nat count) (contents (path_of (trace f) fd)) in (Z.of_nat (length data), data);
  os_write _ _ data := Z.of_nat (length data);
  os_ioctl _ _ _ _ := (0, []);
  os_ioctl_fd f _ _ _ := (0, next_free f);
  os_poll _ _ := (1, true);
  os_lseek _ _ := 0;
  os_access _ _ := 0 |}.
#[export] Instance machine_laws : PosixLaws machine.
Proof. split; [intros f path _; apply next_free_fresh|]. intros f fd req args r h [= <- <-] _. apply next_free_fresh. Qed.
Definition at_start : files := Files ∅ [].

Lemma thermal_reports_witness :
  fst (Thermal.main (replicate 20 0) (replicate 9 0) at_start) = Ok (-4500) /\
  wp (Thermal.main (replicate 20 0) (replicate 9 0)) at_start (fun o f' => o = Ok (-4500) /\ holding [] at_start f').
Proof.
  split; [vm_compute; reflexivity|].
  apply (Thermal.thermal_reports contents (replicate 20 0) (replicate 9 0) (-4500) at_start); [|reflexivity|reflexivity|lia|reflexivity].
  split; [intros f path; apply next_free_fresh|reflexivity].
Defined.

End Zone.

(** * The transcripts of adc/readme.txt *)

Module Converter.
(** Channel 0, and the channels 2 and 3. *)
Definition contents (path : string) : list Z :=
  let named name := bool_decide (path = name) in
  if named (Adc.attribute (Adc.Single 0) "_raw") then printed 818 ++ [10]
  else if named (Adc.attribute (Adc.Single 0) "_offset") then printed (-23) ++ [10]
  else if named (Adc.attribute (Adc.Diff 2 3) "_raw") then printed 3235 ++ [10]
  else if named (Adc.attribute (Adc.Diff 2 3) "_offset") then printed (-2016) ++ [10]
  else chars "0.849334717" ++ [10].
#[export] Instance machine : PosixOS := {|
  os_open f _ := next_free f;
  os_read f fd count :=
    let data := take (Z.to_nat count) (contents (path_of (trace f) fd)) in (Z.of_nat (length data), data);
  os_write _ _ data := Z.of_nat (length data);
  os_ioctl _ _ _ _ := (0, []);
  os_ioctl_fd f _ _ _ := (0, next_free f);
  os_poll _ _ := (1, true);
  os_lseek _ _ := 0;
  os_access _ _ := 0 |}.
#[export] Instance machine_laws : PosixLaws machine.
Proof. split; [intros f path _; apply next_free_fresh|]. intros f fd req args r h [= <- <-] _. apply next_free_fresh. Qed.
Definition at_start : files := Files ∅ [].

End Converter.
