(* ===== verification/Devices.v ===== *)
(** The small device tests: watchdog/watchdog.c, system_timer/main.c, audio_pll/audio_pll.c,
    ir/ir.c, sdioh/sdioh.c, misc/misc.c and captouch/rtk_captouch_test.c. *)
From Stdlib Require Import ZArith Lia Ascii String.
From stdpp Require Import base list numbers gmap strings pretty.
From S2P Require Import Prelude Libc Posix Script.

#[global] Open Scope Z_scope.

(** An [ioctl] that fills a variable, which is left alone when the call fails. *)
Definition ioctl_fill `{PosixOS} (fd : Z) (req : string) (var : Z) : fprog (Z * Z) :=
  '(ret, out) ← sys_ioctl fd req [];
  mret (ret, if ret <? 0 then var else default var (hd_error out)).

(** * watchdog.c *)

Module Watchdog.
Section Watchdog.
Context `{PosixOS}.

Definition WDG_FEED_PRE_TIMEOUT : Z := 3.
Definition WDG_FEED_COUNT : Z := 4.

(** The two loops, for [rounds] turns; [i] feeds are done.  The clock is read for the messages
    only. *)
Fixpoint feed (rounds : nat) (fd timeout i : Z) : fprog Z :=
  match rounds with
  | O => stop NoFuel
  | S rounds =>
      if i =? WDG_FEED_COUNT then sys_sleep 1;; feed rounds fd timeout i
      else
        sys_sleep (u32 (timeout - WDG_FEED_PRE_TIMEOUT));;
        '(ret, _) ← sys_ioctl fd "WDIOC_KEEPALIVE" [];
        if ret <? 0 then mret 1 else feed rounds fd timeout (s32 (i + 1))
  end.

Definition main (rounds : nat) : fprog Z :=
  fd ← sys_open "/dev/watchdog0";
  if fd <? 0 then mret 1 else
  '(ret, timeout) ← ioctl_fill fd "WDIOC_GETTIMEOUT" 20;
  if ret <? 0 then mret 1 else feed rounds fd timeout 0.
End Watchdog.

(** One feed, after a sleep that ends three seconds before the timeout. *)
Definition fed (timeout : Z) : list act :=
  [Sleeps (u32 (timeout - 3)); Asks "/dev/watchdog0" "WDIOC_KEEPALIVE" []].

Lemma feed_ok `{HL : PosixLaws} rounds fd timeout i acts f0 f :
  0 <= i <= 4 -> playing [(fd, "/dev/watchdog0"%string)] acts f0 f ->
  wp (feed rounds fd timeout i) f (fun o f' => exists k m,
    playing [(fd, "/dev/watchdog0"%string)] (acts ++ concat (replicate k (fed timeout)) ++ replicate m (Sleeps 1)) f0 f' /\
    i + Z.of_nat k <= 4 /\ (i + Z.of_nat k < 4 -> m = 0%nat) /\
    ((o = Ok 1 /\ m = 0%nat /\ (0 < k)%nat) \/ (o = Fault NoFuel /\ (k + m = rounds)%nat))).
Proof.
  revert i acts f. induction rounds as [|rounds IH]; intros i acts f Hi P; cbn [feed].
  { wstep. exists 0%nat, 0%nat. rewrite app_nil_r. split_and!; try done; try lia. by right. }
  unfold WDG_FEED_COUNT. destruct (Z.eqb_spec i 4) as [->|Hi4].
  - wstep. play. eapply wp_mono; [apply IH; [lia|exact P]|]. intros o f' (k & m & P' & Hk & Hm & Ho).
    assert (k = 0%nat) as -> by lia. exists 0%nat, (S m). cbn in *. rewrite <- app_assoc in P'.
    split_and!; [exact P'|lia|lia|]. destruct Ho as [(_ & _ & ?)|[-> ?]]; [lia|]. right. split; [done|lia].
  - wstep. play. wstep. play. destruct (Z.ltb_spec r 0) as [Hr|Hr].
    + wstep. exists 1%nat, 0%nat. rewrite <- app_assoc in P. split_and!; [by rewrite app_nil_r|lia|done|]. left. by split_and!; try lia.
    + rewrite (s32_id (i + 1)) by lia. eapply wp_mono; [apply IH; [lia|exact P]|].
      intros o f' (k & m & P' & Hk & Hm & Ho). exists (S k), m.
      rewrite <- !app_assoc in P'. split_and!; [exact P'|lia|intros; apply Hm; lia|].
      destruct Ho as [(-> & -> & ?)|[-> ?]]; [left|right]; split_and!; try done; lia.
Qed.
(** The watchdog is fed at most four times, each time three seconds before it would bite;
    after the fourth feed the test only waits, so that the machine must come down, and it never
    comes to an end by itself unless a call fails. *)
Theorem watchdog_starves `{HL : PosixLaws} rounds f :
  wp (main rounds) f (fun o f' => exists held acts, playing held acts f f' /\ (o = Ok 1 \/ o = Fault NoFuel) /\
    (acts `prefix_of` [Opens "/dev/watchdog0"; Asks "/dev/watchdog0" "WDIOC_GETTIMEOUT" []] /\ o = Ok 1 \/
     exists timeout k m, acts = [Opens "/dev/watchdog0"; Asks "/dev/watchdog0" "WDIOC_GETTIMEOUT" []] ++
        concat (replicate k (fed timeout)) ++ replicate m (Sleeps 1) /\
      (k <= 4)%nat /\ ((0 < m)%nat -> k = 4%nat) /\ (o = Fault NoFuel -> (k + m = rounds)%nat))).
Proof.
  apply (play_start _ _ (fun f o f' => exists held acts, playing held acts f f' /\ _)). intros f0 P.
  unfold main, ioctl_fill. wstep. play; play; try lia; cbn [app] in P.
  - wstep. eexists _, _. split; [exact P|]. split; [by left|]. left. split; [by eexists|done].
  - wstep. wstep. play. wstep. destruct (Z.ltb_spec r 0) as [Hr|Hr].
    + wstep. eexists _, _. split; [exact P|]. split; [by left|]. left. split; [by exists []|done].
    + eapply wp_mono; [apply (feed_ok _ _ _ 0); [lia|exact P]|]. intros o f' (k & m & P' & Hk & Hm & Ho).
      eexists _, _. split; [exact P'|]. split; [destruct Ho as [[-> _]|[-> _]]; auto|]. right.
      exists (default 20 (hd_error out)), k, m. split_and!; [done|lia|intros ?; lia|].
      intros ->. by destruct Ho as [[? _]|[_ ?]].
Qed.
End Watchdog.

(** * system_timer/main.c *)

Module SystemTimer.
(** [clock_gettime(CLOCK_REALTIME)]: seconds and nanoseconds. *)
Class Clock := { clock_now : files -> Z * Z }.

(** Eight bytes as a [uint64_t]. *)
Definition le_value (data : list Z) : Z := foldr (fun b v => b + 256 * v) 0 data.

Section SystemTimer.
Context `{PosixOS} `{Clock}.

(** The loop, for [rounds] reads: the lines of the report, the expirations and their total.  [exp]
    keeps its value when a read fails. *)
Fixpoint expirations (rounds : nat) (tmfd exp tot_exp max_exp : Z) : fprog (list (Z * Z)) :=
  if tot_exp <? max_exp then
    match rounds with
    | O => stop NoFuel
    | S rounds =>
        '(ret, data) ← sys_read tmfd 8;
        let exp := if ret <? 0 then exp else le_value data in
        let tot_exp := u64 (tot_exp + exp) in
        lines ← expirations rounds tmfd exp tot_exp max_exp;
        mret ((exp, tot_exp) :: lines)
    end
  else mret [].

(** The result and the report; a timer is opened like a file. *)
Definition main (rounds : nat) (args : list string) : fprog (Z * list (Z * Z)) :=
  match args with
  | [interval; repeat] =>
      f ← get;
      let '(sec, nsec) := clock_now f in
      tmfd ← sys_open "timerfd";
      if tmfd <? 0 then mret (-1, [])
      else
        '(ret, _) ← sys_ioctl tmfd "timerfd_settime(TFD_TIMER_ABSTIME)" [sec; nsec; atoi interval; 0];
        if ret <? 0 then _ ← sys_close tmfd; mret (-1, [])
        else
          lines ← expirations rounds tmfd 0 0 (u64 (atoi repeat));
          _ ← sys_close tmfd;
          mret (0, lines)
  | _ => mret (-1, [])
  end.
End SystemTimer.

(** The lines add up, and only the last one reaches [max]. *)
Fixpoint counts (tot max : Z) (lines : list (Z * Z)) : Prop :=
  match lines with
  | [] => max <= tot
  | (exp, tot') :: lines => tot < max /\ 1 <= exp /\ tot' = tot + exp /\ counts tot' max lines
  end.

Section Proof.
Context `{PosixOS}.

(** A read of the timer waits for an expiration. *)
Context (ticks : forall f fd ret data, os_read f fd 8 = (ret, data) -> 0 <= ret /\ 1 <= le_value data < 2 ^ 32).

Lemma expirations_count rounds tmfd exp tot max f :
  0 <= tot < 2 ^ 33 -> max < 2 ^ 32 -> max - tot <= Z.of_nat rounds ->
  wp (expirations rounds tmfd exp tot max) f (fun o f' => fds f' = fds f /\ bad_closes f' = bad_closes f /\
    exists lines, o = Ok lines /\ counts tot max lines).
Proof.
  revert exp tot f. induction rounds as [|rounds IH]; intros exp tot f Htot Hmax Hr; cbn [expirations].
  { rewrite (proj2 (Z.ltb_ge _ _)) by lia. wstep. split_and!; [done|done|]. exists []. split; [done|cbn; lia]. }
  destruct (Z.ltb_spec tot max) as [Hlt|Hge]; [|wstep; split_and!; [done|done|]; exists []; split; [done|cbn; lia]].
  wstep. apply wp_read_did. intros ret data Hos. cbn [next]. destruct (ticks _ _ _ _ Hos) as [Hret Hexp].
  rewrite (proj2 (Z.ltb_ge _ _)) by lia. rewrite u64_id by lia. wstep.
  eapply wp_mono; [apply IH; lia|]. intros o f' (Hfds & Hbad & lines & -> & Hc); cbn [next]. wstep.
  split; [exact Hfds|]. split; [exact Hbad|]. eexists. split; [done|]. cbn. split_and!; (done || lia).
Qed.
End Proof.

(** When every read of the timer brings an expiration, the timer test ends after at most
    as many reads as repetitions were asked for: its totals add up the expirations, and it stops
    at the first total that reaches the number asked for.  It leaves nothing open. *)
Theorem system_timer_counts `{HL : PosixLaws} `{Clock} rounds interval repeat f :
  (forall f fd ret data, os_read f fd 8 = (ret, data) -> 0 <= ret /\ 1 <= le_value data < 2 ^ 32) ->
  0 <= atoi repeat <= Z.of_nat rounds ->
  wp (main rounds [interval; repeat]) f (fun o f' => holding [] f f' /\
    (o = Ok (-1, []) \/ exists lines, o = Ok (0, lines) /\ counts 0 (atoi repeat) lines)).
Proof.
  intros Hticks Hrep. assert (Hmax : atoi repeat < 2 ^ 32).
  { unfold atoi. pose proof (s32_range (decimal_value repeat)). lia. }
  apply (play_start _ _ (fun f o f' => holding [] f f' /\ _)). intros f0 P.
  unfold main. do 2 wstep. destruct (clock_now f) as [sec nsec]. wstep. play; play; try lia; cbn [app] in P.
  - wstep. split; [apply P|by left].
  - wstep. play. destruct (r <? 0).
    + wstep. play. wstep. split; [apply P|by left].
    + wstep. rewrite u64_id by lia. eapply wp_mono; [apply (expirations_count Hticks); lia|].
      intros o f' (Hfds & Hbad & lines & -> & Hc). cbn [next].
      assert (Hh : holding [fd] f0 f').
      { destruct (playing_holding _ _ _ _ P) as [G1 G2 G3 G4]. split; [by rewrite Hfds|done|done|by rewrite Hbad]. }
      wstep. eapply (wp_sys_close fd [] []); [exact Hh|]. intros f'' Hh'. cbn [next]. wstep. split; [done|].
      right. by exists lines.
Qed.
End SystemTimer.

(** * audio_pll.c *)

Module AudioPll.
Definition PLL_98P304M : Z := 2.
Definition PLL_FASTER : Z := 1.

Record params := Params { clock : Z; action : Z; ppm : Z }.

(** A comparison with [strcmp] and what it guards: the option's argument, when there is one, is read and stays
    the current one.  At the end of [argv] it compares with a null pointer. *)
Definition take_option (flag : string) (argv : list string) (var : Z) : outcome (list string * Z) :=
  match argv with
  | [] => Fault OutOfBounds
  | arg :: rest =>
      if bool_decide (arg = flag) then Ok (rest, if rest is value :: _ then u32 (atoi value) else var)
      else Ok (argv, var)
  end.

(** The loop, for [fuel] turns. *)
Fixpoint parse_from (fuel : nat) (argv : list string) (p : params) : outcome params :=
  match argv with
  | [] => Ok p
  | _ :: _ =>
      match fuel with
      | O => Fault NoFuel
      | S fuel =>
          '(argv, c) ← take_option "-c" argv (clock p);
          '(argv, a) ← take_option "-a" argv (action p);
          '(argv, m) ← take_option "-p" argv (ppm p);
          parse_from fuel (tail argv) (Params c a m)
      end
  end.
Definition parse (argv : list string) : outcome params :=
  parse_from (length argv) argv (Params PLL_98P304M PLL_FASTER 800).

Section AudioPll.
Context `{PosixOS}.

(** [argv] begins with the name of the program. *)
Definition main (argv : list string) : fprog Z :=
  if (length argv <? 2)%nat then mret 1 else
  p ← lift (parse argv);
  fd ← sys_open "/dev/audio_pll_clk";
  _ ← sys_ioctl fd "AUDIO_PLL_GET_CLOCK_FOR_SPORT" [2];
  _ ← sys_ioctl fd "AUDIO_PLL_GET_CLOCK_FOR_SPORT" [3];
  _ ← sys_ioctl fd "AUDIO_PLL_MICRO_ADJUST" [clock p; action p; ppm p];
  _ ← sys_close fd;
  mret 0.
End AudioPll.

(** The options, and the command line they are given by. *)
Inductive opt := Clock | Action | Ppm.
Definition flag (o : opt) : string := match o with Clock => "-c" | Action => "-a" | Ppm => "-p" end.
Definition set_opt (p : params) (o : opt * string) : params :=
  let v := u32 (atoi o.2) in
  match o.1 with
  | Clock => Params v (action p) (ppm p)
  | Action => Params (clock p) v (ppm p)
  | Ppm => Params (clock p) (action p) v
  end.
Definition spelled (opts : list (opt * string)) : list string := concat ((fun o => [flag o.1; o.2]) <$> opts).
Definition is_value (s : string) : Prop := s <> "-c" /\ s <> "-a" /\ s <> "-p".

Lemma take_option_flag o rest var value :
  take_option (flag o) (flag o :: value :: rest) var = Ok (value :: rest, u32 (atoi value)).
Proof. by destruct o. Qed.
Lemma take_option_other f arg rest var : arg <> f -> take_option f (arg :: rest) var = Ok (arg :: rest, var).
Proof. intros Ha. cbn. by rewrite bool_decide_false. Qed.

(** One option and its value are one turn of the loop. *)
Lemma parse_option fuel o value rest p :
  is_value value ->
  parse_from (S fuel) (flag o :: value :: rest) p = parse_from fuel rest (set_opt p (o, value)).
Proof.
  intros (Hc & Ha & Hp). destruct o.
  - change (parse_from (S fuel) _ p) with ('(argv, a) ← take_option "-a" (value :: rest) (action p);
      '(argv, m) ← take_option "-p" argv (ppm p); parse_from fuel (tail argv) (Params (u32 (atoi value)) a m)).
    rewrite take_option_other by done. cbn [mbind outcome_bind]. by rewrite take_option_other.
  - change (parse_from (S fuel) _ p) with ('(argv, m) ← take_option "-p" (value :: rest) (ppm p);
      parse_from fuel (tail argv) (Params (clock p) (u32 (atoi value)) m)).
    by rewrite take_option_other.
  - done.
Qed.

Lemma parse_spelled opts tl fuel p :
  Forall is_value opts.*2 ->
  parse_from (length opts + fuel) (spelled opts ++ tl) p = parse_from fuel tl (foldl set_opt p opts).
Proof.
  revert p. induction opts as [|[o v] opts IH]; intros p Hv; [done|].
  apply Forall_cons in Hv as [Hv Hvs]. cbn [length Nat.add spelled concat fmap list_fmap app].
  cbn [fst snd]. rewrite parse_option by done. by apply IH.
Qed.

(** More fuel changes nothing once there is a turn for every argument. *)
Lemma parse_fuel fuel argv p : (length argv <= fuel)%nat -> parse_from fuel argv p = parse_from (length argv) argv p.
Proof.
  assert (Hshort : forall f l var l' v, take_option f l var = Ok (l', v) -> (length l' <= length l)%nat).
  { intros f [|a l] var l' v; cbn; [done|]. case_bool_decide; intros [= <- <-]; cbn; lia. }
  assert (Hgo : forall n fuel fuel' argv p, (length argv <= n)%nat -> (length argv <= fuel)%nat -> (length argv <= fuel')%nat ->
    parse_from fuel argv p = parse_from fuel' argv p).
  { clear -Hshort. induction n as [|n IH]; intros fuel fuel' [|a l] p Hn Hf Hf'; cbn in Hn; try lia;
      destruct fuel, fuel'; cbn in Hf, Hf'; try lia; try done.
    cbn [parse_from]. destruct (take_option "-c" _ _) as [[l1 c]|] eqn:H1; [|done]. apply Hshort in H1. cbn.
    destruct (take_option "-a" _ _) as [[l2 b]|] eqn:H2; [|done]. apply Hshort in H2. cbn.
    destruct (take_option "-p" _ _) as [[l3 m]|] eqn:H3; [|done]. apply Hshort in H3. cbn.
    cbn in H1. assert (length (tail l3) <= length l)%nat by (destruct l3; cbn in *; lia). apply IH; lia. }
  intros Hf. by apply (Hgo (length argv)).
Qed.

(** The options of the audio PLL test are read as they are documented: each with its value,
    in any order, the last of a kind wins and those that are missing keep their defaults; but a
    clock or an action without a value at the end of the line compares a null pointer. *)
Theorem audio_pll_options name opts :
  is_value name -> Forall is_value opts.*2 ->
  parse (name :: spelled opts) = Ok (foldl set_opt (Params PLL_98P304M PLL_FASTER 800) opts) /\
  parse (name :: spelled opts ++ ["-c"%string]) = Fault OutOfBounds /\
  parse (name :: spelled opts ++ ["-a"%string]) = Fault OutOfBounds /\
  parse (name :: spelled opts ++ ["-p"%string]) = Ok (foldl set_opt (Params PLL_98P304M PLL_FASTER 800) opts).
Proof.
  intros (Hc & Ha & Hp) Hv.
  assert (Hname : forall fuel rest p, parse_from (S fuel) (name :: rest) p = parse_from fuel rest p).
  { intros fuel rest [c a m]. cbn [parse_from]. rewrite take_option_other by done. cbn [mbind outcome_bind].
    rewrite take_option_other by done. cbn [mbind outcome_bind]. by rewrite take_option_other. }
  assert (Hlen : length (spelled opts) = (length opts + length opts)%nat).
  { clear. induction opts as [|o opts IH]; [done|].
    change (spelled (o :: opts)) with (flag o.1 :: o.2 :: spelled opts). cbn [length]. lia. }
  assert (Hgo : forall tl, parse (name :: spelled opts ++ tl) =
    parse_from (length opts + length tl) tl (foldl set_opt (Params PLL_98P304M PLL_FASTER 800) opts)).
  { intros tl. unfold parse. cbn [length]. rewrite Hname, length_app, Hlen, <- Nat.add_assoc. by apply parse_spelled. }
  rewrite !Hgo. split_and!; try (rewrite parse_fuel by (cbn; lia)); try done.
  - rewrite <- (app_nil_r (spelled opts)), Hgo. cbn. by rewrite Nat.add_0_r, parse_fuel by (cbn; lia).
  - cbn. by destruct (foldl _ _ _).
Qed.

Lemma audio_pll_options_witness :
  parse ["audio_pll"; "-p"; "200"; "-c"; "0"; "-p"; "500"] = Ok (Params 0 1 500) /\
  parse ["audio_pll"; "-p"; "200"; "-c"; "0"; "-p"; "500"; "-c"] = Fault OutOfBounds.
Proof.
  destruct (audio_pll_options "audio_pll" [(Ppm, "200"); (Clock, "0"); (Ppm, "500")]) as (H1 & H2 & _);
    [done|repeat constructor; done|]. split; [exact H1|exact H2].
Defined.

Definition session (p : params) : list act :=
  [Opens "/dev/audio_pll_clk"; Asks "/dev/audio_pll_clk" "AUDIO_PLL_GET_CLOCK_FOR_SPORT" [2];
   Asks "/dev/audio_pll_clk" "AUDIO_PLL_GET_CLOCK_FOR_SPORT" [3];
   Asks "/dev/audio_pll_clk" "AUDIO_PLL_MICRO_ADJUST" [clock p; action p; ppm p]; Closes "/dev/audio_pll_clk"].

(** With a device that opens, the test does its session; the answers change nothing. *)
Lemma audio_pll_session `{HL : PosixLaws} argv p f :
  (2 <= length argv)%nat -> parse argv = Ok p -> 0 <= os_open f "/dev/audio_pll_clk" ->
  wp (main argv) f (fun o f' => o = Ok 0 /\ playing [] (session p) f f').
Proof.
  intros Hlen Hp Hopen. apply (play_start _ _ (fun f0 o f' => o = Ok 0 /\ playing [] (session p) f0 f')). intros f0 P.
  unfold main. rewrite (proj2 (Nat.ltb_ge _ _)) by done. wstep. rewrite Hp. wstep. wstep. play; [lia|].
  do 4 (wstep; play). wstep. split; [done|exact P].
Qed.
End AudioPll.

(** * ir.c *)

Module Ir.
(** The constants of linux/lirc.h. *)
Class Lirc := { LIRC_MODE_SCANCODE : Z; RC_PROTO_NEC : Z }.
Definition IR_TX_TEST_SCANCODE : Z := 3927280245.

(** [struct lirc_scancode], in the order of its fields: timestamp, flags, rc_proto, keycode and
    scancode, little endian. *)
Fixpoint le_bytes (n : nat) (v : Z) : list Z :=
  match n with O => [] | S n => v mod 256 :: le_bytes n (v / 256) end.
Definition lirc_scancode (timestamp flags rc_proto keycode scancode : Z) : list Z :=
  le_bytes 8 timestamp ++ le_bytes 2 flags ++ le_bytes 2 rc_proto ++ le_bytes 4 keycode ++ le_bytes 8 scancode.

Section Ir.
Context `{PosixOS} `{Lirc}.

Definition main : fprog Z :=
  fd ← sys_open "/dev/lirc0";
  if fd <? 0 then mret (-1) else
  let scan := lirc_scancode 0 0 RC_PROTO_NEC 0 IR_TX_TEST_SCANCODE in
  '(ret, _) ← sys_ioctl fd "LIRC_SET_SEND_MODE" [LIRC_MODE_SCANCODE];
  if ret <? 0 then mret (-1) else
  ret ← sys_write fd scan;
  if ret <? 0 then mret (-1) else
  _ ← sys_close fd;
  mret 0.
End Ir.

(** The infrared test sends its scancode once, after it has chosen the mode of scancodes,
    and returns 0 only after the whole session; what fails makes it return -1 at once. *)
Theorem ir_session `{PosixLaws} `{Lirc} :
  plays (fun r => r <> -1)
    [Opens "/dev/lirc0"; Asks "/dev/lirc0" "LIRC_SET_SEND_MODE" [LIRC_MODE_SCANCODE];
     Writes "/dev/lirc0" (lirc_scancode 0 0 RC_PROTO_NEC 0 IR_TX_TEST_SCANCODE); Closes "/dev/lirc0"] 0 main.
Proof.
  apply plays_intro. intros f0 f P. unfold main. repeat play. all: played.
Qed.
End Ir.

(** * sdioh.c *)

Module Sdioh.
Section Sdioh.
Context `{PosixOS}.

Definition path : string := "/mnt/storage/mmcblk0p1/sd_test.txt".

(** The result and what the test shows of the file: [rbuf] is an array of 10 bytes, printed up to
    its terminator. *)
Definition main (rbuf : list Z) : fprog (Z * list Z) :=
  fd ← sys_open path;
  if fd <? 0 then mret (1, []) else
  ret ← sys_write fd (chars "hello" ++ [0]);
  if ret <? 0 then mret (1, []) else
  ret ← sys_lseek fd;
  if ret <? 0 then mret (1, []) else
  '(ret, data) ← sys_read fd 6;
  if ret <? 0 then mret (0, [])
  else
    text ← lift (c_string (overwrite data rbuf));
    _ ← sys_close fd;
    mret (0, text).
End Sdioh.

(** On a card that opens, takes the text and seeks, the test of the SD host passes whatever
    it reads back: its result is 0 even when the read fails, and then the file stays open; what
    was read is not compared with what was written, the array is shown up to its terminator, and
    without one the print runs out of it. *)
Theorem sdioh_passes `{HL : PosixLaws} rbuf f :
  (forall f, 0 <= os_open f path) -> (forall f fd data, 0 <= os_write f fd data) -> (forall f fd, 0 <= os_lseek f fd) ->
  wp (main rbuf) f (fun o f' => exists fd f1 ret data,
    playing [(fd, path)] [Opens path; Writes path (chars "hello" ++ [0]); Seeks path] f f1 /\
    os_read f1 fd 6 = (ret, data) /\
    match o with
    | Ok (result, text) => result = 0 /\
        (ret < 0 /\ holding [fd] f f' \/ 0 <= ret /\ holding [] f f' /\ c_string (overwrite data rbuf) = Ok text)
    | Fault e => e = OutOfBounds /\ 0 <= ret /\ c_string (overwrite data rbuf) = Fault OutOfBounds
    end).
Proof.
  intros Hopen Hwrite Hseek. apply (play_start _ _ (fun f0 o f' => exists fd f1 ret data, playing _ _ f0 f1 /\ _)). intros f0 P.
  unfold main. pose proof (Hopen f). wstep. play; [lia|].
  do 4 play; [match goal with E : os_write _ _ _ = _ |- _ => pose proof (Hwrite f1 fd (chars "hello" ++ [0])); lia end|].
  do 3 play; [match goal with E : os_lseek _ _ = _ |- _ => pose proof (Hseek f2 fd); lia end|].
  wstep. pose proof P as Q. play. destruct (Z.ltb_spec r1 0).
  - wstep. exists fd, f3, r1, data. split_and!; try done. left. split; [done|]. apply Q.
  - do 2 wstep. destruct (c_string (overwrite data rbuf)) as [text|e] eqn:Ht; cbn [next].
    2:{ pose proof (c_string_fault _ _ Ht) as ->. exists fd, f3, r1, data. split; [exact P|]. split; [done|]. split; [done|]. split; [lia|done]. }
    wstep. play. wstep. exists fd, f3, r1, data. split_and!; try done. right. split_and!; try done. apply Q.
Qed.
End Sdioh.

(** * misc.c *)

Module Misc.
Section Misc.
Context `{PosixOS}.

Definition device : string := "/dev/misc-ioctl".

(** The endless loop, for [rounds] turns; the results are not looked at. *)
Fixpoint toggle (rounds : nat) (fd val : Z) : fprog Z :=
  match rounds with
  | O => stop NoFuel
  | S rounds =>
      '(_, val) ← ioctl_fill fd "RTK_MISC_IOC_DDRC_DISGATE" val;
      sys_sleep 10;;
      '(_, val) ← ioctl_fill fd "RTK_MISC_IOC_DDRC_AUTO_GATE" val;
      sys_sleep 10;;
      toggle rounds fd val
  end.

Definition main (rounds : nat) (val : Z) : fprog Z :=
  fd ← sys_open device;
  if fd <? 0 then mret 1 else
  '(ret, val) ← ioctl_fill fd "RTK_MISC_IOC_RLV" val;
  if ret <? 0 then mret 1 else
  '(ret, val) ← ioctl_fill fd "RTK_MISC_IOC_UUID" val;
  if ret <? 0 then mret 1 else toggle rounds fd val.
End Misc.

(** One turn: gating off for ten seconds, on for ten seconds. *)
Definition turn : list act :=
  [Asks device "RTK_MISC_IOC_DDRC_DISGATE" []; Sleeps 10; Asks device "RTK_MISC_IOC_DDRC_AUTO_GATE" []; Sleeps 10].

Lemma toggle_turns `{HL : PosixLaws} rounds fd val acts f0 f :
  playing [(fd, device)] acts f0 f ->
  wp (toggle rounds fd val) f (fun o f' => o = Fault NoFuel /\
    playing [(fd, device)] (acts ++ concat (replicate rounds turn)) f0 f').
Proof.
  revert val acts f. induction rounds as [|rounds IH]; intros val acts f P; cbn [toggle].
  { wstep. split; [done|]. by rewrite app_nil_r. }
  unfold ioctl_fill. do 2 wstep. play. wstep. wstep. play. do 2 wstep. play. do 2 wstep. play.
  eapply wp_mono; [apply (IH _ _ _ P)|]. intros o f' [-> P']. split; [done|]. by rewrite <- !app_assoc in P'.
Qed.

(** The test of the misc driver has no end: it returns 1 when the device does not open or
    does not tell its version or its identifier, otherwise it turns the clock gating off and on
    again for ever, ten seconds each, and never closes the device. *)
Theorem misc_toggles `{HL : PosixLaws} rounds val f :
  wp (main rounds val) f (fun o f' => exists held acts, playing held acts f f' /\
    let first := [Opens device; Asks device "RTK_MISC_IOC_RLV" []; Asks device "RTK_MISC_IOC_UUID" []] in
    (o = Ok 1 /\ acts `prefix_of` first \/
     o = Fault NoFuel /\ length held = 1%nat /\ acts = first ++ concat (replicate rounds turn))).
Proof.
  apply (play_start _ _ (fun f0 o f' => exists held acts, playing held acts f0 f' /\ _)). intros f0 P.
  unfold main, ioctl_fill. wstep. play; play; cbn [app] in P.
  { wstep. eexists _, _. split; [exact P|]. left. split; [done|]. by eexists. }
  do 2 wstep. play. wstep. play; cbn [app] in P.
  { wstep. eexists _, _. split; [exact P|]. left. split; [done|]. by eexists. }
  do 2 wstep. play. wstep. play; cbn [app] in P.
  { wstep. eexists _, _. split; [exact P|]. left. split; [done|]. by exists []. }
  eapply wp_mono; [apply (toggle_turns _ _ _ _ _ _ P)|]. intros o f' [-> P']. eexists _, _. split; [exact P'|]. right. done.
Qed.
End Misc.

(** * rtk_captouch_test.c *)

Module Captouch.
(** [struct input_event] of linux/input.h: its size, and its type, code and value. *)
Class InputEvent := { event_size : Z; event_fields : list Z -> Z * Z * Z }.
Definition EV_KEY : Z := 1.

Inductive report := ReadFailed (ret : Z) | Pressed (code : Z) | Released (code : Z).

Section Captouch.
Context `{PosixOS} `{InputEvent}.

(** One turn of the endless loop. *)
Definition turn (fd : Z) : fprog (list report) :=
  '(ret, data) ← sys_read fd event_size;
  if ret <=? 0 then mret [ReadFailed ret] else
  let '(type, code, value) := event_fields data in
  mret (if type =? EV_KEY then
          if value =? 1 then [Pressed code] else if value =? 0 then [Released code] else []
        else []).

Fixpoint turns (rounds : nat) (fd : Z) : fprog (list report) :=
  match rounds with
  | O => mret []
  | S rounds => first ← turn fd; rest ← turns rounds fd; mret (first ++ rest)
  end.

(** The first [rounds] turns; a failed [open] is only printed. *)
Definition main (rounds : nat) : fprog (list report) :=
  fd ← sys_open "/dev/input/event0";
  turns rounds fd.

(** What the events of a trace, the oldest last, are told as. *)
Definition told (e : io) : list report :=
  match e with
  | Read _ _ ret data =>
      if ret <=? 0 then [ReadFailed ret] else
      let '(type, code, value) := event_fields data in
      if bool_decide (type = EV_KEY /\ value = 1) then [Pressed code]
      else if bool_decide (type = EV_KEY /\ value = 0) then [Released code] else []
  | _ => []
  end.

Lemma turns_told rounds fd f :
  wp (turns rounds fd) f (fun o f' => exists new, trace f' = new ++ trace f /\ length new = rounds /\ fds f' = fds f /\
    o = Ok (concat (told <$> rev new))).
Proof.
  revert f. induction rounds as [|rounds IH]; intros f; cbn [turns].
  { wstep. by exists []. }
  wstep. unfold turn. wstep. apply wp_read_did. intros ret data _. cbn [next].
  assert (Hone : wp (if ret <=? 0 then mret [ReadFailed ret] else
      let '(type, code, value) := event_fields data in
      mret (if type =? EV_KEY then if value =? 1 then [Pressed code] else if value =? 0 then [Released code] else [] else []))
      (did (Read fd event_size ret data) f)
      (fun o f' => o = Ok (told (Read fd event_size ret data)) /\ f' = did (Read fd event_size ret data) f)).
  { cbn [told]. destruct (ret <=? 0); [by wstep|]. destruct (event_fields data) as [[type code] value]. wstep. split; [|done].
    destruct (Z.eqb_spec type EV_KEY) as [->|Ht].
    - destruct (Z.eqb_spec value 1) as [->|H1]; [done|]. rewrite (bool_decide_false (EV_KEY = EV_KEY /\ value = 1)) by tauto.
      destruct (Z.eqb_spec value 0) as [->|H2]; [done|]. by rewrite bool_decide_false by tauto.
    - rewrite !bool_decide_false by tauto. done. }
  eapply wp_mono; [apply Hone|]. intros o f1 [-> ->]. cbn [next]. wstep.
  eapply wp_mono; [apply IH|]. intros o f2 (new & Ht & Hl & Hf & ->). cbn [next]. wstep.
  exists (new ++ [Read fd event_size ret data]). split_and!; [by rewrite Ht, <- app_assoc|rewrite length_app, Hl; cbn; lia|exact Hf|].
  rewrite rev_app_distr. done.
Qed.

(** The touch test tells every key that was pressed or released, in the order the events
    were read, and nothing of the other events; it goes on when the device has not opened, and
    then tells one failure per turn. *)
Theorem captouch_reports rounds f :
  wp (main rounds) f (fun o f' => exists new, trace f' = new ++ Open "/dev/input/event0" (os_open f "/dev/input/event0") :: trace f /\
    length new = rounds /\ o = Ok (concat (told <$> rev new))).
Proof.
  unfold main. wstep. unfold sys_open. do 3 wstep. wstep.
  assert (Hgo : forall f1, trace f1 = Open "/dev/input/event0" (os_open f "/dev/input/event0") :: trace f ->
    wp (turns rounds (os_open f "/dev/input/event0")) f1 (fun o f' => exists new,
      trace f' = new ++ Open "/dev/input/event0" (os_open f "/dev/input/event0") :: trace f /\
      length new = rounds /\ o = Ok (concat (told <$> rev new)))).
  { intros f1 Hf1. eapply wp_mono; [apply turns_told|]. intros o f' (new & Ht & Hl & _ & ->). exists new.
    by rewrite Ht, Hf1. }
  destruct (_ <? _); cbn [negb when]; do 2 wstep; by apply Hgo.
Qed.
End Captouch.
End Captouch.

(** * Systems the tests run on *)

Module Patient.
(** Every call is granted, a read brings eight bytes, the last seven of them null. *)
#[export] Instance machine : PosixOS := {|
  os_open f _ := next_free f;
  os_read _ _ count := (count, take (Z.to_nat count) [1; 0; 0; 0; 0; 0; 0; 0]);
  os_write _ _ data := Z.of_nat (length data);
  os_ioctl _ _ _ _ := (0, []);
  os_ioctl_fd f _ _ _ := (0, next_free f);
  os_poll _ _ := (1, true);
  os_lseek _ _ := 0;
  os_access _ _ := 0 |}.
#[export] Instance machine_grants : PosixLaws machine.
Proof. split; [intros f path _; apply next_free_fresh|]. intros f fd req args r h [= <- <-] _. apply next_free_fresh. Qed.
#[export] Instance clock : SystemTimer.Clock := {| SystemTimer.clock_now _ := (1700000000, 0) |}.
#[export] Instance lirc : Ir.Lirc := {| Ir.LIRC_MODE_SCANCODE := 8; Ir.RC_PROTO_NEC := 9 |}.
Definition at_start : files := Files ∅ [].

Lemma watchdog_starves_witness :
  fst (Watchdog.main 7 at_start) = Fault NoFuel /\
  wp (Watchdog.main 7) at_start (fun o f' => exists held acts, playing held acts at_start f' /\ (o = Ok 1 \/ o = Fault NoFuel) /\
    (acts `prefix_of` [Opens "/dev/watchdog0"; Asks "/dev/watchdog0" "WDIOC_GETTIMEOUT" []] /\ o = Ok 1 \/
     exists timeout k m, acts = [Opens "/dev/watchdog0"; Asks "/dev/watchdog0" "WDIOC_GETTIMEOUT" []] ++
        concat (replicate k (Watchdog.fed timeout)) ++ replicate m (Sleeps 1) /\
      (k <= 4)%nat /\ ((0 < m)%nat -> k = 4%nat) /\ (o = Fault NoFuel -> (k + m = 7)%nat))).
Proof. split; [vm_compute; reflexivity|]. exact (Watchdog.watchdog_starves 7 at_start). Defined.

Lemma system_timer_counts_witness :
  fst (SystemTimer.main 3 ["100"; "3"] at_start) = Ok (0, [(1, 1); (1, 2); (1, 3)]) /\
  wp (SystemTimer.main 3 ["100"; "3"]) at_start (fun o f' => holding [] at_start f' /\
    (o = Ok (-1, []) \/ exists lines, o = Ok (0, lines) /\ SystemTimer.counts 0 (atoi "3") lines)).
Proof.
  split; [vm_compute; reflexivity|]. apply (SystemTimer.system_timer_counts 3 "100" "3" at_start).
  - intros f fd ret data [= <- <-]. split; [lia|]. cbn. lia.
  - vm_compute. split; discriminate.
Defined.

Lemma ir_session_witness :
  fst (Ir.main at_start) = Ok 0 /\ plays (fun r => r <> -1)
    [Opens "/dev/lirc0"; Asks "/dev/lirc0" "LIRC_SET_SEND_MODE" [8];
     Writes "/dev/lirc0" (Ir.lirc_scancode 0 0 9 0 Ir.IR_TX_TEST_SCANCODE); Closes "/dev/lirc0"] 0 Ir.main.
Proof. split; [vm_compute; reflexivity|]. exact Ir.ir_session. Defined.

Lemma misc_toggles_witness :
  fst (Misc.main 1 0 at_start) = Fault NoFuel /\
  wp (Misc.main 1 0) at_start (fun o f' => exists held acts, playing held acts at_start f' /\
    let first := [Opens Misc.device; Asks Misc.device "RTK_MISC_IOC_RLV" []; Asks Misc.device "RTK_MISC_IOC_UUID" []] in
    (o = Ok 1 /\ acts `prefix_of` first \/
     o = Fault NoFuel /\ length held = 1%nat /\ acts = first ++ concat (replicate 1 Misc.turn))).
Proof. split; [vm_compute; reflexivity|]. exact (Misc.misc_toggles 1 0 at_start). Defined.

(** The array of the SD test holds ten bytes, the last of them null. *)
Lemma sdioh_passes_witness :
  fst (Sdioh.main (replicate 10 0) at_start) = Ok (0, [1]) /\
  wp (Sdioh.main (replicate 10 0)) at_start (fun o f' => exists fd f1 ret data,
    playing [(fd, Sdioh.path)] [Opens Sdioh.path; Writes Sdioh.path (chars "hello" ++ [0]); Seeks Sdioh.path] at_start f1 /\
    os_read f1 fd 6 = (ret, data) /\
    match o with
    | Ok (result, text) => result = 0 /\
        (ret < 0 /\ holding [fd] at_start f' \/
         0 <= ret /\ holding [] at_start f' /\ c_string (overwrite data (replicate 10 0)) = Ok text)
    | Fault e => e = OutOfBounds /\ 0 <= ret /\ c_string (overwrite data (replicate 10 0)) = Fault OutOfBounds
    end).
Proof.
  split; [vm_compute; reflexivity|]. apply (Sdioh.sdioh_passes (replicate 10 0) at_start).
  - intros f. apply (next_free_fresh f).
  - intros f fd data. cbn. lia.
  - intros f fd. cbn. lia.
Defined.
End Patient.
