(* ===== verification/DmacMulti.v ===== *)
(** dmac/dmac_multi.c: the test that pauses and resumes a cyclic transfer.  The thread of the
    probe and the DMA engine run interleaved, as in Dmac.v, whose kernel is used here too. *)
From Stdlib Require Import ZArith Lia.
From stdpp Require Import base list numbers relations.
From S2P Require Import Prelude Libc Dmac.

#[global] Open Scope Z_scope.

(** * Buffers *)

(** The functions of dmac.c, word for word. *)
Definition buf_print : list Z -> Z -> outcome (list Z) := Dmac.buf_print.
Definition buf_compare : list Z -> list Z -> Z -> outcome bool := Dmac.buf_compare.

(** * The state *)

(** Where a buffer is shown. *)
Inductive place := Source | InRound (i : Z) | BeforePause | AfterPause | AfterResume.
Inductive shown_event := Shown (at_place : place) (words : list Z) | Compared (same : bool).

(** The next thing the thread does: everything before the loop; the top of the loop; what
    follows the sleep of a round; the word [j] of a loop that reverts the destination, in the
    pause or not; the look at the transfer and the pause; what follows the sleep in the pause;
    the resumption; what follows the last sleep; the end. *)
Inductive multi_pc :=
| Setup | Top (i : Z) | Showing (i : Z) | Reverting (i : Z) (in_pause : bool) (j : Z) | Looking (i : Z)
| Pausing (i : Z) | PauseSlept (i : Z) | Resuming (i : Z) | ResumeSlept (i : Z) | Ending | Back (ret : Z).

(** [dma_cyclic_status]; the buffers of [test_addr] and their size; the channel and the
    configuration; whether the transfer was issued and whether it is paused; what was shown,
    newest first. *)
Record multi := Multi {
  status : Z; mem_size : Z; buffers : bool; src : list Z; dst : list Z;
  chan : bool; config : bool; active : bool; paused : bool; at_pc : multi_pc; shown : list shown_event }.

Definition set_status (x : Z) (w : multi) : multi :=
  Multi x (mem_size w) (buffers w) (src w) (dst w) (chan w) (config w) (active w) (paused w) (at_pc w) (shown w).
Definition set_mem (size : Z) (b : bool) (s d : list Z) (w : multi) : multi :=
  Multi (status w) size b s d (chan w) (config w) (active w) (paused w) (at_pc w) (shown w).
Definition set_dst (d : list Z) (w : multi) : multi := set_mem (mem_size w) (buffers w) (src w) d w.
Definition set_chan (c g a p : bool) (w : multi) : multi :=
  Multi (status w) (mem_size w) (buffers w) (src w) (dst w) c g a p (at_pc w) (shown w).
Definition goto (p : multi_pc) (w : multi) : multi :=
  Multi (status w) (mem_size w) (buffers w) (src w) (dst w) (chan w) (config w) (active w) (paused w) p (shown w).
Definition show (e : shown_event) (w : multi) : multi :=
  Multi (status w) (mem_size w) (buffers w) (src w) (dst w) (chan w) (config w) (active w) (paused w) (at_pc w) (e :: shown w).

Definition TEST_WORD : Z := 1717986918.
Definition REVERT_WORD : Z := 4294967295.

Section Multi.
Context `{DmaKernel}.

Definition need (b : bool) : prog multi unit := if b then mret tt else stop OutOfBounds.

Definition show_dst (at_place : place) : prog multi unit :=
  w ← get; need (buffers w);; words ← lift (buf_print (dst w) (mem_size w)); modify (show (Shown at_place words)).

Fixpoint fill_test_words (n : nat) (i : Z) (buf : list Z) : outcome (list Z) :=
  match n with
  | O => Ok buf
  | S n => buf ← word_set buf i TEST_WORD; fill_test_words n (i + 1) buf
  end.

(** Coherent memory comes zeroed. *)
Definition rtk_prepare_test_buf : prog multi unit :=
  let mem_size := 32 in
  let words := replicate (Z.to_nat (mem_size / 4)) 0 in
  modify (set_mem mem_size k_alloc words words);;
  w ← get; need (buffers w);;
  buf ← lift (fill_test_words (Z.to_nat (mem_size / 4)) 0 (src w));
  modify (set_mem mem_size (buffers w) buf (dst w));;
  words ← lift (buf_print buf mem_size);
  modify (show (Shown Source words)).

Definition rtk_multi_dmac_test_end : prog multi unit :=
  w ← get; need (chan w);; modify (set_chan false (config w) false (paused w));;
  need (buffers w);; w ← get; modify (set_mem (mem_size w) false [] []).

(** Its argument is the [test_addr] of the probe. *)
Definition rtk_dma_test_cyclic_callback : prog multi unit :=
  w ← get; need (buffers w);;
  same ← lift (buf_compare (src w) (dst w) (mem_size w));
  modify (set_status (if same : bool then RTK_DMAC_TEST_SUCCESS else RTK_DMAC_TEST_FAIL));;
  modify (show (Compared same)).

(** From the start to [dma_async_issue_pending]; there is one transfer, numbered 0. *)
Definition setup : prog multi unit :=
  rtk_prepare_test_buf;;
  modify (set_chan k_chan k_kzalloc false false);;
  w ← get; need (config w);; need (chan w);;
  let ret := u32 (k_slave_config 0) in
  if negb (ret =? 0) then modify (goto (Back RTK_DMAC_TEST_FAIL))
  else
    need (k_prep 0);; modify (set_chan (chan w) (config w) true false);; modify (goto (Top 0)).

(** [rtk_dma_test_cyclic]: what the thread does next. *)
Definition rtk_dma_test_cyclic : prog multi unit :=
  w ← get;
  match at_pc w with
  | Setup => setup
  | Top i => modify (goto (if i <=? 5 then Showing i else Ending))
  | Showing i => show_dst (InRound i);; modify (goto (Reverting i false 0))
  | Reverting i in_pause j =>
      if j <? mem_size w / 4 then
        need (buffers w);; d ← lift (word_set (dst w) j REVERT_WORD);
        modify (set_dst d);; modify (goto (Reverting i in_pause (j + 1)))
      else modify (goto (if in_pause then PauseSlept i else Looking i))
  | Looking i => modify (goto (if i =? 2 then Pausing i else Top (i + 1)))
  | Pausing i =>
      show_dst BeforePause;; w ← get; modify (set_chan (chan w) (config w) (active w) true);;
      modify (goto (Reverting i true 0))
  | PauseSlept i => show_dst AfterPause;; modify (goto (Resuming i))
  | Resuming i => modify (set_chan (chan w) (config w) (active w) false);; modify (goto (ResumeSlept i))
  | ResumeSlept i => show_dst AfterResume;; modify (goto (Top (i + 1)))
  | Ending => rtk_multi_dmac_test_end;; modify (goto (Back RTK_DMAC_TEST_SUCCESS))
  | Back _ => mret tt
  end.

(** The result of the test is not looked at. *)
Definition rtk_multi_dma_test_probe (w : multi) : Z := 0.

(** The interleavings.  The engine writes the destination while its transfer runs and is not
    paused; a callback may still come in the pause.  Releasing the channel ends the transfer. *)
Inductive act := Thread | Write (d : list Z) | Callback.
Inductive multi_step : act -> multi -> outcome unit * multi -> Prop :=
| step_thread w : (forall r, at_pc w <> Back r) -> multi_step Thread w (rtk_dma_test_cyclic w)
| step_write w d : active w = true -> paused w = false -> length d = length (dst w) ->
    multi_step (Write d) w (Ok tt, set_dst d w)
| step_callback w : active w = true -> multi_step Callback w (rtk_dma_test_cyclic_callback w).

Inductive multi_run : list act -> multi -> multi -> Prop :=
| run_none w : multi_run [] w w
| run_more acts a w w1 w2 : multi_run acts w w1 -> multi_step a w1 (Ok tt, w2) -> multi_run (acts ++ [a]) w w2.
End Multi.

Definition multi_start : multi := Multi RTK_DMAC_TEST_SUCCESS 0 false [] [] false false false false Setup [].

(** * Buffers of eight words *)

Lemma buf_print_32 buf : length buf = 8%nat -> buf_print buf 32 = Ok buf.
Proof. apply (buf_print_spec buf 32). Qed.
Lemma buf_compare_32 a b : length a = 8%nat -> length b = 8%nat -> buf_compare a b 32 = Ok (bool_decide (a = b)).
Proof. apply (buf_compare_spec a b 32). Qed.

Lemma word_set_ok buf j v : 0 <= j < Z.of_nat (length buf) -> word_set buf j v = Ok (<[Z.to_nat j := v]> buf).
Proof. intros Hj. unfold word_set. by rewrite (proj2 (Z.leb_le 0 j)), (proj2 (Z.ltb_lt _ _)) by lia. Qed.

(** * The invariant *)

Definition equipped (w : multi) : Prop :=
  buffers w = true /\ chan w = true /\ config w = true /\ mem_size w = 32 /\
  length (src w) = 8%nat /\ length (dst w) = 8%nat.

(** The numbers of the rounds shown so far, newest first, and what was shown in the pause. *)
Definition rounds_shown (t : list shown_event) : list Z :=
  omap (fun e => match e with Shown (InRound i) _ => Some i | _ => None end) t.
Definition pauses_shown (t : list shown_event) : list (list Z) :=
  omap (fun e => match e with Shown AfterPause words => Some words | _ => None end) t.
Definition rounds_to (i : Z) : list Z := rev (Z.of_nat <$> seq 0 (Z.to_nat i)).
Definition reverted : list Z := replicate 8 REVERT_WORD.

(** Rounds shown, whether the transfer is paused, and whether the pause was shown. *)
Definition progress (p : multi_pc) : Z * bool * bool :=
  match p with
  | Setup => (0, false, false)
  | Top i | Showing i => (i, false, 3 <=? i)
  | Reverting i in_pause _ => (i + 1, in_pause, 3 <=? i)
  | Looking i => (i + 1, false, 3 <=? i)
  | Pausing i => (i + 1, false, false)
  | PauseSlept i => (i + 1, true, false)
  | Resuming i => (i + 1, true, true)
  | ResumeSlept i => (i + 1, false, true)
  | Ending | Back _ => (6, false, true)
  end.

Definition in_range (w : multi) : Prop :=
  match at_pc w with
  | Setup | Back _ => False
  | Ending => True
  | Top i => 0 <= i <= 6
  | Showing i | Looking i => 0 <= i <= 5
  | Reverting i false j => 0 <= i <= 5 /\ 0 <= j <= 8
  | Reverting i true j => i = 2 /\ 0 <= j <= 8 /\ take (Z.to_nat j) (dst w) = replicate (Z.to_nat j) REVERT_WORD
  | PauseSlept i => i = 2 /\ dst w = reverted
  | Pausing i | Resuming i | ResumeSlept i => i = 2
  end.

Definition log_inv (w : multi) : Prop :=
  let '(i, p, d) := progress (at_pc w) in
  rounds_shown (shown w) = rounds_to i /\ paused w = p /\ pauses_shown (shown w) = if d : bool then [reverted] else [].

Section Invariant.
Context `{K : DmaKernel}.

Definition multi_inv (w : multi) : Prop :=
  match at_pc w with
  | Setup => w = multi_start
  | Back r =>
      active w = false /\
      (r = RTK_DMAC_TEST_FAIL /\ u32 (k_slave_config 0) <> 0 /\ buffers w = true /\ chan w = true \/
       r = RTK_DMAC_TEST_SUCCESS /\ buffers w = false /\ chan w = false /\ log_inv w)
  | _ => active w = true /\ equipped w /\ in_range w /\ log_inv w
  end.

Definition good (o : outcome unit) (w : multi) : Prop :=
  match o with Ok _ => multi_inv w | Fault _ => ~ Granted K end.

Lemma multi_wp_need b (w : multi) Q :
  (b = true -> Q (Ok tt) w) -> (b = false -> Q (Fault OutOfBounds) w) -> wp (need b) w Q.
Proof. destruct b; intros Ht Hf; [by apply Ht|by apply Hf]. Qed.

Lemma wp_show_dst at_place w (Q : outcome unit -> multi -> Prop) :
  equipped w -> Q (Ok tt) (show (Shown at_place (dst w)) w) -> wp (show_dst at_place) w Q.
Proof.
  intros (Hb & _ & _ & Hm & _ & Hd) HQ. unfold show_dst. do 3 wstep.
  apply multi_wp_need; intros Hb'; [|congruence]. cbn [next]. do 2 wstep. rewrite Hm, buf_print_32 by done. cbn [next]. by wstep.
Qed.

Lemma setup_good w : multi_inv w -> at_pc w = Setup -> wp setup w good.
Proof.
  intros Hw Hat. unfold multi_inv in Hw. rewrite Hat in Hw. subst w.
  unfold setup. wstep. unfold rtk_prepare_test_buf.
  do 5 wstep. apply multi_wp_need; intros Hb; cbn [next]; [|intros HG; rewrite g_alloc in Hb; done].
  do 2 wstep. cbn [src dst set_mem buffers] in Hb |- *.
  change (fill_test_words (Z.to_nat (32 / 4)) 0 (replicate (Z.to_nat (32 / 4)) 0)) with (Ok (replicate 8 TEST_WORD)).
  cbn [next]. do 3 wstep. rewrite buf_print_32 by done. cbn [next]. repeat wstep.
  apply multi_wp_need; intros Hg; cbn [next]; [|intros HG; cbn in Hg; rewrite g_kzalloc in Hg; done].
  wstep. apply multi_wp_need; intros Hc; cbn [next]; [|intros HG; cbn in Hc; rewrite g_chan in Hc; done].
  cbn in Hb, Hg, Hc. destruct (Z.eqb_spec (u32 (k_slave_config 0)) 0) as [Hz|Hz]; cbn [negb].
  - wstep. apply multi_wp_need; intros Hp; cbn [next]; [|intros HG; rewrite g_prep in Hp; done].
    do 3 wstep. unfold multi_inv, log_inv, equipped. cbn. by rewrite Hb, Hg, Hc.
  - wstep. unfold multi_inv. cbn. split; [done|]. left. by rewrite Hb, Hc.
Qed.

Lemma rounds_to_next i : 0 <= i -> rounds_to (i + 1) = i :: rounds_to i.
Proof.
  intros Hi. unfold rounds_to. replace (Z.to_nat (i + 1)) with (S (Z.to_nat i)) by lia.
  rewrite seq_S, fmap_app, rev_app_distr. cbn. by rewrite Z2Nat.id.
Qed.

Lemma take_reverted (d : list Z) j :
  length d = 8%nat -> 0 <= j < 8 -> take (Z.to_nat j) d = replicate (Z.to_nat j) REVERT_WORD ->
  take (Z.to_nat (j + 1)) (<[Z.to_nat j := REVERT_WORD]> d) = replicate (Z.to_nat (j + 1)) REVERT_WORD.
Proof.
  intros Hd Hj Ht. replace (Z.to_nat (j + 1)) with (S (Z.to_nat j)) by lia.
  rewrite (take_S_r _ _ REVERT_WORD) by (apply list_lookup_insert_eq; lia).
  by rewrite take_insert_ge, Ht, replicate_S_end by lia.
Qed.

(** A state of the loop: what the next thing needs. *)
Definition in_loop (w : multi) : Prop := active w = true /\ equipped w /\ in_range w /\ log_inv w.
Lemma in_loop_good w : in_loop w -> multi_inv w.
Proof. unfold in_loop, multi_inv, in_range. destruct (at_pc w); tauto. Qed.

(** The thread moves on and changes nothing else. *)
Lemma goto_good w p :
  active w = true -> equipped w -> in_range (goto p w) -> log_inv (goto p w) -> good (Ok tt) (goto p w).
Proof. intros Ha He Hr Hl. by apply in_loop_good. Qed.

Lemma loop_good w : in_loop w -> wp rtk_dma_test_cyclic w good.
Proof.
  intros (Ha & He & Hr & Hl). pose proof He as (Hb & Hch & Hg & Hm & Hs & Hd).
  unfold rtk_dma_test_cyclic. do 2 wstep. unfold in_range in Hr. unfold log_inv in Hl.
  destruct (at_pc w) as [|i|i|i in_pause j|i|i|i|i|i| |r] eqn:Hat; try done; cbn in Hl; destruct Hl as (Hsh & Hp & Hps).
  - wstep. destruct (Z.leb_spec i 5); apply goto_good; try done; cbn; try lia.
    assert (i = 6) as -> by lia. done.
  - wstep. apply wp_show_dst; [done|]. cbn [next]. wstep. apply goto_good; try done; cbn; try lia.
    split_and!; [|done..]. rewrite rounds_to_next by lia. by f_equal.
  - rewrite Hm. change (32 / 4) with 8. destruct (Z.ltb_spec j 8) as [Hj|Hj].
    + wstep. apply multi_wp_need; intros Hb'; [|congruence]. cbn [next]. do 2 wstep.
      assert (0 <= j) by (destruct in_pause; lia). rewrite word_set_ok by lia. cbn [next]. do 3 wstep.
      apply in_loop_good. split_and!; [done|by repeat split; cbn; rewrite ?length_insert| |done].
      unfold in_range. cbn. destruct in_pause; [|lia]. destruct Hr as (-> & _ & Ht).
      split_and!; [lia..|]. by apply take_reverted.
    + wstep. destruct in_pause; [destruct Hr as (-> & Hj' & Ht)|]; apply goto_good; try done; cbn; try lia.
      split; [done|]. assert (j = 8) as -> by lia.
      by rewrite <- (take_ge (dst w) 8) by lia.
  - wstep. destruct (Z.eqb_spec i 2) as [->|Hi]; apply goto_good; try done; [cbn; lia|].
    unfold log_inv. cbn -[rounds_shown pauses_shown]. split_and!; [done..|]. rewrite Hps. destruct (Z.leb_spec 3 i), (Z.leb_spec 3 (i + 1)); done || lia.
  - subst i. wstep. apply wp_show_dst; [done|]. cbn [next]. do 4 wstep.
    apply in_loop_good. split_and!; [done|done| |by split_and!]. unfold in_range. cbn. split_and!; done || lia.
  - destruct Hr as [-> Hrev]. wstep. apply wp_show_dst; [done|]. cbn [next]. wstep.
    apply goto_good; try done. unfold log_inv. cbn. split_and!; [done..|]. rewrite Hrev. by f_equal.
  - wstep. apply in_loop_good. split_and!; [done|by repeat split|done|]. by split_and!.
  - subst i. wstep. apply wp_show_dst; [done|]. cbn [next]. wstep. by apply goto_good.
  - wstep. unfold rtk_multi_dmac_test_end. do 3 wstep. apply multi_wp_need; intros Hc; [|congruence]. cbn [next].
    do 3 wstep. apply multi_wp_need; intros Hb'; [|congruence]. cbn [next]. do 4 wstep.
    unfold good, multi_inv, log_inv. cbn. split; [done|]. right. by split_and!.
Qed.

Lemma multi_callback_good w : multi_inv w -> active w = true -> wp rtk_dma_test_cyclic_callback w good.
Proof.
  intros Hw Ha.
  assert (Hin : in_loop w).
  { unfold multi_inv in Hw. unfold in_loop. destruct (at_pc w) eqn:Hat; try exact Hw; [by subst w|].
    destruct Hw as [Ha' _]. congruence. }
  destruct Hin as (_ & He & Hr & Hl). pose proof He as (Hb & Hch & Hg & Hm & Hs & Hd).
  unfold rtk_dma_test_cyclic_callback. do 3 wstep. apply multi_wp_need; intros Hb'; [|congruence]. cbn [next].
  do 2 wstep. rewrite Hm, buf_compare_32 by done. cbn [next]. do 3 wstep. by apply in_loop_good.
Qed.

Lemma multi_step_good a w o w' : multi_inv w -> multi_step a w (o, w') -> good o w'.
Proof.
  intros Hw Hstep. inversion Hstep as [w0 Hback Heq0 Heq1 Heq2|w0 d Ha Hp Hd Heq0 Heq1 Heq2|w0 Ha Heq0 Heq1 Heq2]; subst.
  - assert (wp rtk_dma_test_cyclic w good) as Hg; [|by eapply (wp_run _ _ good)].
    pose proof Hw as Hw'. unfold multi_inv in Hw'. destruct (at_pc w) eqn:Hat;
      try (by apply loop_good; unfold in_loop); [|by destruct (Hback ret)].
    unfold rtk_dma_test_cyclic. do 2 wstep. rewrite Hat. by apply setup_good.
  - unfold good, multi_inv in *. cbn. destruct (at_pc w) eqn:Hat; try (by destruct Hw; congruence); [by subst w|..].
    all: destruct Hw as (_ & (Hb & Hch & Hg & Hm & Hs & Hdl) & Hr & Hl); split_and!; [done|by repeat split; cbn; rewrite ?Hd| |done].
    all: unfold in_range, log_inv in *; cbn; rewrite Hat in *; try done; cbn in Hl.
    + destruct in_pause; [|done]. destruct Hl as (_ & ? & _). congruence.
    + destruct Hl as (_ & ? & _). congruence.
  - by eapply (wp_run _ _ good); [apply multi_callback_good|].
Qed.

Lemma multi_run_inv acts w : multi_run acts multi_start w -> multi_inv w.
Proof.
  intros Hrun. remember multi_start as w0 eqn:H0. induction Hrun as [|acts a w w1 w2 Hrun IH Hstep]; subst; [done|].
  by apply (multi_step_good a w1 (Ok tt)); [apply IH|].
Qed.
End Invariant.

(** * What the invariant gives *)

Lemma elem_of_pauses t words : Shown AfterPause words ∈ t -> words ∈ pauses_shown t.
Proof. intros Hin. apply list_elem_of_omap. by exists (Shown AfterPause words). Qed.

(** What was shown in the pause; there is one pause at most. *)
Lemma inv_pauses `{DmaKernel} w : multi_inv w -> pauses_shown (shown w) = [] \/ pauses_shown (shown w) = [reverted] \/
  at_pc w = Back RTK_DMAC_TEST_FAIL.
Proof.
  unfold multi_inv, log_inv. destruct (at_pc w) eqn:Hat; cbn; intros Hw; try (by subst w; left);
    repeat match goal with Hc : _ /\ _ |- _ => destruct Hc end; auto;
    try match goal with Hc : pauses_shown _ = if ?b then _ else _ |- _ => destruct b; auto end.
  match goal with Hc : _ \/ _ |- _ => destruct Hc as [(-> & _)|(_ & _ & _ & _ & _ & Hc)] end; auto.
Qed.
(** C17: what the test shows of the destination in the pause is what it has put there, all
    words reverted, under every interleaving with an engine that stops when it is paused,
    whatever the engine had written before. *)
Theorem multi_pause_holds `{DmaKernel} acts w words :
  multi_run acts multi_start w -> at_pc w <> Back RTK_DMAC_TEST_FAIL -> Shown AfterPause words ∈ shown w ->
  words = replicate 8 REVERT_WORD.
Proof.
  intros Hrun Hpc Hin. apply elem_of_pauses in Hin.
  destruct (inv_pauses w (multi_run_inv _ _ Hrun)) as [Hp|[Hp|Hp]]; [| |done]; rewrite Hp in Hin.
  - by apply elem_of_nil in Hin.
  - by apply list_elem_of_singleton in Hin as ->.
Qed.

(** When the test returns, its transfer is over.  A success means the six rounds were shown
    in order, with one pause, and all is released; it says nothing of the comparisons.  A failure
    means the channel was not configured, and then the channel and the buffers are not released. *)
Theorem multi_result `{DmaKernel} acts w r :
  multi_run acts multi_start w -> at_pc w = Back r ->
  active w = false /\
  (r = RTK_DMAC_TEST_SUCCESS /\ rounds_shown (shown w) = [5; 4; 3; 2; 1; 0] /\ pauses_shown (shown w) = [reverted] /\
     chan w = false /\ buffers w = false \/
   r = RTK_DMAC_TEST_FAIL /\ u32 (k_slave_config 0) <> 0 /\ chan w = true /\ buffers w = true).
Proof.
  intros Hrun Hat. pose proof (multi_run_inv _ _ Hrun) as Hw. unfold multi_inv in Hw. rewrite Hat in Hw.
  destruct Hw as (Ha & [(-> & ? & ? & ?)|(-> & ? & ? & Hl)]); split; auto.
  left. unfold log_inv in Hl. rewrite Hat in Hl. cbn in Hl. destruct Hl as (? & _ & ?). by split_and!.
Qed.

(** With a kernel that refuses nothing, no interleaving makes the thread or the callback
    use a pointer that is not there or leave its buffers. *)
Theorem multi_memory_safe `{Granted} acts a w o w' :
  multi_run acts multi_start w -> multi_step a w (o, w') -> o = Ok tt.
Proof.
  intros Hrun Hstep. apply multi_run_inv in Hrun. apply (multi_step_good _ _ _ _ Hrun) in Hstep.
  destruct o as [[]|f]; [done|]. by destruct Hstep.
Qed.

(** ** How many things the thread does *)

Definition left_from (i : Z) : Z := 12 * (6 - i) + (if i <=? 2 then 13 else 0) + 2.
Definition steps_left (p : multi_pc) : Z :=
  match p with
  | Setup => 88
  | Top i => left_from i
  | Showing i => left_from i - 1
  | Reverting i false j => left_from i - 2 - j
  | Looking i => left_from i - 11
  | Pausing i => left_from (i + 1) + 13
  | Reverting i true j => left_from (i + 1) + 12 - j
  | PauseSlept i => left_from (i + 1) + 3
  | Resuming i => left_from (i + 1) + 2
  | ResumeSlept i => left_from (i + 1) + 1
  | Ending => 1
  | Back _ => 0
  end.

Definition by_thread (a : act) : Z := match a with Thread => 1 | _ => 0 end.
Definition thread_acts (acts : list act) : Z := foldr (fun a n => by_thread a + n) 0 acts.

Section Ends.
Context `{K : DmaKernel}.

(** A statement without a jump stays where it is. *)
Definition stays {A} (c : prog multi A) : Prop := forall w, wp c w (fun o w' => at_pc w' = at_pc w).
Lemma stays_bind {A B} (c : prog multi A) (k : A -> prog multi B) : stays c -> (forall a, stays (k a)) -> stays (c ≫= k).
Proof.
  intros Hc Hk w. wstep. eapply wp_mono; [apply Hc|]. intros [a|f] w1 H1; cbn [next]; [|done].
  eapply wp_mono; [apply Hk|]. intros o w2 ->. done.
Qed.
Lemma stays_need b : stays (need b).
Proof. by destruct b; intros w. Qed.
Ltac stays :=
  repeat first [apply stays_need | apply stays_bind; [|intros ?] | by intros ?w; wstep].
Lemma stays_show p : stays (show_dst p).
Proof. unfold show_dst. stays. Qed.
Lemma stays_end : stays rtk_multi_dmac_test_end.
Proof. unfold rtk_multi_dmac_test_end. stays. Qed.
Lemma stays_callback : stays rtk_dma_test_cyclic_callback.
Proof. unfold rtk_dma_test_cyclic_callback. stays. Qed.

Lemma stays_goto (c : prog multi unit) p w (Q : outcome unit -> multi -> Prop) :
  stays c -> (forall w', at_pc w' = p -> Q (Ok tt) w') -> (forall f w', at_pc w' = at_pc w -> Q (Fault f) w') ->
  wp (c;; modify (goto p)) w Q.
Proof.
  intros Hc HQ HF. wstep. eapply wp_mono; [apply Hc|]. intros [[]|f] w1 H1; cbn [next]; [|by apply HF].
  wstep. by apply HQ.
Qed.

Lemma setup_left w : wp setup w (fun o w' => o = Ok tt -> steps_left (at_pc w') <= 87).
Proof.
  assert (Hst : stays rtk_prepare_test_buf) by (unfold rtk_prepare_test_buf; stays).
  unfold setup. wstep. eapply wp_mono; [apply Hst|]. intros [[]|f] w1 _; cbn [next]; [|done].
  do 5 wstep. apply multi_wp_need; intros _; cbn [next]; [|done]. wstep. apply multi_wp_need; intros _; cbn [next]; [|done].
  destruct (negb _); [by wstep|]. wstep. apply multi_wp_need; intros _; cbn [next]; [|done]. do 3 wstep. done.
Qed.

Lemma thread_left w :
  in_range w -> mem_size w = 32 ->
  wp rtk_dma_test_cyclic w (fun o w' => o = Ok tt -> steps_left (at_pc w') + 1 <= steps_left (at_pc w)).
Proof.
  intros Hr Hm. unfold rtk_dma_test_cyclic. do 2 wstep. unfold in_range in Hr.
  destruct (at_pc w) as [|i|i|i in_pause j|i|i|i|i|i| |r] eqn:Hat; try done.
  - wstep. destruct (Z.leb_spec i 5) as [Hi|Hi]; intros _; cbn; [lia|]. assert (i = 6) as -> by lia. done.
  - apply stays_goto; [apply stays_show| |done]. intros w' -> _. cbn. lia.
  - rewrite Hm. change (32 / 4) with 8. destruct (Z.ltb_spec j 8) as [Hj|Hj].
    + wstep. apply multi_wp_need; intros _; cbn [next]; [|done]. wstep. wstep.
      destruct (word_set _ _ _); cbn [next]; [|done]. do 3 wstep. intros _. cbn. destruct in_pause; lia.
    + wstep. intros _. destruct in_pause; cbn; lia.
  - wstep. intros _. destruct (Z.eqb_spec i 2) as [->|Hi]; cbn; [done|]. unfold left_from.
    destruct (Z.leb_spec i 2), (Z.leb_spec (i + 1) 2); lia.
  - wstep. eapply wp_mono; [apply stays_show|]. intros [[]|f] w1 _; cbn [next]; [|done]. do 5 wstep. intros _. cbn. lia.
  - apply stays_goto; [apply stays_show| |done]. intros w' -> _. cbn. lia.
  - do 3 wstep. intros _. cbn. lia.
  - apply stays_goto; [apply stays_show| |done]. intros w' -> _. cbn. lia.
  - apply stays_goto; [apply stays_end| |done]. intros w' -> _. done.
Qed.

Lemma step_left a w w' :
  multi_inv w -> multi_step a w (Ok tt, w') -> steps_left (at_pc w') + by_thread a <= steps_left (at_pc w).
Proof.
  intros Hw Hstep. inversion Hstep as [w0 Hback Heq0 Heq1 Heq2|w0 d Ha Hp Hd Heq0 Heq1 Heq2|w0 Ha Heq0 Heq1 Heq2]; subst; cbn [by_thread].
  - unfold multi_inv in Hw. destruct (at_pc w) eqn:Hat.
    1: { assert (Hl := setup_left w). unfold rtk_dma_test_cyclic in Heq2. unfold mbind, prog_bind, get in Heq2. cbn in Heq2.
         rewrite Hat in Heq2. apply (wp_run _ _ _ _ _ Hl) in Heq2; [|done]. cbn. lia. }
    all: try (by destruct (Hback ret)).
    all: rewrite <- Hat; destruct Hw as (_ & (_ & _ & _ & Hm & _) & Hr & _); exact (wp_run _ _ _ _ _ (thread_left w Hr Hm) Heq2 eq_refl).
  - cbn. lia.
  - pose proof (wp_run _ _ _ _ _ (stays_callback w) Heq2) as Hc. cbn in Hc. rewrite Hc. lia.
Qed.

Lemma thread_acts_app acts1 acts2 : thread_acts (acts1 ++ acts2) = thread_acts acts1 + thread_acts acts2.
Proof.
  induction acts1 as [|a acts1 IH]; [done|].
  change (by_thread a + thread_acts (acts1 ++ acts2) = by_thread a + thread_acts acts1 + thread_acts acts2). lia.
Qed.

Lemma run_left acts w : multi_run acts multi_start w -> thread_acts acts + steps_left (at_pc w) <= 88.
Proof.
  intros Hrun. remember multi_start as w0 eqn:H0. induction Hrun as [|acts a w w1 w2 Hrun IH Hstep]; subst; [done|].
  specialize (IH eq_refl). apply step_left in Hstep; [|by eapply multi_run_inv]. rewrite thread_acts_app. cbn. lia.
Qed.
End Ends.

(** C18: under every interleaving the thread of the probe does at most 88 things, and when it has
    done 88 it is back: the engine, by writing or by calling back, cannot keep it. *)
Theorem multi_terminates `{DmaKernel} acts w :
  multi_run acts multi_start w ->
  thread_acts acts <= 88 /\ (thread_acts acts = 88 -> exists r, at_pc w = Back r).
Proof.
  intros Hrun. pose proof (run_left _ _ Hrun) as Hl. pose proof (multi_run_inv _ _ Hrun) as Hw.
  assert (Hpos : 0 <= steps_left (at_pc w) /\ (steps_left (at_pc w) = 0 -> exists r, at_pc w = Back r)); [|split; [lia|intros; apply Hpos; lia]].
  unfold multi_inv, in_range in Hw. destruct (at_pc w) as [|i|i|i [] j|i|i|i|i|i| |r]; cbn; try (by split; [lia|eauto]);
    destruct Hw as (_ & _ & Hr & _); unfold left_from;
    repeat match goal with Hc : _ /\ _ |- _ => destruct Hc | |- context [?a <=? ?b] => destruct (Z.leb_spec a b) end; split; lia.
Qed.

(** * Runs *)

Definition do_act `{DmaKernel} (a : act) (w : multi) : option multi :=
  match a with
  | Thread =>
      match at_pc w, rtk_dma_test_cyclic w with
      | Back _, _ => None
      | _, (Ok _, w) => Some w
      | _, _ => None
      end
  | Write d => if active w && negb (paused w) && bool_decide (length d = length (dst w)) then Some (set_dst d w) else None
  | Callback => if active w then match rtk_dma_test_cyclic_callback w with (Ok _, w) => Some w | _ => None end else None
  end.

Fixpoint do_acts `{DmaKernel} (acts : list act) (w : multi) : option multi :=
  match acts with
  | [] => Some w
  | a :: acts => w ← do_act a w; do_acts acts w
  end.

Lemma multi_do_act_sound `{DmaKernel} a w w' : do_act a w = Some w' -> multi_step a w (Ok tt, w').
Proof.
  destruct a; simpl.
  - intros Hc. assert (rtk_dma_test_cyclic w = (Ok tt, w')) as <-.
    { destruct (rtk_dma_test_cyclic w) as [[[]|] w1]; destruct (at_pc w); congruence. }
    apply step_thread. intros r Hr. by rewrite Hr in Hc.
  - destruct (active w) eqn:Ha, (paused w) eqn:Hp; simpl; try done. case_bool_decide; [|done]. intros [= <-]. by apply step_write.
  - destruct (active w) eqn:Ha; [|done]. intros Hc.
    assert (rtk_dma_test_cyclic_callback w = (Ok tt, w')) as <-.
    { destruct (rtk_dma_test_cyclic_callback w) as [[[]|] w1]; congruence. }
    by apply step_callback.
Qed.

Lemma multi_do_acts_sound `{DmaKernel} acts w0 done_acts w w' :
  multi_run done_acts w0 w -> do_acts acts w = Some w' -> multi_run (done_acts ++ acts) w0 w'.
Proof.
  revert done_acts w. induction acts as [|a acts IH]; intros done_acts w Hrun; simpl.
  { intros [= <-]. by rewrite app_nil_r. }
  destruct (do_act a w) as [w1|] eqn:Ha; simpl; [|done]. intros Hr.
  rewrite (app_assoc _ [a] acts : done_acts ++ a :: acts = (done_acts ++ [a]) ++ acts). apply (IH _ w1); [|done].
  eapply run_more; [exact Hrun|by apply multi_do_act_sound].
Qed.

Lemma multi_acts_reach acts (P : multi -> Prop) :
  match @do_acts granting_kernel acts multi_start with Some w => P w | None => False end ->
  exists w, @multi_run granting_kernel acts multi_start w /\ P w.
Proof.
  destruct (do_acts acts multi_start) as [w|] eqn:Hw; [|done]. intros HP. exists w. split; [|done].
  by apply (multi_do_acts_sound acts multi_start [] multi_start w (run_none multi_start)).
Qed.

(** The engine copies once, and calls back when the destination was reverted: the comparison fails. *)
Definition late_callback : list act :=
  [Thread; Write (replicate 8 TEST_WORD)] ++ replicate 11 Thread ++ [Callback] ++ replicate 76 Thread.

(** The result of the comparisons is lost: a run in which every comparison failed returns a
    success. *)
Theorem multi_failure_is_success :
  exists w, @multi_run granting_kernel late_callback multi_start w /\
    at_pc w = Back RTK_DMAC_TEST_SUCCESS /\ status w = RTK_DMAC_TEST_FAIL /\
    Compared false ∈ shown w /\ Compared true ∉ shown w.
Proof.
  destruct (multi_acts_reach late_callback (fun w => (at_pc w, status w) = (Back RTK_DMAC_TEST_SUCCESS, RTK_DMAC_TEST_FAIL) /\
    omap (fun e => match e with Compared b => Some b | _ => None end) (shown w) = [false])) as (w & Hrun & Ho & Hc).
  { vm_compute. split; reflexivity. }
  exists w. simplify_eq. split_and!; try done.
  - assert (Hin : false ∈ omap (fun e => match e with Compared b => Some b | _ => None end) (shown w)) by (rewrite Hc; by left).
    apply list_elem_of_omap in Hin as ([|b] & Hin & Hb); [done|]. by injection Hb as ->.
  - intros Hin. assert (Hb : true ∈ omap (fun e => match e with Compared b => Some b | _ => None end) (shown w)).
    { apply list_elem_of_omap. by exists (Compared true). }
    rewrite Hc in Hb. by apply list_elem_of_singleton in Hb.
Qed.

Lemma multi_pause_holds_witness :
  exists w, (@multi_run granting_kernel late_callback multi_start w /\ pauses_shown (shown w) = [reverted]) /\
    forall words, Shown AfterPause words ∈ shown w -> words = replicate 8 REVERT_WORD.
Proof.
  destruct (multi_acts_reach late_callback (fun w => at_pc w <> Back RTK_DMAC_TEST_FAIL /\ pauses_shown (shown w) = [reverted]))
    as (w & Hrun & Hpc & Hp).
  { vm_compute. split; [discriminate|reflexivity]. }
  exists w. split; [done|]. intros words. exact (@multi_pause_holds granting_kernel late_callback w words Hrun Hpc).
Defined.

Lemma multi_result_witness :
  exists w, @multi_run granting_kernel late_callback multi_start w /\ active w = false.
Proof.
  destruct (multi_acts_reach late_callback (fun w => at_pc w = Back RTK_DMAC_TEST_SUCCESS)) as (w & Hrun & Hpc).
  { vm_compute. reflexivity. }
  exists w. split; [done|]. exact (proj1 (@multi_result granting_kernel late_callback w _ Hrun Hpc)).
Defined.

Lemma multi_memory_safe_witness :
  exists w w', @multi_run granting_kernel (take 9 late_callback) multi_start w /\
    @multi_step granting_kernel Thread w (Ok tt, w').
Proof.
  destruct (multi_acts_reach (take 9 late_callback) (fun w => at_pc w = Reverting 0 false 5)) as (w & Hrun & Hpc).
  { vm_compute. reflexivity. }
  assert (Hstep : @multi_step granting_kernel Thread w (@rtk_dma_test_cyclic granting_kernel w)).
  { apply step_thread. intros r. rewrite Hpc. discriminate. }
  exists w. destruct (@rtk_dma_test_cyclic granting_kernel w) as [o w'] eqn:Hc. exists w'. split; [done|].
  rewrite (@multi_memory_safe granting_kernel granting_granted (take 9 late_callback) Thread w o w' Hrun Hstep) in Hstep. done.
Defined.

Lemma multi_terminates_witness :
  exists w, @multi_run granting_kernel late_callback multi_start w /\ thread_acts late_callback = 88 /\
    exists r, at_pc w = Back r.
Proof.
  destruct (multi_acts_reach late_callback (fun _ => True)) as (w & Hrun & _); [vm_compute; reflexivity|].
  exists w. split; [done|]. split; [reflexivity|].
  exact (proj2 (@multi_terminates granting_kernel late_callback w Hrun) eq_refl).
Defined.
