(* ===== verification/Rcc.v ===== *)
(** clk/rtk_rcc_test.c: the test of the clock controller, a kernel module.  The clock framework
    is the parameter [ClkKernel]; the calls made to it are kept in order. *)
From Stdlib Require Import ZArith Lia String.
From stdpp Require Import base list numbers sets strings.
From S2P Require Import Prelude Libc.

#[global] Open Scope Z_scope.

(** The five static pointers, and what they hold: nothing yet, an error value, or a clock. *)
Inductive clock := clk_gate | clk_gate_fen | clk_mux | clk_mux_parent | clk_div.
Inductive handle := NullClk | ErrClk | GotClk.
#[global] Instance clock_eq_dec : EqDecision clock.
Proof. solve_decision. Defined.
#[global] Instance handle_eq_dec : EqDecision handle.
Proof. solve_decision. Defined.

Inductive call :=
| Get (c : clock) (name : string) (h : handle)
| Enable (c : clock) (ret : Z)
| SetParent (c parent : clock) (ret : Z)
| SetRate (c : clock) (rate ret : Z)
| GetRate (c : clock) (rate : Z)
| Disable (c : clock) (h : handle)
| Put (c : clock) (h : handle)
| Verdict (pass : bool).

(** The pointers, and the calls, newest first. *)
Record rcc := Rcc { handle_of : clock -> handle; calls : list call }.
Definition log (e : call) (w : rcc) : rcc := Rcc (handle_of w) (e :: calls w).
Definition set_handle (c : clock) (h : handle) (w : rcc) : rcc :=
  Rcc (fun c' => if decide (c' = c) then h else handle_of w c') (calls w).

(** The clock framework: which names it knows, and its results. *)
Class ClkKernel := {
  k_has : string -> bool;
  k_enable : clock -> Z;
  k_set_parent : clock -> clock -> Z;
  k_set_rate : clock -> Z -> Z;
  k_rate : list call -> clock -> Z }.

Section Rcc.
Context `{ClkKernel}.

(** A framework call on a pointer that is no clock but an error value faults; a null pointer is a
    clock without hardware. *)
Definition usable (c : clock) : prog rcc unit :=
  w ← get; if decide (handle_of w c = ErrClk) then stop OutOfBounds else mret tt.

Definition devm_clk_get (c : clock) (name : string) : prog rcc bool :=
  let h := if k_has name then GotClk else ErrClk in
  modify (set_handle c h);; modify (log (Get c name h));; mret (bool_decide (h = ErrClk)).

Definition clk_prepare_enable (c : clock) : prog rcc Z :=
  usable c;; let ret := k_enable c in modify (log (Enable c ret));; mret ret.
Definition clk_set_parent (c parent : clock) : prog rcc Z :=
  usable c;; usable parent;; let ret := k_set_parent c parent in modify (log (SetParent c parent ret));; mret ret.
Definition clk_set_rate (c : clock) (rate : Z) : prog rcc Z :=
  usable c;; let ret := k_set_rate c rate in modify (log (SetRate c rate ret));; mret ret.
Definition clk_get_rate (c : clock) : prog rcc Z :=
  usable c;; w ← get; let rate := k_rate (calls w) c in modify (log (GetRate c rate));; mret rate.

(** The label [fail]. *)
Definition fail : prog rcc Z := modify (log (Verdict false));; mret 0.

Definition rtk_rcc_test_probe : prog rcc Z :=
  is_err ← devm_clk_get clk_gate "cke_zgb";
  if is_err : bool then fail else
  ret ← clk_prepare_enable clk_gate;
  if ret <? 0 then fail else
  is_err ← devm_clk_get clk_gate_fen "cke_irda";
  if is_err : bool then fail else
  ret ← clk_prepare_enable clk_gate_fen;
  if ret <? 0 then fail else
  is_err ← devm_clk_get clk_mux "cksl_ctc";
  if is_err : bool then fail else
  is_err ← devm_clk_get clk_mux_parent "osc_131k";
  if is_err : bool then fail else
  _ ← clk_set_parent clk_mux clk_mux_parent;
  rate ← clk_get_rate clk_mux;
  is_err ← devm_clk_get clk_div "ckd_psram";
  if is_err : bool then fail else
  rate ← clk_set_rate clk_div 220000000;
  if ret <? 0 then fail else
  rate ← clk_get_rate clk_div;
  modify (log (Verdict true));;
  mret 0.

Definition release (e : clock -> handle -> call) (c : clock) : prog rcc unit :=
  w ← get; modify (log (e c (handle_of w c))).

Definition rtk_rcc_test_remove : prog rcc Z :=
  release Disable clk_gate;;
  release Disable clk_gate_fen;;
  release Put clk_gate;;
  release Put clk_gate_fen;;
  release Put clk_mux;;
  release Put clk_mux_parent;;
  release Put clk_div;;
  mret 0.
End Rcc.

Definition rcc_start : rcc := Rcc (fun _ => NullClk) [].

(** * What the calls amount to *)

(** The references and the enables of each clock that are left after the calls. *)
Definition count (add sub : call -> bool) (t : list call) : Z :=
  foldr (fun e n => (if add e then 1 else 0) - (if sub e then 1 else 0) + n) 0 t.
Definition references (c : clock) : list call -> Z :=
  count (fun e => if e is Get c' _ GotClk then bool_decide (c' = c) else false)
        (fun e => if e is Put c' _ then bool_decide (c' = c) else false).
Definition enables (c : clock) : list call -> Z :=
  count (fun e => if e is Enable c' ret then bool_decide (c' = c /\ 0 <= ret) else false)
        (fun e => if e is Disable c' _ then bool_decide (c' = c) else false).
Definition all_released (t : list call) : Prop := forall c, references c t = 0 /\ enables c t = 0.
Definition all_clocks : list clock := [clk_gate; clk_gate_fen; clk_mux; clk_mux_parent; clk_div].

#[global] Instance all_released_dec t : Decision (all_released t).
Proof.
  refine (cast_if (decide (Forall (fun c => references c t = 0 /\ enables c t = 0) all_clocks))).
  - abstract (rewrite Forall_forall in *; intros c; match goal with Hf : _ |- _ => apply Hf end; destruct c; set_solver).
  - abstract (intros Ha; match goal with Hf : ~ _ |- _ => apply Hf end; apply Forall_forall; intros c _; apply Ha).
Defined.

(** Everything the test depends on is there. *)
Definition clocks_there `{ClkKernel} : Prop :=
  k_has "cke_zgb" = true /\ k_has "cke_irda" = true /\ k_has "cksl_ctc" = true /\ k_has "osc_131k" = true /\
  k_has "ckd_psram" = true /\ 0 <= k_enable clk_gate /\ 0 <= k_enable clk_gate_fen.

Section Proof.
Context `{K : ClkKernel}.

Lemma wp_usable c w (Q : outcome unit -> rcc -> Prop) : handle_of w c = GotClk -> Q (Ok tt) w -> wp (usable c) w Q.
Proof. intros Hc HQ. unfold usable. do 2 wstep. rewrite decide_False by congruence. by wstep. Qed.

Lemma wp_get_clk c name w (Q : outcome bool -> rcc -> Prop) :
  (k_has name = true -> Q (Ok false) (log (Get c name GotClk) (set_handle c GotClk w))) ->
  (k_has name = false -> Q (Ok true) (log (Get c name ErrClk) (set_handle c ErrClk w))) ->
  wp (devm_clk_get c name) w Q.
Proof.
  intros Ht Hf. unfold devm_clk_get. destruct (k_has name); do 5 wstep; [by apply Ht|by apply Hf].
Qed.
Lemma wp_enable c w (Q : outcome Z -> rcc -> Prop) :
  handle_of w c = GotClk -> (forall ret, ret = k_enable c -> Q (Ok ret) (log (Enable c ret) w)) -> wp (clk_prepare_enable c) w Q.
Proof. intros Hc HQ. unfold clk_prepare_enable. wstep. apply wp_usable; [done|]. cbn [next]. do 3 wstep. by apply HQ. Qed.
Lemma wp_set_parent c p w (Q : outcome Z -> rcc -> Prop) :
  handle_of w c = GotClk -> handle_of w p = GotClk -> (forall ret, Q (Ok ret) (log (SetParent c p ret) w)) -> wp (clk_set_parent c p) w Q.
Proof.
  intros Hc Hp HQ. unfold clk_set_parent. wstep. apply wp_usable; [done|]. cbn [next]. wstep. apply wp_usable; [done|].
  cbn [next]. do 3 wstep. by apply HQ.
Qed.
Lemma wp_set_rate c rate w (Q : outcome Z -> rcc -> Prop) :
  handle_of w c = GotClk -> (forall ret, ret = k_set_rate c rate -> Q (Ok ret) (log (SetRate c rate ret) w)) -> wp (clk_set_rate c rate) w Q.
Proof. intros Hc HQ. unfold clk_set_rate. wstep. apply wp_usable; [done|]. cbn [next]. do 3 wstep. by apply HQ. Qed.
Lemma wp_get_rate c w (Q : outcome Z -> rcc -> Prop) :
  handle_of w c = GotClk -> (forall rate, Q (Ok rate) (log (GetRate c rate) w)) -> wp (clk_get_rate c) w Q.
Proof. intros Hc HQ. unfold clk_get_rate. wstep. apply wp_usable; [done|]. cbn [next]. do 5 wstep. by apply HQ. Qed.

(** One more call of the probe. *)
Ltac probe_step :=
  lazymatch goal with
  | |- wp (if ?x <? 0 then _ else _) _ _ => destruct (Z.ltb_spec x 0)
  | |- wp (devm_clk_get _ _) _ _ => apply wp_get_clk; intros ?; cbn [next]
  | |- wp (clk_prepare_enable _) _ _ => apply wp_enable; [done|intros ? ?; cbn [next]]
  | |- wp (clk_set_parent _ _) _ _ => apply wp_set_parent; [done|done|intros ?; cbn [next]]
  | |- wp (clk_set_rate _ _) _ _ => apply wp_set_rate; [done|intros ? ?; cbn [next]]
  | |- wp (clk_get_rate _) _ _ => apply wp_get_rate; [done|intros ?; cbn [next]]
  | |- wp fail _ _ => unfold fail
  | |- _ => wstep
  end.

(** The probe returns 0 whatever happens and uses no pointer that is no clock; it tells
    PASS exactly when the five clocks are there and the two gates can be enabled.  The results of
    setting the parent and the rate play no part. *)
Theorem rcc_probe_verdict :
  wp rtk_rcc_test_probe rcc_start (fun o w => o = Ok 0 /\ exists b rest, calls w = Verdict b :: rest /\ (b = true <-> clocks_there)).
Proof.
  unfold rtk_rcc_test_probe, clocks_there. repeat probe_step.
  all: split; [done|]; eexists _, _; split; [reflexivity|]; subst; split; intros Hv; try done; try (by split_and!).
  all: destruct Hv as (V1 & V2 & V3 & V4 & V5 & V6 & V7); congruence || lia.
Qed.

(** C29: the driver gives back what it has taken, no more and no less, exactly when the test has
    passed: the probe of a failed test succeeds too, so that the removal disables and puts clocks
    that were never enabled or got. *)
Theorem rcc_remove_balances :
  wp (_ ← rtk_rcc_test_probe; rtk_rcc_test_remove) rcc_start (fun o w => o = Ok 0 /\ (all_released (calls w) <-> clocks_there)).
Proof.
  wstep. unfold rtk_rcc_test_probe, clocks_there. repeat probe_step. all: cbn [next]; unfold rtk_rcc_test_remove, release.
  all: repeat probe_step; split; [done|]; subst; split; intros Hv.
  all: try (by split_and!); try (exfalso; specialize (Hv clk_div) as [Hv _]; discriminate Hv).
  all: try (destruct Hv as (V1 & V2 & V3 & V4 & V5 & V6 & V7); congruence || lia).
  intros []; (split; [reflexivity|]); cbn; try reflexivity; repeat case_bool_decide; tauto || lia.
Qed.
End Proof.

(** A board without the clock of the PSRAM, and one that has everything but refuses the rate. *)
Module Boards.
Definition no_psram : ClkKernel := {|
  k_has name := negb (String.eqb name "ckd_psram"); k_enable _ := 0; k_set_parent _ _ := 0;
  k_set_rate _ _ := 0; k_rate _ _ := 131072 |}.
Definition fixed_rate : ClkKernel := {|
  k_has _ := true; k_enable _ := 0; k_set_parent _ _ := -22;
  k_set_rate _ _ := -22; k_rate _ _ := 131072 |}.

Example no_psram_leaves_minus_one :
  let w := snd ((_ ← @rtk_rcc_test_probe no_psram; rtk_rcc_test_remove) rcc_start) in
  references clk_div (calls w) = -1 /\ enables clk_gate (calls w) = 0.
Proof. vm_compute. split; reflexivity. Qed.

(** The test passes although neither the parent nor the rate was set. *)
Example fixed_rate_passes :
  head (calls (snd (@rtk_rcc_test_probe fixed_rate rcc_start))) = Some (Verdict true).
Proof. vm_compute. reflexivity. Qed.
End Boards.
