(* ===== verification/Uvc.v ===== *)
(** usbh_uvc/usbh_uvc.c: the camera test.  It sets the camera up, maps its buffers and saves the
    images it takes, one file each. *)
From Stdlib Require Import ZArith Lia Ascii String.
From stdpp Require Import base list numbers gmap strings pretty.
From S2P Require Import Prelude Libc Print Posix Script.

#[global] Open Scope Z_scope.

Definition F_WIDTH : Z := 1024.
Definition F_HEIGHT : Z := 768.
Definition F_FPS : Z := 15.

(** linux/videodev2.h; [mmap], which gives an address, -1 when it fails; and the memory. *)
Class Video := {
  V4L2_PIX_FMT_MJPEG : Z;
  os_mmap : files -> Z -> Z -> Z -> Z;
  os_memory : files -> Z -> Z -> list Z }.

Section Uvc.
Context `{PosixOS} `{Video}.

(** A mapping is kept in the trace like a request to the device. *)
Definition sys_mmap (fd length offset : Z) : fprog Z :=
  f ← get; let p := os_mmap f fd length offset in modify (did (Ioctl fd "mmap" [length; offset] p []));; mret p.

(** An [ioctl] on a structure: the fields that the driver is told, and those it may change. *)
Definition ioctl_struct (fd : Z) (req : string) (told fields : list Z) : fprog (Z * list Z) :=
  '(ret, out) ← sys_ioctl fd req told; mret (ret, overwrite out fields).

Definition field (l : list Z) (i : nat) : Z := default 0 (l !! i).

(** [while (ioctl(VIDIOC_ENUM_FMT) == 0)], for [rounds] turns. *)
Fixpoint enum_formats (rounds : nat) (fd index : Z) : fprog unit :=
  match rounds with
  | O => stop NoFuel
  | S rounds =>
      '(ret, fmt) ← ioctl_struct fd "VIDIOC_ENUM_FMT" [index] [index];
      if ret =? 0 then enum_formats rounds fd (u32 (field fmt 0 + 1)) else mret tt
  end.

(** The loop that maps the buffers, [n] of them from [i]; [buff_info] keeps its index, length and
    offset from one turn to the next.  The result is 0 or the function's. *)
Fixpoint map_buffers (n : nat) (i fd : Z) (buff_info image_buffer : list Z) : fprog (Z * list Z) :=
  match n with
  | O => mret (0, image_buffer)
  | S n =>
      '(ret, buff_info) ← ioctl_struct fd "VIDIOC_QUERYBUF" [field buff_info 0] buff_info;
      if negb (ret =? 0) then mret (-5, image_buffer) else
      p ← sys_mmap fd (field buff_info 1) (field buff_info 2);
      image_buffer ← lift (array_set image_buffer i p);
      if p =? 0 then mret (-6, image_buffer) else map_buffers n (i + 1) fd buff_info image_buffer
  end.

Fixpoint queue_buffers (n : nat) (i fd : Z) : fprog Z :=
  match n with
  | O => mret 0
  | S n =>
      '(ret, _) ← sys_ioctl fd "VIDIOC_QBUF" [i];
      if negb (ret =? 0) then mret (-7) else queue_buffers n (i + 1) fd
  end.

(** The result, [uvc_video_fd] and [image_buffer]. *)
Definition video_device_init (rounds : nat) (DEVICE_NAME : string) : fprog (Z * Z * list Z) :=
  let image_buffer := replicate 4 0 in
  uvc_video_fd ← sys_open DEVICE_NAME;
  if uvc_video_fd <? 0 then mret (-1, uvc_video_fd, image_buffer) else
  enum_formats rounds uvc_video_fd 0;;
  '(ret, format) ← ioctl_struct uvc_video_fd "VIDIOC_S_FMT" [F_WIDTH; F_HEIGHT; V4L2_PIX_FMT_MJPEG]
                     [F_WIDTH; F_HEIGHT; V4L2_PIX_FMT_MJPEG];
  if negb (ret =? 0) then mret (-2, uvc_video_fd, image_buffer) else
  if negb (field format 2 =? V4L2_PIX_FMT_MJPEG) then mret (-3, uvc_video_fd, image_buffer) else
  '(ret, streamparm) ← ioctl_struct uvc_video_fd "VIDIOC_S_PARM" [1; F_FPS] [1; F_FPS];
  if negb (ret =? 0) then mret (-3, uvc_video_fd, image_buffer) else
  '(ret, streamparm) ← ioctl_struct uvc_video_fd "VIDIOC_S_PARM" streamparm streamparm;
  if negb (ret =? 0) then mret (-3, uvc_video_fd, image_buffer) else
  '(ret, req_buff) ← ioctl_struct uvc_video_fd "VIDIOC_REQBUFS" [4] [4];
  if negb (ret =? 0) then mret (-4, uvc_video_fd, image_buffer) else
  let count := Z.to_nat (u32 (field req_buff 0)) in
  '(ret, image_buffer) ← map_buffers count 0 uvc_video_fd [0; 0; 0] image_buffer;
  if negb (ret =? 0) then mret (ret, uvc_video_fd, image_buffer) else
  ret ← queue_buffers count 0 uvc_video_fd;
  if negb (ret =? 0) then mret (ret, uvc_video_fd, image_buffer) else
  '(ret, _) ← sys_ioctl uvc_video_fd "VIDIOC_STREAMON" [];
  if negb (ret =? 0) then mret (-8, uvc_video_fd, image_buffer) else
  mret (0, uvc_video_fd, image_buffer).

(** The name of an image, put together with [sprintf] and [strcat]. *)
Definition image_path (n : Z) : string := "/mnt/name/" +:+ "img" +:+ print_d n +:+ ".jpeg".

(** The endless loop, for [rounds] images.  [video_buffer], its index and the bytes used, keeps what
    it has when VIDIOC_DQBUF fails.  A file that does not open is a null pointer. *)
Fixpoint capture (rounds : nat) (uvc_img_file_num fd : Z) (image_buffer video_buffer : list Z) : fprog Z :=
  match rounds with
  | O => stop NoFuel
  | S rounds =>
      _ ← sys_poll fd;
      '(status, video_buffer) ← ioctl_struct fd "VIDIOC_DQBUF" [] video_buffer;
      let path := image_path uvc_img_file_num in
      jpg_file ← sys_open path;
      p ← lift (array_get image_buffer (field video_buffer 0));
      if jpg_file <? 0 then stop OutOfBounds else
      if (p =? 0) || (p =? -1) then stop OutOfBounds else
      f ← get;
      _ ← sys_write jpg_file (os_memory f p (field video_buffer 1));
      _ ← sys_close jpg_file;
      _ ← sys_ioctl fd "VIDIOC_QBUF" [field video_buffer 0];
      capture rounds (u32 (uvc_img_file_num + 1)) fd image_buffer video_buffer
  end.

(** [argv]: the arguments after the name of the program; [video_buffer] is not initialised. *)
Definition main (rounds : nat) (argv : list string) (video_buffer : list Z) : fprog Z :=
  match argv with
  | [] => mret (-1)
  | device :: _ =>
      '(status, fd, image_buffer) ← video_device_init rounds device;
      if negb (status =? 0) then mret (-1) else capture rounds 0 fd image_buffer video_buffer
  end.
End Uvc.

(** The path, with its terminator, fits its array of 64 characters. *)
Lemma image_path_fits n : (String.length (image_path n) < 64)%nat.
Proof. unfold image_path. rewrite !string_length_app. pose proof (length_print_d n). cbn. lia. Qed.

(** * The session *)

(** A driver whose buffers keep their lengths and offsets, and which gives back the index it was
    asked for. *)
Record steady `{PosixOS} (len off : Z -> Z) : Prop := {
  steady_buf f fd i out : os_ioctl f fd "VIDIOC_QUERYBUF" [i] = (0, out) -> out = [i; len i; off i];
  steady_fmt f fd i out : os_ioctl f fd "VIDIOC_ENUM_FMT" [i] = (0, out) -> out = [i] }.

(** What the initialisation does when it succeeds: [k] formats were listed, the driver has made
    [parm] of the frame rate, and has [n] buffers. *)
Definition init_acts (dev : string) (mjpeg : Z) (k : nat) (parm : list Z) (n : nat) (len off : Z -> Z) : list act :=
  [Opens dev] ++ ((fun i => Asks dev "VIDIOC_ENUM_FMT" [u32 (Z.of_nat i)]) <$> seq 0 k) ++
  [Asks dev "VIDIOC_S_FMT" [F_WIDTH; F_HEIGHT; mjpeg];
   Asks dev "VIDIOC_S_PARM" [1; F_FPS]; Asks dev "VIDIOC_S_PARM" parm; Asks dev "VIDIOC_REQBUFS" [4]] ++
  concat (replicate n [Asks dev "VIDIOC_QUERYBUF" [0]; Asks dev "mmap" [len 0; off 0]]) ++
  ((fun i => Asks dev "VIDIOC_QBUF" [Z.of_nat i]) <$> seq 0 n) ++
  [Asks dev "VIDIOC_STREAMON" []].

Section Session.
Context `{HL : PosixLaws} `{Video} (len off : Z -> Z) (Hsteady : steady len off).

Lemma play_mmap fd path length offset l acts f0 f Q :
  playing l acts f0 f -> (fd, path) ∈ l ->
  (forall p f', playing l (acts ++ [Asks path "mmap" [length; offset]]) f0 f' -> Q (Ok p) f') ->
  wp (sys_mmap fd length offset) f Q.
Proof.
  intros Hf Hin HQ. unfold sys_mmap. do 5 wstep. apply HQ.
  rewrite <- (play_name _ _ _ _ _ _ Hf Hin). by apply (playing_did (Ioctl fd "mmap" [length; offset] (os_mmap f fd length offset) [])).
Qed.

Lemma wp_ioctl_struct fd path req told fields l acts f0 f Q :
  playing l acts f0 f -> (fd, path) ∈ l ->
  (forall ret out f', os_ioctl f fd req told = (ret, out) -> playing l (acts ++ [Asks path req told]) f0 f' ->
     Q (Ok (ret, overwrite out fields)) f') ->
  wp (ioctl_struct fd req told fields) f Q.
Proof. intros Hf Hin HQ. unfold ioctl_struct. wstep. eapply play_ioctl; [exact Hf|exact Hin|]. intros r out f' Ho P. cbn [next]. wstep. by eapply HQ. Qed.

Section Loops.
Context (fd : Z) (dev : string) (f0 : files).
Abbreviation at_work := (playing [(fd, dev)]).

Lemma enum_formats_acts rounds i acts f :
  at_work acts f0 f ->
  wp (enum_formats rounds fd (u32 (Z.of_nat i))) f (fun o f' => exists k,
    at_work (acts ++ ((fun i => Asks dev "VIDIOC_ENUM_FMT" [u32 (Z.of_nat i)]) <$> seq i k)) f0 f' /\
    (o = Ok tt \/ o = Fault NoFuel)).
Proof.
  revert i acts f. induction rounds as [|rounds IH]; intros i acts f P; cbn [enum_formats].
  { wstep. exists 0%nat. rewrite app_nil_r. auto. }
  wstep. eapply wp_ioctl_struct; [exact P|in_list|]. intros ret out f1 Ho P1. cbn [next].
  destruct (Z.eqb_spec ret 0) as [->|Hr].
  - rewrite (steady_fmt _ _ Hsteady _ _ _ _ Ho).
    change (field (overwrite [u32 (Z.of_nat i)] [u32 (Z.of_nat i)]) 0) with (u32 (Z.of_nat i)).
    assert (u32 (u32 (Z.of_nat i) + 1) = u32 (Z.of_nat (S i))) as ->.
    { unfold u32, wrap. rewrite Z.add_mod_idemp_l by lia. f_equal. lia. }
    eapply wp_mono; [by apply IH|]. intros o f' (k & P' & Hk). exists (S k). cbn [seq fmap list_fmap].
    rewrite <- app_assoc in P'. auto.
  - wstep. exists 1%nat. auto.
Qed.

Lemma map_buffers_acts n i buff_info image_buffer acts f :
  at_work acts f0 f -> field buff_info 0 = 0 -> length buff_info = 3%nat ->
  0 <= i -> i + Z.of_nat n <= Z.of_nat (length image_buffer) ->
  wp (map_buffers n i fd buff_info image_buffer) f (fun o f' => exists ret bufs, o = Ok (ret, bufs) /\
    (ret = 0 -> at_work (acts ++ concat (replicate n [Asks dev "VIDIOC_QUERYBUF" [0]; Asks dev "mmap" [len 0; off 0]])) f0 f')).
Proof.
  revert i buff_info image_buffer acts f.
  induction n as [|n IH]; intros i buff_info image_buffer acts f P H0 Hl Hi Hn; cbn [map_buffers].
  { wstep. exists 0, image_buffer. by rewrite app_nil_r. }
  wstep. rewrite H0. eapply wp_ioctl_struct; [exact P|in_list|]. intros ret out f1 Ho P1. cbn [next].
  destruct (Z.eqb_spec ret 0) as [->|Hr]; cbn [negb]; [|wstep; by eexists _, _].
  rewrite (steady_buf _ _ Hsteady _ _ _ _ Ho). destruct buff_info as [|b0 [|b1 [|b2 [|]]]]; try done.
  change (overwrite [0; len 0; off 0] [b0; b1; b2]) with [0; len 0; off 0].
  wstep. change (field [0; len 0; off 0] 1) with (len 0). change (field [0; len 0; off 0] 2) with (off 0).
  eapply play_mmap; [exact P1|in_list|]. intros p f2 P2. cbn [next]. do 2 wstep.
  unfold array_set at 1. rewrite (proj2 (Z.leb_le 0 i)), (proj2 (Z.ltb_lt _ _)) by lia. cbn [andb next].
  destruct (p =? 0); [wstep; by eexists _, _|].
  eapply wp_mono; [apply (IH (i + 1)); [exact P2|done|done|lia|rewrite length_insert; lia]|].
  intros o f' (ret & bufs & -> & Hret). eexists _, _. split; [done|]. intros Hz. specialize (Hret Hz).
  by rewrite <- !app_assoc in Hret.
Qed.

(** A driver with more buffers than the array has room for. *)
Lemma map_buffers_overrun n i buff_info image_buffer acts f :
  at_work acts f0 f -> 0 <= i <= Z.of_nat (length image_buffer) -> Z.of_nat (length image_buffer) < i + Z.of_nat n ->
  wp (map_buffers n i fd buff_info image_buffer) f (fun o f' =>
    o = Fault OutOfBounds \/ exists bufs, o = Ok (-5, bufs) \/ o = Ok (-6, bufs)).
Proof.
  revert i buff_info image_buffer acts f.
  induction n as [|n IH]; intros i buff_info image_buffer acts f P Hi Hn; [lia|]. cbn [map_buffers].
  wstep. eapply wp_ioctl_struct; [exact P|in_list|]. intros ret out f1 Ho P1. cbn [next].
  destruct (negb (ret =? 0)); [wstep; right; eauto|].
  wstep. eapply play_mmap; [exact P1|in_list|]. intros p f2 P2. cbn [next]. do 2 wstep.
  unfold array_set at 1. rewrite (proj2 (Z.leb_le 0 i)) by lia.
  destruct (Z.ltb_spec i (Z.of_nat (length image_buffer))); cbn [andb next]; [|by left].
  destruct (p =? 0); [wstep; right; eauto|].
  apply (IH (i + 1) _ _ _ _ P2); rewrite length_insert; lia.
Qed.

Lemma queue_buffers_acts n i acts f :
  at_work acts f0 f ->
  wp (queue_buffers n (Z.of_nat i) fd) f (fun o f' => exists ret, o = Ok ret /\
    (ret = 0 -> at_work (acts ++ ((fun i => Asks dev "VIDIOC_QBUF" [Z.of_nat i]) <$> seq i n)) f0 f')).
Proof.
  revert i acts f. induction n as [|n IH]; intros i acts f P; cbn [queue_buffers].
  { wstep. exists 0. by rewrite app_nil_r. }
  wstep. play. destruct (negb (r =? 0)); [wstep; by eexists|].
  replace (Z.of_nat i + 1) with (Z.of_nat (S i)) by lia. eapply wp_mono; [by apply IH|].
  intros o f' (ret & -> & Hret). eexists. split; [done|]. intros Hz. specialize (Hret Hz). by rewrite <- app_assoc in Hret.
Qed.
End Loops.
End Session.

(** C30: when the camera is set up, it was set up in this order, and every buffer of the array is
    a mapping of the first buffer of the driver, at its length and its offset: the loop that asks
    for the buffers never sets the index it asks for.  The buffers that are queued are all of them. *)
Theorem uvc_maps_first_buffer `{HL : PosixLaws} `{Video} len off rounds dev f :
  steady len off ->
  wp (video_device_init rounds dev) f (fun o f' => forall fd bufs, o = Ok (0, fd, bufs) ->
    exists k parm n, playing [(fd, dev)] (init_acts dev V4L2_PIX_FMT_MJPEG k parm n len off) f f' /\ (n <= 4)%nat).
Proof.
  intros Hs. apply (play_start _ _ (fun f0 o f' => forall fd bufs, o = Ok (0, fd, bufs) -> exists k parm n, playing _ _ f0 f' /\ _)).
  intros f0 P. unfold video_device_init. wstep. play; play; try lia; [by wstep|].
  wstep. eapply wp_mono; [eapply (enum_formats_acts len off Hs fd dev f0 rounds 0); exact P|]. cbn beta.
  intros o1 f3 (k & P3 & [-> | ->]); cbn [next]; [|done].
  wstep. eapply wp_ioctl_struct; [exact P3|in_list|]. intros ret out f4 _ P4. cbn [next].
  destruct (negb (ret =? 0)); [wstep; intros ? ? Hc; simplify_eq|].
  destruct (negb (_ =? V4L2_PIX_FMT_MJPEG)); [wstep; intros ? ? Hc; simplify_eq|].
  wstep. eapply wp_ioctl_struct; [exact P4|in_list|]. intros ret1 out1 f5 _ P5. cbn [next].
  destruct (negb (ret1 =? 0)); [wstep; intros ? ? Hc; simplify_eq|].
  wstep. eapply wp_ioctl_struct; [exact P5|in_list|]. intros ret2 out2 f6 _ P6. cbn [next].
  destruct (negb (ret2 =? 0)); [wstep; intros ? ? Hc; simplify_eq|].
  wstep. eapply wp_ioctl_struct; [exact P6|in_list|]. intros ret3 out3 f7 _ P7. cbn [next].
  destruct (negb (ret3 =? 0)); [wstep; intros ? ? Hc; simplify_eq|]. cbv zeta.
  set (n := Z.to_nat (u32 (field (overwrite out3 [4]) 0))). wstep.
  destruct (decide (n <= 4)%nat) as [Hn|Hn].
  2:{ eapply wp_mono; [eapply (map_buffers_overrun fd dev f0 n 0); [exact P7|cbn; lia|cbn; lia]|].
      intros o8 f8 [->|(bufs & [->| ->])]; cbn; [done| |]; intros ? ? Hc; simplify_eq. }
  eapply wp_mono; [eapply (map_buffers_acts len off Hs fd dev f0 n 0); [exact P7|done|done|lia|cbn; lia]|].
  intros o8 f8 (ret8 & bufs & -> & P8). cbn [next]. destruct (Z.eqb_spec ret8 0) as [->|Hr8]; cbn [negb]; [|wstep; intros ? ? Hc; simplify_eq].
  specialize (P8 eq_refl). wstep. eapply wp_mono; [eapply (queue_buffers_acts fd dev f0 n 0); exact P8|].
  intros o9 f9 (ret9 & -> & P9). cbn [next]. destruct (Z.eqb_spec ret9 0) as [->|Hr9]; cbn [negb]; [|wstep; intros ? ? Hc; simplify_eq].
  specialize (P9 eq_refl). wstep. play. destruct (negb (r =? 0)); wstep; intros fd' bufs' Hc; simplify_eq.
  eexists k, _, n. split; [|done]. rewrite <- !app_assoc in P9. unfold init_acts. exact P9.
Qed.

(** A driver that has more than four buffers makes the initialisation write past the array of
    their addresses, unless a request for them fails first. *)
Theorem uvc_overruns_array `{HL : PosixLaws} `{Video} rounds dev count f :
  4 < count < 2 ^ 32 -> (forall f fd, os_ioctl f fd "VIDIOC_REQBUFS" [4] = (0, [count])) ->
  wp (video_device_init rounds dev) f (fun o _ =>
    match o with Ok (ret, _, _) => -6 <= ret < 0 | Fault e => e = OutOfBounds \/ e = NoFuel end).
Proof.
  intros Hcount Hreq. apply (play_start _ _ (fun f0 o f' => match o with Ok (ret, _, _) => _ | Fault e => _ end)).
  intros f0 P. unfold video_device_init. wstep. play; play; try lia; [by wstep|].
  wstep. eapply wp_mono with (P := fun o f' => (o = Ok tt /\ exists acts, playing [(fd, dev)] acts f0 f') \/ o = Fault NoFuel).
  { clear Hreq. revert P. generalize ([] ++ [Opens dev]) as acts. generalize 0 as i. revert f1.
    induction rounds as [|rounds IH]; intros f1 i acts P; cbn [enum_formats]; [wstep; by right|].
    wstep. eapply wp_ioctl_struct; [exact P|in_list|]. intros ret out f3 _ P3. cbn [next].
    destruct (ret =? 0); [by eapply IH|]. wstep. left. eauto. }
  intros o1 f3 [[-> [acts P3]]| ->]; cbn [next]; [|by right].
  wstep. eapply wp_ioctl_struct; [exact P3|in_list|]. intros ret out f4 _ P4. cbn [next].
  destruct (negb (ret =? 0)); [by wstep|].
  destruct (negb (_ =? V4L2_PIX_FMT_MJPEG)); [by wstep|].
  wstep. eapply wp_ioctl_struct; [exact P4|in_list|]. intros ret1 out1 f5 _ P5. cbn [next].
  destruct (negb (ret1 =? 0)); [by wstep|].
  wstep. eapply wp_ioctl_struct; [exact P5|in_list|]. intros ret2 out2 f6 _ P6. cbn [next].
  destruct (negb (ret2 =? 0)); [by wstep|].
  wstep. eapply wp_ioctl_struct; [exact P6|in_list|]. intros ret3 out3 f7 Hout P7. cbn [next].
  rewrite Hreq in Hout. injection Hout as <- <-. cbn [negb Z.eqb].
  change (field (overwrite [count] [4]) 0) with count. rewrite u32_id by lia. cbv zeta. wstep.
  eapply wp_mono; [eapply (map_buffers_overrun fd dev f0 (Z.to_nat count) 0); [exact P7|cbn; lia|cbn; lia]|].
  intros o8 f8 [->|(bufs & [->| ->])]; cbn; by auto.
Qed.

(** * The images *)

(** The image [n]: taken from the buffer [idx], with its data. *)
Definition saved (dev : string) (n : Z) (img : Z * list Z) : list act :=
  [Asks dev "VIDIOC_DQBUF" []; Opens (image_path n); Writes (image_path n) (snd img); Closes (image_path n);
   Asks dev "VIDIOC_QBUF" [fst img]].
Fixpoint saved_from (dev : string) (n : Z) (imgs : list (Z * list Z)) : list act :=
  match imgs with [] => [] | img :: imgs => saved dev n img ++ saved_from dev (u32 (n + 1)) imgs end.

(** The data of an image is what the memory holds at the address of its buffer. *)
Definition from_buffer `{Video} (image_buffer : list Z) (img : Z * list Z) : Prop :=
  exists p f used, array_get image_buffer (fst img) = Ok p /\ p <> 0 /\ p <> -1 /\ snd img = os_memory f p used.

Lemma print_d_inj m n : 0 <= m < 2 ^ 32 -> 0 <= n < 2 ^ 32 -> print_d m = print_d n -> m = n.
Proof.
  intros Hm Hn Heq. unfold print_d, dec in Heq. apply (inj (pretty (A := Z))) in Heq. unfold s32, swrap, wrap in Heq.
  change (2 ^ 32) with 4294967296 in *. change (2 ^ (32 - 1)) with 2147483648 in *. Z.to_euclidean_division_equations. lia.
Qed.

Lemma string_app_inv_r (a b s : string) : a +:+ s = b +:+ s -> a = b.
Proof.
  revert b. induction a as [|c a IH]; intros [|d b] Heq; [done|..].
  - apply (f_equal String.length) in Heq. rewrite !string_length_app in Heq. cbn in Heq. lia.
  - apply (f_equal String.length) in Heq. rewrite !string_length_app in Heq. cbn in Heq. lia.
  - injection Heq as -> Heq. f_equal. by apply IH.
Qed.

Lemma image_path_inj m n : 0 <= m < 2 ^ 32 -> 0 <= n < 2 ^ 32 -> image_path m = image_path n -> m = n.
Proof.
  intros Hm Hn Heq. apply print_d_inj; [done..|]. unfold image_path in Heq.
  do 2 apply (inj (String.append _)) in Heq. by apply string_app_inv_r in Heq.
Qed.

Section Capture.
Context `{HL : PosixLaws} `{Video} (fd : Z) (dev : string) (f0 : files) (image_buffer : list Z).

Lemma play_poll l acts f Q :
  playing l acts f0 f -> (forall r f', playing l acts f0 f' -> Q (Ok r) f') -> wp (sys_poll fd) f Q.
Proof.
  intros P HQ. unfold sys_poll. do 2 wstep. destruct (os_poll f fd) as [ret ready]. do 3 wstep. apply HQ.
  pose proof (playing_did (Poll fd ret ready) l acts f0 f eq_refl P) as P'. cbn in P'. by rewrite app_nil_r in P'.
Qed.

Lemma capture_acts rounds n video_buffer acts f :
  playing [(fd, dev)] acts f0 f ->
  wp (capture rounds n fd image_buffer video_buffer) f (fun o f' => exists imgs rest held,
    playing held (acts ++ saved_from dev n imgs ++ rest) f0 f' /\ Forall (from_buffer image_buffer) imgs /\
    (o = Fault NoFuel /\ length imgs = rounds /\ rest = [] /\ held = [(fd, dev)] \/
     o = Fault OutOfBounds /\ exists path, rest = [Asks dev "VIDIOC_DQBUF" []; Opens path])).
Proof.
  revert n video_buffer acts f. induction rounds as [|rounds IH]; intros n video_buffer acts f P; cbn [capture].
  { wstep. exists [], [], [(fd, dev)]. cbn. rewrite app_nil_r. split_and!; [done|done|by left]. }
  wstep. eapply play_poll; [exact P|]. clear f P. intros r f P. cbn [next].
  wstep. eapply wp_ioctl_struct; [exact P|in_list|]. intros status out f1 _ P1. cbn [next]. cbv zeta.
  set (vb := overwrite out video_buffer). clearbody vb.
  assert (Hbad : forall held f', playing held ((acts ++ [Asks dev "VIDIOC_DQBUF" []]) ++ [Opens (image_path n)]) f0 f' ->
    exists imgs rest held, playing held (acts ++ saved_from dev n imgs ++ rest) f0 f' /\ Forall (from_buffer image_buffer) imgs /\
    (@Fault Z OutOfBounds = Fault NoFuel /\ length imgs = S rounds /\ rest = [] /\ held = [(fd, dev)] \/
     @Fault Z OutOfBounds = Fault OutOfBounds /\ exists path, rest = [Asks dev "VIDIOC_DQBUF" []; Opens path])).
  { intros held f' P'. rewrite <- app_assoc in P'. exists [], [Asks dev "VIDIOC_DQBUF" []; Opens (image_path n)], held.
    split_and!; [exact P'|done|right; eauto]. }
  wstep. eapply play_open; [exact P1|intros jf f2 _ Hneg P2|intros jf f2 _ Hpos P2]; cbn [next].
  { do 2 wstep. unfold array_get. repeat case_match; cbn [next]; try by eapply Hbad. all: try wstep; try by eapply Hbad. all: lia. }
  do 2 wstep. destruct (array_get image_buffer (field vb 0)) as [p|e] eqn:Hp; cbn [next].
  2:{ assert (e = OutOfBounds) as ->; [|by eapply Hbad]. unfold array_get in Hp. by repeat case_match; simplify_eq. }
  rewrite (proj2 (Z.ltb_ge jf 0)) by lia. destruct ((p =? 0) || (p =? -1)) eqn:Hz; [wstep; by eapply Hbad|].
  do 2 wstep. wstep. eapply play_write; [exact P2|in_list|]. intros w f3 _ P3. cbn [next].
  wstep. eapply (play_close jf _ [] [(fd, dev)]); [exact P3|]. intros f4 P4. cbn [next app] in P4 |- *.
  wstep. eapply play_ioctl; [exact P4|in_list|]. intros r1 out1 f5 _ P5. cbn [next].
  eapply wp_mono; [by apply IH|]. intros o f' (imgs & rest & held & P' & Hi & Ho).
  exists ((field vb 0, os_memory f2 p (field vb 1)) :: imgs), rest, held.
  rewrite <- !app_assoc in P'. split_and!; [exact P'| |].
  - constructor; [|done]. exists p, f2, (field vb 1). apply orb_false_iff in Hz as [? ?]. split_and!; try done; lia.
  - destruct Ho as [(-> & <- & -> & ->)|Ho]; [left; by split_and!|by right].
Qed.
End Capture.

Definition opened_paths (acts : list act) : list string :=
  omap (fun a => match a with Opens path => Some path | _ => None end) acts.

Lemma opened_saved dev n imgs :
  0 <= n -> n + Z.of_nat (length imgs) <= 2 ^ 32 ->
  opened_paths (saved_from dev n imgs) = (fun i => image_path (n + Z.of_nat i)) <$> seq 0 (length imgs).
Proof.
  revert n. induction imgs as [|img imgs IH]; intros n Hn Hl; [done|]. cbn [length] in Hl.
  change (opened_paths (saved_from dev n (img :: imgs))) with (image_path n :: opened_paths (saved_from dev (u32 (n + 1)) imgs)).
  cbn [length seq fmap list_fmap]. rewrite Z.add_0_r. f_equal.
  destruct imgs as [|img' imgs]; [done|]. cbn [length] in Hl. rewrite u32_id by lia. rewrite IH by (cbn [length]; lia).
  rewrite <- fmap_S_seq, <- list_fmap_compose. apply list_fmap_ext. intros i x _. cbn. f_equal. lia.
Qed.

(** Once the camera works, the test goes on taking images: each is what the memory holds at
    the address of the buffer the driver names, it is written to a file of its own, a new name each
    time for the first 2 ^ 32 images, the file is closed, and the same buffer is queued again.  It
    stops only in a fault, when a file does not open or the buffer is not mapped. *)
Theorem uvc_saves_images `{HL : PosixLaws} `{Video} rounds fd dev image_buffer video_buffer acts f0 f :
  playing [(fd, dev)] acts f0 f -> Z.of_nat rounds <= 2 ^ 32 ->
  wp (capture rounds 0 fd image_buffer video_buffer) f (fun o f' => exists imgs rest held,
    playing held (acts ++ saved_from dev 0 imgs ++ rest) f0 f' /\ Forall (from_buffer image_buffer) imgs /\
    (o = Fault NoFuel /\ length imgs = rounds /\ rest = [] /\ held = [(fd, dev)] /\ NoDup (opened_paths (saved_from dev 0 imgs)) \/
     o = Fault OutOfBounds /\ exists path, rest = [Asks dev "VIDIOC_DQBUF" []; Opens path])).
Proof.
  intros P Hr. eapply wp_mono; [by apply capture_acts|]. intros o f' (imgs & rest & held & P' & Hi & Ho).
  exists imgs, rest, held. split_and!; [done..|]. destruct Ho as [(-> & Hl & -> & ->)|Ho]; [left|by right].
  split_and!; try done. rewrite opened_saved by lia. apply NoDup_fmap_2_strong; [|apply NoDup_seq].
  intros i j Hi1 Hj1 Heq. apply elem_of_seq in Hi1, Hj1. apply image_path_inj in Heq; lia.
Qed.

(** A camera that works, with four buffers of 4096 bytes. *)
Module Camera.
#[export] Instance machine : PosixOS := {|
  os_open f _ := next_free f;
  os_read _ _ _ := (0, []);
  os_write _ _ data := Z.of_nat (length data);
  os_ioctl f fd req args :=
    if String.eqb req "VIDIOC_ENUM_FMT" then (if field args 0 =? 0 then (0, args) else (-1, []))
    else if String.eqb req "VIDIOC_REQBUFS" then (0, [4])
    else if String.eqb req "VIDIOC_QUERYBUF" then (0, [field args 0; 4096; 4096 * field args 0])
    else if String.eqb req "VIDIOC_DQBUF" then (0, [2; 3])
    else (0, []);
  os_ioctl_fd f _ _ _ := (0, next_free f);
  os_poll _ _ := (1, true);
  os_lseek _ _ := 0;
  os_access _ _ := 0 |}.
#[export] Instance machine_fresh : PosixLaws machine.
Proof. split; [intros f path _; apply next_free_fresh|]. intros f fd req args r h [= <- <-] _. apply next_free_fresh. Qed.
(** A buffer is mapped at its offset from 65536, and its first byte tells which it is. *)
#[export] Instance video : Video := {|
  V4L2_PIX_FMT_MJPEG := 1196444237;
  os_mmap _ _ _ offset := 65536 + offset;
  os_memory _ p n := take (Z.to_nat n) ((p - 65536) / 4096 :: replicate 4095 255) |}.
Definition at_start : files := Files ∅ [].

(** Three images are asked of the third buffer, and what is saved is the first. *)
Lemma uvc_maps_first_buffer_witness :
  (exists fd, fst (video_device_init 2 "/dev/video0" at_start) = Ok (0, fd, replicate 4 65536)) /\
  wp (video_device_init 2 "/dev/video0") at_start (fun o f' => forall fd bufs, o = Ok (0, fd, bufs) ->
    exists k parm n, playing [(fd, "/dev/video0"%string)]
      (init_acts "/dev/video0" V4L2_PIX_FMT_MJPEG k parm n (fun _ => 4096) (fun i => 4096 * i)) at_start f' /\ (n <= 4)%nat).
Proof.
  split; [eexists; vm_compute; reflexivity|].
  apply (uvc_maps_first_buffer (fun _ => 4096) (fun i => 4096 * i) 2 "/dev/video0" at_start). split.
  - intros f fd i out [= <-]. done.
  - intros f fd i out. change (os_ioctl f fd "VIDIOC_ENUM_FMT" [i]) with (if i =? 0 then (0, [i]) else (-1, [])).
    destruct (i =? 0); [by intros [= <-]|done].
Defined.

Lemma uvc_saves_images_witness :
  playing [(3, "/dev/video0"%string)] [Opens "/dev/video0"] at_start (snd (sys_open "/dev/video0" at_start)) /\
  fst (capture 3 0 3 (replicate 4 65536) [0; 0] (snd (sys_open "/dev/video0" at_start))) = Fault NoFuel /\
  wp (capture 3 0 3 (replicate 4 65536) [0; 0]) (snd (sys_open "/dev/video0" at_start)) (fun o f' => exists imgs rest held,
    playing held ([Opens "/dev/video0"] ++ saved_from "/dev/video0" 0 imgs ++ rest) at_start f' /\
    Forall (from_buffer (replicate 4 65536)) imgs /\
    (o = Fault NoFuel /\ length imgs = 3%nat /\ rest = [] /\ held = [(3, "/dev/video0"%string)] /\
       NoDup (opened_paths (saved_from "/dev/video0" 0 imgs)) \/
     o = Fault OutOfBounds /\ exists path, rest = [Asks "/dev/video0" "VIDIOC_DQBUF" []; Opens path])).
Proof.
  assert (P : playing [(3, "/dev/video0"%string)] [Opens "/dev/video0"] at_start (snd (sys_open "/dev/video0" at_start))).
  { split; [split; [reflexivity| |apply NoDup_singleton|reflexivity]| |reflexivity].
    - intros fd _. change (fd ∉ (∅ : gset Z)). apply not_elem_of_empty.
    - intros fd path Hin. apply list_elem_of_singleton in Hin. by injection Hin as -> ->. }
  split; [exact P|]. split; [vm_compute; reflexivity|].
  apply (uvc_saves_images 3 3 "/dev/video0" (replicate 4 65536) [0; 0] [Opens "/dev/video0"] at_start); [exact P|by vm_compute].
Defined.

(** A driver that says it has [count] buffers. *)
Definition rich (count : Z) : PosixOS := {|
  os_open := os_open; os_read := os_read; os_write := os_write;
  os_ioctl f fd req args := if String.eqb req "VIDIOC_REQBUFS" then (0, [count]) else @os_ioctl machine f fd req args;
  os_ioctl_fd := os_ioctl_fd; os_poll := os_poll; os_lseek := os_lseek; os_access := os_access |}.
Lemma rich_fresh count : PosixLaws (rich count).
Proof. split; [intros f path _; apply next_free_fresh|]. intros f fd req args r h [= <- <-] _. apply next_free_fresh. Qed.

Lemma uvc_overruns_array_witness :
  fst (@video_device_init (rich 5) video 2 "/dev/video0" at_start) = Fault OutOfBounds /\
  wp (@video_device_init (rich 5) video 2 "/dev/video0") at_start (fun o _ =>
    match o with Ok (ret, _, _) => -6 <= ret < 0 | Fault e => e = OutOfBounds \/ e = NoFuel end).
Proof.
  split; [vm_compute; reflexivity|].
  apply (@uvc_overruns_array (rich 5) (rich_fresh 5) video 2 "/dev/video0" 5 at_start); [lia|done].
Defined.
End Camera.
