(* ===== verification/Props.v ===== *)
(** The listing of DRM properties, which drm/proptest/proptest.c and drm/modetest/modetest.c
    share word for word: [dump_blob] and [dump_prop]; and the log of the listings, what they
    print and what they get from libdrm and give back. *)
From Stdlib Require Import ZArith Lia Ascii String.
From stdpp Require Import base list numbers strings.
From S2P Require Import Prelude Libc Print.

#[global] Open Scope Z_scope.

(** * The log *)

(** Text on the standard output and on the error output; an object got from libdrm and its
    release. *)
Inductive ev :=
| Printed (s : string)
| Warned (s : string)
| Got (kind : string) (id : Z)
| Freed (kind : string) (id : Z).

(** Programs over the log, newest first. *)
Abbreviation tprog := (prog (list ev)).

Definition emit (e : ev) : tprog unit := modify (cons e).
Definition print (s : string) : tprog unit := emit (Printed s).
Definition warn (s : string) : tprog unit := emit (Warned s).

Definition nl : string := String (ascii_of_nat 10) EmptyString.
Definition tab : string := String (ascii_of_nat 9) EmptyString.

(** The standard output of a log. *)
Definition shown (e : ev) : string := match e with Printed s => s | _ => "" end.
Fixpoint text (t : list ev) : string :=
  match t with [] => "" | e :: t => text t +:+ shown e end.

(** [for (i = 0; i < count; i++)] over an array. *)
Fixpoint each {A} (l : list A) (body : A -> tprog unit) : tprog unit :=
  match l with [] => mret tt | a :: l => body a;; each l body end.

(** The same, with the index. *)
Fixpoint each_from {A} (i : Z) (l : list A) (body : Z -> A -> tprog unit) : tprog unit :=
  match l with [] => mret tt | a :: l => body i a;; each_from (i + 1) l body end.

(** What is done with an object between its request and its release. *)
Definition in_hand {A} (kind : string) (id : Z) (c : tprog A) : tprog A :=
  emit (Got kind id);; a ← c; emit (Freed kind id);; mret a.

(** * Properties *)

Record property := Property {
  p_id : Z; p_name : string; p_flags : Z; p_values : list Z; p_enums : list (string * Z); p_blob_ids : list Z }.

Inductive prop_type :=
| DRM_MODE_PROP_SIGNED_RANGE | DRM_MODE_PROP_RANGE | DRM_MODE_PROP_ENUM | DRM_MODE_PROP_BITMASK
| DRM_MODE_PROP_BLOB | DRM_MODE_PROP_OBJECT.

(** libdrm: the blobs, the types of a property, and the two flags that are no types. *)
Class PropKernel := {
  drmModeGetPropertyBlob : Z -> option (list Z);
  drm_property_type_is : property -> prop_type -> bool;
  DRM_MODE_PROP_PENDING : Z;
  DRM_MODE_PROP_IMMUTABLE : Z }.

Section Dump.
Context `{PropKernel}.

Definition dump_blob (blob_id : Z) : tprog unit :=
  match drmModeGetPropertyBlob blob_id with
  | None => print nl
  | Some blob_data =>
      in_hand "blob" blob_id (
        each_from 0 blob_data (fun i b =>
          when (i mod 16 =? 0) (print (nl +:+ tab +:+ tab +:+ tab));; print (byte_hex b));;
        print nl)
  end.

Definition has_flag (prop : property) (flag : Z) : bool := negb (Z.land (p_flags prop) flag =? 0).

(** [1LL << value]; a shift by the width or more is not defined. *)
Definition shift_one (value : Z) : outcome Z := if value <? 64 then Ok (u64 (Z.shiftl 1 value)) else Fault OutOfBounds.

(** [assert(count == 0)] *)
Definition assert_none {A} (l : list A) : tprog unit := match l with [] => mret tt | _ :: _ => stop Aborted end.

(** [dump_prop], from the name of the property on. *)
Definition dump_property (prop : property) (value : Z) : tprog unit :=
  let is_type := drm_property_type_is prop in
  print (" " +:+ p_name prop +:+ ":" +:+ nl);;
  print (tab +:+ tab +:+ "flags:");;
  when (has_flag prop DRM_MODE_PROP_PENDING) (print " pending");;
  when (has_flag prop DRM_MODE_PROP_IMMUTABLE) (print " immutable");;
  when (is_type DRM_MODE_PROP_SIGNED_RANGE) (print " signed range");;
  when (is_type DRM_MODE_PROP_RANGE) (print " range");;
  when (is_type DRM_MODE_PROP_ENUM) (print " enum");;
  when (is_type DRM_MODE_PROP_BITMASK) (print " bitmask");;
  when (is_type DRM_MODE_PROP_BLOB) (print " blob");;
  when (is_type DRM_MODE_PROP_OBJECT) (print " object");;
  print nl;;
  when (is_type DRM_MODE_PROP_SIGNED_RANGE)
    (print (tab +:+ tab +:+ "values:");; each (p_values prop) (fun v => print (" " +:+ dec (s64 v)));; print nl);;
  when (is_type DRM_MODE_PROP_RANGE)
    (print (tab +:+ tab +:+ "values:");; each (p_values prop) (fun v => print (" " +:+ dec v));; print nl);;
  (if is_type DRM_MODE_PROP_ENUM then
     print (tab +:+ tab +:+ "enums:");;
     each (p_enums prop) (fun '(name, v) => print (" " +:+ name +:+ "=" +:+ dec v));; print nl
   else if is_type DRM_MODE_PROP_BITMASK then
     print (tab +:+ tab +:+ "values:");;
     each (p_enums prop) (fun '(name, v) =>
       bit ← lift (shift_one v); print (" " +:+ name +:+ "=0x" +:+ hex bit));; print nl
   else assert_none (p_enums prop));;
  (if is_type DRM_MODE_PROP_BLOB then
     print (tab +:+ tab +:+ "blobs:" +:+ nl);; each (p_blob_ids prop) dump_blob;; print nl
   else assert_none (p_blob_ids prop));;
  print (tab +:+ tab +:+ "value:");;
  (if is_type DRM_MODE_PROP_BLOB then dump_blob (u32 value)
   else if is_type DRM_MODE_PROP_SIGNED_RANGE then print (" " +:+ dec (s64 value) +:+ nl)
   else print (" " +:+ dec value +:+ nl)).
End Dump.

(** * Objects in hand *)

(** What is held after some events, the oldest first: objects are given back in the order
    opposite to that they were got in. *)
Fixpoint held_after (held : list (string * Z)) (t : list ev) : option (list (string * Z)) :=
  match t with
  | [] => Some held
  | Got kind id :: t => held_after ((kind, id) :: held) t
  | Freed kind id :: t =>
      match held with
      | top :: held => if decide (top = (kind, id)) then held_after held t else None
      | [] => None
      end
  | _ :: t => held_after held t
  end.

(** Since the log [t0] everything that was got was given back. *)
Definition settled (t0 t : list ev) : Prop :=
  exists new, t = new ++ t0 /\ forall held, held_after held (rev new) = Some held.

Lemma held_after_app held t1 t2 :
  held_after held (t1 ++ t2) = held ← held_after held t1; held_after held t2.
Proof.
  revert held. induction t1 as [|[s|s|kind id|kind id] t1 IH]; intros held; cbn; try apply IH; [done|].
  destruct held as [|top held]; [done|]. destruct (decide _); [apply IH|done].
Qed.

#[global] Instance settled_preorder : PreOrder settled.
Proof.
  split.
  - intros t. by exists [].
  - intros t1 t2 t3 (n1 & -> & H1) (n2 & -> & H2). exists (n2 ++ n1). rewrite <- app_assoc. split; [done|].
    intros held. rewrite rev_app_distr, held_after_app, H1. cbn. apply H2.
Qed.

Lemma settled_got kind id t0 t :
  settled (Got kind id :: t0) t -> settled t0 (Freed kind id :: t).
Proof.
  intros (new & -> & Hn). exists (Freed kind id :: new ++ [Got kind id]). split; [cbn; by rewrite <- app_assoc|].
  intros held. cbn [rev]. rewrite rev_app_distr, held_after_app. cbn [rev app]. cbn [held_after].
  rewrite Hn. cbn. by rewrite decide_True.
Qed.

(** [settles c]: [c], when it comes to its end, leaves nothing in its hands; when it does not,
    it has stopped for the reason [bad]. *)
Definition settles (bad : fault -> Prop) {A} (c : tprog A) : Prop := forall t, wp c t (fun o t' =>
  match o with Ok _ => settled t t' | Fault e => bad e end).

Section Settles.
Context (bad : fault -> Prop).
Lemma settles_ret {A} (a : A) : settles bad (mret a).
Proof. intros t. wstep. by exists []. Qed.
Lemma settles_bind {A B} (c : tprog A) (k : A -> tprog B) :
  settles bad c -> (forall a, settles bad (k a)) -> settles bad (c ≫= k).
Proof.
  intros Hc Hk t. wstep. eapply wp_mono; [apply Hc|]. intros [a|e] t1 H1; cbn [next]; [|done].
  eapply wp_mono; [apply Hk|]. intros [b|e] t2 H2; [by etrans|done].
Qed.
Lemma settles_print s : settles bad (print s).
Proof. intros t. unfold print, emit. wstep. by exists [Printed s]. Qed.
Lemma settles_warn s : settles bad (warn s).
Proof. intros t. unfold warn, emit. wstep. by exists [Warned s]. Qed.
Lemma settles_when b (c : tprog unit) : (b = true -> settles bad c) -> settles bad (when b c).
Proof. destruct b; intros Hc; [by apply Hc|apply settles_ret]. Qed.
Lemma settles_if {A} (b : bool) (c d : tprog A) :
  (b = true -> settles bad c) -> (b = false -> settles bad d) -> settles bad (if b then c else d).
Proof. by destruct b; auto. Qed.
Lemma settles_each {A} (l : list A) body : (forall a, a ∈ l -> settles bad (body a)) -> settles bad (each l body).
Proof.
  induction l as [|a l IH]; intros Hb; cbn; [apply settles_ret|].
  apply settles_bind; [apply Hb; by left|]. intros _. apply IH. intros b Hin. apply Hb. by right.
Qed.
Lemma settles_each_from {A} i (l : list A) body : (forall i a, settles bad (body i a)) -> settles bad (each_from i l body).
Proof.
  revert i. induction l as [|a l IH]; intros i Hb; cbn; [apply settles_ret|]. apply settles_bind; [apply Hb|]. intros _. by apply IH.
Qed.
Lemma settles_assert_none {A} (l : list A) : (l <> [] -> bad Aborted) -> settles bad (assert_none l).
Proof. destruct l; intros Hb t; cbn; [by exists []|by apply Hb]. Qed.

(** An object between its request and its release. *)
Lemma settles_object {A} kind id (c : tprog A) : settles bad c -> settles bad (in_hand kind id c).
Proof.
  intros Hc t. unfold in_hand, emit. do 3 wstep. eapply wp_mono; [apply Hc|]. intros [a|e] t1 H1; cbn [next]; [|done].
  do 3 wstep. by apply settled_got.
Qed.
End Settles.

Ltac settles_step :=
  lazymatch goal with
  | |- settles _ (in_hand _ _ _) => apply settles_object
  | |- settles _ (mbind _ _) => apply settles_bind; [|intros ?]
  | |- settles _ (when _ _) => apply settles_when; intros ?
  | |- settles _ (if _ then _ else _) => apply settles_if; intros ?
  | |- settles _ (each _ _) => apply settles_each; intros ? ?
  | |- settles _ (each_from _ _ _) => apply settles_each_from; intros ? ?
  | |- settles _ (print _) => apply settles_print
  | |- settles _ (warn _) => apply settles_warn
  | |- settles _ (mret _) => apply settles_ret
  end.
Ltac settles := repeat settles_step.

(** * What the listing of a property does *)

Section Listing.
Context `{PropKernel}.

Lemma settles_dump_blob bad id : settles bad (dump_blob id).
Proof. unfold dump_blob. destruct (drmModeGetPropertyBlob id); settles. Qed.

(** The named values of a property are those of an enumeration or a bit mask, whose bits are
    below 64; and only a blob property has blobs. *)
Definition consistent (prop : property) : Prop :=
  let is_type := drm_property_type_is prop in
  (is_type DRM_MODE_PROP_ENUM = false -> is_type DRM_MODE_PROP_BITMASK = true -> Forall (fun e => snd e < 64) (p_enums prop)) /\
  (is_type DRM_MODE_PROP_ENUM = false -> is_type DRM_MODE_PROP_BITMASK = false -> p_enums prop = []) /\
  (is_type DRM_MODE_PROP_BLOB = false -> p_blob_ids prop = []).

(** A property that is not consistent stops the program. *)
Lemma settles_dump_property prop value : settles (fun _ => ~ consistent prop) (dump_property prop value).
Proof.
  unfold dump_property. cbv zeta. settles.
  all: try (apply settles_dump_blob).
  - match goal with |- settles _ (let '(_, _) := ?e in _) => destruct e as [n v] eqn:He end. settles.
  - match goal with |- settles _ (let '(_, _) := ?e in _) => destruct e as [n v] eqn:He end.
    intros t. do 2 wstep. unfold shift_one. destruct (Z.ltb_spec v 64); cbn [next].
    + by eapply wp_mono; [apply (settles_print (fun _ => ~ consistent prop))|].
    + intros (Hb & _). rewrite Forall_forall in Hb. specialize (Hb ltac:(done) ltac:(done) _ ltac:(eassumption)). cbn in Hb. lia.
  - apply settles_assert_none. intros Hne (_ & Hb & _). by apply Hne, Hb.
  - apply settles_assert_none. intros Hne (_ & _ & Hb). by apply Hne, Hb.
Qed.
End Listing.

(** * The text of a blob *)

(** [adds s c]: [c] comes to its end and has printed [s]. *)
Definition adds (s : string) (c : tprog unit) : Prop := forall t, wp c t (fun o t' => o = Ok tt /\ text t' = text t +:+ s).

Lemma adds_print s : adds s (print s).
Proof. intros t. unfold print, emit. by wstep. Qed.
Lemma adds_bind s1 s2 (c d : tprog unit) : adds s1 c -> adds s2 d -> adds (s1 +:+ s2) (c;; d).
Proof.
  intros Hc Hd t. wstep. eapply wp_mono; [apply Hc|]. intros o t1 [-> H1]; cbn [next].
  eapply wp_mono; [apply Hd|]. intros o t2 [-> H2]. split; [done|]. rewrite H2, H1. apply string_app_assoc.
Qed.
Lemma adds_when s (b : bool) : adds (if b then s else "") (when b (print s)).
Proof. destruct b; [apply adds_print|]. intros t. unfold when. wstep. by rewrite string_app_nil. Qed.
Lemma adds_in_hand s kind id c : adds s c -> adds s (in_hand kind id c).
Proof.
  intros Hc t. unfold in_hand, emit. do 3 wstep. eapply wp_mono; [apply Hc|]. intros o t1 [-> H1]; cbn [next]. do 3 wstep.
  split; [done|]. cbn [text shown]. rewrite string_app_nil, H1. cbn [text shown]. by rewrite string_app_nil.
Qed.

(** The lines of sixteen bytes; [i] bytes were printed. *)
Fixpoint blob_text (i : Z) (bytes : list Z) : string :=
  match bytes with
  | [] => ""
  | b :: bytes => (if i mod 16 =? 0 then nl +:+ tab +:+ tab +:+ tab else "") +:+ byte_hex b +:+ blob_text (i + 1) bytes
  end.

Lemma dump_blob_text `{PropKernel} id bytes :
  drmModeGetPropertyBlob id = Some bytes -> adds (blob_text 0 bytes +:+ nl) (dump_blob id).
Proof.
  intros Hb. unfold dump_blob. rewrite Hb. apply adds_in_hand, adds_bind; [|apply adds_print].
  generalize 0 at 1 2. clear Hb. induction bytes as [|b bytes IH]; intros i; cbn [each_from blob_text].
  { intros t. wstep. by rewrite string_app_nil. }
  rewrite <- (string_app_assoc _ (byte_hex b) (blob_text _ _)). apply adds_bind; [|apply IH]. apply adds_bind; [apply adds_when|apply adds_print].
Qed.

(** The digits of a text. *)
Definition is_space (c : ascii) : bool := (Ascii.eqb c (ascii_of_nat 10) || Ascii.eqb c (ascii_of_nat 9))%bool.
Definition digits_of (s : string) : list ascii := List.filter (fun c => negb (is_space c)) (list_ascii_of_string s).

Lemma digits_of_app s1 s2 : digits_of (s1 +:+ s2) = digits_of s1 ++ digits_of s2.
Proof.
  unfold digits_of. induction s1 as [|c s1 IH]; [done|].
  change (List.filter (fun c => negb (is_space c)) (c :: list_ascii_of_string (s1 +:+ s2)) =
    List.filter (fun c => negb (is_space c)) (c :: list_ascii_of_string s1) ++ List.filter (fun c => negb (is_space c)) (list_ascii_of_string s2)).
  cbn [List.filter]. destruct (negb (is_space c)); [cbn; by f_equal|done].
Qed.

Lemma digits_of_byte b : 0 <= b < 256 -> digits_of (byte_hex b) = [hex_low (b / 16); hex_low (b mod 16)].
Proof.
  intros Hb. assert (Hd : forall d, 0 <= d < 16 -> is_space (hex_low d) = false).
  { intros d Hd. assert (Hin : In (Z.to_nat d) (seq 0 16)) by (apply in_seq; lia).
    rewrite <- (Z2Nat.id d) by lia. cbn [seq In] in Hin. repeat (destruct Hin as [<-|Hin]; [by vm_compute|]). done. }
  unfold digits_of, byte_hex. cbn. rewrite !Hd; [done|..].
  - apply Z.mod_pos_bound. lia.
  - split; [apply Z.div_pos; lia|apply Z.div_lt_upper_bound; lia].
Qed.

(** C27: the dump of a blob loses nothing: the digits it prints, two for each byte in lines of
    sixteen bytes, read back as the bytes of the blob. *)
Theorem dump_blob_roundtrip `{PropKernel} id bytes t :
  drmModeGetPropertyBlob id = Some bytes -> Forall (fun b => 0 <= b < 256) bytes ->
  wp (dump_blob id) t (fun o t' => o = Ok tt /\ exists s, text t' = text t +:+ s /\ unhex_bytes (digits_of s) = Some bytes).
Proof.
  intros Hb Hr. eapply wp_mono; [by apply dump_blob_text|]. intros o t' [-> Ht]. split; [done|].
  eexists. split; [exact Ht|]. rewrite digits_of_app. change (digits_of nl) with (@nil ascii). rewrite app_nil_r.
  clear Hb Ht. generalize 0. induction Hr as [|b bytes Hb Hr IH]; intros i; [done|].
  cbn [blob_text]. rewrite !digits_of_app, digits_of_byte by done.
  assert (digits_of (if i mod 16 =? 0 then nl +:+ tab +:+ tab +:+ tab else "") = []) as -> by (by destruct (_ =? _)).
  cbn [app]. rewrite unhex_byte by done. by rewrite IH.
Qed.

(** * The order of the listing *)

(** The objects of some kinds that were got, the oldest first. *)
Definition got_in (kinds : list string) (t : list ev) : list (string * Z) :=
  omap (fun e => match e with Got kind id => if existsb (String.eqb kind) kinds then Some (kind, id) else None | _ => None end) (rev t).

Section Order.
Context (kinds : list string).

(** [gets l c]: when [c] comes to its end it has got the objects of [l], of those kinds. *)
Definition gets {A} (l : list (string * Z)) (c : tprog A) : Prop := forall t, wp c t (fun o t' =>
  match o with Ok _ => got_in kinds t' = got_in kinds t ++ l | Fault _ => True end).

Lemma got_in_cons e t : got_in kinds (e :: t) = got_in kinds t ++ got_in kinds [e].
Proof. unfold got_in. cbn [rev]. by rewrite omap_app. Qed.

Lemma gets_bind {A B} l1 l2 (c : tprog A) (k : A -> tprog B) : gets l1 c -> (forall a, gets l2 (k a)) -> gets (l1 ++ l2) (c ≫= k).
Proof.
  intros Hc Hk t. wstep. eapply wp_mono; [apply Hc|]. intros [a|e] t1 Ht1; cbn [next]; [|done].
  eapply wp_mono; [apply Hk|]. intros [b|e] t2 Ht2; [|done]. by rewrite Ht2, Ht1, app_assoc.
Qed.
Lemma gets_emit e : gets (got_in kinds [e]) (emit e).
Proof. intros t. unfold emit. wstep. apply got_in_cons. Qed.
Lemma gets_print s : gets [] (print s).
Proof. apply (gets_emit (Printed s)). Qed.
Lemma gets_warn s : gets [] (warn s).
Proof. apply (gets_emit (Warned s)). Qed.
Lemma gets_ret {A} (a : A) : gets [] (mret a).
Proof. intros t. wstep. by rewrite app_nil_r. Qed.
Lemma gets_stop {A} e l : gets (A := A) l (stop e).
Proof. intros t. by wstep. Qed.
Lemma gets_lift {A} (c : outcome A) : gets [] (lift c).
Proof. intros t. wstep. destruct c; [by rewrite app_nil_r|done]. Qed.
Lemma gets_seq {A B} (c : tprog A) (k : A -> tprog B) : gets [] c -> (forall a, gets [] (k a)) -> gets [] (c ≫= k).
Proof. apply (gets_bind [] []). Qed.
Lemma gets_when b (c : tprog unit) : gets [] c -> gets [] (when b c).
Proof. destruct b; [done|]. intros _. apply gets_ret. Qed.
Lemma gets_each {A} (l : list A) (ids : A -> list (string * Z)) body :
  (forall a, gets (ids a) (body a)) -> gets (concat (ids <$> l)) (each l body).
Proof. intros Hb. induction l as [|a l IH]; cbn; [apply gets_ret|]. apply gets_bind; [apply Hb|]. by intros _. Qed.
Lemma gets_none {A} (l : list A) body : (forall a, gets [] (body a)) -> gets [] (each l body).
Proof. intros Hb. induction l as [|a l IH]; cbn; [apply gets_ret|]. apply gets_seq; [apply Hb|]. by intros _. Qed.
Lemma gets_none_from {A} i (l : list A) body : (forall i a, gets [] (body i a)) -> gets [] (each_from i l body).
Proof. intros Hb. revert i. induction l as [|a l IH]; intros i; cbn; [apply gets_ret|]. apply gets_seq; [apply Hb|]. by intros _. Qed.
Lemma gets_in_hand {A} kind id l (c : tprog A) :
  gets l c -> gets (got_in kinds [Got kind id] ++ l) (in_hand kind id c).
Proof.
  intros Hc. unfold in_hand. apply gets_bind; [apply gets_emit|]. intros _.
  rewrite <- (app_nil_r l). apply gets_bind; [done|]. intros a. apply gets_seq; [apply (gets_emit (Freed kind id))|]. intros _. apply gets_ret.
Qed.
Lemma gets_this {A} kind id l (c : tprog A) :
  existsb (String.eqb kind) kinds = true -> gets l c -> gets ((kind, id) :: l) (in_hand kind id c).
Proof.
  intros Hk Hc. assert (Hg : got_in kinds [Got kind id] = [(kind, id)]) by (unfold got_in; cbn; by rewrite Hk).
  change ((kind, id) :: l) with ([(kind, id)] ++ l). rewrite <- Hg. by apply gets_in_hand.
Qed.
Lemma gets_other {A} kind id l (c : tprog A) :
  existsb (String.eqb kind) kinds = false -> gets l c -> gets l (in_hand kind id c).
Proof.
  intros Hk Hc. assert (Hg : got_in kinds [Got kind id] = []) by (unfold got_in; cbn; by rewrite Hk).
  change l with ([] ++ l). rewrite <- Hg. by apply gets_in_hand.
Qed.
End Order.

Ltac gets :=
  repeat match goal with
  | |- gets _ [] (print _) => apply gets_print
  | |- gets _ [] (warn _) => apply gets_warn
  | |- gets _ [] (mret _) => apply gets_ret
  | |- gets _ [] (lift _) => apply gets_lift
  | |- gets _ [] (when _ _) => apply gets_when
  | |- gets _ [] (each _ _) => apply gets_none; intros ?
  | |- gets _ [] (each_from _ _ _) => apply gets_none_from; intros ? ?
  | |- gets _ [] (in_hand _ _ _) => apply gets_other; [reflexivity|]
  | |- gets _ [] (assert_none ?l) => destruct l; [apply gets_ret|apply gets_stop]
  | |- gets _ [] (if ?b then _ else _) => destruct b
  | |- gets _ [] (let '(_, _) := ?e in _) => destruct e
  | |- gets _ [] (mbind _ _) => apply gets_seq; [|intros ?]
  end.
