(* ===== verification/Proptest.v ===== *)
(** drm/proptest/proptest.c: the tool that lists the properties of the connectors and CRTCs, or
    sets one. *)
From Stdlib Require Import ZArith Lia Ascii String.
From stdpp Require Import base list numbers strings.
From S2P Require Import Cursor Prelude Libc Print Kms Resources Flip Device Props.

#[global] Open Scope Z_scope.

(** libdrm: the card (its descriptor); the ids of the connectors and CRTCs; a connector with its
    id, type and number within the type; the id of a CRTC; the properties of an object, each with
    its value; a property; setting one; and the text of [errno]. *)
Class ListKernel := {
  k_open : Z;
  k_resources : option (list Z * list Z);
  k_connector : Z -> option (Z * Z * Z);
  k_crtc : Z -> option Z;
  k_object_properties : Z -> obj_type -> option (list (Z * Z));
  k_property : Z -> option property;
  k_set_property : Z -> obj_type -> Z -> Z -> Z;
  strerror : string }.

Section Proptest.
Context `{ModeCodes} `{PropKernel} `{ListKernel}.

Definition dump_prop (prop_id value : Z) : tprog unit :=
  match k_property prop_id with
  | None => print (tab +:+ print_d prop_id);; print nl
  | Some prop => in_hand "property" prop_id (print (tab +:+ print_d prop_id);; dump_property prop value)
  end.

Definition listObjectProperties (id : Z) (type : obj_type) : tprog unit :=
  match k_object_properties id type with
  | None => print (tab +:+ "No properties: " +:+ strerror +:+ "." +:+ nl)
  | Some props => in_hand "properties" id (each props (fun '(prop, value) => dump_prop prop value))
  end.

Definition listConnectorProperties (connectors : list Z) : tprog unit :=
  each connectors (fun id =>
    match k_connector id with
    | None => warn ("Could not get connector " +:+ print_u id +:+ ": " +:+ strerror +:+ nl)
    | Some (connector_id, type, type_id) => in_hand "connector" id (
        print ("Connector " +:+ print_u connector_id +:+ " (" +:+
          default "(null)" (util_lookup_connector_type_name type) +:+ "-" +:+ print_u type_id +:+ ")" +:+ nl);;
        listObjectProperties connector_id DRM_MODE_OBJECT_CONNECTOR)
    end).

Definition listCrtcProperties (crtcs : list Z) : tprog unit :=
  each crtcs (fun id =>
    match k_crtc id with
    | None => warn ("Could not get crtc " +:+ print_u id +:+ ": " +:+ strerror +:+ nl)
    | Some crtc_id => in_hand "crtc" id (
        print ("CRTC " +:+ print_u crtc_id +:+ nl);;
        listObjectProperties crtc_id DRM_MODE_OBJECT_CRTC)
    end).

Definition listAllProperties (res : list Z * list Z) : tprog unit :=
  listConnectorProperties (fst res);; listCrtcProperties (snd res).

(** The result, and the property that was set. *)
Definition setProperty (argv : list string) : tprog (Z * option (Z * obj_type * Z * Z)) :=
  match argv with
  | a0 :: a1 :: a2 :: a3 :: _ =>
      let obj_id := u32 (atoi a0) in
      let obj_type :=
        if String.eqb a1 "connector" then Some DRM_MODE_OBJECT_CONNECTOR
        else if String.eqb a1 "crtc" then Some DRM_MODE_OBJECT_CRTC
        else None in
      match obj_type with
      | None => warn ("Invalid object type." +:+ nl);; mret (1, None)
      | Some obj_type =>
          let prop_id := u32 (atoi a2) in let value := u64 (atoll a3) in
          mret (k_set_property obj_id obj_type prop_id value, Some (obj_id, obj_type, prop_id, value))
      end
  | _ => stop OutOfBounds
  end.

(** The text is left out. *)
Definition usage : tprog unit := print "Usage:".

(** What [getopt] gives for "D:M:". *)
Inductive opt := Opt_D (device : string) | Opt_M (module : string) | Opt_other.

(** [argv]: the arguments after the options.  The options are read and not used. *)
Definition main (opts : list opt) (argv : list string) : tprog (Z * option (Z * obj_type * Z * Z)) :=
  each opts (fun o => match o with Opt_other => usage | _ => mret tt end);;
  if k_open <? 0 then mret (1, None)
  else in_hand "fd" k_open (
    match k_resources with
    | None => warn ("Failed to get resources: " +:+ strerror +:+ nl);; mret (1, None)
    | Some res => in_hand "resources" 0 (
        if (length argv <? 1)%nat then listAllProperties res;; mret (0, None)
        else if (length argv =? 4)%nat then setProperty argv
        else usage;; mret (1, None))
    end).

(** * What is listed *)

(** The properties of an object. *)
Definition object_props (id : Z) (type : obj_type) : list (Z * Z) := default [] (k_object_properties id type).

(** All properties that are listed, with their values. *)
Definition all_props (res : list Z * list Z) : list (Z * Z) :=
  concat ((fun id => match k_connector id with Some (id, _, _) => object_props id DRM_MODE_OBJECT_CONNECTOR | None => [] end) <$> fst res) ++
  concat ((fun id => match k_crtc id with Some id => object_props id DRM_MODE_OBJECT_CRTC | None => [] end) <$> snd res).

(** Every property that is listed is consistent. *)
Definition sound (res : list Z * list Z) : Prop :=
  forall prop_id value prop, (prop_id, value) ∈ all_props res -> k_property prop_id = Some prop -> consistent prop.

Lemma elem_of_concat_fmap {A B} (f : A -> list B) a b l : a ∈ l -> b ∈ f a -> b ∈ concat (f <$> l).
Proof.
  intros Ha Hb. induction l as [|a' l IH]; [by apply elem_of_nil in Ha|]. cbn. apply elem_of_app.
  apply elem_of_cons in Ha as [->|Ha]; [by left|right; by apply IH].
Qed.

Section Settled.
Context (bad : fault -> Prop).

Lemma settles_dump_prop prop_id value :
  (forall prop, k_property prop_id = Some prop -> ~ consistent prop -> forall e, bad e) -> settles bad (dump_prop prop_id value).
Proof.
  intros Hb. unfold dump_prop. destruct (k_property prop_id) as [prop|] eqn:Hp; settles.
  intros t. eapply wp_mono; [apply settles_dump_property|]. intros [[]|e] t' Ht; [done|]. by apply (Hb prop).
Qed.

Lemma settles_object_properties id type :
  (forall prop_id value prop, (prop_id, value) ∈ object_props id type -> k_property prop_id = Some prop ->
     ~ consistent prop -> forall e, bad e) -> settles bad (listObjectProperties id type).
Proof.
  unfold listObjectProperties, object_props. destruct (k_object_properties id type) as [props|]; intros Hb; settles.
  match goal with Hin : ?a ∈ props |- _ => destruct a as [prop_id value] end.
  apply settles_dump_prop. intros prop Hp. by eapply Hb.
Qed.

Lemma settles_list_all res :
  (forall prop_id value prop, (prop_id, value) ∈ all_props res -> k_property prop_id = Some prop ->
     ~ consistent prop -> forall e, bad e) -> settles bad (listAllProperties res).
Proof.
  intros Hb. unfold listAllProperties, listConnectorProperties, listCrtcProperties. settles.
  - match goal with Hin : ?a ∈ _ |- _ => destruct (k_connector a) as [[[cid ty] tyid]|] eqn:Hc end; settles.
    apply settles_object_properties. intros prop_id value prop Hin. eapply Hb.
    apply elem_of_app. left. eapply elem_of_concat_fmap; [eassumption|]. by rewrite Hc.
  - match goal with Hin : ?a ∈ _ |- _ => destruct (k_crtc a) as [cid|] eqn:Hc end; settles.
    apply settles_object_properties. intros prop_id value prop Hin. eapply Hb.
    apply elem_of_app. right. eapply elem_of_concat_fmap; [eassumption|]. by rewrite Hc.
Qed.
End Settled.
End Proptest.

(** With properties that are what their types say, the listing comes to its end and gives
    back everything it has got; otherwise an assertion stops it, or a shift that is not defined. *)
Theorem proptest_lists_all `{ModeCodes} `{PropKernel} `{ListKernel} res t :
  wp (listAllProperties res) t (fun o t' => match o with Ok _ => settled t t' | Fault _ => ~ sound res end).
Proof.
  apply (settles_list_all (fun _ => ~ sound res)). intros prop_id value prop Hin Hp Hbad _ Hs. by eapply Hbad, Hs.
Qed.

(** * The order of the listing *)

Section Order.
Context `{ModeCodes} `{PropKernel} `{ListKernel}.
Abbreviation gets_props := (gets ["property"%string]).

Lemma gets_dump_blob id : gets_props [] (dump_blob id).
Proof. unfold dump_blob. destruct (drmModeGetPropertyBlob id); gets. Qed.
Lemma gets_dump_property prop value : gets_props [] (dump_property prop value).
Proof. unfold dump_property. cbv zeta. gets; apply gets_dump_blob. Qed.

(** The property, if it can be had. *)
Definition listed (p : Z * Z) : list (string * Z) := if k_property (fst p) is Some _ then [("property"%string, fst p)] else [].

Lemma gets_object_properties id type : gets_props (concat (listed <$> object_props id type)) (listObjectProperties id type).
Proof.
  unfold listObjectProperties, object_props. destruct (k_object_properties id type) as [props|]; [|apply gets_print].
  apply gets_other; [reflexivity|]. apply gets_each. intros [prop value]. unfold dump_prop, listed. cbn [fst].
  destruct (k_property prop) as [p|]; [|by gets]. apply gets_this; [reflexivity|]. apply gets_seq; [apply gets_print|].
  intros _. apply gets_dump_property.
Qed.
End Order.

(** The listing gets every property of every connector, then of every CRTC, in the order
    libdrm gives them, each as often as it is there; the objects and the properties that cannot be
    had are passed over. *)
Theorem proptest_lists_in_order `{ModeCodes} `{PropKernel} `{ListKernel} res t :
  wp (listAllProperties res) t (fun o t' => match o with
    | Ok _ => got_in ["property"%string] t' = got_in ["property"%string] t ++ concat (listed <$> all_props res)
    | Fault _ => True
    end).
Proof.
  unfold all_props. rewrite fmap_app, concat_app. apply gets_bind.
  - unfold listConnectorProperties.
    assert (Hc : forall ids, concat (listed <$> concat ((fun id => match k_connector id with Some (id, _, _) =>
        object_props id DRM_MODE_OBJECT_CONNECTOR | None => [] end) <$> ids)) =
      concat ((fun id => match k_connector id with Some (id, _, _) =>
        concat (listed <$> object_props id DRM_MODE_OBJECT_CONNECTOR) | None => [] end) <$> ids)).
    { induction ids as [|id ids IH]; [done|]. cbn. rewrite fmap_app, concat_app, IH. f_equal.
      by destruct (k_connector id) as [[[cid ty] tyid]|]. }
    rewrite Hc. apply gets_each. intros id. destruct (k_connector id) as [[[cid ty] tyid]|]; [|apply gets_warn].
    apply gets_other; [reflexivity|]. apply (gets_bind _ []); [apply gets_print|]. intros _. apply gets_object_properties.
  - intros _. unfold listCrtcProperties.
    assert (Hc : forall ids, concat (listed <$> concat ((fun id => match k_crtc id with Some id =>
        object_props id DRM_MODE_OBJECT_CRTC | None => [] end) <$> ids)) =
      concat ((fun id => match k_crtc id with Some id =>
        concat (listed <$> object_props id DRM_MODE_OBJECT_CRTC) | None => [] end) <$> ids)).
    { induction ids as [|id ids IH]; [done|]. cbn. rewrite fmap_app, concat_app, IH. f_equal.
      by destruct (k_crtc id). }
    rewrite Hc. apply gets_each. intros id. destruct (k_crtc id) as [cid|]; [|apply gets_warn].
    apply gets_other; [reflexivity|]. apply (gets_bind _ []); [apply gets_print|]. intros _. apply gets_object_properties.
Qed.

(** * The tool *)

Lemma settles_set_property `{ListKernel} bad argv : (4 <= length argv)%nat -> settles bad (setProperty argv).
Proof.
  destruct argv as [|a0 [|a1 [|a2 [|a3 argv]]]]; cbn; try lia. intros _.
  destruct (String.eqb a1 "connector"); [settles|]. destruct (String.eqb a1 "crtc"); settles.
Qed.

(** Whatever the command line, the tool gives back all it has got and closes the card; it
    sets a property only when it is given four arguments; only a listing with a property that is
    not consistent stops it. *)
Theorem proptest_main_settles `{ModeCodes} `{PropKernel} `{ListKernel} opts argv t :
  wp (main opts argv) t (fun o t' => match o with
    | Ok (ret, set) => settled t t' /\ (is_Some set -> length argv = 4%nat)
    | Fault _ => argv = [] /\ exists res, k_resources = Some res /\ ~ sound res
    end).
Proof.
  apply wp_mono with (P := fun o t' =>
    match o with Ok (ret, set) => settled t t' | Fault _ => argv = [] /\ exists res, k_resources = Some res /\ ~ sound res end /\
    (forall ret set, o = Ok (ret, set) -> is_Some set -> length argv = 4%nat)).
  2:{ intros [[ret set]|e] t' [Ht Hs]; [|done]. split; [done|]. by apply (Hs ret set). }
  apply wp_and.
  - assert (Hm : settles (fun _ => argv = [] /\ exists res, k_resources = Some res /\ ~ sound res) (main opts argv)).
    { unfold main. settles. 1: match goal with |- settles _ (match ?o with _ => _ end) => destruct o; unfold usage; settles end.
      destruct k_resources as [res|] eqn:Hr; settles.
      - apply settles_list_all. intros prop_id value prop Hin Hp Hbad _. split.
        + match goal with Hl : (_ <? _)%nat = true |- _ => apply Nat.ltb_lt in Hl end. apply nil_length_inv. lia.
        + exists res. split; [done|]. intros Hs. by eapply Hbad, Hs.
      - match goal with Hl : (_ =? _)%nat = true |- _ => apply Nat.eqb_eq in Hl end. apply settles_set_property. lia.
      - unfold usage. settles. }
    eapply wp_mono; [apply Hm|]. by intros [[ret set]|e] t'.
  - destruct (decide (length argv = 4%nat)) as [|Hne]; [by apply wp_intro|].
    assert (Hany : forall A (c : tprog A) t, wp c t (fun _ _ => True)) by (intros; by apply wp_intro).
    unfold main. wstep. eapply wp_mono; [apply Hany|]. intros [[]|e] t1 _; cbn [next]; [|done].
    destruct (k_open <? 0); [wstep; intros ? ? [= <- <-] [? ?]; done|].
    unfold in_hand, emit. do 3 wstep. eapply wp_mono with (P := fun o _ => forall ret set, o = Ok (ret, set) -> set = None).
    2:{ intros [[ret set]|e] t2 Hs; cbn [next]; [|done]. do 3 wstep. intros ? ? [= <- <-]. rewrite (Hs ret set) by done. by intros [? ?]. }
    destruct k_resources as [res|]; [|unfold warn, emit; do 3 wstep; by intros ? ? [= _ <-]].
    do 3 wstep. eapply wp_mono with (P := fun o _ => forall ret set, o = Ok (ret, set) -> set = None).
    2:{ intros [[ret set]|e] t2 Hs; cbn [next]; [|done]. do 3 wstep. intros ? ? [= <- <-]. by apply (Hs ret). }
    destruct (length argv <? 1)%nat.
    + wstep. eapply wp_mono; [apply Hany|]. intros [[]|e] t2 _; cbn [next]; [|done]. wstep. by intros ? ? [= _ <-].
    + rewrite (proj2 (Nat.eqb_neq _ _)) by done. unfold usage, print, emit. do 3 wstep. by intros ? ? [= _ <-].
Qed.

(** The options play no part: the device and the module they name are not used, and an
    unknown option prints the usage and the tool goes on. *)
Theorem proptest_ignores_options `{ModeCodes} `{PropKernel} `{ListKernel} opts argv t :
  main opts argv t =
  main [] argv (concat ((fun o => match o with Opt_other => [Printed "Usage:"] | _ => [] end) <$> rev opts) ++ t).
Proof.
  unfold main. unfold mbind at 1 4, prog_bind.
  assert (He : forall t, each opts (fun o => match o with Opt_other => usage | _ => mret tt end) t =
    (Ok tt, concat ((fun o => match o with Opt_other => [Printed "Usage:"] | _ => [] end) <$> rev opts) ++ t)).
  { clear. induction opts as [|o opts IH]; intros t; [done|]. cbn [each rev]. unfold mbind, prog_bind.
    assert (Ho : match o with Opt_other => usage | _ => mret tt end t =
      (Ok tt, match o with Opt_other => [Printed "Usage:"] | _ => [] end ++ t)) by (by destruct o).
    rewrite Ho, IH, fmap_app, concat_app. cbn. by rewrite app_nil_r, <- app_assoc. }
  rewrite He. done.
Qed.

(** A card with a connector that has two properties, and a CRTC that has none. *)
Module Card.
Definition edid : property := Property 1 "EDID" 16 [] [] [].
Definition dpms : property := Property 2 "DPMS" 8 [] [("On"%string, 0); ("Off"%string, 3)] [].
#[export] Instance codes : ModeCodes.
Proof. refine {| mode_code c := mode_index c |}. intros []; cbn; lia. Defined.
#[export] Instance props : PropKernel := {|
  drmModeGetPropertyBlob id := if id =? 77 then Some [0; 255; 16; 171] else None;
  drm_property_type_is prop type :=
    match type with DRM_MODE_PROP_BLOB => p_flags prop =? 16 | DRM_MODE_PROP_ENUM => p_flags prop =? 8 | _ => false end;
  DRM_MODE_PROP_PENDING := 1; DRM_MODE_PROP_IMMUTABLE := 4 |}.
#[export] Instance card : ListKernel := {|
  k_open := 3;
  k_resources := Some ([40; 41], [50]);
  k_connector id := if id =? 40 then Some (40, 11, 1) else None;
  k_crtc id := Some id;
  k_object_properties id type := if id =? 40 then Some [(1, 77); (9, 0); (2, 3)] else None;
  k_property id := if id =? 1 then Some edid else if id =? 2 then Some dpms else None;
  k_set_property _ _ _ _ := 0;
  strerror := "Invalid argument" |}.

Lemma dump_blob_roundtrip_witness :
  drmModeGetPropertyBlob 77 = Some [0; 255; 16; 171] /\ text (snd (dump_blob 77 [])) = (nl +:+ tab +:+ tab +:+ tab +:+ "00ff10ab" +:+ nl)%string /\
  wp (dump_blob 77) [] (fun o t' => o = Ok tt /\ exists s, text t' = text [] +:+ s /\ unhex_bytes (digits_of s) = Some [0; 255; 16; 171]).
Proof.
  split; [reflexivity|]. split; [vm_compute; reflexivity|].
  apply (dump_blob_roundtrip 77 [0; 255; 16; 171] []); [reflexivity|]. repeat constructor; lia.
Defined.

Example card_lists : fst (main [] [] []) = Ok (0, None) /\ (got_in ["property"%string] (snd (main [] [] []))).*2 = [1; 2].
Proof. vm_compute. split; reflexivity. Qed.
Example card_sets : fst (main [Opt_D "/dev/dri/card1"] ["40"; "connector"; "2"; "3"] []) = Ok (0, Some (40, DRM_MODE_OBJECT_CONNECTOR, 2, 3)).
Proof. vm_compute. reflexivity. Qed.
End Card.
