(* ===== verification/Modeprint.v ===== *)
(** drm/modeprint/modeprint.c: the tool that prints the connectors, encoders, CRTCs and
    framebuffers of a card. *)
From Stdlib Require Import ZArith Lia Ascii String.
From stdpp Require Import base list numbers strings.
From S2P Require Import Prelude Libc Print Kms Props.

#[global] Open Scope Z_scope.

(** * What libdrm gives *)

(** [struct drm_mode_modeinfo]. *)
Record modeinfo := ModeInfo {
  m_name : string; m_clock : Z; m_hdisplay : Z; m_hsync_start : Z; m_hsync_end : Z; m_htotal : Z; m_hskew : Z;
  m_vdisplay : Z; m_vsync_start : Z; m_vsync_end : Z; m_vtotal : Z; m_vscan : Z; m_vrefresh : Z; m_flags : Z; m_type : Z }.

(** A connector; its properties come with their values. *)
Record connector := Connector {
  c_type : Z; c_type_id : Z; c_encoder_id : Z; c_connection : Z; c_mmWidth : Z; c_mmHeight : Z;
  c_modes : list modeinfo; c_props : list (Z * Z); c_encoders : list Z }.
Record encoder := Encoder { e_type : Z; e_crtc_id : Z; e_possible_crtcs : Z; e_possible_clones : Z }.
(** A CRTC; [x_mode]: the address of its mode, as "%p" prints it. *)
Record crtc := Crtc { x_x : Z; x_y : Z; x_width : Z; x_height : Z; x_mode : string; x_gamma_size : Z }.
Record framebuffer := Framebuffer {
  f_fb_id : Z; f_handle : Z; f_width : Z; f_height : Z; f_pitch : Z; f_bpp : Z; f_depth : Z }.
Record resources := Resources {
  r_connectors : list Z; r_encoders : list Z; r_crtcs : list Z; r_fbs : list Z }.

Class PrintKernel := {
  k_open : string -> Z;
  k_resources : option resources;
  drmModeGetConnector : Z -> option connector;
  drmModeGetConnectorCurrent : Z -> option connector;
  drmModeGetEncoder : Z -> option encoder;
  drmModeGetCrtc : Z -> option crtc;
  drmModeGetFB : Z -> option framebuffer;
  drmModeGetProperty : Z -> option property;
  DRM_MODE_PROP_BLOB_FLAG : Z }.

(** * The options *)

(** The globals. *)
Record settings := Settings {
  current : bool; connectors : bool; full_props : bool; edid : bool; modes : bool; full_modes : bool;
  encoders : bool; crtcs : bool; fbs : bool }.

(** One argument; [defaults] is cleared by every option but -current. *)
Definition arg_step (arg : string) (sd : settings * bool) : settings * bool :=
  let '(s, defaults) := sd in
  let given := String.eqb arg in
  if given "-fb" then (Settings (current s) (connectors s) (full_props s) (edid s) (modes s) (full_modes s) (encoders s) (crtcs s) true, false)
  else if given "-crtcs" then (Settings (current s) (connectors s) (full_props s) (edid s) (modes s) (full_modes s) (encoders s) true (fbs s), false)
  else if given "-cons" then (Settings (current s) true (full_props s) (edid s) true (full_modes s) (encoders s) (crtcs s) (fbs s), false)
  else if given "-modes" then (Settings (current s) true (full_props s) (edid s) true (full_modes s) (encoders s) (crtcs s) (fbs s), false)
  else if given "-full" then (Settings (current s) true (full_props s) (edid s) true true (encoders s) (crtcs s) (fbs s), false)
  else if given "-props" then (Settings (current s) true true (edid s) (modes s) (full_modes s) (encoders s) (crtcs s) (fbs s), false)
  else if given "-edids" then (Settings (current s) true (full_props s) true (modes s) (full_modes s) (encoders s) (crtcs s) (fbs s), false)
  else if given "-encoders" then (Settings (current s) (connectors s) (full_props s) (edid s) (modes s) (full_modes s) true (crtcs s) (fbs s), false)
  else if given "-v" then (Settings (current s) true true true true true true true true, false)
  else if given "-current" then (Settings true (connectors s) (full_props s) (edid s) (modes s) (full_modes s) (encoders s) (crtcs s) (fbs s), defaults)
  else (s, defaults).

(** The arguments after the name of the module. *)
Definition args (argv : list string) : settings :=
  let '(s, defaults) := foldl (fun sd arg => arg_step arg sd)
    (Settings false false false false false false false false false, true) argv in
  if defaults : bool then Settings (current s) true false true true false true true true else s.

(** * Printing *)

Definition quote : string := String (ascii_of_nat 34) EmptyString.
Definition line (name : string) (value : string) : tprog unit := print (tab +:+ name +:+ value +:+ nl).

Section Print.
Context `{ModeCodes} `{PropKernel} `{PrintKernel}.

Definition printMode (full : bool) (mode : modeinfo) : tprog unit :=
  if full then
    print ("Mode: " +:+ m_name mode +:+ nl);;
    line "clock       : " (print_d (m_clock mode));;
    line "hdisplay    : " (print_d (m_hdisplay mode));;
    line "hsync_start : " (print_d (m_hsync_start mode));;
    line "hsync_end   : " (print_d (m_hsync_end mode));;
    line "htotal      : " (print_d (m_htotal mode));;
    line "hskew       : " (print_d (m_hskew mode));;
    line "vdisplay    : " (print_d (m_vdisplay mode));;
    line "vsync_start : " (print_d (m_vsync_start mode));;
    line "vsync_end   : " (print_d (m_vsync_end mode));;
    line "vtotal      : " (print_d (m_vtotal mode));;
    line "vscan       : " (print_d (m_vscan mode));;
    line "vrefresh    : " (print_d (m_vrefresh mode));;
    line "flags       : " (print_d (m_flags mode))
  else print ("Mode: " +:+ quote +:+ m_name mode +:+ quote +:+ " " +:+ print_d (m_hdisplay mode) +:+ "x" +:+ print_d (m_vdisplay mode)
         +:+ " " +:+ print_d (m_vrefresh mode) +:+ nl).

(** The first four bytes of a blob as a [uint32_t]. *)
Definition first_word (data : list Z) : outcome Z :=
  match data with
  | b0 :: b1 :: b2 :: b3 :: _ => Ok (b0 + 256 * (b1 + 256 * (b2 + 256 * b3)))
  | _ => Fault OutOfBounds
  end.

(** The name of the value: the last of those that have it. *)
Fixpoint value_name (value : Z) (enums : list (string * Z)) (name : option string) : option string :=
  match enums with
  | [] => name
  | (n, v) :: enums => value_name value enums (if v =? value then Some n else name)
  end.

Definition printProperty (props : property) (value : Z) : tprog unit :=
  print ("Property: " +:+ p_name props +:+ nl);;
  line "id           : " (print_d (p_id props));;
  line "flags        : " (print_d (p_flags props));;
  line "count_values : " (dec (Z.of_nat (length (p_values props))));;
  when (negb (length (p_values props) =? 0)%nat)
    (print (tab +:+ "values       :");; each (p_values props) (fun v => print (" " +:+ dec v));; print nl);;
  line "count_enums  : " (dec (Z.of_nat (length (p_enums props))));;
  if has_flag props DRM_MODE_PROP_BLOB_FLAG then
    match drmModeGetPropertyBlob (u32 value) with
    | Some data => in_hand "blob" (u32 value) (
        word ← lift (first_word data);
        print ("blob is " +:+ dec (Z.of_nat (length data)) +:+ " length, " +:+ to_upper (hex8 word) +:+ nl))
    | None => print ("error getting blob " +:+ dec value +:+ nl)
    end
  else
    each (p_enums props) (fun '(n, v) => print (tab +:+ tab +:+ dec (s64 v) +:+ " = " +:+ n +:+ nl));;
    match value_name value (p_enums props) None with
    | Some name => line "con_value    : " name
    | None => line "con_value    : " (dec value)
    end.

(** A list of numbers after its title, when it is not empty. *)
Definition print_list (title : string) (l : list Z) : tprog unit :=
  when (negb (length l =? 0)%nat) (print (tab +:+ title);; each l (fun x => print (" " +:+ print_d x));; print nl).

Definition printConnector (s : settings) (connector : connector) (id : Z) : tprog unit :=
  match util_lookup_connector_type_name (c_type connector) with
  | Some name => print ("Connector: " +:+ name +:+ "-" +:+ print_d (c_type_id connector) +:+ nl)
  | None => print ("Connector: " +:+ print_d (c_type connector) +:+ "-" +:+ print_d (c_type_id connector) +:+ nl)
  end;;
  line "id             : " (print_d id);;
  line "encoder id     : " (print_d (c_encoder_id connector));;
  line "conn           : " (default "(null)" (util_lookup_connector_status_name (c_connection connector)));;
  line "size           : " (print_d (c_mmWidth connector) +:+ "x" +:+ print_d (c_mmHeight connector) +:+ " (mm)");;
  line "count_modes    : " (dec (Z.of_nat (length (c_modes connector))));;
  line "count_props    : " (dec (Z.of_nat (length (c_props connector))));;
  print_list "props          :" (c_props connector).*1;;
  line "count_encoders : " (dec (Z.of_nat (length (c_encoders connector))));;
  print_list "encoders       :" (c_encoders connector);;
  when (modes s) (each (c_modes connector) (printMode (full_modes s)));;
  when (full_props s) (each (c_props connector) (fun '(prop, value) =>
    match drmModeGetProperty prop with
    | Some props => in_hand "property" prop (printProperty props value)
    | None => mret tt
    end)).

Definition printEncoder (encoder : encoder) (id : Z) : tprog unit :=
  match util_lookup_encoder_type_name (e_type encoder) with
  | Some name => print ("Encoder: " +:+ name +:+ nl)
  | None => print ("Encoder" +:+ nl)
  end;;
  line "id     :" (print_d id);;
  line "crtc_id   :" (print_d (e_crtc_id encoder));;
  line "type   :" (print_d (e_type encoder));;
  line "possible_crtcs  :0x" (hex (e_possible_crtcs encoder));;
  line "possible_clones :0x" (hex (e_possible_clones encoder)).

Definition printCrtc (crtc : crtc) (id : Z) : tprog unit :=
  print ("Crtc" +:+ nl);;
  line "id             : " (print_d id);;
  line "x              : " (print_d (x_x crtc));;
  line "y              : " (print_d (x_y crtc));;
  line "width          : " (print_d (x_width crtc));;
  line "height         : " (print_d (x_height crtc));;
  line "mode           : " (x_mode crtc);;
  line "gamma size     : " (print_d (x_gamma_size crtc)).

Definition printFrameBuffer (fb : framebuffer) : tprog unit :=
  print ("Framebuffer" +:+ nl);;
  line "handle    : " (print_d (f_handle fb));;
  line "width     : " (print_d (f_width fb));;
  line "height    : " (print_d (f_height fb));;
  line "pitch     : " (print_d (f_pitch fb));;
  line "bpp       : " (print_d (f_bpp fb));;
  line "depth     : " (print_d (f_depth fb));;
  line "buffer_id : " (print_d (f_handle fb)).

(** One section: each object that can be had is printed and given back. *)
Definition section {A} (kind : string) (ids : list Z) (get : Z -> option A) (body : A -> Z -> tprog unit) : tprog unit :=
  each ids (fun id =>
    match get id with
    | None => print ("Could not get " +:+ kind +:+ " " +:+ print_d id +:+ nl)
    | Some a => in_hand kind id (body a id)
    end).

Definition printRes (s : settings) (res : resources) : tprog unit :=
  print ("Resources" +:+ nl +:+ nl);;
  print ("count_connectors : " +:+ dec (Z.of_nat (length (r_connectors res))) +:+ nl);;
  print ("count_encoders   : " +:+ dec (Z.of_nat (length (r_encoders res))) +:+ nl);;
  print ("count_crtcs      : " +:+ dec (Z.of_nat (length (r_crtcs res))) +:+ nl);;
  print ("count_fbs        : " +:+ dec (Z.of_nat (length (r_fbs res))) +:+ nl);;
  print nl;;
  when (connectors s) (
    section "connector" (r_connectors res) (if current s then drmModeGetConnectorCurrent else drmModeGetConnector) (printConnector s);;
    print nl);;
  when (encoders s) (section "encoder" (r_encoders res) drmModeGetEncoder printEncoder;; print nl);;
  when (crtcs s) (section "crtc" (r_crtcs res) drmModeGetCrtc printCrtc;; print nl);;
  when (fbs s) (section "fb" (r_fbs res) drmModeGetFB (fun fb _ => printFrameBuffer fb)).

(** [argv]: the arguments after the name of the program. *)
Definition main (argv : list string) : tprog Z :=
  match argv with
  | [] => print ("Please add modulename as first argument" +:+ nl);; mret 1
  | module_name :: rest =>
      let s := args rest in
      print ("Starting test " +:+ module_name +:+ nl);;
      let fd := k_open module_name in
      if fd <? 0 then print ("Failed to open the card fd (" +:+ dec fd +:+ ")" +:+ nl);; mret 1
      else
        emit (Got "fd" fd);;
        match k_resources with
        | None => print ("Failed to get resources from card" +:+ nl);; emit (Freed "fd" fd);; mret 1
        | Some res =>
            in_hand "resources" 0 (printRes s res);;
            print ("Ok" +:+ nl);;
            mret 0
        end
  end.
End Print.

(** * The options *)

(** The options that choose what is printed; -current is none of them. *)
Definition choosing : list string := ["-fb"; "-crtcs"; "-cons"; "-modes"; "-full"; "-props"; "-edids"; "-encoders"; "-v"]%string.
Definition any (argv opts : list string) : bool := existsb (fun arg => existsb (String.eqb arg) opts) argv.

(** What the options mean, each by itself: without one that chooses, all but the details is
    printed. *)
Definition meaning (argv : list string) : settings :=
  let none := negb (any argv choosing) in
  let on opts := none || any argv opts in
  {| current := any argv ["-current"];
     connectors := on ["-cons"; "-modes"; "-full"; "-props"; "-edids"; "-v"];
     full_props := any argv ["-props"; "-v"];
     edid := on ["-edids"; "-v"];
     modes := on ["-cons"; "-modes"; "-full"; "-v"];
     full_modes := any argv ["-full"; "-v"];
     encoders := on ["-encoders"; "-v"];
     crtcs := on ["-crtcs"; "-v"];
     fbs := on ["-fb"; "-v"] |}%string.

Lemma any_app l1 l2 opts : any (l1 ++ l2) opts = any l1 opts || any l2 opts.
Proof. apply existsb_app. Qed.

(** What the loop has made of the arguments. *)
Definition so_far (argv : list string) : settings * bool :=
  ({| current := any argv ["-current"];
      connectors := any argv ["-cons"; "-modes"; "-full"; "-props"; "-edids"; "-v"];
      full_props := any argv ["-props"; "-v"];
      edid := any argv ["-edids"; "-v"];
      modes := any argv ["-cons"; "-modes"; "-full"; "-v"];
      full_modes := any argv ["-full"; "-v"];
      encoders := any argv ["-encoders"; "-v"];
      crtcs := any argv ["-crtcs"; "-v"];
      fbs := any argv ["-fb"; "-v"] |}%string, negb (any argv choosing)).

Lemma any_one arg opts : any [arg] opts = existsb (String.eqb arg) opts.
Proof. apply orb_false_r. Qed.

(** The case of one option: its tests compute. *)
Ltac option arg name :=
  destruct (String.eqb_spec arg name) as [->|?]; [cbn -[any]; rewrite ?orb_true_r, ?orb_false_r; reflexivity|].

Lemma args_loop argv :
  foldl (fun sd arg => arg_step arg sd) (Settings false false false false false false false false false, true) argv = so_far argv.
Proof.
  induction argv as [|arg argv IH] using rev_ind; [done|]. rewrite foldl_app, IH. cbn [foldl].
  unfold so_far at 2. rewrite !any_app, !any_one. unfold so_far, arg_step.
  option arg "-fb"%string. option arg "-crtcs"%string. option arg "-cons"%string. option arg "-modes"%string.
  option arg "-full"%string. option arg "-props"%string. option arg "-edids"%string. option arg "-encoders"%string.
  option arg "-v"%string. option arg "-current"%string.
  repeat match goal with Hn : arg <> _ |- _ => apply String.eqb_neq in Hn end.
  unfold choosing. cbn [existsb]. repeat match goal with Hn : _ = false |- _ => rewrite ?Hn; clear Hn end.
  by rewrite ?orb_false_r.
Qed.

(** C28: the loop over the options, which sets one flag after the other and the defaults at the
    end, gives what the options mean one by one: their order and repetitions play no part, unknown
    arguments are passed over, and without one that chooses, connectors with their modes,
    encoders, CRTCs and framebuffers are printed. *)
Theorem modeprint_args argv : args argv = meaning argv.
Proof.
  unfold args. rewrite args_loop. unfold so_far, meaning. destruct (any argv choosing) eqn:Hc; cbn [negb orb]; [done|].
  assert (Hnone : forall opts, forallb (fun o => existsb (String.eqb o) choosing) opts = true -> any argv opts = false).
  { intros opts Hopts. apply not_true_iff_false. intros Ha. apply not_true_iff_false in Hc. apply Hc. clear Hc.
    unfold any in *. apply existsb_exists in Ha as (arg & Hin & Ha). apply existsb_exists. exists arg. split; [done|].
    apply existsb_exists in Ha as (o & Ho & Heq). apply String.eqb_eq in Heq as ->. rewrite forallb_forall in Hopts. by apply Hopts. }
  cbn. f_equal; try done; try (symmetry; by apply Hnone); by apply Hnone.
Qed.

(** * What is taken and given back *)

Section Settled.
Context `{ModeCodes} `{PropKernel} `{PrintKernel}.

(** A blob that is shorter than a word. *)
Definition short_blob : Prop := exists id data, drmModeGetPropertyBlob id = Some data /\ (length data < 4)%nat.

Lemma settles_line bad name value : settles bad (line name value).
Proof. apply settles_print. Qed.

Lemma settles_printMode bad full mode : settles bad (printMode full mode).
Proof. unfold printMode, line. settles. Qed.

Lemma settles_printProperty props value : settles (fun _ => short_blob) (printProperty props value).
Proof.
  unfold printProperty, line. settles.
  - destruct (drmModeGetPropertyBlob (u32 value)) as [data|] eqn:Hb; settles.
    intros t. do 1 wstep. destruct data as [|b0 [|b1 [|b2 [|b3 data]]]]; cbn; try (eexists _, _; split; [exact Hb|cbn; lia]).
    by exists [].
  - match goal with |- settles _ (let '(_, _) := ?e in _) => destruct e end. settles.
  - destruct (value_name value (p_enums props) None); settles.
Qed.

Lemma settles_print_list bad title l : settles bad (print_list title l).
Proof. unfold print_list. settles. Qed.

Lemma settles_printConnector s c id : settles (fun _ => short_blob) (printConnector s c id).
Proof.
  unfold printConnector, line. settles; try apply settles_print_list; try apply settles_printMode.
  - destruct (util_lookup_connector_type_name (c_type c)); settles.
  - match goal with |- settles _ (let '(_, _) := ?e in _) => destruct e as [prop value] end.
    destruct (drmModeGetProperty prop); settles. apply settles_printProperty.
Qed.

Lemma settles_section bad {A} kind ids (get : Z -> option A) body :
  (forall a id, settles bad (body a id)) -> settles bad (section kind ids get body).
Proof. intros Hb. unfold section. settles. match goal with |- settles _ (match get ?a with _ => _ end) => destruct (get a) end; settles. apply Hb. Qed.

Lemma settles_printRes s res : settles (fun _ => short_blob) (printRes s res).
Proof.
  unfold printRes. settles; apply settles_section; intros x id.
  - apply settles_printConnector.
  - unfold printEncoder, line. settles. destruct (util_lookup_encoder_type_name (e_type x)); settles.
  - unfold printCrtc, line. settles.
  - unfold printFrameBuffer, line. settles.
Qed.
End Settled.

(** When the tool succeeds it has given back all it has got from libdrm, but the card is
    still open; when it fails nothing is left; and nothing but a blob shorter than a word, of
    which it reads four bytes all the same, stops it. *)
Theorem modeprint_leaves_card_open `{ModeCodes} `{PropKernel} `{PrintKernel} argv t :
  wp (main argv) t (fun o t' => match o with
    | Ok ret => exists new, t' = new ++ t /\ forall held, held_after held (rev new) =
        Some (if ret =? 0 then ("fd"%string, k_open (default EmptyString (head argv))) :: held else held)
    | Fault _ => short_blob
    end).
Proof.
  destruct argv as [|module_name rest]; unfold main; cbv zeta; unfold print, emit.
  { repeat wstep. by eexists [_]. }
  do 2 wstep. destruct (k_open module_name <? 0); [repeat wstep; by eexists [_; _]|].
  do 2 wstep. destruct k_resources as [res|].
  2:{ repeat wstep. eexists [_; _; _; _]. split; [done|]. intros held. cbn. by rewrite decide_True. }
  wstep. eapply wp_mono; [apply (settles_object (fun _ => short_blob) "resources" 0), settles_printRes|].
  intros [[]|e] t1 Ht1; cbn [next]; [|exact Ht1].
  destruct Ht1 as (new & -> & Hn). repeat wstep. eexists (_ :: new ++ [_; _]). split; [cbn; by rewrite <- app_assoc|].
  intros held. cbn [rev]. rewrite rev_app_distr, !held_after_app. cbn [rev app]. cbn [held_after mbind option_bind].
  rewrite Hn. done.
Qed.

(** * What is printed *)

(** The kinds of the sections. *)
Definition sections : list string := ["connector"; "encoder"; "crtc"; "fb"]%string.

(** The objects of a section that can be had. *)
Definition there {A} (kind : string) (get : Z -> option A) (ids : list Z) : list (string * Z) :=
  concat ((fun id => if get id is Some _ then [(kind, id)] else []) <$> ids).

Section Order.
Context `{ModeCodes} `{PropKernel} `{PrintKernel}.

Lemma gets_section {A} kind ids (get : Z -> option A) body :
  existsb (String.eqb kind) sections = true -> (forall a id, gets sections [] (body a id)) -> gets sections (there kind get ids) (section kind ids get body).
Proof.
  intros Hk Hb. unfold section, there. apply gets_each. intros id. destruct (get id) as [a|]; [|apply gets_print].
  by apply gets_this.
Qed.

Lemma gets_printMode full mode : gets sections [] (printMode full mode).
Proof. unfold printMode, line. gets. Qed.

Lemma gets_printProperty props value : gets sections [] (printProperty props value).
Proof.
  unfold printProperty, line. gets.
  - destruct (drmModeGetPropertyBlob (u32 value)); gets.
  - destruct (value_name value (p_enums props) None); gets.
Qed.

Lemma gets_printConnector s c id : gets sections [] (printConnector s c id).
Proof.
  unfold printConnector, print_list, line. gets; try apply gets_printMode.
  - destruct (util_lookup_connector_type_name (c_type c)); gets.
  - match goal with |- context [drmModeGetProperty ?p] => destruct (drmModeGetProperty p) end; gets. apply gets_printProperty.
Qed.

Lemma gets_shown (b : bool) l (c : tprog unit) : gets sections l c -> gets sections (if b then l else []) (when b c).
Proof. destruct b; [done|]. intros _. apply gets_ret. Qed.
End Order.

(** The sections that are asked for, and no others, are printed in the order connectors,
    encoders, CRTCs and framebuffers; in each every object that can be had is got once, in the
    order of the card's list. *)
Theorem modeprint_sections `{ModeCodes} `{PropKernel} `{PrintKernel} s res t :
  wp (printRes s res) t (fun o t' => match o with
    | Ok _ => got_in sections t' = got_in sections t ++
        (if connectors s then there "connector" (if current s then drmModeGetConnectorCurrent else drmModeGetConnector) (r_connectors res) else []) ++
        (if encoders s then there "encoder" drmModeGetEncoder (r_encoders res) else []) ++
        (if crtcs s then there "crtc" drmModeGetCrtc (r_crtcs res) else []) ++
        (if fbs s then there "fb" drmModeGetFB (r_fbs res) else [])
    | Fault _ => short_blob
    end).
Proof.
  assert (Hg : gets sections
    ((if connectors s then there "connector" (if current s then drmModeGetConnectorCurrent else drmModeGetConnector) (r_connectors res) else []) ++
     (if encoders s then there "encoder" drmModeGetEncoder (r_encoders res) else []) ++
     (if crtcs s then there "crtc" drmModeGetCrtc (r_crtcs res) else []) ++
     (if fbs s then there "fb" drmModeGetFB (r_fbs res) else [])) (printRes s res)).
  { unfold printRes. do 6 (apply (gets_bind _ []); [apply gets_print|intros _]).
    assert (Hnl : forall l (c : tprog unit), gets sections l c -> gets sections l (c;; print nl)).
    { intros l c Hc. rewrite <- (app_nil_r l). apply gets_bind; [done|]. intros _. apply gets_print. }
    repeat (apply gets_bind; [apply gets_shown, Hnl|intros _]); [..|apply gets_shown].
    all: apply gets_section; [reflexivity|]; intros a id.
    - apply gets_printConnector.
    - unfold printEncoder, line. gets. destruct (util_lookup_encoder_type_name (e_type a)); gets.
    - unfold printCrtc, line. gets.
    - unfold printFrameBuffer, line. gets. }
  eapply wp_mono; [apply wp_and; [apply Hg|apply (settles_printRes s res)]|]. by intros [[]|e] t' [Hl Hr].
Qed.

(** A card with one connector, whose blob property has three bytes. *)
Module Card.
#[export] Instance codes : ModeCodes.
Proof. refine {| mode_code c := mode_index c |}. intros []; cbn; lia. Defined.
#[export] Instance blobs : PropKernel := {|
  drmModeGetPropertyBlob id := if id =? 7 then Some [1; 2; 3] else if id =? 8 then Some [1; 2; 3; 4] else None;
  drm_property_type_is prop type := false;
  DRM_MODE_PROP_PENDING := 1; DRM_MODE_PROP_IMMUTABLE := 4 |}.
Definition card (value : Z) : PrintKernel := {|
  k_open _ := 3;
  k_resources := Some (Resources [40] [30] [50] []);
  drmModeGetConnector id := Some (Connector 11 1 30 1 300 200 [] [(1, value)] [30]);
  drmModeGetConnectorCurrent id := None;
  drmModeGetEncoder id := None;
  drmModeGetCrtc id := Some (Crtc 0 0 480 800 "0x1000" 256);
  drmModeGetFB id := None;
  drmModeGetProperty id := Some (Property 1 "EDID" 16 [] [] []);
  DRM_MODE_PROP_BLOB_FLAG := 16 |}.

Example card_prints : got_in sections (snd (@main codes blobs (card 8) ["/dev/dri/card0"; "-props"; "-crtcs"] [])) = [("connector", 40); ("crtc", 50)]%string.
Proof. vm_compute. reflexivity. Qed.
Example short_blob_stops : fst (@main codes blobs (card 7) ["/dev/dri/card0"; "-props"] []) = Fault OutOfBounds.
Proof. vm_compute. reflexivity. Qed.
End Card.
