(* ===== verification/ModetestDump.v ===== *)
(** drm/modetest/modetest.c: the listings of the encoders, connectors, CRTCs, planes and
    framebuffers, which Modetest.v names as parts that are dumped.  They read the tables of
    [get_resources]; an object that is not there is passed over. *)
From Stdlib Require Import ZArith Lia Ascii String Floats.SpecFloat.
From stdpp Require Import base list numbers strings.
From S2P Require Import Prelude Libc Print Kms Resources Props Modeprint.

#[global] Open Scope Z_scope.

(** * The tables *)

(** The properties of an object: the id, the value and, if it can be had, the property. *)
Abbreviation prop_table := (option (list (Z * Z * option property))).

Record enc_row := EncRow { en_id : Z; en_crtc_id : Z; en_type : Z; en_possible_crtcs : Z; en_possible_clones : Z }.
Record con_row := ConRow {
  co_id : Z; co_encoder_id : Z; co_connection : Z; co_name : string; co_mmWidth : Z; co_mmHeight : Z;
  co_modes : list modeinfo; co_encoders : list Z; co_props : prop_table }.
Record crtc_row := CrtcRow {
  cr_id : Z; cr_buffer_id : Z; cr_x : Z; cr_y : Z; cr_width : Z; cr_height : Z; cr_mode : modeinfo; cr_props : prop_table }.
Record fb_row := FbRow { fr_id : Z; fr_width : Z; fr_height : Z; fr_pitch : Z }.
Record plane_row := PlaneRow {
  pl_id : Z; pl_crtc_id : Z; pl_fb_id : Z; pl_crtc_x : Z; pl_crtc_y : Z; pl_x : Z; pl_y : Z; pl_gamma_size : Z;
  pl_possible_crtcs : Z; pl_formats : list Z; pl_props : prop_table }.

(** libdrm: the names of modifiers and their vendors; the pairs of formats and modifiers of a blob,
    in the order of the iterator. *)
Class FormatNames := {
  drmGetFormatModifierName : Z -> option string;
  drmGetFormatModifierVendor : Z -> option string;
  DRM_FORMAT_MOD_LINEAR : Z;
  drmModeFormatModifierBlobIter : list Z -> list (Z * Z) }.

(** * Names of bits *)

Definition mode_type_names : list string :=
  ["builtin"; "clock_c"; "crtc_c"; "preferred"; "default"; "userdef"; "driver"].
Definition mode_flag_names : list string :=
  ["phsync"; "nhsync"; "pvsync"; "nvsync"; "interlace"; "dblscan"; "csync"; "pcsync"; "ncsync"; "hskew"; "bcast";
   "pixmux"; "dblclk"; "clkdiv2"].

(** The function of [bit_name_fn]. *)
Fixpoint bit_name_loop (i : Z) (names : list string) (type : Z) (sep : string) : tprog unit :=
  match names with
  | [] => mret tt
  | name :: names =>
      if negb (Z.land type (Z.shiftl 1 i) =? 0) then print (sep +:+ name);; bit_name_loop (i + 1) names type ", "
      else bit_name_loop (i + 1) names type sep
  end.
Definition mode_type_str (type : Z) : tprog unit := bit_name_loop 0 mode_type_names type "".
Definition mode_flag_str (type : Z) : tprog unit := bit_name_loop 0 mode_flag_names type "".

(** * Rows *)

(** "%c" four times. *)
Definition fourcc_text (fourcc : Z) : string :=
  " " +:+ String (char (u8 fourcc)) (String (char (u8 (Z.shiftr fourcc 8)))
    (String (char (u8 (Z.shiftr fourcc 16))) (String (char (u8 (Z.shiftr fourcc 24))) EmptyString))).
Definition dump_fourcc (fourcc : Z) : tprog unit := print (fourcc_text fourcc).

(** The columns of a row, with tabs between them. *)
Definition columns (l : list string) : string := String.concat tab l.

(** What [mode_vrefresh] reads of a mode. *)
Definition timing (mode : modeinfo) : drmModeModeInfo :=
  Resources.ModeInfo (m_name mode) (m_clock mode) (m_htotal mode) (m_vtotal mode) (m_hdisplay mode) (m_vdisplay mode) false.

Definition dump_mode (mode : modeinfo) (index : Z) : tprog unit :=
  print ("  #" +:+ print_d index +:+ " " +:+ m_name mode +:+ " " +:+ print_f2 (mode_vrefresh (timing mode)) +:+ " " +:+
    String.concat " " (print_d <$> [m_hdisplay mode; m_hsync_start mode; m_hsync_end mode; m_htotal mode;
      m_vdisplay mode; m_vsync_start mode; m_vsync_end mode; m_vtotal mode; m_clock mode]));;
  print " flags: ";;
  mode_flag_str (m_flags mode);;
  print "; type: ";;
  mode_type_str (m_type mode);;
  print nl.

Section Dump.
Context `{ModeCodes} `{PropKernel} `{FormatNames}.

(** The text of at most 4095 characters that the static array holds. *)
Definition modifier_to_string (modifier : Z) : string :=
  let vendor_name := drmGetFormatModifierVendor modifier in
  String.substring 0 4095
    match drmGetFormatModifierName modifier with
    | None => default "UNKNOWN_VENDOR" vendor_name +:+ "_" +:+ "UNKNOWN_MODIFIER"
    | Some modifier_name =>
        if modifier =? DRM_FORMAT_MOD_LINEAR then modifier_name
        else default "(null)" vendor_name +:+ "_" +:+ modifier_name
    end.

(** A modifier in its line. *)
Definition modifier_text (modifier : Z) : string := " " +:+ modifier_to_string modifier.

(** The loop over the pairs; [fmt] is the format of the line, 0 before the first. *)
Fixpoint in_formats_loop (fmt : Z) (pairs : list (Z * Z)) : tprog unit :=
  match pairs with
  | [] => mret tt
  | (iter_fmt, iter_mod) :: pairs =>
      when ((fmt =? 0) || negb (fmt =? iter_fmt))
        (print ((if fmt =? 0 then "" else nl) +:+ tab +:+ tab +:+ tab);; dump_fourcc iter_fmt;; print ": ");;
      print (modifier_text iter_mod);;
      in_formats_loop (if (fmt =? 0) || negb (fmt =? iter_fmt) then iter_fmt else fmt) pairs
  end.

Definition dump_in_formats (blob_id : Z) : tprog unit :=
  print (tab +:+ tab +:+ "in_formats blob decoded:" +:+ nl);;
  match drmModeGetPropertyBlob blob_id with
  | None => print nl
  | Some blob => in_hand "blob" blob_id (in_formats_loop 0 (drmModeFormatModifierBlobIter blob);; print nl)
  end.

Definition dump_prop (prop : option property) (prop_id value : Z) : tprog unit :=
  print (tab +:+ print_d prop_id);;
  match prop with
  | None => print nl
  | Some prop =>
      dump_property prop value;;
      when (String.eqb (p_name prop) "IN_FORMATS") (dump_in_formats (u32 value))
  end.

Definition dump_props (props : list (Z * Z * option property)) : tprog unit :=
  print ("  props:" +:+ nl);; each props (fun '(id, value, prop) => dump_prop prop id value).

Definition dump_encoders (encoders : list (option enc_row)) : tprog unit :=
  print ("Encoders:" +:+ nl);;
  print (columns ["id"; "crtc"; "type"; "possible crtcs"; "possible clones"; nl]);;
  each encoders (fun e =>
    match e with
    | None => mret tt
    | Some e => print (columns [print_d (en_id e); print_d (en_crtc_id e);
        default "(null)" (util_lookup_encoder_type_name (en_type e));
        "0x" +:+ hex8 (en_possible_crtcs e); "0x" +:+ hex8 (en_possible_clones e)] +:+ nl)
    end);;
  print nl.

Definition dump_connectors (connectors : list (option con_row)) : tprog unit :=
  print ("Connectors:" +:+ nl);;
  print (columns ["id"; "encoder"; "status"; ""; "name"; ""; "size (mm)"; "modes"; "encoders"] +:+ nl);;
  each connectors (fun c =>
    match c with
    | None => mret tt
    | Some c =>
        print (columns [print_d (co_id c); print_d (co_encoder_id c);
          default "(null)" (util_lookup_connector_status_name (co_connection c)); pad_right 15 (co_name c);
          print_d (co_mmWidth c) +:+ "x" +:+ print_d (co_mmHeight c); ""; dec (Z.of_nat (length (co_modes c))); ""]);;
        each_from 0 (co_encoders c) (fun j id => print ((if 0 <? j then ", " else "") +:+ print_d id));;
        print nl;;
        when (negb (length (co_modes c) =? 0)%nat) (
          print ("  modes:" +:+ nl);;
          print (tab +:+ "index name refresh (Hz) hdisp hss hse htot vdisp vss vse vtot" +:+ nl);;
          each_from 0 (co_modes c) (fun j mode => dump_mode mode j));;
        match co_props c with Some props => dump_props props | None => mret tt end
    end);;
  print nl.

Definition dump_crtcs (crtcs : list (option crtc_row)) : tprog unit :=
  print ("CRTCs:" +:+ nl);;
  print (columns ["id"; "fb"; "pos"; "size"] +:+ nl);;
  each crtcs (fun c =>
    match c with
    | None => mret tt
    | Some c =>
        print (columns [print_d (cr_id c); print_d (cr_buffer_id c);
          "(" +:+ print_d (cr_x c) +:+ "," +:+ print_d (cr_y c) +:+ ")";
          "(" +:+ print_d (cr_width c) +:+ "x" +:+ print_d (cr_height c) +:+ ")"] +:+ nl);;
        dump_mode (cr_mode c) 0;;
        match cr_props c with Some props => dump_props props | None => print ("  no properties found" +:+ nl) end
    end);;
  print nl.

Definition dump_framebuffers (fbs : list (option fb_row)) : tprog unit :=
  print ("Frame buffers:" +:+ nl);;
  print (columns ["id"; "size"; "pitch"] +:+ nl);;
  each fbs (fun fb =>
    match fb with
    | None => mret tt
    | Some fb => print (columns [print_u (fr_id fb);
        "(" +:+ print_u (fr_width fb) +:+ "x" +:+ print_u (fr_height fb) +:+ ")"; print_u (fr_pitch fb)] +:+ nl)
    end);;
  print nl.

Definition dump_planes (planes : list (option plane_row)) : tprog unit :=
  print ("Planes:" +:+ nl);;
  print (columns ["id"; "crtc"; "fb"; "CRTC x,y"; "x,y"; "gamma size"; "possible crtcs"] +:+ nl);;
  each planes (fun p =>
    match p with
    | None => mret tt
    | Some ovr =>
        print (columns [print_d (pl_id ovr); print_d (pl_crtc_id ovr); print_d (pl_fb_id ovr);
          print_d (pl_crtc_x ovr) +:+ "," +:+ print_d (pl_crtc_y ovr); "";
          print_d (pl_x ovr) +:+ "," +:+ print_d (pl_y ovr); pad_right 8 (print_d (pl_gamma_size ovr));
          "0x" +:+ hex8 (pl_possible_crtcs ovr)] +:+ nl);;
        if (length (pl_formats ovr) =? 0)%nat then mret tt
        else
          print "  formats:";;
          each (pl_formats ovr) dump_fourcc;;
          print nl;;
          match pl_props ovr with Some props => dump_props props | None => print ("  no properties found" +:+ nl) end
    end);;
  print nl.
End Dump.

(** * What the names of bits are *)

(** The names whose bits are set, from the bit [i] on. *)
Fixpoint set_names (i : Z) (names : list string) (type : Z) : list string :=
  match names with
  | [] => []
  | name :: names => if Z.testbit type i then name :: set_names (i + 1) names type else set_names (i + 1) names type
  end.

Lemma land_shiftl_testbit type i : 0 <= i -> negb (Z.land type (Z.shiftl 1 i) =? 0) = Z.testbit type i.
Proof.
  intros Hi. rewrite Z.shiftl_1_l. destruct (Z.testbit type i) eqn:Hb.
  - apply negb_true_iff, Z.eqb_neq. intros Hz. apply (f_equal (fun z => Z.testbit z i)) in Hz.
    rewrite Z.land_spec, Z.bits_0, Hb, Z.pow2_bits_true in Hz by lia. done.
  - apply negb_false_iff, Z.eqb_eq. apply Z.bits_inj'. intros j Hj. rewrite Z.land_spec, Z.bits_0.
    destruct (Z.eq_dec j i) as [->|Hne]; [by rewrite Hb|]. rewrite (Z.pow2_bits_false i j) by lia. apply andb_false_r.
Qed.

Lemma adds_nothing (c : tprog unit) : (forall t, c t = (Ok tt, t)) -> adds "" c.
Proof. intros Hc t. unfold wp. rewrite Hc. by rewrite string_app_nil. Qed.

(** The names after the first come with a comma. *)
Lemma bit_name_loop_rest i names type :
  0 <= i ->
  adds (String.concat "" ((fun name => ", " +:+ name) <$> set_names i names type)) (bit_name_loop i names type ", ").
Proof.
  revert i. induction names as [|name names IH]; intros i Hi; cbn [bit_name_loop set_names]; [by apply adds_nothing|].
  rewrite land_shiftl_testbit by done. destruct (Z.testbit type i); [|by apply IH; lia].
  cbn [fmap list_fmap]. rewrite string_concat_cons. apply adds_bind; [apply adds_print|]. by apply IH; lia.
Qed.

Lemma concat_comma name names :
  String.concat ", " (name :: names) = name +:+ String.concat "" ((fun name => ", " +:+ name) <$> names).
Proof.
  revert name. induction names as [|n names IH]; intros name; [by rewrite string_app_nil|].
  change (String.concat ", " (name :: n :: names)) with (name +:+ ", " +:+ String.concat ", " (n :: names)).
  rewrite IH. cbn [fmap list_fmap]. by rewrite string_concat_cons, string_app_assoc.
Qed.

(** The flags of a mode print as the names of the bits that are set, in the order of the
    bits, with commas between them; bits without a name are passed over. *)
Theorem mode_names_joined type :
  adds (String.concat ", " (set_names 0 mode_flag_names type)) (mode_flag_str type) /\
  adds (String.concat ", " (set_names 0 mode_type_names type)) (mode_type_str type).
Proof.
  assert (Hgo : forall names i, 0 <= i -> adds (String.concat ", " (set_names i names type)) (bit_name_loop i names type "")).
  { induction names as [|name names IH]; intros i Hi; cbn [bit_name_loop set_names]; [by apply adds_nothing|].
    rewrite land_shiftl_testbit by done. destruct (Z.testbit type i); [|by apply IH; lia].
    rewrite concat_comma. apply adds_bind; [|apply bit_name_loop_rest; lia].
    change name with ("" +:+ name) at 1. apply adds_print. }
  split; by apply Hgo.
Qed.

(** * The formats of a blob *)

Section Formats.
Context `{ModeCodes} `{PropKernel} `{FormatNames}.

(** A format with its modifiers is one line. *)
Definition group_text (g : Z * list Z) : string :=
  tab +:+ tab +:+ tab +:+ fourcc_text (fst g) +:+ ": " +:+ String.concat "" (modifier_text <$> snd g).
Definition pairs_of (g : Z * list Z) : list (Z * Z) := (fun m => (fst g, m)) <$> snd g.

(** Consecutive groups have different formats; none is 0, and none is empty. *)
Fixpoint grouped (last : Z) (gs : list (Z * list Z)) : Prop :=
  match gs with
  | [] => True
  | (fmt, mods) :: gs => fmt <> 0 /\ fmt <> last /\ mods <> [] /\ grouped fmt gs
  end.

Lemma adds_eq s s' c : s = s' -> adds s c -> adds s' c.
Proof. by intros ->. Qed.

Lemma in_formats_same fmt mods pairs s :
  fmt <> 0 -> adds s (in_formats_loop fmt pairs) ->
  adds (String.concat "" (modifier_text <$> mods) +:+ s) (in_formats_loop fmt (((fun m => (fmt, m)) <$> mods) ++ pairs)).
Proof.
  intros Hf Hs. induction mods as [|m mods IH]; [exact Hs|].
  cbn [fmap list_fmap app in_formats_loop]. rewrite (proj2 (Z.eqb_neq fmt 0)), Z.eqb_refl by done. cbn [orb negb].
  rewrite string_concat_cons, string_app_assoc.
  eapply adds_eq; [|apply adds_bind; [by apply adds_nothing|apply adds_bind; [apply adds_print|exact IH]]]. done.
Qed.

(** One group, at a line break or at the start. *)
Lemma in_formats_group last fmt mods pairs s :
  fmt <> 0 -> fmt <> last -> mods <> [] -> adds s (in_formats_loop fmt pairs) ->
  adds ((if last =? 0 then "" else nl) +:+ group_text (fmt, mods) +:+ s) (in_formats_loop last (pairs_of (fmt, mods) ++ pairs)).
Proof.
  intros Hf Hl Hm Hs. destruct mods as [|m mods]; [done|]. clear Hm.
  unfold pairs_of. cbn [fst snd fmap list_fmap app in_formats_loop].
  assert (Hnew : (last =? 0) || negb (last =? fmt) = true).
  { apply orb_true_iff. destruct (Z.eqb_spec last fmt); [congruence|by right]. }
  rewrite Hnew. cbn [when].
  eapply adds_eq; [|apply adds_bind; [apply adds_bind; [apply adds_print|apply adds_bind; [apply adds_print|apply adds_print]]|
    apply adds_bind; [apply adds_print|by apply in_formats_same]]].
  unfold group_text. cbn [fst snd fmap list_fmap]. rewrite string_concat_cons.
  by rewrite !string_app_assoc.
Qed.

(** C31: a blob whose formats come in groups is decoded to one line for each group, with the
    four letters of the format and its modifiers behind. *)
Theorem in_formats_lines gs :
  grouped 0 gs ->
  adds (String.concat nl (group_text <$> gs)) (in_formats_loop 0 (concat (pairs_of <$> gs))).
Proof.
  assert (Hgo : forall last, grouped last gs ->
    adds (String.concat "" ((fun g => (if last =? 0 then "" else nl) +:+ group_text g) <$> take 1 gs) +:+
          String.concat "" ((fun g => nl +:+ group_text g) <$> drop 1 gs)) (in_formats_loop last (concat (pairs_of <$> gs)))).
  { induction gs as [|[fmt mods] gs' IH]; intros last Hg; [by apply adds_nothing|].
    destruct Hg as (Hf & Hne & Hm & Hg). specialize (IH fmt Hg). cbn [fmap list_fmap concat].
    eapply adds_eq; [|apply in_formats_group; [done|done|done|exact IH]].
    cbn [take drop fmap list_fmap]. rewrite string_concat_cons. cbn [String.concat]. rewrite string_app_nil, string_app_assoc. do 2 f_equal.
    rewrite (proj2 (Z.eqb_neq fmt 0)) by done. destruct gs' as [|g gs']; [done|]. cbn [take drop fmap list_fmap].
    rewrite !string_concat_cons. cbn [String.concat]. by rewrite string_app_nil. }
  assert (Hs : forall g gs, group_text g +:+ String.concat "" ((fun g => nl +:+ group_text g) <$> gs) =
    String.concat nl (group_text <$> g :: gs)).
  { clear. intros g gs. revert g. induction gs as [|g' gs IH]; intros g; [by rewrite string_app_nil|].
    cbn [fmap list_fmap]. rewrite string_concat_cons, string_app_assoc, IH. done. }
  intros Hg. eapply adds_eq; [|by apply Hgo]. destruct gs as [|g gs]; [done|]. rewrite <- Hs.
  change (drop 1 (g :: gs)) with gs. cbn [take fmap list_fmap].
  rewrite string_concat_cons. cbn [Z.eqb]. by rewrite string_nil_app, string_app_nil.
Qed.
End Formats.

(** * What the listings take *)

Section Settled.
Context `{ModeCodes} `{PropKernel} `{FormatNames}.

(** A table of properties with one that is not what its type says. *)
Definition bad_table (props : prop_table) : Prop :=
  exists id value prop, (id, value, Some prop) ∈ default [] props /\ ~ consistent prop.

Lemma settles_bit_names bad i names type sep : settles bad (bit_name_loop i names type sep).
Proof. revert i sep. induction names as [|name names IH]; intros i sep; cbn [bit_name_loop]; settles; apply IH. Qed.

Lemma settles_dump_mode bad mode index : settles bad (dump_mode mode index).
Proof. unfold dump_mode, mode_flag_str, mode_type_str. settles; apply settles_bit_names. Qed.

Lemma settles_in_formats bad fmt pairs : settles bad (in_formats_loop fmt pairs).
Proof.
  revert fmt. induction pairs as [|[f m] pairs IH]; intros fmt; cbn [in_formats_loop]; [settles|].
  unfold dump_fourcc. settles. apply IH.
Qed.

Lemma settles_dump_props bad (props : list (Z * Z * option property)) :
  (forall e, bad_table (Some props) -> bad e) -> settles bad (dump_props props).
Proof.
  intros Hb. unfold dump_props. settles. match goal with Hin : ?a ∈ props |- _ => destruct a as [[id value] [prop|]] end.
  - unfold dump_prop. settles.
    + intros t. eapply wp_mono; [apply settles_dump_property|]. intros [[]|e] t' Ht; [done|]. apply Hb. exists id, value, prop. split; [assumption|exact Ht].
    + unfold dump_in_formats. settles. destruct (drmModeGetPropertyBlob (u32 value)); settles. apply settles_in_formats.
  - unfold dump_prop. settles.
Qed.
End Settled.

(** The listings come to their end and give back every blob they have got, unless a
    connector, a CRTC or a plane that is listed has a property that is not what its type says;
    objects that are not there are passed over. *)
Theorem modetest_listings_settle `{ModeCodes} `{PropKernel} `{FormatNames} es cs xs fs ps :
  settles (fun _ => False) (dump_encoders es) /\
  settles (fun _ => exists c, Some c ∈ cs /\ bad_table (co_props c)) (dump_connectors cs) /\
  settles (fun _ => exists c, Some c ∈ xs /\ bad_table (cr_props c)) (dump_crtcs xs) /\
  settles (fun _ => False) (dump_framebuffers fs) /\
  settles (fun _ => exists p, Some p ∈ ps /\ bad_table (pl_props p)) (dump_planes ps).
Proof.
  split_and!.
  - unfold dump_encoders. settles. match goal with |- context [match ?e with Some _ => _ | None => _ end] => destruct e end; settles.
  - unfold dump_connectors. settles.
    match goal with Hin : ?a ∈ cs |- _ => destruct a as [c|] eqn:Hc end; settles; [apply settles_dump_mode|].
    destruct (co_props c) as [props|] eqn:Hp; settles. apply settles_dump_props. intros _ Hbad. exists c. by rewrite Hp.
  - unfold dump_crtcs. settles.
    match goal with Hin : ?a ∈ xs |- _ => destruct a as [c|] eqn:Hc end; settles; [apply settles_dump_mode|].
    destruct (cr_props c) as [props|] eqn:Hp; settles. apply settles_dump_props. intros _ Hbad. exists c. by rewrite Hp.
  - unfold dump_framebuffers. settles. match goal with |- context [match ?e with Some _ => _ | None => _ end] => destruct e end; settles.
  - unfold dump_planes. settles.
    match goal with Hin : ?a ∈ ps |- _ => destruct a as [p|] eqn:Hc end; settles; [apply settles_print|].
    destruct (pl_props p) as [props|] eqn:Hp; settles. apply settles_dump_props. intros _ Hbad. exists p. by rewrite Hp.
Qed.

(** A plane without formats is listed without its properties. *)
Theorem plane_without_formats `{ModeCodes} `{PropKernel} `{FormatNames} p :
  pl_formats p = [] ->
  dump_planes [Some p] = dump_planes [Some (PlaneRow (pl_id p) (pl_crtc_id p) (pl_fb_id p) (pl_crtc_x p) (pl_crtc_y p)
    (pl_x p) (pl_y p) (pl_gamma_size p) (pl_possible_crtcs p) [] None)].
Proof. intros Hf. unfold dump_planes. cbn [each]. by rewrite Hf. Qed.

(** Two formats, and a plane. *)
Module Sample.
#[export] Instance codes : ModeCodes.
Proof. refine {| mode_code c := mode_index c |}. intros []; cbn; lia. Defined.
#[export] Instance names : FormatNames := {|
  drmGetFormatModifierName m := if m =? 0 then Some "LINEAR"%string else if m =? 1 then Some "X_TILED"%string else None;
  drmGetFormatModifierVendor m := if m =? 1 then Some "INTEL"%string else None;
  DRM_FORMAT_MOD_LINEAR := 0;
  drmModeFormatModifierBlobIter blob := [] |}.
#[export] Instance blobs : PropKernel := {|
  drmModeGetPropertyBlob id := None; drm_property_type_is prop type := false;
  DRM_MODE_PROP_PENDING := 1; DRM_MODE_PROP_IMMUTABLE := 4 |}.

(** XR24 and NV12. *)
Definition gs : list (Z * list Z) := [(875713112, [0; 1]); (842094158, [0; 9])].
Lemma in_formats_lines_witness :
  grouped 0 gs /\
  text (snd (in_formats_loop 0 (concat (pairs_of <$> gs)) [])) =
    (tab +:+ tab +:+ tab +:+ " XR24:  LINEAR INTEL_X_TILED" +:+ nl +:+
     tab +:+ tab +:+ tab +:+ " NV12:  LINEAR UNKNOWN_VENDOR_UNKNOWN_MODIFIER")%string /\
  adds (String.concat nl (group_text <$> gs)) (in_formats_loop 0 (concat (pairs_of <$> gs))).
Proof.
  assert (Hg : grouped 0 gs) by (cbn; split_and!; done). split; [exact Hg|]. split; [vm_compute; reflexivity|].
  exact (in_formats_lines gs Hg).
Defined.

Definition bare_plane : plane_row := PlaneRow 31 0 0 0 0 0 0 0 1 [] (Some [(7, 0, None)]).
Lemma plane_without_formats_witness :
  pl_props bare_plane = Some [(7, 0, None)] /\
  dump_planes [Some bare_plane] = dump_planes [Some (PlaneRow 31 0 0 0 0 0 0 0 1 [] None)].
Proof. split; [reflexivity|]. exact (plane_without_formats bare_plane eq_refl). Defined.

(** 1024x768 at 60 Hz. *)
Example mode_line :
  text (snd (dump_mode (Modeprint.ModeInfo "1024x768" 65000 1024 1048 1184 1344 0 768 771 777 806 0 60 10 72) 0 [])) =
    ("  #0 1024x768 60.00 1024 1048 1184 1344 768 771 777 806 65000 flags: nhsync, nvsync; type: preferred, driver" +:+ nl)%string.
Proof. vm_compute. reflexivity. Qed.
End Sample.
