(* ===== verification/KmsTest.v ===== *)
(** drm/kmstest/main.c: the test of libkms, which is the parameter [Libkms].  The calls are kept
    in the log of Props.v: the card, the driver object and the buffer are got and given back. *)
From Stdlib Require Import ZArith Lia Ascii String.
From stdpp Require Import base list numbers sets strings.
From S2P Require Import Prelude Libc Print Props.

#[global] Open Scope Z_scope.

(** [open] on the card, [kms_create] on its descriptor, and [kms_bo_create] with the attributes
    width, height and type; negative results are errors. *)
Class Libkms := { k_open : Z; kms_create : Z -> Z; kms_bo_create : Z -> Z -> Z -> Z; KMS_BO_TYPE_SCANOUT_X8R8G8B8 : Z }.

Section KmsTest.
Context `{Libkms}.

(** [CHECK_RET_RETURN]: what it prints; the reason is left out. *)
Definition complain (func str : string) : tprog unit := print (func +:+ ": " +:+ str +:+ nl).

Definition test_bo : tprog Z :=
  let ret := kms_bo_create 480 800 KMS_BO_TYPE_SCANOUT_X8R8G8B8 in
  if ret <? 0 then complain "test_bo" "Could not create bo";; mret ret
  else
    emit (Got "bo" 0);;
    emit (Freed "bo" 0);;
    mret 0.

(** What [getopt] gives for "D:M:". *)
Inductive opt := Opt_D (device : string) | Opt_M (module : string) | Opt_other.

(** The options; [None]: the usage was printed, and the program returns 0. *)
Fixpoint parse_opts (opts : list opt) (device module : option string) : option (option string * option string) :=
  match opts with
  | [] => Some (device, module)
  | Opt_D d :: opts => parse_opts opts (Some d) module
  | Opt_M m :: opts => parse_opts opts device (Some m)
  | Opt_other :: _ => None
  end.

Definition main (opts : list opt) : tprog Z :=
  match parse_opts opts None None with
  | None => warn "Usage:";; mret 0
  | Some (device, module) =>
      let fd := k_open in
      if fd <? 0 then complain "main" "Could not open device";; mret fd
      else
        emit (Got "fd" fd);;
        let ret := kms_create fd in
        if ret <? 0 then complain "main" "Failed to create kms driver";; mret ret
        else
          emit (Got "kms" 0);;
          ret ← test_bo;
          if negb (ret =? 0) then emit (Freed "kms" 0);; mret ret
          else
            print ("main: All ok!" +:+ nl);;
            emit (Freed "kms" 0);;
            mret 0
  end.

(** Without an unknown option the test of libkms returns the first error, or 0, and says that
    all is well exactly then; it gives back the buffer and the driver object, and leaves the card
    open whenever it has opened it. *)
Theorem kmstest_result opts t :
  Opt_other ∉ opts ->
  wp (main opts) t (fun o t' => exists new, t' = new ++ t /\
    o = Ok (if k_open <? 0 then k_open else if kms_create k_open <? 0 then kms_create k_open
            else Z.min 0 (kms_bo_create 480 800 KMS_BO_TYPE_SCANOUT_X8R8G8B8)) /\
    (o = Ok 0 <-> Printed ("main: All ok!" +:+ nl) ∈ new) /\
    forall held, held_after held (rev new) = Some (if k_open <? 0 then held else ("fd"%string, k_open) :: held)).
Proof.
  intros Hopts. unfold main. assert (Hp : exists dm, parse_opts opts None None = Some dm).
  { generalize (@None string) at 1 as d. generalize (@None string) as m. induction opts as [|[d'|m'|] opts IH]; intros m d; cbn.
    - by eexists.
    - apply IH. set_solver.
    - apply IH. set_solver.
    - set_solver. }
  destruct Hp as [[device module] ->]. cbv zeta. unfold test_bo, complain, print, emit.
  destruct (Z.ltb_spec k_open 0); [repeat wstep; eexists [_]; split_and!; try done; split; [intros [= ?]; lia|set_solver]|].
  do 2 wstep. destruct (Z.ltb_spec (kms_create k_open) 0).
  { repeat wstep. eexists [_; _]. split_and!; try done. split; [intros [= ?]; lia|set_solver]. }
  do 3 wstep. destruct (Z.ltb_spec (kms_bo_create 480 800 KMS_BO_TYPE_SCANOUT_X8R8G8B8) 0) as [Hb|Hb].
  - repeat wstep. rewrite (proj2 (Z.eqb_neq _ 0)) by lia. cbn [negb]. repeat wstep. eexists [_; _; _; _].
    split_and!; [done|f_equal; lia| |intros held; cbn; by rewrite decide_True]. split; [intros [= ?]; lia|set_solver].
  - repeat wstep. eexists [_; _; _; _; _; _]. split_and!; [done|f_equal; lia| |].
    + split; [intros _; set_solver|done].
    + intros held. cbn. by rewrite !decide_True.
Qed.
End KmsTest.

Module Card.
#[export] Instance libkms : Libkms := {|
  k_open := 3; kms_create _ := 0; kms_bo_create _ _ _ := -12; KMS_BO_TYPE_SCANOUT_X8R8G8B8 := 1 |}.
Lemma kmstest_result_witness :
  fst (main [Opt_D "/dev/dri/card1"] []) = Ok (-12) /\
  wp (main [Opt_D "/dev/dri/card1"]) [] (fun o t' => exists new, t' = new ++ [] /\
    o = Ok (if k_open <? 0 then k_open else if kms_create k_open <? 0 then kms_create k_open
            else Z.min 0 (kms_bo_create 480 800 KMS_BO_TYPE_SCANOUT_X8R8G8B8)) /\
    (o = Ok 0 <-> Printed ("main: All ok!" +:+ nl) ∈ new) /\
    forall held, held_after held (rev new) = Some (if k_open <? 0 then held else ("fd"%string, k_open) :: held)).
Proof.
  split; [vm_compute; reflexivity|]. apply (kmstest_result [Opt_D "/dev/dri/card1"] []). by apply not_elem_of_cons; split; [|apply not_elem_of_nil].
Defined.
End Card.
