(* ===== verification/Modules.v ===== *)
(** The kernel modules as a whole: what loading and unloading a test module does to the driver
    core, for realtek-gpio-test.c, dmac.c, dmac_multi.c, rtk_rcc_test.c and i2c-slave.c; and the
    probe of dmac.c. *)
From Stdlib Require Import ZArith Lia String.
From stdpp Require Import base list numbers strings.
From S2P Require Import Prelude Libc GpioTest Dmac.

#[global] Open Scope Z_scope.

(** * Driver tables *)

(** The name of a driver, and the devices it is for. *)
Record driver := Driver { driver_name : string; of_match_table : list string }.
#[global] Instance driver_eq_dec : EqDecision driver.
Proof. solve_decision. Defined.

Definition rtk_gpio_test_driver : driver := Driver "gpio-dev" ["realtek,ameba-gpio-test"].
Definition rtk_dma_test_driver : driver := Driver "ameba-dma-test" ["realtek,ameba-rtk-dmac-test"].
Definition rtk_multi_dma_test_driver : driver := Driver "ameba-dma-multi-test" ["realtek,ameba-rtk-dmac-multi-test"].
Definition rtk_rcc_test_driver : driver := Driver "rtk-rcc-test" ["realtek,ameba-rcc-test"].
Definition rtk_i2c_slave_test_driver : driver := Driver "realtek,ameba-rtk-i2c" ["realtek,ameba-i2c-slave-test"].

(** * Loading and unloading *)

(** What the driver core was asked for, newest first. *)
Inductive core_call := Register (d : driver) (ret : Z) | Unregister (d : driver).

(** The result of a registration, of a platform driver or of an I2C driver. *)
Class DriverCore := { k_register : list core_call -> driver -> Z }.

(** It is 0 or an error number. *)
Class DriverCoreLaws `(C : DriverCore) : Prop :=
  register_result l d : k_register l d = 0 \/ - 4095 <= k_register l d < 0.

Section Modules.
Context `{DriverCore}.

Definition driver_register (d : driver) : prog (list core_call) Z :=
  l ← get; let ret := k_register l d in modify (cons (Register d ret));; mret ret.
Definition driver_unregister (d : driver) : prog (list core_call) unit := modify (cons (Unregister d)).

(** An error number, taken for a pointer of 32 bits. *)
Definition IS_ERR_VALUE (x : Z) : bool := 2 ^ 32 - 4095 <=? u32 x.

Definition rtk_gpio_test_init : prog (list core_call) Z :=
  ret ← driver_register rtk_gpio_test_driver;
  if IS_ERR_VALUE ret then mret (- EINVAL) else mret 0.
Definition rtk_gpio_test_exit : prog (list core_call) unit := driver_unregister rtk_gpio_test_driver.

Definition rtk_dmac_test_init : prog (list core_call) Z := _ ← driver_register rtk_dma_test_driver; mret 0.
Definition rtk_dmac_test_exit : prog (list core_call) unit := driver_unregister rtk_dma_test_driver.

Definition rtk_multi_dmac_test_init : prog (list core_call) Z := _ ← driver_register rtk_multi_dma_test_driver; mret 0.
Definition rtk_multi_dmac_test_exit : prog (list core_call) unit := driver_unregister rtk_multi_dma_test_driver.

Definition rtk_rcc_test_init : prog (list core_call) Z := _ ← driver_register rtk_rcc_test_driver; mret 0.
Definition rtk_rcc_test_exit : prog (list core_call) unit := driver_unregister rtk_rcc_test_driver.

(** What [module_i2c_driver] stands for. *)
Definition i2c_slave_init : prog (list core_call) Z := driver_register rtk_i2c_slave_test_driver.
Definition i2c_slave_exit : prog (list core_call) unit := driver_unregister rtk_i2c_slave_test_driver.

Inductive test_module := GpioModule | DmacModule | MultiModule | RccModule | I2cSlaveModule.
Definition driver_of (m : test_module) : driver :=
  match m with
  | GpioModule => rtk_gpio_test_driver | DmacModule => rtk_dma_test_driver | MultiModule => rtk_multi_dma_test_driver
  | RccModule => rtk_rcc_test_driver | I2cSlaveModule => rtk_i2c_slave_test_driver
  end.
Definition init_of (m : test_module) : prog (list core_call) Z :=
  match m with
  | GpioModule => rtk_gpio_test_init | DmacModule => rtk_dmac_test_init | MultiModule => rtk_multi_dmac_test_init
  | RccModule => rtk_rcc_test_init | I2cSlaveModule => i2c_slave_init
  end.
Definition exit_of (m : test_module) : prog (list core_call) unit :=
  match m with
  | GpioModule => rtk_gpio_test_exit | DmacModule => rtk_dmac_test_exit | MultiModule => rtk_multi_dmac_test_exit
  | RccModule => rtk_rcc_test_exit | I2cSlaveModule => i2c_slave_exit
  end.

(** A module is loaded when its init returns 0; only then it can be unloaded. *)
Definition load_unload (m : test_module) : prog (list core_call) unit :=
  ret ← init_of m; when (ret =? 0) (exit_of m).
End Modules.

(** How often a driver is registered; negative when it was taken back more often than it was
    registered. *)
Fixpoint registrations (d : driver) (l : list core_call) : Z :=
  match l with
  | [] => 0
  | Register d' ret :: l => (if bool_decide (d' = d) && (ret =? 0) then 1 else 0) + registrations d l
  | Unregister d' :: l => (if bool_decide (d' = d) then - 1 else 0) + registrations d l
  end.

(** The modules that look at the result of the registration. *)
Definition looks (m : test_module) : bool := match m with GpioModule | I2cSlaveModule => true | _ => false end.

Lemma err_value_negative r : r = 0 \/ - 4095 <= r < 0 -> IS_ERR_VALUE r = negb (r =? 0).
Proof.
  intros [->|Hr]; [done|]. unfold IS_ERR_VALUE, u32, wrap.
  replace (r mod 2 ^ 32) with (r + 2 ^ 32) by (symmetry; rewrite <- (Z_mod_plus_full r 1); apply Z.mod_small; lia).
  rewrite (proj2 (Z.eqb_neq r 0)) by lia. apply Z.leb_le. lia.
Qed.

Lemma wp_register `{DriverCore} d l (Q : outcome Z -> list core_call -> Prop) :
  Q (Ok (k_register l d)) (Register d (k_register l d) :: l) -> wp (driver_register d) l Q.
Proof. intros HQ. unfold driver_register. do 4 wstep. exact HQ. Qed.

(** Loading a test module and unloading it again leaves its driver registered as often as
    before, for the GPIO and I2C modules whatever the driver core answers; the DMA and clock
    modules do not look at the result of the registration, and take a driver back that was
    never registered when it has failed. *)
Theorem modules_balanced `{DriverCoreLaws} m l :
  wp (load_unload m) l (fun o l' => o = Ok tt /\
    registrations (driver_of m) l' - registrations (driver_of m) l =
      (if looks m || (k_register l (driver_of m) =? 0) then 0 else -1)).
Proof.
  pose proof (register_result l (driver_of m)) as Hr.
  assert (Hcount : forall ret, registrations (driver_of m) (Unregister (driver_of m) :: Register (driver_of m) ret :: l) -
    registrations (driver_of m) l = (if ret =? 0 then 0 else -1)).
  { intros ret. cbn. rewrite !bool_decide_true by done. cbn. destruct (ret =? 0); lia. }
  assert (Hfail : forall ret, ret <> 0 -> registrations (driver_of m) (Register (driver_of m) ret :: l) - registrations (driver_of m) l = 0).
  { intros ret Hn. cbn. rewrite (proj2 (Z.eqb_neq ret 0)), andb_false_r by done. lia. }
  unfold load_unload. destruct m; cbn [init_of exit_of driver_of looks orb] in *; wstep;
    unfold rtk_gpio_test_init, rtk_dmac_test_init, rtk_multi_dmac_test_init, rtk_rcc_test_init, i2c_slave_init; try wstep;
    apply wp_register; cbn [next].
  - rewrite err_value_negative by done. destruct (Z.eqb_spec (k_register l rtk_gpio_test_driver) 0) as [Hz|Hz]; cbn [negb]; wstep.
    + split; [done|]. by rewrite Hcount, Hz.
    + split; [done|]. by apply Hfail.
  - wstep. split; [done|]. apply Hcount.
  - wstep. split; [done|]. apply Hcount.
  - wstep. split; [done|]. apply Hcount.
  - destruct (Z.eqb_spec (k_register l rtk_i2c_slave_test_driver) 0) as [Hz|Hz]; cbn [when].
    + split; [done|]. by rewrite Hcount, Hz.
    + split; [done|]. by apply Hfail.
Qed.

(** * The probe of dmac.c *)

Section Probe.
Context `{DmaKernel}.

(** The table has one entry; [of_id] is the name of the entry that [of_match_device] has found. *)
Definition is_ours (of_id : option string) : bool :=
  match of_id, of_match_table rtk_dma_test_driver with
  | Some name, first :: _ => String.eqb name first
  | _, _ => false
  end.

Definition test_verdict (ret : Z) : string := if ret =? RTK_DMAC_TEST_SUCCESS then "PASS" else "FAIL".

(** The mode is always RTK_DMAC_TEST_AUTO, and there are five rounds; [st] is
    [dma_cyclic_status] before.  The results: the verdict that is printed, the state it leaves, and
    what the probe returns. *)
Inductive rtk_dma_test_probe (of_id : option string) (st : Z) : option string -> dma -> Z -> Prop :=
| probe_other_device : is_ours of_id = false -> rtk_dma_test_probe of_id st None (dma_start st) 0
| probe_tests w ret : is_ours of_id = true -> dma_run 5 (dma_start st) w -> at_pc w = Returned ret ->
    rtk_dma_test_probe of_id st (Some (test_verdict ret)) w 0.

(** After the module was loaded, PASS is printed only for a run in which the first four of the
    five rounds have passed, and which has given up its channel and buffers.  The probe returns 0 in
    any case. *)
Theorem dma_probe_pass of_id verdict w ret :
  rtk_dma_test_probe of_id RTK_DMAC_TEST_SUCCESS (Some verdict) w ret ->
  ret = 0 /\ (verdict = "PASS"%string ->
    (forall k, 1 <= k < 5 -> exists pre post, rounds w = pre ++ Started (k + 1) :: Passed :: post /\ last_started post = k) /\
    chan w = false /\ buffers w = false).
Proof.
  inversion 1 as [|w' r Hours Hrun Hat]; subst. split; [done|]. intros Hv.
  assert (r = RTK_DMAC_TEST_SUCCESS) as ->.
  { unfold test_verdict in Hv. destruct (Z.eqb_spec r RTK_DMAC_TEST_SUCCESS); done. }
  destruct (run_inv 5 w Hrun) as (Hr & Hs & _ & _ & Hi). unfold pc_inv in Hi. rewrite Hat in Hi.
  destruct Hi as [_ Hi]. destruct (Hi eq_refl) as (Hl & Hl1 & _ & Hb & Hc & _). split_and!; [|done|done].
  intros k Hk. apply rounds_passed; [done|]. rewrite Hl. exact Hk.
Qed.
End Probe.

Definition rtk_dma_test_remove : Z := 0.

(** A driver core that has room for nothing, and one that has. *)
Definition full_core : DriverCore := {| k_register _ _ := -12 |}.
Lemma full_core_laws : DriverCoreLaws full_core.
Proof. intros l d. right. cbn. lia. Qed.

Lemma modules_balanced_witness :
  wp (@load_unload full_core RccModule) [] (fun o l' => o = Ok tt /\
    registrations (driver_of RccModule) l' - registrations (driver_of RccModule) [] = -1).
Proof. exact (@modules_balanced full_core full_core_laws RccModule []). Defined.
